(* ===== verification/_CoqProject ===== *)
-Q . S2P
Prelude.v
Protocol.v
Rbac.v
RateLimit.v
Base64.v
Sha256.v
Password.v
AuthStore.v
Sessions.v
Mfa.v
AuthService.v
Device.v
Enrollment.v
AuditLog.v
Metrics.v
Monitoring.v
Alerting.v
Messages.v
Codec.v
Hub.v
AgentSession.v
NetMetrics.v
Relay.v
RemoteSession.v
AgentUpdate.v
ReleaseSign.v
AgentRelease.v
AgentCore.v
Settings.v
Support.v
Config.v
Customers.v
Notify.v
Help.v
Migrate.v
Paths.v
ServeMux.v
Flags.v
Host.v
LinuxProvider.v
WindowsProvider.v
HostInfo.v
Server.v
HttpDevices.v
HttpRemote.v
HttpSessions.v
HttpAdmin.v
Api.v
Routes.v
ApiSafety.v
AgentEnroll.v
Guarantee.v
ApiGuarantee.v
Startup.v
AgentMain.v
TunnelHelper.v
Wiring.v
System.v
EndToEnd.v
