(* ===== verification/Prelude.v ===== *)
(** * WartungsRemote: a verification of the server and agent core

    WartungsRemote is a remote-maintenance system.  Agents on customer machines
    hold an authenticated WebSocket to a central server ([wr-core]); people use
    the server's HTTP API from a browser to see devices, run commands, open
    terminals and tunnels, move files and update the agents.  The server keeps
    its state in PostgreSQL; the agent keeps an identity, a policy, a queue of
    traffic samples and its own binary on disk.

    ** Files and the code they model (paths under [src/])

    Shared ground
    - [Prelude]: bytes, times, 64-bit wrap-around, the program monad [M] with
      its reasoning rules [always], [effect] and [ideal], [reachable], list and
      map lemmas, hint databases and tactics.
    - [Protocol], [Messages] ([internal/protocol]): envelopes, binary stream
      frames, message vocabulary and payloads.  [Codec] is a concrete codec that
      satisfies the laws asked of [encoding/json].
    - [Base64], [Sha256]: executable [encoding/base64], [encoding/hex] and
      [crypto/sha256]; [Paths], [ServeMux], [Flags]: [filepath.Clean], the
      pattern matching of [http.ServeMux] and the [flag] package.

    Accounts ([internal/auth])
    - [Rbac] (rbac.go, permissions.go), [RateLimit] (ratelimit.go), [Password]
      (password.go), [AuthStore] (repo.go), [Sessions] (session.go), [Mfa]
      (totp.go), [AuthService] (service.go, middleware.go and
      [httpapi/handlers_auth.go]).

    Devices
    - [Device] and [Metrics] ([internal/device]), [Enrollment]
      ([internal/enrollment]), [Monitoring] ([internal/monitoring]), [Alerting]
      ([internal/alerting]), [Notify] ([internal/notify]), [Customers]
      ([internal/customer]), [AuditLog] ([internal/audit]).

    The channel between server and agent
    - [Hub] ([internal/controlhub/hub.go]), [Relay] ([internal/relay]),
      [RemoteSession] ([internal/remotesession], [internal/maintenance] and the
      router's hub callbacks).

    The agent
    - [AgentSession] (identity and handshake), [AgentCore] (commands, sessions,
      transfers, heartbeat, reconnect), [AgentEnroll] (enroll.go) of
      [internal/agentcore]; [NetMetrics] ([internal/netmetrics]); [AgentUpdate]
      ([internal/agentupdate], [agentcore/update.go], the marker code of
      [cmd/wr-agent]); [AgentMain] (the program [cmd/wr-agent]: paths,
      configuration, log file, start-up sequence).
    - [Host] (the machine the providers act on), [LinuxProvider],
      [WindowsProvider] (files, services, processes, logs, support account;
      the Windows credential store), [HostInfo] (inventory, metrics, process
      lists, journal, terminal of both) of [internal/platform].
    - [ReleaseSign] (the Linux credential store, and the offline tool
      [cmd/wr-release-sign]); [TunnelHelper] (the technician's [cmd/wr-helper]).

    Around the server
    - [AgentRelease] ([internal/agentrelease]), [Settings]
      ([internal/appsettings]), [Support] ([internal/support],
      [internal/platform/password.go]), [Config] ([internal/config],
      [internal/netutil]), [Help] ([internal/help]), [Migrate]
      ([internal/db/migrate.go]); [Startup] (the start-up part of
      [httpapi/router.go], [internal/db/db.go] and the program [cmd/wr-core]);
      [AgentEnroll] also holds [create-admin] ([cmd/wr-core/createadmin.go]).

    The HTTP API ([internal/httpapi])
    - [Server]: the state of all repositories together, the environment of a
      request, the access checks; [HttpDevices], [HttpRemote], [HttpSessions],
      [HttpAdmin]: one definition per handler; [Api]: the protected routes as
      requests behind the CSRF and session checks; [Routes]: the two listeners
      from the raw method, path, query and body on, with the route tables of
      [router.go] and the security headers; [ApiSafety]: what follows for
      whole requests.

    The server as a whole
    - [Wiring]: the callbacks and sweeps that [NewRouter] connects the
      components with, as programs over the whole server; [deliver] carries out
      what the components asked of each other.
    - [System]: the life of the server as the relation [evolves]: requests on
      both listeners, handshakes, messages and disconnects of agents, every
      sweep, [create-admin] and restarts.  [Guarantee] is the relation [keeps]
      that each component's operations stay within, and [ApiGuarantee] shows it
      for every handler.
    - [EndToEnd]: the server and an agent as one.  The agent hears what the hub
      sent on its connection and executes it with [AgentCore]; the hub reads
      what the agent wrote ([wire]) and hands it to the handler that waits or,
      for stream frames, to the relay.

    ** How the code is modelled

    - A repository is a record of tables ([gmap] from key to row); a method is a
      program in [M S E], one [mstmt] (or [mquery], [mexec]) per SQL statement.
      Every statement may fail: a world carries a schedule of faults, and
      [always m Q s] quantifies over all of them.  A transaction ([mtx]) keeps
      its effects only if body and commit succeed.  A violated unique or foreign
      key is a failed statement.  [run] and [ideal] are the fault-free run.
    - Go's early returns are errors of the monad; [mtry] and [mignore] are
      [err := f()] looked at or dropped.
    - An [int] or [int64] is a [Z] with [wrap64] where the code can overflow.
      Times are nanoseconds; [time.Now()] is an argument, one reading per
      request, or [now] and [later] where the code reads the clock twice.  The
      microsecond rounding of [timestamptz] is modelled in [AuditLog], where the
      hash depends on it.
    - Goroutines interleave as the steps of a relation ([hub_step], [relay_step],
      [registry_step], [auth_step], ...), and invariants hold in every state
      that is [reachable].  The hub's steps end where [h.mu] is released: a
      connection that was taken out of the map and not cancelled yet, or whose
      goroutine has not returned yet, is part of the state ([hub_run]).  In a
      handler that waits for an agent, [en_others] is what other goroutines did
      to the server meanwhile.
    - Both ends of the control connection read at most 1 MiB per message
      ([too_long]); a larger one makes the read fail.  The body of a download is
      bounded by the Content-Length, as [net/http] does it ([over]).
    - JSON and columns are not assumed to keep every value: [json_faithful] is
      asked only of the values and messages a theorem is about ([sendable]), and
      an audit row is what PostgreSQL's [inet] and [jsonb] give back of what was
      recorded ([stored]), whatever they do to it.
    - The components' relations ([audit_le], [auth_rel], [reg_rel],
      [keeps_unique], [keeps_signed]) are preorders that every operation
      respects, whatever fails; [keeps] is their conjunction over the whole
      server, so [evolves_keeps] lifts each to any sequence of steps.  A crash
      is a run whose later statements all fail, followed by a restart.
    - Calls out of the program (an agent's answer, a command on the host, a
      message to Telegram) are functions given as parameters and traces of what
      was asked for.
    - Code that is not in the repository is a parameter with the laws it
      documents, as type classes with instances that show they can hold:
      [UuidText], [Json], Ed25519, argon2id, AES-GCM, TOTP, [net/netip], YAML,
      the HTTP client.

    ** What the theorems show

    - Access: whatever bytes a client sends to the admin listener, nothing but
      the open endpoints has an effect before the CSRF, session and permission
      checks of its route ([no_way_around], over [api_complete_mediation]);
      irreversible operations need a fresh re-authentication; a disabled user, a revoked
      session and a revoked device are locked out; login cannot skip the second
      factor; sessions and privileges end in time; a rate limiter admits a
      call exactly if fewer than the limit were admitted in the window before,
      so refused attempts never prolong a refusal.
    - Accountability: through the whole life of the server the audit log only
      grows by [Record], and [VerifyChain] finds it intact up to the first
      record that a column stored in another spelling ([system_audit_trail]);
      an altered record is found unless two different inputs of the hash that
      occur in the two logs collide ([audit_chain_binding]).
    - The whole server over its life: what is revoked stays revoked
      ([revocation_is_final]), what works once works once ([one_time_secrets]),
      alerts stay unique, only signed releases are offered, and a lost agent
      leaves no session, maintenance record or stream open
      ([lost_agent_settled]).
    - Devices: enrolment is one transaction and a token enrols once; an agent
      that enrols is recognised by the hub and gets in with what it stored
      ([enrolled_agent_gets_in]); the two sides of the handshake meet, and the
      hub accepts only the holder of the key; one connection per device, at any
      point between two critical sections; an answer goes to its request.
    - Data: traffic samples are not lost between agent and server; alerts follow
      their conditions and are not duplicated; frames decode exactly and are
      relayed to their own stream only, in order, and all of them as long as its
      channel is never full; an upload that ends normally replaces the file in
      one step, and one that breaks off leaves the old file or what had been
      written of the new one ([uploads_atomic]).
    - Software: only signed binaries are ever run, through failing file
      operations, crashes and roll-backs; as long as no file operation fails
      they refine a life cycle of two phases (settled, on trial); what the
      signing tool signs is accepted; migrations run once and in order.
    - Start-up: the server listens only with a validated configuration and a
      fully migrated database ([serves_only_when_ready]), and a restart leaves
      no session, ticket or connection half open; an installed service loads
      the configuration it was installed with; the agent serves only as the
      identity in its store and under the policy of its file.
    - The agent's local policy holds against the server, and each command is
      answered once, after exactly the action it stands for and with that
      action's outcome ([command_answered_once]); a tunnel delivers the bytes it
      is given, in order, and loses at most what the one failed write held.
    - End to end: a request that acts on a customer's machine performs exactly
      that action there if the local policy permits it, and the browser gets
      its outcome ([remote_action_is_local]); an uploaded file is on the machine
      and closed when the browser is told so ([upload_end_to_end]); a downloaded
      file is the file the agent read, up to the announced size and as long as
      the server keeps up with its frames ([download_end_to_end]).

    Each theorem about results states that the result is reached: programs are
    total functions, so [always] speaks about an actual outcome.

    Recursion that follows no data carries fuel: decimal rendering
    ([Password.dec_aux]: 20 digits, enough for 64 bits), trimming and the scans
    of [Help] (the length of the text: every round takes a byte), and the upload
    loop of [NetMetrics] (any amount, with [upload_drains] showing that one turn
    per 500 buffered rows plus one is enough).

    Other theorems record where the code does less than it means to: among them
    [audit_truncation_undetected], [mfa_setup_ignores_lockout],
    [sustained_load_missed], [lost_device_never_offline],
    [interrupted_session_revived], [swap_can_lose_binary],
    [scoped_admin_creates_super_admin], [aborted_upload_truncates],
    [listener_error_lost], [release_key_not_passed], [config_spelling_ignored],
    [broken_config_never_rolls_back], [failed_upload_loses_target],
    [stop_reports_success_while_running], [support_admin_never_granted],
    [level_filter_incomplete], [optical_drive_counts_as_fixed],
    [long_line_truncates], [upload_confirmation_lost],
    [slow_download_loses_data], [zero_size_download_empty],
    [oversized_message_unread], [address_spelling_breaks_chain].

    ** Not modelled

    The callbacks of the service manager library and signals; the byte streams
    of pseudo terminals (pass-through calls of the PTY libraries); the random
    jitter of the agent's back-off; the tickers that call the sweeps, which are
    sequences of sweeps here; the text of JSON, HTML templates and log
    messages; the web console.

    In [evolves] a step is a whole request, message or sweep, except where a
    handler waits for an agent; finer interleavings are in the components' own
    step relations ([hub_step], [relay_step]).  The invariants proved over those
    (one connection per device, single-use tickets, time-boxed privileges) are
    not part of [keeps]: a restart empties the hub under a handler that waits,
    and the schema does not make ticket hashes unique.  So the first is stated
    for the life of one hub, from [NewHub] on, and the second, across restarts,
    under [hashes_unique].

    What is left of the sources is glue: constructors that store their
    arguments, the setters of the hub's callbacks (fields of [hub_config]),
    column lists, and the calls of the Windows data protection API, which is a
    parameter of [WindowsProvider]. *)
From Stdlib Require Export ZArith Lia Ascii String List.
From stdpp Require Export base gmap list strings option.

(** ** Identifiers, times, bytes *)

(** [uuid.UUID] is a 16-byte array; it is modelled by its big-endian value. *)
Abbreviation uuid := N.
Definition valid_uuid (u : uuid) : bool := (u <? 2 ^ 128)%N.

(** [github.com/google/uuid]: the text form of an identifier. *)
Class UuidText : Type := {
  uuid_parse : string → option uuid;
  uuid_string : uuid → string }.

(** An instant is a number of nanoseconds; a [time.Duration] likewise. *)
Abbreviation time := Z.
Abbreviation duration := Z.
Definition Nanosecond : duration := 1%Z.
Definition Microsecond : duration := 1000%Z.
Definition Second : duration := 1000000000%Z.
Definition Minute : duration := (60 * Second)%Z.
Definition Hour : duration := (60 * Minute)%Z.

(** Go bytes are 8-bit values, Go strings byte sequences: [ascii] and
    [string] carry exactly that data. *)
Abbreviation byte := ascii.
Abbreviation bytes := (list ascii).
Definition str_bytes (s : string) : bytes := String.list_ascii_of_string s.
Definition bytes_str (b : bytes) : string := String.string_of_list_ascii b.
Definition byte_val (b : byte) : N := N_of_ascii b.
Definition byte_of (n : N) : byte := ascii_of_N (n mod 256).

(** Two's complement reading of a 64-bit pattern: Go's [int64]/[int]. *)
Definition wrap64 (z : Z) : Z := ((z + 2 ^ 63) mod 2 ^ 64 - 2 ^ 63)%Z.
Definition wrapu64 (z : Z) : Z := (z mod 2 ^ 64)%Z.

Lemma wrap64_id z : (- 2 ^ 63 ≤ z < 2 ^ 63)%Z → wrap64 z = z.
Proof. intros H. unfold wrap64. rewrite Z.mod_small; lia. Qed.

Lemma wrap64_range z : (- 2 ^ 63 ≤ wrap64 z < 2 ^ 63)%Z.
Proof.
  unfold wrap64.
  pose proof (Z.mod_pos_bound (z + 2 ^ 63) (2 ^ 64) eq_refl). lia.
Qed.

Lemma wrapu64_range z : (0 ≤ wrapu64 z < 2 ^ 64)%Z.
Proof. unfold wrapu64. apply Z.mod_pos_bound. lia. Qed.

Lemma str_bytes_str s : bytes_str (str_bytes s) = s.
Proof. apply String.string_of_list_ascii_of_string. Qed.

Lemma bytes_str_bytes b : str_bytes (bytes_str b) = b.
Proof. apply String.list_ascii_of_string_of_list_ascii. Qed.

Lemma str_bytes_app x y : str_bytes (x +:+ y) = str_bytes x ++ str_bytes y.
Proof. unfold str_bytes. induction x as [|c x IH]; simpl; [done|by rewrite IH]. Qed.

Lemma byte_of_val b : byte_of (byte_val b) = b.
Proof.
  unfold byte_of, byte_val. rewrite N.mod_small; [apply ascii_N_embedding|].
  pose proof (N_ascii_bounded b). lia.
Qed.

Lemma byte_val_of n : byte_val (byte_of n) = (n mod 256)%N.
Proof.
  unfold byte_of, byte_val. apply N_ascii_embedding.
  apply N.mod_lt. lia.
Qed.

Lemma byte_val_lt b : (byte_val b < 256)%N.
Proof. apply N_ascii_bounded. Qed.

(** ** Results of fallible calls *)

Inductive res (E A : Type) : Type :=
| Ok (a : A)
| Err (e : E).
Arguments Ok {E A} a.
Arguments Err {E A} e.

Definition is_ok {E A} (r : res E A) : bool :=
  match r with Ok _ => true | Err _ => false end.

(** ** Database programs

    A handler talks to PostgreSQL one statement at a time, and every round
    trip may fail.  A program over a database of type [S] therefore runs in
    a world that holds the database and a schedule of statement faults: the
    head of the schedule says whether the next round trip fails, and an
    exhausted schedule fails no further statement. *)

Record world (S : Type) : Type := World { w_db : S; w_faults : list bool }.
Arguments World {S} _ _.
Arguments w_db {S} _.
Arguments w_faults {S} _.

Definition M (S E A : Type) : Type := world S → res E A * world S.

Definition pop_fault {S} (w : world S) : bool * world S :=
  match w_faults w with
  | [] => (false, w)
  | f :: fs => (f, World (w_db w) fs)
  end.

Lemma pop_fault_db {S} (s : S) fs b w : pop_fault (World s fs) = (b, w) → w_db w = s.
Proof. unfold pop_fault. destruct fs; intros [= _ <-]; done. Qed.

#[export] Instance M_ret S E : MRet (M S E) := λ A a w, (Ok a, w).
#[export] Instance M_bind S E : MBind (M S E) := λ A B k m w,
  match m w with
  | (Ok a, w') => k a w'
  | (Err e, w') => (Err e, w')
  end.
Definition mfail {S E A} (e : E) : M S E A := λ w, (Err e, w).

(** [mtry] hands the error of a call to the caller as a value, as Go does;
    [mignore] is [_ = f()]. *)
Definition mtry {S E F A} (m : M S E A) : M S F (res E A) :=
  λ w, let '(r, w') := m w in (Ok r, w').
Definition mignore {S E F A} (m : M S E A) : M S F unit :=
  λ w, let '(_, w') := m w in (Ok tt, w').
(** [fmt.Errorf("...: %w", err)] and passing an error up unchanged. *)
Definition mwrap {S E F A} (f : E → F) (m : M S E A) : M S F A :=
  λ w, match m w with
       | (Ok a, w') => (Ok a, w')
       | (Err e, w') => (Err (f e), w')
       end.

(** A pure call that can fail. *)
Definition mlift {S E A} (r : res E A) : M S E A :=
  match r with Ok a => mret a | Err e => mfail e end.

(** A step on in-memory state, which cannot fail. *)
Definition mstate {S E A} (f : S → A * S) : M S E A :=
  λ w, let '(a, s') := f (w_db w) in (Ok a, World s' (w_faults w)).

(** A program over one component of a larger state. *)
Definition mzoom {S T E A} (get : S → T) (set : T → S → S) (m : M T E A) : M S E A :=
  λ w, let '(r, w') := m (World (get (w_db w)) (w_faults w)) in
       (r, World (set (w_db w') (w_db w)) (w_faults w')).

(** One SQL statement: on a fault it reports [e] and changes nothing. *)
Definition mstmt {S E A} (e : E) (f : S → res E A * S) : M S E A :=
  λ w, match pop_fault w with
       | (true, w') => (Err e, w')
       | (false, w') => let '(r, s') := f (w_db w') in (r, World s' (w_faults w'))
       end.
Definition mquery {S E A} (e : E) (f : S → A) : M S E A :=
  mstmt e (λ s, (Ok (f s), s)).
Definition mexec {S E} (e : E) (f : S → S) : M S E unit :=
  mstmt e (λ s, (Ok tt, f s)).

(** [pool.Begin] ... [defer tx.Rollback] ... [tx.Commit]: the effects of the
    body are kept only if the body and the commit succeed. *)
Definition mtx {S E A} (ebegin ecommit : E) (body : M S E A) : M S E A :=
  λ w, match pop_fault w with
       | (true, w1) => (Err ebegin, w1)
       | (false, w1) =>
           match body w1 with
           | (Err e, w2) => (Err e, World (w_db w1) (w_faults w2))
           | (Ok a, w2) =>
               match pop_fault w2 with
               | (true, w3) => (Err ecommit, World (w_db w1) (w_faults w3))
               | (false, w3) => (Ok a, w3)
               end
           end
       end.

(** The fault-free run of a program, and what it leaves in the database. *)
Definition run {S E A} (m : M S E A) (s : S) : res E A * S :=
  let '(r, w) := m (World s []) in (r, w_db w).

(** [always m Q s]: started in database [s], whatever statements fail, [m]
    ends with a result and a database that satisfy [Q]. *)
Definition always {S E A} (m : M S E A) (Q : res E A → S → Prop) (s : S) : Prop :=
  ∀ fs, let '(r, w) := m (World s fs) in Q r (w_db w).

Section always.
Context {S E : Type}.

Lemma always_run {A} (m : M S E A) Q s :
  always m Q s → let '(r, s') := run m s in Q r s'.
Proof. intros H. specialize (H []). unfold run. by destruct (m _). Qed.

Lemma always_mret {A} (a : A) (Q : res E A → S → Prop) s :
  Q (Ok a) s → always (mret a) Q s.
Proof. intros H fs. exact H. Qed.

Lemma always_mfail {A} (e : E) (Q : res E A → S → Prop) s :
  Q (Err e) s → always (mfail e) Q s.
Proof. intros H fs. exact H. Qed.

Lemma always_mbind {A B} (m : M S E A) (k : A → M S E B) Q s :
  always m (λ r s', match r with
                    | Ok a => always (k a) Q s'
                    | Err e => Q (Err e) s'
                    end) s →
  always (m ≫= k) Q s.
Proof.
  intros H fs. unfold mbind, M_bind. specialize (H fs).
  destruct (m _) as [[a|e] [s' fs']]; [apply H|exact H].
Qed.

Lemma always_mono {A} (m : M S E A) (P Q : res E A → S → Prop) s :
  always m P s → (∀ r s', P r s' → Q r s') → always m Q s.
Proof.
  intros H HPQ fs. specialize (H fs). destruct (m _) as [r w]. by apply HPQ.
Qed.

Lemma always_any {A} (m : M S E A) (Q : res E A → S → Prop) s :
  (∀ r s', Q r s') → always m Q s.
Proof. intros H fs. by destruct (m _). Qed.

Lemma always_and {A} (m : M S E A) (P Q : res E A → S → Prop) s :
  always m P s → always m Q s → always m (λ r s', P r s' ∧ Q r s') s.
Proof.
  intros HP HQ fs. specialize (HP fs). specialize (HQ fs).
  by destruct (m _) as [r w].
Qed.

Lemma always_mstmt {A} (e : E) (f : S → res E A * S) (Q : res E A → S → Prop) s :
  Q (Err e) s → Q (f s).1 (f s).2 → always (mstmt e f) Q s.
Proof.
  intros He Hok [|[] fs]; unfold mstmt; simpl; [|exact He|];
    by destruct (f s).
Qed.

Lemma always_mquery {A} (e : E) (f : S → A) (Q : res E A → S → Prop) s :
  Q (Err e) s → Q (Ok (f s)) s → always (mquery e f) Q s.
Proof. intros. by apply always_mstmt. Qed.

Lemma always_mexec (e : E) (f : S → S) (Q : res E unit → S → Prop) s :
  Q (Err e) s → Q (Ok tt) (f s) → always (mexec e f) Q s.
Proof. intros. by apply always_mstmt. Qed.

Lemma always_mtry {F A} (m : M S E A) (Q : res F (res E A) → S → Prop) s :
  always m (λ r s', Q (Ok r) s') s → always (mtry m) Q s.
Proof. intros H fs. specialize (H fs). unfold mtry. by destruct (m _). Qed.

Lemma always_mignore {F A} (m : M S E A) (Q : res F unit → S → Prop) s :
  always m (λ _ s', Q (Ok tt) s') s → always (mignore m) Q s.
Proof. intros H fs. specialize (H fs). unfold mignore. by destruct (m _). Qed.

Lemma always_mwrap {F A} (f : E → F) (m : M S E A) (Q : res F A → S → Prop) s :
  always m (λ r s', match r with
                    | Ok a => Q (Ok a) s'
                    | Err e => Q (Err (f e)) s'
                    end) s →
  always (mwrap f m) Q s.
Proof. intros H fs. specialize (H fs). unfold mwrap. by destruct (m _) as [[]]. Qed.

Lemma always_mlift {A} (r : res E A) (Q : res E A → S → Prop) s :
  Q r s → always (mlift r) Q s.
Proof. intros H fs. by destruct r. Qed.

Lemma always_mstate {A} (f : S → A * S) (Q : res E A → S → Prop) s :
  Q (Ok (f s).1) (f s).2 → always (mstate f) Q s.
Proof. intros H fs. unfold mstate. simpl. by destruct (f s). Qed.

Lemma always_mzoom {T A} get set (m : M T E A) (Q : res E A → S → Prop) s :
  always m (λ r t, Q r (set t s)) (get s) → always (mzoom get set m) Q s.
Proof. intros H fs. specialize (H fs). unfold mzoom. simpl. by destruct (m _) as [r [t fs']]. Qed.

Lemma always_mtx {A} (eb ec : E) (body : M S E A) Q s :
  Q (Err eb) s →
  always body (λ r s', match r with
                       | Ok a => Q (Err ec) s ∧ Q (Ok a) s'
                       | Err e => Q (Err e) s
                       end) s →
  always (mtx eb ec body) Q s.
Proof.
  intros Hb H [|[] fs]; unfold mtx; simpl; [|exact Hb|].
  - specialize (H []). destruct (body _) as [[a|e] [s' [|[] fs']]]; simpl in *; tauto.
  - specialize (H fs). destruct (body _) as [[a|e] [s' [|[] fs']]]; simpl in *; tauto.
Qed.
End always.

(** [effect m s s']: some run of [m] from [s], faults included, leaves [s']. *)
Definition effect {S E A} (m : M S E A) (s s' : S) : Prop :=
  ∃ fs, w_db (m (World s fs)).2 = s'.

Lemma effect_run {S E A} (m : M S E A) s : effect m s (run m s).2.
Proof. exists []. unfold run. by destruct (m _). Qed.

Lemma effect_always {S E A} (m : M S E A) (P : S → Prop) s s' :
  always m (λ _ s1, P s1) s → effect m s s' → P s'.
Proof. intros H [fs <-]. specialize (H fs). by destruct (m _). Qed.

(** [always_steps] walks through a program, leaving the postcondition at
    each way out. *)
Ltac always_step :=
  lazymatch goal with
  | |- always (mret _) _ _ => apply always_mret
  | |- always (mfail _) _ _ => apply always_mfail
  | |- always (mbind _ _) _ _ => apply always_mbind
  | |- always (mquery _ _) _ _ => apply always_mquery
  | |- always (mexec _ _) _ _ => apply always_mexec
  | |- always (mstmt _ _) _ _ => apply always_mstmt
  | |- always (mtry _) _ _ => apply always_mtry
  | |- always (mignore _) _ _ => apply always_mignore
  | |- always (mwrap _ _) _ _ => apply always_mwrap
  | |- always (mtx _ _ _) _ _ => apply always_mtx
  | |- always (mlift _) _ _ => apply always_mlift
  | |- always (mstate _) _ _ => apply always_mstate
  | |- always (mzoom _ _ _) _ _ => apply always_mzoom
  | |- always (match ?x with _ => _ end) _ _ => destruct x eqn:?
  end; simpl.
Ltac always_steps := repeat always_step.

(** Symbolic execution of a fault-free run. *)
Ltac run_unfold :=
  unfold run, mtx, mtry, mignore, mwrap, mzoom, mstate, mlift, mquery, mexec, mstmt, mfail,
    mbind, M_bind, mret, M_ret, pop_fault.
Ltac run_simpl := cbn [w_db w_faults fst snd]; cbv beta iota zeta.

(** [ideal m Q s]: the fault-free run of [m] from [s] satisfies [Q]. *)
Definition ideal {S E A} (m : M S E A) (Q : res E A → S → Prop) (s : S) : Prop :=
  ∃ r s', m (World s []) = (r, World s' []) ∧ Q r s'.

Section ideal.
Context {S E : Type}.

Lemma ideal_run {A} (m : M S E A) Q s : ideal m Q s → Q (run m s).1 (run m s).2.
Proof. intros (r & s' & E1 & HQ). unfold run. by rewrite E1. Qed.
Lemma ideal_mono {A} (m : M S E A) (P Q : res E A → S → Prop) s :
  ideal m P s → (∀ r s', P r s' → Q r s') → ideal m Q s.
Proof. intros (r & s' & E1 & HP) HPQ. exists r, s'. eauto. Qed.
Lemma ideal_mret {A} (a : A) (Q : res E A → S → Prop) s : Q (Ok a) s → ideal (mret a) Q s.
Proof. intros HQ. by exists (Ok a), s. Qed.
Lemma ideal_mfail {A} (e : E) (Q : res E A → S → Prop) s : Q (Err e) s → ideal (mfail e) Q s.
Proof. intros HQ. by exists (Err e), s. Qed.
Lemma ideal_mlift {A} (r : res E A) (Q : res E A → S → Prop) s : Q r s → ideal (mlift r) Q s.
Proof. intros HQ. exists r, s. by destruct r. Qed.
Lemma ideal_mbind {A B} (m : M S E A) (k : A → M S E B) Q s :
  ideal m (λ r s', match r with Ok a => ideal (k a) Q s' | Err e => Q (Err e) s' end) s →
  ideal (m ≫= k) Q s.
Proof.
  intros (r & s' & E1 & HQ). unfold ideal, mbind, M_bind. rewrite E1.
  destruct r; [exact HQ|by exists (Err e), s'].
Qed.
Lemma ideal_mtry {F A} (m : M S E A) (Q : res F (res E A) → S → Prop) s :
  ideal m (λ r s', Q (Ok r) s') s → ideal (mtry m) Q s.
Proof. intros (r & s' & E1 & HQ). exists (Ok r), s'. unfold mtry. by rewrite E1. Qed.
Lemma ideal_mignore {F A} (m : M S E A) (Q : res F unit → S → Prop) s :
  ideal m (λ _ s', Q (Ok tt) s') s → ideal (mignore m) Q s.
Proof. intros (r & s' & E1 & HQ). exists (Ok tt), s'. unfold mignore. by rewrite E1. Qed.
Lemma ideal_mwrap {F A} (f : E → F) (m : M S E A) (Q : res F A → S → Prop) s :
  ideal m (λ r s', match r with Ok a => Q (Ok a) s' | Err e => Q (Err (f e)) s' end) s →
  ideal (mwrap f m) Q s.
Proof.
  intros (r & s' & E1 & HQ). unfold ideal, mwrap. rewrite E1.
  destruct r; [by exists (Ok a), s'|by exists (Err (f e)), s'].
Qed.
Lemma ideal_mstmt {A} (e : E) (f : S → res E A * S) (Q : res E A → S → Prop) s :
  Q (f s).1 (f s).2 → ideal (mstmt e f) Q s.
Proof. intros HQ. unfold ideal, mstmt. simpl. destruct (f s) as [r s']. by exists r, s'. Qed.
Lemma ideal_mquery {A} (e : E) (f : S → A) (Q : res E A → S → Prop) s :
  Q (Ok (f s)) s → ideal (mquery e f) Q s.
Proof. intros HQ. by apply ideal_mstmt. Qed.
Lemma ideal_mexec (e : E) (f : S → S) (Q : res E unit → S → Prop) s :
  Q (Ok tt) (f s) → ideal (mexec e f) Q s.
Proof. intros HQ. by apply ideal_mstmt. Qed.
Lemma ideal_mstate {A} (f : S → A * S) (Q : res E A → S → Prop) s :
  Q (Ok (f s).1) (f s).2 → ideal (mstate f) Q s.
Proof. intros HQ. unfold ideal, mstate. simpl. destruct (f s) as [a s']. by exists (Ok a), s'. Qed.
Lemma ideal_mzoom {T A} get set (m : M T E A) (Q : res E A → S → Prop) s :
  ideal m (λ r t, Q r (set t s)) (get s) → ideal (mzoom get set m) Q s.
Proof.
  intros (r & t & E1 & HQ). exists r, (set t s). unfold mzoom. simpl. by rewrite E1.
Qed.
Lemma ideal_mtx {A} (eb ec : E) (body : M S E A) (Q : res E A → S → Prop) s :
  ideal body (λ r s', match r with Ok a => Q (Ok a) s' | Err e => Q (Err e) s end) s →
  ideal (mtx eb ec body) Q s.
Proof.
  intros (r & s' & E1 & HQ). unfold ideal, mtx. simpl. rewrite E1. destruct r; simpl; eauto.
Qed.
End ideal.

Ltac ideal_step :=
  lazymatch goal with
  | |- ideal (mret _) _ _ => apply ideal_mret
  | |- ideal (mfail _) _ _ => apply ideal_mfail
  | |- ideal (mbind _ _) _ _ => apply ideal_mbind
  | |- ideal (mquery _ _) _ _ => apply ideal_mquery
  | |- ideal (mexec _ _) _ _ => apply ideal_mexec
  | |- ideal (mstmt _ _) _ _ => apply ideal_mstmt
  | |- ideal (mtry _) _ _ => apply ideal_mtry
  | |- ideal (mignore _) _ _ => apply ideal_mignore
  | |- ideal (mwrap _ _) _ _ => apply ideal_mwrap
  | |- ideal (mlift _) _ _ => apply ideal_mlift
  | |- ideal (mstate _) _ _ => apply ideal_mstate
  | |- ideal (mzoom _ _ _) _ _ => apply ideal_mzoom
  | |- ideal (mtx _ _ _) _ _ => apply ideal_mtx
  | |- ideal (match ?x with _ => _ end) _ _ => destruct x eqn:?
  end; simpl.
Ltac ideal_steps := repeat ideal_step.

(** [preserves R m]: every run of [m], whatever fails, relates the database
    before to the database after by [R].  With [R] a preorder this is
    compositional. *)
Section preserves.
Context {S : Type} (R : S → S → Prop) `{!PreOrder R}.

Definition preserves {E A} (m : M S E A) : Prop := ∀ s, always m (λ _ s', R s s') s.

Lemma preserves_mret {E A} (a : A) : preserves (E := E) (mret a).
Proof. intros s. apply always_mret. reflexivity. Qed.
Lemma preserves_mfail {E A} (e : E) : preserves (A := A) (mfail e).
Proof. intros s. apply always_mfail. reflexivity. Qed.
Lemma preserves_mlift {E A} (r : res E A) : preserves (mlift r).
Proof. destruct r; [apply preserves_mret|apply preserves_mfail]. Qed.
Lemma preserves_mbind {E A B} (m : M S E A) (k : A → M S E B) :
  preserves m → (∀ a, preserves (k a)) → preserves (m ≫= k).
Proof.
  intros Hm Hk s. apply always_mbind. eapply always_mono; [apply Hm|].
  intros [a|e] s' Hs; [|done]. eapply always_mono; [apply Hk|]. intros r s'' Hs'. by etrans.
Qed.
Lemma preserves_mtry {E F A} (m : M S E A) : preserves m → preserves (E := F) (mtry m).
Proof. intros Hm s. apply always_mtry, Hm. Qed.
Lemma preserves_mignore {E F A} (m : M S E A) : preserves m → preserves (E := F) (mignore m).
Proof. intros Hm s. apply always_mignore, Hm. Qed.
Lemma preserves_mwrap {E F A} (f : E → F) (m : M S E A) : preserves m → preserves (mwrap f m).
Proof. intros Hm s. apply always_mwrap. eapply always_mono; [apply Hm|]. by intros [] s'. Qed.
Lemma preserves_mquery {E A} (e : E) (f : S → A) : preserves (mquery e f).
Proof. intros s. apply always_mquery; reflexivity. Qed.
Lemma preserves_mstmt {E A} (e : E) (f : S → res E A * S) :
  (∀ s, R s (f s).2) → preserves (mstmt e f).
Proof. intros Hf s. apply always_mstmt; [reflexivity|apply Hf]. Qed.
Lemma preserves_mexec {E} (e : E) (f : S → S) : (∀ s, R s (f s)) → preserves (mexec e f).
Proof. intros Hf s. apply always_mexec; [reflexivity|apply Hf]. Qed.
Lemma preserves_mstate {E A} (f : S → A * S) : (∀ s, R s (f s).2) → preserves (E := E) (mstate f).
Proof. intros Hf s. apply always_mstate, Hf. Qed.
Lemma preserves_mtx {E A} (eb ec : E) (m : M S E A) : preserves m → preserves (mtx eb ec m).
Proof.
  intros Hm s. apply always_mtx; [reflexivity|]. eapply always_mono; [apply Hm|].
  intros [a|e] s' Hs; [split; [reflexivity|done]|reflexivity].
Qed.
Lemma preserves_mzoom {T E A} (get : S → T) set (Q : T → T → Prop) (m : M T E A) :
  (∀ t, always m (λ _ t', Q t t') t) →
  (∀ s t, Q (get s) t → R s (set t s)) → preserves (mzoom get set m).
Proof.
  intros Hm HR s. apply always_mzoom. eapply always_mono; [apply Hm|]. intros r t Ht. by apply HR.
Qed.
(** From the relation on effects, the other way of saying it. *)
Lemma preserves_effect {E A} (m : M S E A) : (∀ s s', effect m s s' → R s s') → preserves m.
Proof using Type. intros Hm s fs. specialize (Hm s (w_db (m (World s fs)).2)). destruct (m _) eqn:Em. apply Hm. exists fs. by rewrite Em. Qed.
End preserves.

(** [preserve_steps] decomposes [preserves R m] along the program, using the
    facts of the [preserve] database for the operations it calls. *)
Create HintDb preserve.
Ltac preserve_step :=
  lazymatch goal with
  | |- preserves _ (mret _) => apply preserves_mret; [apply _|..]
  | |- preserves _ (mfail _) => apply preserves_mfail; [apply _|..]
  | |- preserves _ (mlift _) => apply preserves_mlift; [apply _|..]
  | |- preserves _ (mbind _ _) => apply preserves_mbind; [apply _| |intros ?]
  | |- preserves _ (mtry _) => apply preserves_mtry
  | |- preserves _ (mignore _) => apply preserves_mignore
  | |- preserves _ (mwrap _ _) => apply preserves_mwrap
  | |- preserves _ (mtx _ _ _) => apply preserves_mtx; [apply _|..]
  | |- preserves _ (mquery _ _) => apply preserves_mquery; [apply _|..]
  | |- preserves _ (match ?x with _ => _ end) => destruct x
  | |- preserves _ (let '(_, _) := ?x in _) => destruct x
  end.
Ltac preserve_steps :=
  repeat (preserve_step || (solve [eauto with preserve typeclass_instances])).

Lemma mbind_ext {S E A B} (m : M S E A) (k k' : A → M S E B) w :
  (∀ a w', k a w' = k' a w') → (m ≫= k) w = (m ≫= k') w.
Proof. intros Hk. unfold mbind, M_bind. destruct (m w) as [[] ?]; [apply Hk|done]. Qed.

(** ** Tables

    A table is a finite map from primary keys to rows.  [update_where] and
    [delete_where] are [UPDATE/DELETE ... WHERE]; [select_one] is the
    [QueryRow] of a [SELECT ... WHERE]; [count_where] is [RowsAffected]. *)

Section tables.
Context `{Countable K} {R : Type}.
Implicit Types (t : gmap K R) (p : K → R → bool) (k : K) (r : R).

Definition update_where p (f : R → R) t : gmap K R :=
  map_imap (λ k r, Some (if p k r then f r else r)) t.
Definition delete_where p t : gmap K R :=
  map_imap (λ k r, if p k r then None else Some r) t.
Definition select_where p t : list (K * R) :=
  filter (λ kr, p kr.1 kr.2 = true) (map_to_list t).
Definition select_one p t : option (K * R) := head (select_where p t).
Definition count_where p t : nat := length (select_where p t).

Lemma lookup_update_where p f t k :
  update_where p f t !! k = (λ r, if p k r then f r else r) <$> t !! k.
Proof. unfold update_where. rewrite map_lookup_imap. by destruct (t !! k). Qed.

Lemma lookup_delete_where p t k :
  delete_where p t !! k = r ← t !! k; if p k r then None else Some r.
Proof. unfold delete_where. by rewrite map_lookup_imap. Qed.

Lemma elem_of_select_where p t k r :
  (k, r) ∈ select_where p t ↔ t !! k = Some r ∧ p k r = true.
Proof.
  unfold select_where. rewrite list_elem_of_filter, elem_of_map_to_list. tauto.
Qed.

Lemma select_one_Some p t k r :
  select_one p t = Some (k, r) → t !! k = Some r ∧ p k r = true.
Proof.
  intros Hs. apply elem_of_select_where. unfold select_one in Hs.
  destruct (select_where p t); simplify_eq/=. left.
Qed.

Lemma select_one_None p t :
  select_one p t = None ↔ ∀ k r, t !! k = Some r → p k r = false.
Proof.
  unfold select_one. split.
  - intros Hs k r Hk. destruct (p k r) eqn:Hp; [|done].
    assert ((k, r) ∈ select_where p t) as Hin by by apply elem_of_select_where.
    destruct (select_where p t); [by apply not_elem_of_nil in Hin | done].
  - intros Hall. destruct (select_where p t) as [|[k r] l] eqn:Hl; [done|].
    assert ((k, r) ∈ select_where p t) as [Hk Hp]%elem_of_select_where
      by (rewrite Hl; left).
    rewrite (Hall k r Hk) in Hp. done.
Qed.

Lemma select_one_unique p t k r :
  t !! k = Some r → p k r = true →
  (∀ k' r', t !! k' = Some r' → p k' r' = true → k' = k) →
  select_one p t = Some (k, r).
Proof.
  intros Hk Hp Hu. destruct (select_one p t) as [[k' r']|] eqn:Hs.
  - apply select_one_Some in Hs as [Hk' Hp'].
    assert (k' = k) as -> by eauto. congruence.
  - rewrite select_one_None in Hs. rewrite (Hs k r Hk) in Hp. done.
Qed.

Lemma count_where_zero p t :
  count_where p t = 0 ↔ ∀ k r, t !! k = Some r → p k r = false.
Proof.
  rewrite <-select_one_None. unfold count_where, select_one.
  by destruct (select_where p t).
Qed.

(** A condition that fixes the key selects at most one row. *)
Lemma count_where_key k p t :
  (∀ k' r, p k' r = true → k' = k) →
  count_where p t = match t !! k with Some r => if p k r then 1 else 0 | None => 0 end.
Proof.
  intros Hkey. destruct (decide (count_where p t = 0)) as [E|E].
  - rewrite E. rewrite count_where_zero in E. destruct (t !! k) as [r|] eqn:Ht; [|done].
    by rewrite (E _ _ Ht).
  - unfold count_where in *.
    assert (NoDup (select_where p t).*1) as Hnd.
    { eapply sublist_NoDup; [apply (NoDup_fst_map_to_list t)|]. apply fmap_sublist, sublist_filter. }
    assert (∀ k' r, (k', r) ∈ select_where p t → k' = k) as Hk.
    { intros k' r Hin. apply elem_of_select_where in Hin as [_ Hp]. eauto. }
    destruct (select_where p t) as [|[k1 r1] [|[k2 r2] l]] eqn:El; [done| |].
    + assert ((k1, r1) ∈ select_where p t) as Hin by (rewrite El; left).
      apply elem_of_select_where in Hin as [Ht Hp]. by rewrite <-(Hkey _ _ Hp), Ht, Hp.
    + exfalso. apply list.NoDup_cons in Hnd as [Hnin _]. apply Hnin. simpl.
      rewrite (Hk k1 r1) by left. rewrite (Hk k2 r2) by (right; left). left.
Qed.

Lemma update_where_none p f t :
  (∀ k r, t !! k = Some r → p k r = false) → update_where p f t = t.
Proof.
  intros Hp. apply map_eq. intros k. rewrite lookup_update_where.
  destruct (t !! k) as [r|] eqn:Hk; simpl; [by rewrite Hp|done].
Qed.
End tables.

(** [UPDATE t SET ... WHERE id = $1], with the number of rows it affected. *)
Definition update_id {R} (k : uuid) (f : R → R) (t : gmap uuid R) : gmap uuid R :=
  alter f k t.
Definition rows_with_id {R} (k : uuid) (t : gmap uuid R) : nat :=
  match t !! k with Some _ => 1 | None => 0 end.

Lemma lookup_update_id {R} k j (f : R → R) t :
  update_id k f t !! j = if decide (k = j) then f <$> t !! j else t !! j.
Proof. unfold update_id. rewrite lookup_alter. by case_decide; subst. Qed.

Lemma update_id_Some {R} k (f : R → R) t r :
  t !! k = Some r → update_id k f t = <[k := f r]> t.
Proof.
  intros H. apply map_eq. intros j. rewrite lookup_update_id, lookup_insert.
  case_decide; subst; [by rewrite H|done].
Qed.

Lemma update_id_inv {R} k j (f : R → R) t r :
  update_id k f t !! j = Some r → ∃ r0, t !! j = Some r0 ∧ (r = r0 ∨ k = j ∧ r = f r0).
Proof.
  rewrite lookup_update_id. case_decide; [|by eauto]. rewrite fmap_Some. naive_solver.
Qed.

(** ** Ordered results: [ORDER BY], by stable insertion *)

Section order_by.
Context {A : Type} (le : A → A → bool).

Fixpoint insert_sorted (x : A) (l : list A) : list A :=
  match l with
  | [] => [x]
  | y :: l' => if le x y then x :: l else y :: insert_sorted x l'
  end.
Fixpoint order_by (l : list A) : list A :=
  match l with [] => [] | x :: l' => insert_sorted x (order_by l') end.

Lemma insert_sorted_perm x l : insert_sorted x l ≡ₚ x :: l.
Proof.
  induction l as [|y l IH]; simpl; [done|]. destruct (le x y); [done|]. rewrite IH. constructor.
Qed.
Lemma order_by_perm l : order_by l ≡ₚ l.
Proof. induction l as [|x l IH]; simpl; [done|]. by rewrite insert_sorted_perm, IH. Qed.
Lemma elem_of_order_by x l : x ∈ order_by l ↔ x ∈ l.
Proof. by rewrite order_by_perm. Qed.
Lemma length_order_by l : length (order_by l) = length l.
Proof. by rewrite order_by_perm. Qed.
Lemma order_by_nil l : order_by l = [] ↔ l = [].
Proof.
  split; [|by intros ->]. intros E. pose proof (length_order_by l) as H. rewrite E in H.
  by apply nil_length_inv.
Qed.

(** The first row of an ordered result is a least one. *)
Lemma order_by_head x l :
  (∀ a b, le a b = true ∨ le b a = true) → (∀ a b c, le a b = true → le b c = true → le a c = true) →
  head (order_by l) = Some x → x ∈ l ∧ ∀ y, y ∈ l → le x y = true.
Proof.
  intros Htot Htr. revert x. induction l as [|z l IH]; simpl; [done|]. intros x Hx.
  destruct (order_by l) as [|m l'] eqn:E; simpl in Hx.
  - injection Hx as <-. assert (l = []) as -> by by apply order_by_nil.
    split; [left|]. intros y Hy. apply list_elem_of_singleton in Hy as ->.
    by destruct (Htot z z).
  - destruct (IH m eq_refl) as [Hm Hleast]. destruct (le z m) eqn:Hz; injection Hx as <-.
    + split; [left|]. intros y Hy. apply elem_of_cons in Hy as [->|Hy]; [by destruct (Htot z z)|].
      eauto.
    + split; [by right|]. intros y Hy. apply elem_of_cons in Hy as [->|Hy]; [|eauto].
      destruct (Htot m z); congruence.
Qed.
End order_by.

(** ** Shared automation *)

Create Rewrite HintDb tables.
#[export] Hint Rewrite @lookup_update_where @lookup_delete_where @lookup_update_id
  @lookup_insert @lookup_alter @lookup_delete : tables.
Ltac table_simpl :=
  repeat (autorewrite with tables in *; simplify_eq/=; simpl in * ).

(** Case analysis on every [if]/[match] scrutinee of a hypothesis. *)
Ltac case_all :=
  repeat (case_match || case_decide || simplify_eq/=).

(** Boolean tests of the code as propositions. *)
Ltac reflect_bools :=
  repeat match goal with
  | H : (_ && _) = true |- _ => apply andb_true_iff in H as [? ?]
  | H : (_ || _) = false |- _ => apply orb_false_iff in H as [? ?]
  | H : negb _ = true |- _ => apply negb_true_iff in H
  | H : negb _ = false |- _ => apply negb_false_iff in H
  | H : (_ <? _)%Z = true |- _ => apply Z.ltb_lt in H
  | H : (_ <? _)%Z = false |- _ => apply Z.ltb_ge in H
  | H : (_ <=? _)%Z = true |- _ => apply Z.leb_le in H
  | H : (_ <=? _)%Z = false |- _ => apply Z.leb_gt in H
  | H : (_ <? _) = true |- _ => apply Nat.ltb_lt in H
  | H : (_ <? _) = false |- _ => apply Nat.ltb_ge in H
  | H : (_ <=? _) = true |- _ => apply Nat.leb_le in H
  | H : (_ <=? _) = false |- _ => apply Nat.leb_gt in H
  | H : (_ =? _)%N = true |- _ => apply N.eqb_eq in H
  | H : (_ =? _)%N = false |- _ => apply N.eqb_neq in H
  | H : bool_decide _ = true |- _ => apply bool_decide_eq_true_1 in H
  | H : bool_decide _ = false |- _ => apply bool_decide_eq_false_1 in H
  end.

(** [*time.Time] columns: "is null" and comparisons with the clock. *)
Definition is_null {A} (o : option A) : bool := match o with None => true | _ => false end.
Definition After (a b : time) : bool := (b <? a)%Z.
Definition Before (a b : time) : bool := (a <? b)%Z.

(** ** Reachability

    The states a component can reach by its operations, and induction on
    how it got there. *)
Inductive reachable {St : Type} (init : St → Prop) (step : St → St → Prop) : St → Prop :=
| reach_init s : init s → reachable init step s
| reach_step s s' : reachable init step s → step s s' → reachable init step s'.

Lemma invariant_reachable {St : Type} (init : St → Prop) (step : St → St → Prop) (I : St → Prop) :
  (∀ s, init s → I s) → (∀ s s', I s → step s s' → I s') →
  ∀ s, reachable init step s → I s.
Proof. intros Hi Hs s Hr. induction Hr; eauto. Qed.
