(* ===== verification/Protocol.v ===== *)
(** The wire protocol wrp/1 shared by server and agent: message envelopes
    ([internal/protocol/codec.go], [protocol.go]) and binary stream frames
    ([internal/protocol/stream.go]). *)
From S2P Require Import Prelude.

(** ** Constants *)

(* internal/protocol/protocol.go:8-8 Version *)
Definition Version : Z := 1%Z.
(* internal/protocol/protocol.go:12-12 MaxControlMessageBytes *)
Definition MaxControlMessageBytes : Z := 262144%Z.
(* internal/protocol/protocol.go:13-13 MaxInventoryBytes *)
Definition MaxInventoryBytes : Z := 1048576%Z.
(** Longer than a limit: what [SetReadLimit] refuses and the code checks. *)
Definition too_long (b : bytes) (limit : Z) : bool := (limit <? Z.of_nat (length b))%Z.
(* internal/protocol/protocol.go:14-14 MaxEventBatchBytes *)
Definition MaxEventBatchBytes : Z := 1048576%Z.
(* internal/protocol/protocol.go:15-15 MaxTerminalControlBytes *)
Definition MaxTerminalControlBytes : Z := 65536%Z.
(* internal/protocol/protocol.go:20-20 TypeHello *)
Definition TypeHello : string := "hello".
(* internal/protocol/protocol.go:21-21 TypeHelloAck *)
Definition TypeHelloAck : string := "hello_ack".
(* internal/protocol/protocol.go:22-22 TypeHeartbeat *)
Definition TypeHeartbeat : string := "heartbeat".
(* internal/protocol/protocol.go:23-23 TypeHeartbeatAck *)
Definition TypeHeartbeatAck : string := "heartbeat_ack".
(* internal/protocol/protocol.go:24-24 TypeInventoryRequest *)
Definition TypeInventoryRequest : string := "inventory_request".
(* internal/protocol/protocol.go:25-25 TypeInventoryResponse *)
Definition TypeInventoryResponse : string := "inventory_response".
(* internal/protocol/protocol.go:26-26 TypeMetricsReport *)
Definition TypeMetricsReport : string := "metrics_report".
(* internal/protocol/protocol.go:27-27 TypeCommandResult *)
Definition TypeCommandResult : string := "command_result".
(* internal/protocol/protocol.go:28-28 TypeSessionOpen *)
Definition TypeSessionOpen : string := "session_open".
(* internal/protocol/protocol.go:29-29 TypeSessionOpenResult *)
Definition TypeSessionOpenResult : string := "session_open_result".
(* internal/protocol/protocol.go:30-30 TypeSessionClose *)
Definition TypeSessionClose : string := "session_close".
(* internal/protocol/protocol.go:31-31 TypeSessionPrivilegeUpdate *)
Definition TypeSessionPrivilegeUpdate : string := "session_privilege_update".
(* internal/protocol/protocol.go:32-32 TypeTerminalOpen *)
Definition TypeTerminalOpen : string := "terminal_open".
(* internal/protocol/protocol.go:33-33 TypeTerminalResize *)
Definition TypeTerminalResize : string := "terminal_resize".
(* internal/protocol/protocol.go:34-34 TypeTerminalSignal *)
Definition TypeTerminalSignal : string := "terminal_signal".
(* internal/protocol/protocol.go:35-35 TypeTerminalClose *)
Definition TypeTerminalClose : string := "terminal_close".
(* internal/protocol/protocol.go:36-36 TypeTunnelPrepare *)
Definition TypeTunnelPrepare : string := "tunnel_prepare".
(* internal/protocol/protocol.go:37-37 TypeProtocolError *)
Definition TypeProtocolError : string := "protocol_error".
(* internal/protocol/protocol.go:38-38 TypeControlChallenge *)
Definition TypeControlChallenge : string := "control_challenge".
(* internal/protocol/protocol.go:39-39 TypeDeviceCommand *)
Definition TypeDeviceCommand : string := "device_command".
(* internal/protocol/protocol.go:40-40 TypeSupportCredentialReport *)
Definition TypeSupportCredentialReport : string := "support_credential_report".
(* internal/protocol/protocol.go:41-41 TypeNetworkMetricsBatch *)
Definition TypeNetworkMetricsBatch : string := "network_metrics_batch".
(* internal/protocol/protocol.go:46-46 StreamKindTerminal *)
Definition StreamKindTerminal : byte := byte_of 1.
(* internal/protocol/protocol.go:47-47 StreamKindTunnel *)
Definition StreamKindTunnel : byte := byte_of 2.
(* internal/protocol/protocol.go:48-48 StreamKindFile *)
Definition StreamKindFile : byte := byte_of 3.
(* internal/protocol/protocol.go:53-53 CodeOK *)
Definition CodeOK : string := "ok".
(* internal/protocol/protocol.go:54-54 CodeInvalidRequest *)
Definition CodeInvalidRequest : string := "invalid_request".
(* internal/protocol/protocol.go:55-55 CodeUnsupportedProtocol *)
Definition CodeUnsupportedProtocol : string := "unsupported_protocol".
(* internal/protocol/protocol.go:56-56 CodeUnsupportedCapability *)
Definition CodeUnsupportedCapability : string := "unsupported_capability".
(* internal/protocol/protocol.go:57-57 CodeUnauthenticated *)
Definition CodeUnauthenticated : string := "unauthenticated".
(* internal/protocol/protocol.go:58-58 CodePermissionDenied *)
Definition CodePermissionDenied : string := "permission_denied".
(* internal/protocol/protocol.go:59-59 CodePrivilegeRequired *)
Definition CodePrivilegeRequired : string := "privilege_required".
(* internal/protocol/protocol.go:60-60 CodeDeviceBusy *)
Definition CodeDeviceBusy : string := "device_busy".
(* internal/protocol/protocol.go:61-61 CodeResourceNotFound *)
Definition CodeResourceNotFound : string := "resource_not_found".
(* internal/protocol/protocol.go:62-62 CodeSessionExpired *)
Definition CodeSessionExpired : string := "session_expired".
(* internal/protocol/protocol.go:63-63 CodeTicketExpired *)
Definition CodeTicketExpired : string := "ticket_expired".
(* internal/protocol/protocol.go:64-64 CodeTicketUsed *)
Definition CodeTicketUsed : string := "ticket_used".
(* internal/protocol/protocol.go:65-65 CodeTargetNotAllowed *)
Definition CodeTargetNotAllowed : string := "target_not_allowed".
(* internal/protocol/protocol.go:66-66 CodeMessageTooLarge *)
Definition CodeMessageTooLarge : string := "message_too_large".
(* internal/protocol/protocol.go:67-67 CodeRateLimited *)
Definition CodeRateLimited : string := "rate_limited".
(* internal/protocol/protocol.go:68-68 CodeTimeout *)
Definition CodeTimeout : string := "timeout".
(* internal/protocol/protocol.go:69-69 CodeInternalError *)
Definition CodeInternalError : string := "internal_error".
(* internal/protocol/session.go:66-66 CmdServicesList *)
Definition CmdServicesList : string := "services.list".
(* internal/protocol/session.go:67-67 CmdServiceStart *)
Definition CmdServiceStart : string := "services.start".
(* internal/protocol/session.go:68-68 CmdServiceStop *)
Definition CmdServiceStop : string := "services.stop".
(* internal/protocol/session.go:69-69 CmdServiceRestart *)
Definition CmdServiceRestart : string := "services.restart".
(* internal/protocol/session.go:70-70 CmdProcessesList *)
Definition CmdProcessesList : string := "processes.list".
(* internal/protocol/session.go:71-71 CmdProcessTerminate *)
Definition CmdProcessTerminate : string := "processes.terminate".
(* internal/protocol/session.go:72-72 CmdFilesList *)
Definition CmdFilesList : string := "files.list".
(* internal/protocol/session.go:73-73 CmdFilesMkdir *)
Definition CmdFilesMkdir : string := "files.mkdir".
(* internal/protocol/session.go:74-74 CmdFilesRename *)
Definition CmdFilesRename : string := "files.rename".
(* internal/protocol/session.go:75-75 CmdFilesDelete *)
Definition CmdFilesDelete : string := "files.delete".
(* internal/protocol/session.go:76-76 CmdFilesDownload *)
Definition CmdFilesDownload : string := "files.download".
(* internal/protocol/session.go:77-77 CmdFilesUpload *)
Definition CmdFilesUpload : string := "files.upload".
(* internal/protocol/session.go:78-78 CmdLogsQuery *)
Definition CmdLogsQuery : string := "logs.query".
(* internal/protocol/session.go:79-79 CmdAgentUpdate *)
Definition CmdAgentUpdate : string := "agent.update".
(* internal/protocol/session.go:80-80 CmdRotateSupportCredential *)
Definition CmdRotateSupportCredential : string := "support_credential.rotate".

(** ** Stream frames *)

(** The 16 bytes of a UUID, most significant first, and back. *)
Fixpoint be_bytes (n : nat) (u : N) : bytes :=
  match n with
  | O => []
  | S n' => byte_of (u / 256 ^ N.of_nat n') :: be_bytes n' u
  end.
Fixpoint be_val (b : bytes) : N :=
  match b with
  | [] => 0
  | x :: b' => byte_val x * 256 ^ N.of_nat (length b') + be_val b'
  end.
Definition uuid_bytes (u : uuid) : bytes := be_bytes 16 u.
(** [uuid.FromBytes]: refuses anything but 16 bytes. *)
Definition uuid_from_bytes (b : bytes) : option uuid :=
  if length b =? 16 then Some (be_val b) else None.

(* internal/protocol/stream.go:16-18 StreamFrameHeaderLen *)
Definition StreamFrameHeaderLen : nat := 18.
(* internal/protocol/stream.go:18-18 streamFrameVersion *)
Definition streamFrameVersion : byte := byte_of 1.

(* internal/protocol/stream.go:20-29 EncodeStreamFrame *)
Definition EncodeStreamFrame (kind : byte) (streamID : uuid) (payload : bytes) : bytes :=
  streamFrameVersion :: kind :: uuid_bytes streamID ++ payload.

Inductive frame_error : Type :=
| FrameTooShort (len : nat)
| FrameBadVersion (v : byte)
| FrameBadID.

(* internal/protocol/stream.go:31-45 DecodeStreamFrame *)
Definition DecodeStreamFrame (frame : bytes) : res frame_error (byte * uuid * bytes) :=
  if length frame <? StreamFrameHeaderLen then Err (FrameTooShort (length frame))
  else match frame with
  | v :: kind :: rest =>
      if decide (v = streamFrameVersion) then
        match uuid_from_bytes (take 16 rest) with
        | Some id => Ok (kind, id, drop 16 rest)
        | None => Err FrameBadID
        end
      else Err (FrameBadVersion v)
  | _ => Err (FrameTooShort (length frame))
  end.

Lemma length_be_bytes n u : length (be_bytes n u) = n.
Proof. induction n; simpl; congruence. Qed.

Lemma be_val_lt b : (be_val b < 256 ^ N.of_nat (length b))%N.
Proof.
  induction b as [|x b IH]; simpl length; simpl be_val; [done|].
  rewrite Nat2N.inj_succ, N.pow_succ_r'. pose proof (byte_val_lt x). nia.
Qed.

Lemma be_val_bytes n u : be_val (be_bytes n u) = (u mod 256 ^ N.of_nat n)%N.
Proof.
  induction n as [|n IH]; [by rewrite N.mod_1_r|].
  simpl be_bytes. simpl be_val. rewrite length_be_bytes, byte_val_of, IH.
  rewrite Nat2N.inj_succ, N.pow_succ_r', (N.mul_comm 256).
  rewrite N.Div0.mod_mul_r. lia.
Qed.

Lemma be_bytes_ext n u v :
  (u mod 256 ^ N.of_nat n = v mod 256 ^ N.of_nat n)%N → be_bytes n u = be_bytes n v.
Proof.
  induction n as [|n IH]; [done|]. intros Huv. simpl.
  rewrite Nat2N.inj_succ, N.pow_succ_r', (N.mul_comm 256), !N.Div0.mod_mul_r in Huv.
  assert (0 < 256 ^ N.of_nat n)%N by (apply N.neq_0_lt_0, N.pow_nonzero; lia).
  destruct (N.div_mod_unique (256 ^ N.of_nat n)
    ((u / 256 ^ N.of_nat n) mod 256) ((v / 256 ^ N.of_nat n) mod 256)
    (u mod 256 ^ N.of_nat n) (v mod 256 ^ N.of_nat n)) as [Hq Hr];
    [apply N.mod_lt; lia..|lia|].
  unfold byte_of. rewrite Hq. f_equal. by apply IH.
Qed.

Lemma be_bytes_val b : be_bytes (length b) (be_val b) = b.
Proof.
  induction b as [|x b IH]; [done|]. simpl.
  pose proof (be_val_lt b) as Hlt.
  assert (0 < 256 ^ N.of_nat (length b))%N by lia. f_equal.
  - rewrite N.div_add_l, N.div_small, N.add_0_r by lia. apply byte_of_val.
  - etrans; [|exact IH]. apply be_bytes_ext.
    by rewrite N.add_comm, N.Div0.mod_add.
Qed.

Lemma uuid_from_bytes_bytes u : valid_uuid u = true → uuid_from_bytes (uuid_bytes u) = Some u.
Proof.
  intros Hu%N.ltb_lt. unfold uuid_from_bytes, uuid_bytes.
  rewrite length_be_bytes, be_val_bytes. simpl. f_equal. by apply N.mod_small.
Qed.

Lemma take_uuid u p : take 16 (uuid_bytes u ++ p) = uuid_bytes u.
Proof. apply take_app_length'. symmetry. apply (length_be_bytes 16). Qed.
Lemma drop_uuid u p : drop 16 (uuid_bytes u ++ p) = p.
Proof. apply drop_app_length'. symmetry. apply (length_be_bytes 16). Qed.

Lemma length_frame kind u p :
  length (EncodeStreamFrame kind u p) = StreamFrameHeaderLen + length p.
Proof. reflexivity. Qed.

(** A frame's data within the read limit both ends set on the socket. *)
Definition one_message (data : bytes) : Prop := (Z.of_nat (StreamFrameHeaderLen + length data) ≤ MaxInventoryBytes)%Z.
Lemma frame_fits kind id data : one_message data → too_long (EncodeStreamFrame kind id data) MaxInventoryBytes = false.
Proof. unfold one_message, too_long. rewrite length_frame. intros H. by apply Z.ltb_ge. Qed.

(** A frame built by [EncodeStreamFrame] is decoded back to the same
    kind, stream and payload, for every 128-bit stream id. *)
Theorem stream_frame_roundtrip kind id payload :
  valid_uuid id = true →
  DecodeStreamFrame (EncodeStreamFrame kind id payload) = Ok (kind, id, payload).
Proof.
  intros Hid. unfold DecodeStreamFrame. rewrite length_frame, (proj2 (Nat.ltb_ge _ _)) by lia.
  unfold EncodeStreamFrame. rewrite decide_True by done.
  by rewrite take_uuid, drop_uuid, uuid_from_bytes_bytes.
Qed.

Lemma stream_frame_roundtrip_witness :
  DecodeStreamFrame (EncodeStreamFrame (byte_of 2) 0xA1B2C3D4%N (str_bytes "ls")) =
    Ok (byte_of 2, 0xA1B2C3D4%N, str_bytes "ls").
Proof. apply stream_frame_roundtrip. reflexivity. Defined.

(** C36: [DecodeStreamFrame] accepts exactly the frames [EncodeStreamFrame]
    produces: whatever it accepts re-encodes to the same bytes, and what it
    rejects is too short or carries another version byte. *)
Theorem stream_frame_decode_exact frame :
  match DecodeStreamFrame frame with
  | Ok (kind, id, payload) =>
      valid_uuid id = true ∧ EncodeStreamFrame kind id payload = frame
  | Err _ =>
      length frame < StreamFrameHeaderLen ∨ head frame ≠ Some streamFrameVersion
  end.
Proof.
  unfold DecodeStreamFrame, StreamFrameHeaderLen.
  destruct (Nat.ltb_spec (length frame) 18); [by left|].
  destruct frame as [|v [|kind rest]]; simpl in *; [lia..|].
  case_decide as Hv; [|right; congruence]. subst v.
  assert (length (take 16 rest) = 16) as Hlen by (rewrite length_take; lia).
  unfold uuid_from_bytes. rewrite Hlen. simpl. split.
  - apply N.ltb_lt. pose proof (be_val_lt (take 16 rest)) as Hlt.
    rewrite Hlen in Hlt. exact Hlt.
  - unfold EncodeStreamFrame, uuid_bytes. rewrite <-Hlen at 1.
    by rewrite be_bytes_val, take_drop.
Qed.

(** ** Envelopes *)

(* internal/protocol/protocol.go:72-80 Envelope *)
Record Envelope : Type := mkEnvelope {
  env_Protocol : Z;
  env_Type : string;
  env_MessageID : string;
  env_RequestID : option string;
  env_Timestamp : time;
  env_Payload : bytes }.

Inductive codec_error : Type :=
| ErrMarshal
| ErrDecode
| ErrInvalidEnvelope.

(** What [encoding/json] gives for a type: [Marshal] and [Unmarshal], and
    which values have a faithful text form: those whose strings are valid UTF-8
    ([Marshal] replaces other bytes) and whose times have a four-digit year
    ([Marshal] refuses others). *)
Class Json (T : Type) : Type := {
  json_marshal : T → option bytes;
  json_unmarshal : bytes → option T;
  json_faithful : T → Prop }.
(** Decoding the encoder's own output gives such a value back. *)
Class JsonLaws (T : Type) `{Json T} : Prop := {
  json_roundtrip x b : json_faithful x → json_marshal x = Some b → json_unmarshal b = Some x;
  json_total x : json_faithful x → ∃ b, json_marshal x = Some b;
  json_nonempty x b : json_marshal x = Some b → b ≠ [] }.

Section codec.
Context `{!Json Envelope}.

(* internal/protocol/codec.go:16-35 Encode *)
Definition Encode {P} `{!Json P} (msgType : string) (requestID : option string)
    (payload : P) (newMessageID : string) (now : time) : res codec_error bytes :=
  match json_marshal payload with
  | None => Err ErrMarshal
  | Some body =>
      match json_marshal (mkEnvelope Version msgType newMessageID requestID now body) with
      | None => Err ErrMarshal
      | Some out => Ok out
      end
  end.

(* internal/protocol/codec.go:37-47 Decode *)
Definition Decode (raw : bytes) : res codec_error Envelope :=
  match json_unmarshal raw with
  | None => Err ErrDecode
  | Some env =>
      if (Z.eqb (env_Protocol env) 0) || String.eqb (env_Type env) "" ||
         String.eqb (env_MessageID env) ""
      then Err ErrInvalidEnvelope
      else Ok env
  end.

(* internal/protocol/codec.go:49-58 DecodePayload *)
Definition DecodePayload {P} `{!Json P} (env : Envelope) : res codec_error P :=
  match env_Payload env with
  | [] => Err ErrInvalidEnvelope
  | _ => match json_unmarshal (env_Payload env) with
         | None => Err ErrDecode
         | Some p => Ok p
         end
  end.

(** A message the wire carries faithfully: a type and an id, a payload with a
    faithful text form, and, around the bytes [Marshal] makes of that payload,
    an envelope with one. *)
Definition sendable {P} `{!Json P} (ty : string) (req : option string) (p : P) (mid : string) (now : time) : Prop :=
  ty ≠ ""%string ∧ mid ≠ ""%string ∧ json_faithful p ∧
  ∀ body, json_marshal p = Some body → json_faithful (mkEnvelope Version ty mid req now body).

Lemma envelope_decodes {P} `{!Json P, !JsonLaws P, !JsonLaws Envelope}
    ty req (p : P) mid now raw :
  sendable ty req p mid now → Encode ty req p mid now = Ok raw →
  ∃ body, Decode raw = Ok (mkEnvelope Version ty mid req now body) ∧
    DecodePayload (mkEnvelope Version ty mid req now body) = Ok p.
Proof.
  intros (Hty & Hmid & Hfp & Hfe). unfold Encode.
  destruct (json_marshal p) as [b|] eqn:Hp; [|done]. specialize (Hfe b eq_refl).
  destruct (json_marshal (mkEnvelope _ _ _ _ _ _)) as [out|] eqn:He; [|done]. intros [= ->].
  pose proof (json_nonempty _ _ Hp) as Hne. apply json_roundtrip in He, Hp; [|done..].
  unfold Decode. rewrite He. simpl.
  apply String.eqb_neq in Hty, Hmid. rewrite Hty, Hmid. simpl.
  exists b. split; [done|].
  unfold DecodePayload. simpl. rewrite Hp. by destruct b.
Qed.

Lemma encode_decode {P} `{!Json P, !JsonLaws P, !JsonLaws Envelope} ty req (p : P) mid ts :
  sendable ty req p mid ts →
  ∃ raw body, Encode ty req p mid ts = Ok raw ∧ Decode raw = Ok (mkEnvelope Version ty mid req ts body) ∧
    DecodePayload (mkEnvelope Version ty mid req ts body) = Ok p.
Proof.
  intros Hs. assert (∃ raw, Encode ty req p mid ts = Ok raw) as [raw Hraw].
  { destruct Hs as (_ & _ & Hp & He). unfold Encode. destruct (json_total p Hp) as [b Hb]. rewrite Hb.
    destruct (json_total _ (He b Hb)) as [o ->]. by eexists. }
  destruct (envelope_decodes _ _ _ _ _ _ Hs Hraw) as (body & Hd & Hb). by exists raw, body.
Qed.

(** What one side [Encode]s the other side [Decode]s: the envelope
    comes back with the type, ids and payload it was built from, and the
    payload decodes to the value that was sent. *)
Theorem envelope_roundtrip {P} `{!Json P, !JsonLaws P, !JsonLaws Envelope}
    ty req (p : P) mid now raw :
  sendable ty req p mid now → Encode ty req p mid now = Ok raw →
  ∃ env, Decode raw = Ok env ∧ env_Type env = ty ∧ env_MessageID env = mid ∧
    env_RequestID env = req ∧ env_Protocol env = Version ∧ env_Timestamp env = now ∧
    DecodePayload env = Ok p.
Proof.
  intros Hs Hraw. destruct (envelope_decodes _ _ _ _ _ _ Hs Hraw) as (body & Hd & Hb).
  by eexists.
Qed.

(** An envelope without protocol version, type or message id never
    passes [Decode]. *)
Theorem decode_rejects_incomplete raw env :
  Decode raw = Ok env →
  env_Protocol env ≠ 0%Z ∧ env_Type env ≠ ""%string ∧ env_MessageID env ≠ ""%string.
Proof.
  unfold Decode. intros. case_all.
  match goal with H : _ || _ = false |- _ => rename H into Hb end.
  apply orb_false_iff in Hb as [[? ?]%orb_false_iff ?].
  repeat split; [by apply Z.eqb_neq | by apply String.eqb_neq..].
Qed.
End codec.

(** ** A concrete codec

    Any countable type has a codec that satisfies the laws; it shows that
    the hypotheses of [envelope_roundtrip] can hold. *)

Fixpoint pos_bits (p : positive) : bytes :=
  match p with
  | xH => [byte_of 2]
  | xO q => byte_of 0 :: pos_bits q
  | xI q => byte_of 1 :: pos_bits q
  end.
Fixpoint bits_pos (b : bytes) : positive :=
  match b with
  | [] => xH
  | x :: b' =>
      if (byte_val x =? 0)%N then xO (bits_pos b')
      else if (byte_val x =? 1)%N then xI (bits_pos b') else xH
  end.

Lemma bits_pos_bits p : bits_pos (pos_bits p) = p.
Proof. induction p; simpl; congruence. Qed.

Definition countable_json (T : Type) `{Countable T} : Json T := {|
  json_marshal x := Some (pos_bits (encode x));
  json_unmarshal b := decode (bits_pos b);
  json_faithful _ := True |}.

Lemma countable_json_laws (T : Type) `{Countable T} : @JsonLaws T (countable_json T).
Proof.
  split; simpl; [intros x b _ [= <-]|by eauto|intros x b [= <-]].
  - by rewrite bits_pos_bits, decode_encode.
  - by destruct (encode x).
Qed.

#[export] Instance Envelope_eq_dec : EqDecision Envelope.
Proof. solve_decision. Defined.
#[export] Instance Envelope_countable : Countable Envelope.
Proof.
  apply (inj_countable'
    (λ e, (env_Protocol e, env_Type e, env_MessageID e, env_RequestID e, env_Timestamp e,
           env_Payload e))
    (λ '(p, t, m, r, ts, b), mkEnvelope p t m r ts b)).
  by intros [].
Defined.

Lemma envelope_roundtrip_witness :
  ∃ raw env,
    @Encode (countable_json Envelope) Z (countable_json Z) TypeHeartbeat None 7%Z "m1" 5%Z = Ok raw ∧
    @Decode (countable_json Envelope) raw = Ok env ∧
    @DecodePayload Z (countable_json Z) env = Ok 7%Z.
Proof.
  destruct (@envelope_roundtrip (countable_json Envelope) Z (countable_json Z)
    (countable_json_laws Z) (countable_json_laws Envelope)
    TypeHeartbeat None 7%Z "m1" 5%Z _ ltac:(by repeat split) eq_refl)
    as (env & Hd & _ & _ & _ & _ & _ & Hp).
  eexists _, env. split; [reflexivity|]. split; [exact Hd|exact Hp].
Defined.

Lemma decode_rejects_incomplete_witness :
  ∃ raw env, @Decode (countable_json Envelope) raw = Ok env ∧ env_Type env ≠ ""%string.
Proof.
  pose (env := mkEnvelope 1 TypeHeartbeat "m1" None 0 []).
  exists (pos_bits (encode env)), env.
  assert (@Decode (countable_json Envelope) (pos_bits (encode env)) = Ok env) as Hd
    by (vm_compute; reflexivity).
  split; [exact Hd|].
  exact (proj1 (proj2 (@decode_rejects_incomplete (countable_json Envelope) _ _ Hd))).
Defined.
