(* ===== verification/Rbac.v ===== *)
(** Role-based access control ([internal/auth/rbac.go], [permissions.go]):
    the decision every protected route of the admin API makes. *)
From S2P Require Import Prelude.

(** ** Permission and scope names *)

(* internal/auth/permissions.go:6-6 PermDeviceRead *)
Definition PermDeviceRead : string := "device.read".
(* internal/auth/permissions.go:7-7 PermDeviceManage *)
Definition PermDeviceManage : string := "device.manage".
(* internal/auth/permissions.go:8-8 PermCustomerRead *)
Definition PermCustomerRead : string := "customer.read".
(* internal/auth/permissions.go:9-9 PermCustomerManage *)
Definition PermCustomerManage : string := "customer.manage".
(* internal/auth/permissions.go:10-10 PermMonitoringRead *)
Definition PermMonitoringRead : string := "monitoring.read".
(* internal/auth/permissions.go:11-11 PermRemoteTerminal *)
Definition PermRemoteTerminal : string := "remote.terminal".
(* internal/auth/permissions.go:12-12 PermRemoteTunnelSSH *)
Definition PermRemoteTunnelSSH : string := "remote.tunnel.ssh".
(* internal/auth/permissions.go:13-13 PermRemoteTunnelRDP *)
Definition PermRemoteTunnelRDP : string := "remote.tunnel.rdp".
(* internal/auth/permissions.go:14-14 PermRemoteFilesRead *)
Definition PermRemoteFilesRead : string := "remote.files.read".
(* internal/auth/permissions.go:15-15 PermRemoteFilesWrite *)
Definition PermRemoteFilesWrite : string := "remote.files.write".
(* internal/auth/permissions.go:16-16 PermRemoteServiceControl *)
Definition PermRemoteServiceControl : string := "remote.service.control".
(* internal/auth/permissions.go:17-17 PermRemoteProcessTerminate *)
Definition PermRemoteProcessTerminate : string := "remote.process.terminate".
(* internal/auth/permissions.go:18-18 PermRemotePower *)
Definition PermRemotePower : string := "remote.power".
(* internal/auth/permissions.go:19-19 PermPrivilegeRequest *)
Definition PermPrivilegeRequest : string := "privilege.request".
(* internal/auth/permissions.go:20-20 PermMaintenanceRead *)
Definition PermMaintenanceRead : string := "maintenance.read".
(* internal/auth/permissions.go:21-21 PermMaintenanceWrite *)
Definition PermMaintenanceWrite : string := "maintenance.write".
(* internal/auth/permissions.go:22-22 PermAuditRead *)
Definition PermAuditRead : string := "audit.read".
(* internal/auth/permissions.go:23-23 PermEnrollmentCreate *)
Definition PermEnrollmentCreate : string := "enrollment.create".
(* internal/auth/permissions.go:24-24 PermCredentialRevoke *)
Definition PermCredentialRevoke : string := "credential.revoke".
(* internal/auth/permissions.go:25-25 PermAgentUpdate *)
Definition PermAgentUpdate : string := "agent.update".
(* internal/auth/permissions.go:26-26 PermUserManage *)
Definition PermUserManage : string := "user.manage".
(* internal/auth/permissions.go:27-27 PermRoleManage *)
Definition PermRoleManage : string := "role.manage".
(* internal/auth/permissions.go:28-28 PermSystemSettings *)
Definition PermSystemSettings : string := "system.settings".
(* internal/auth/permissions.go:29-29 PermAlertManage *)
Definition PermAlertManage : string := "alert.manage".
(* internal/auth/permissions.go:36-36 ScopeGlobal *)
Definition ScopeGlobal : string := "global".
(* internal/auth/permissions.go:37-37 ScopeCustomer *)
Definition ScopeCustomer : string := "customer".
(* internal/auth/permissions.go:38-38 ScopeGroup *)
Definition ScopeGroup : string := "group".

(* internal/auth/repo.go:253-259 PermissionGrant *)
Record PermissionGrant : Type := mkGrant {
  g_Permission : string;
  g_Scope : string;
  g_ScopeID : option uuid }.

(* internal/auth/rbac.go:5-11 Resource *)
Record Resource : Type := mkResource {
  res_CustomerID : option uuid;
  res_GroupID : option uuid }.

(** [a != nil && b != nil && *a == *b] *)
Definition ptr_eq (a b : option uuid) : bool :=
  match a, b with
  | Some x, Some y => (x =? y)%N
  | _, _ => false
  end.

(* internal/auth/rbac.go:13-35 HasPermission *)
Fixpoint HasPermission (grants : list PermissionGrant) (permission : string)
    (resource : Resource) : bool :=
  match grants with
  | [] => false
  | g :: rest =>
      if negb (String.eqb (g_Permission g) permission) then
        HasPermission rest permission resource
      else if String.eqb (g_Scope g) ScopeGlobal then true
      else if String.eqb (g_Scope g) ScopeCustomer then
        if ptr_eq (res_CustomerID resource) (g_ScopeID g) then true
        else HasPermission rest permission resource
      else if String.eqb (g_Scope g) ScopeGroup then
        if ptr_eq (res_GroupID resource) (g_ScopeID g) then true
        else HasPermission rest permission resource
      else HasPermission rest permission resource
  end.

(* internal/auth/rbac.go:37-47 HasAnyGrant *)
Fixpoint HasAnyGrant (grants : list PermissionGrant) (permission : string) : bool :=
  match grants with
  | [] => false
  | g :: rest => if String.eqb (g_Permission g) permission then true
                 else HasAnyGrant rest permission
  end.

(** ** What the matrix of docs/PERMISSIONS.md says a grant covers *)

Definition covers (g : PermissionGrant) (r : Resource) : Prop :=
  g_Scope g = ScopeGlobal ∨
  (g_Scope g = ScopeCustomer ∧ ∃ c, res_CustomerID r = Some c ∧ g_ScopeID g = Some c) ∨
  (g_Scope g = ScopeGroup ∧ ∃ c, res_GroupID r = Some c ∧ g_ScopeID g = Some c).

Lemma ptr_eq_true a b : ptr_eq a b = true ↔ ∃ c, a = Some c ∧ b = Some c.
Proof.
  destruct a as [x|], b as [y|]; simpl; [rewrite N.eqb_eq|..];
    (split; [intros H; first [discriminate|subst; by eauto]|intros (c & Ha & Hb); congruence]).
Qed.

(** One iteration of the loop either returns or moves on. *)
Lemma HasPermission_cons g gs p r :
  HasPermission (g :: gs) p r = true ↔
    (g_Permission g = p ∧ covers g r) ∨ HasPermission gs p r = true.
Proof.
  simpl. unfold covers.
  destruct (String.eqb_spec (g_Permission g) p) as [Hp|Hp]; simpl; [|tauto].
  destruct (String.eqb_spec (g_Scope g) ScopeGlobal) as [|Hg]; [by split; auto 9|].
  destruct (String.eqb_spec (g_Scope g) ScopeCustomer) as [Hc|Hc].
  - rewrite <-ptr_eq_true. destruct (ptr_eq _ _); [by split; auto 9|].
    split; [by auto|]. intros [[_ [?|[[_ ?]|[Hs _]]]]|?]; try done. rewrite Hc in Hs. discriminate Hs.
  - rewrite <-!ptr_eq_true.
    destruct (String.eqb_spec (g_Scope g) ScopeGroup) as [Hs|Hs]; [|tauto].
    destruct (ptr_eq (res_GroupID r) _); [by split; auto 9|]. split; [by auto|tauto || (intros; intuition congruence)].
Qed.

Lemma HasPermission_iff gs p r :
  HasPermission gs p r = true ↔ ∃ g, g ∈ gs ∧ g_Permission g = p ∧ covers g r.
Proof.
  induction gs as [|g gs IH]; [split; [done|intros (g & H & _); inversion H]|].
  rewrite HasPermission_cons, IH. setoid_rewrite elem_of_cons. naive_solver.
Qed.

(** Default-deny RBAC: access is allowed exactly when some grant of the
    caller names the permission and covers the resource, globally or by the
    resource's own customer or group. *)
Theorem HasPermission_spec gs p r :
  HasPermission gs p r = true ↔ ∃ g, g ∈ gs ∧ g_Permission g = p ∧ covers g r.
Proof. apply HasPermission_iff. Qed.

Lemma HasAnyGrant_spec gs p :
  HasAnyGrant gs p = true ↔ ∃ g, g ∈ gs ∧ g_Permission g = p.
Proof.
  induction gs as [|g gs IH]; simpl; [split; [done|intros (g & H & _); inversion H]|].
  setoid_rewrite elem_of_cons.
  destruct (String.eqb_spec (g_Permission g) p); [naive_solver|]. rewrite IH. naive_solver.
Qed.

(** An action on the system as a whole (user management, settings) is
    open only to a global grant; customer- or group-scoped grants never
    reach it. *)
Theorem HasPermission_global_only gs p :
  HasPermission gs p (mkResource None None) = true ↔
    ∃ g, g ∈ gs ∧ g_Permission g = p ∧ g_Scope g = ScopeGlobal.
Proof. rewrite HasPermission_iff. unfold covers. simpl. naive_solver. Qed.

(** The decision does not depend on the order in which the database
    returned the grants, extra grants never take access away, and a caller
    with access always also passes the coarse [HasAnyGrant] check. *)
Theorem HasPermission_mono gs gs' p r :
  (∀ g, g ∈ gs → g ∈ gs') → HasPermission gs p r = true →
  HasPermission gs' p r = true ∧ HasAnyGrant gs' p = true.
Proof. rewrite !HasPermission_iff, HasAnyGrant_spec. naive_solver. Qed.

Lemma HasPermission_mono_witness :
  HasPermission
    [mkGrant PermAuditRead ScopeGlobal None; mkGrant PermDeviceRead ScopeCustomer (Some 7%N)]
    PermDeviceRead (mkResource (Some 7%N) None) = true.
Proof.
  apply (HasPermission_mono [mkGrant PermDeviceRead ScopeCustomer (Some 7%N)]); [|reflexivity].
  intros g Hg. right. exact Hg.
Defined.
