(* ===== verification/RateLimit.v ===== *)
(** The in-process rate limiter of [internal/auth/ratelimit.go], in front of
    login, MFA and re-authentication. *)
From S2P Require Import Prelude.

(* internal/auth/ratelimit.go:8-18 RateLimiter *)
Record RateLimiter : Type := mkLimiter {
  rl_limit : Z;
  rl_window : duration;
  rl_hits : gmap string (list time) }.

(* internal/auth/ratelimit.go:20-22 NewRateLimiter *)
Definition NewRateLimiter (limit : Z) (window : duration) : RateLimiter :=
  mkLimiter limit window ∅.

Definition kept_hits (cutoff : time) (times : list time) : list time :=
  filter (λ t, After t cutoff = true) times.

(* internal/auth/ratelimit.go:24-46 Allow *)
Definition Allow (r : RateLimiter) (key : string) (now : time) : bool * RateLimiter :=
  let cutoff := (now - rl_window r)%Z in
  let times := default [] (rl_hits r !! key) in
  let kept := kept_hits cutoff times in
  if (rl_limit r <=? Z.of_nat (length kept))%Z then
    (false, mkLimiter (rl_limit r) (rl_window r) (<[key := kept]> (rl_hits r)))
  else
    (true, mkLimiter (rl_limit r) (rl_window r) (<[key := kept ++ [now]]> (rl_hits r))).

(** ** Traces of calls *)

(** The clock readings of the admitted calls for [k], oldest first, and the
    limiter after the trace. *)
Fixpoint admitted (k : string) (r : RateLimiter) (calls : list (string * time))
    : list time * RateLimiter :=
  match calls with
  | [] => ([], r)
  | (key, now) :: rest =>
      let '(ok, r') := Allow r key now in
      let '(ts, r'') := admitted k r' rest in
      (if ok && String.eqb key k then now :: ts else ts, r'')
  end.

(** The clock never runs backwards along a trace. *)
Fixpoint clock_from (now : time) (calls : list (string * time)) : Prop :=
  match calls with
  | [] => True
  | (_, t) :: rest => (now ≤ t)%Z ∧ clock_from t rest
  end.

(** [ts] within the window of length [w] that ends at [x]. *)
Definition in_window (w : duration) (x : time) (ts : list time) : list time :=
  filter (λ t, x - w < t ∧ t ≤ x)%Z ts.

(** What the limiter remembers about a key, given everything it admitted. *)
Definition remembers (w : duration) (now : time) (adm hits : list time) : Prop :=
  Forall (λ t, t ≤ now)%Z adm ∧
  ∃ c, (c ≤ now - w)%Z ∧ hits = filter (λ t, c < t)%Z adm.

Lemma Forall_le_mono (a b : Z) (l : list Z) :
  Forall (λ t, t ≤ a)%Z l → (a ≤ b)%Z → Forall (λ t, t ≤ b)%Z l.
Proof. intros H Hab. induction H; constructor; [lia|done]. Qed.

Lemma filter_filter_lt (a b : Z) (l : list Z) :
  (a ≤ b)%Z → filter (λ t, b < t)%Z (filter (λ t, a < t)%Z l) = filter (λ t, b < t)%Z l.
Proof.
  intros Hab. induction l as [|x l IH]; [done|].
  rewrite (filter_cons (λ t, a < t)%Z), (filter_cons (λ t, b < t)%Z _ l).
  repeat case_decide; rewrite ?filter_cons; repeat case_decide; congruence || lia.
Qed.

Lemma kept_hits_filter c l : kept_hits c l = filter (λ t, c < t)%Z l.
Proof.
  unfold kept_hits. apply list_filter_iff. intros t. unfold After. apply Z.ltb_lt.
Qed.

Lemma remembers_kept w now now' adm hits :
  remembers w now adm hits → (now ≤ now')%Z →
  kept_hits (now' - w) hits = filter (λ t, now' - w < t)%Z adm.
Proof.
  intros (_ & c & Hc & ->) Hle. rewrite kept_hits_filter. apply filter_filter_lt. lia.
Qed.

Lemma remembers_deny w now now' adm hits :
  remembers w now adm hits → (now ≤ now')%Z →
  remembers w now' adm (kept_hits (now' - w) hits).
Proof.
  intros Hr Hle. pose proof (remembers_kept _ _ _ _ _ Hr Hle) as ->.
  destruct Hr as [Hall _]. split; [|by exists (now' - w)%Z].
  by eapply Forall_le_mono.
Qed.

Lemma remembers_admit w now now' adm hits :
  (0 < w)%Z → remembers w now adm hits → (now ≤ now')%Z →
  remembers w now' (adm ++ [now']) (kept_hits (now' - w) hits ++ [now']).
Proof.
  intros Hw Hr Hle. pose proof (remembers_kept _ _ _ _ _ Hr Hle) as ->.
  destruct Hr as [Hall _]. split.
  - apply Forall_app. split; [|by constructor; [lia|]].
    by eapply Forall_le_mono.
  - exists (now' - w)%Z. split; [lia|]. rewrite list.filter_app. f_equal.
    rewrite filter_cons, decide_True by lia. done.
Qed.

Lemma in_window_admit w x now adm :
  (x - w < now ≤ x)%Z →
  length (in_window w x (adm ++ [now])) ≤ S (length (filter (λ t, now - w < t)%Z adm)).
Proof.
  intros Hx. unfold in_window. rewrite list.filter_app, length_app, filter_cons, decide_True by lia.
  simpl. rewrite Nat.add_1_r. apply le_n_S.
  induction adm as [|a adm IH]; [done|]. rewrite !filter_cons.
  repeat case_decide; simpl; lia.
Qed.

Lemma in_window_other w x now adm :
  ¬ (x - w < now ≤ x)%Z → in_window w x (adm ++ [now]) = in_window w x adm.
Proof.
  intros Hx. unfold in_window. rewrite list.filter_app, filter_cons, decide_False by done.
  apply app_nil_r.
Qed.

Lemma Allow_hits_other r key now ok r' k :
  Allow r key now = (ok, r') → key ≠ k → rl_hits r' !! k = rl_hits r !! k.
Proof. unfold Allow. intros. case_all; by rewrite lookup_insert_ne. Qed.

Lemma Allow_params r key now ok r' :
  Allow r key now = (ok, r') → rl_limit r' = rl_limit r ∧ rl_window r' = rl_window r.
Proof. unfold Allow. intros. case_all; done. Qed.

Lemma Allow_same r k now ok r' :
  Allow r k now = (ok, r') →
  let kept := kept_hits (now - rl_window r) (default [] (rl_hits r !! k)) in
  (ok = false ∧ default [] (rl_hits r' !! k) = kept ∧
     (rl_limit r' ≤ Z.of_nat (length kept))%Z) ∨
  (ok = true ∧ default [] (rl_hits r' !! k) = kept ++ [now] ∧
     (Z.of_nat (length kept) < rl_limit r')%Z).
Proof.
  unfold Allow. case_match eqn:E; intros [= <- <-]; reflect_bools; simpl;
    rewrite lookup_insert_eq; [left|right]; done.
Qed.

Lemma admitted_window k w x r calls now adm ts r' :
  rl_window r = w → (0 < w)%Z → (0 ≤ rl_limit r)%Z →
  remembers w now adm (default [] (rl_hits r !! k)) →
  (Z.of_nat (length (in_window w x adm)) ≤ rl_limit r)%Z →
  clock_from now calls → admitted k r calls = (ts, r') →
  (Z.of_nat (length (in_window w x (adm ++ ts))) ≤ rl_limit r)%Z.
Proof.
  intros Hwin Hw Hl. revert r now adm ts r' Hwin Hl.
  induction calls as [|[key t] calls IH]; intros r now adm ts r' Hwin Hl Hrem Hcnt Hck Hadm.
  { simplify_eq/=. by rewrite app_nil_r. }
  simpl in Hadm, Hck. destruct Hck as [Hle Hck].
  destruct (Allow r key t) as [ok r1] eqn:Ha.
  destruct (admitted k r1 calls) as [ts1 r2] eqn:Hrest.
  destruct (Allow_params _ _ _ _ _ Ha) as [Hl1 Hw1].
  assert (Hmono : remembers w t adm (default [] (rl_hits r !! k))).
  { destruct Hrem as (Hall & c & Hc & Hh). split; [|exists c; split; [lia|done]].
    by eapply Forall_le_mono. }
  rewrite <-Hl1 in Hl, Hcnt |- *. rewrite <-Hw1 in Hwin.
  destruct (String.eqb_spec key k) as [->|Hne].
  - destruct (Allow_same _ _ _ _ _ Ha) as [(-> & Hh & _)|(-> & Hh & Hlt)];
      simpl in Hadm; simplify_eq.
    + eapply (IH r1 t); [done|done| |done|done|exact Hrest].
      rewrite Hh. rewrite Hw1 in *. by eapply remembers_deny.
    + rewrite cons_middle, (assoc app).
      eapply (IH r1 t); [done|done| | |done|exact Hrest].
      * rewrite Hh. rewrite Hw1 in *. by eapply remembers_admit.
      * destruct (decide (x - rl_window r1 < t ∧ t ≤ x)%Z) as [Hin|Hout];
          [|by rewrite in_window_other].
        pose proof (in_window_admit (rl_window r1) x t adm Hin).
        rewrite <-Hw1, (remembers_kept _ _ _ _ _ Hrem Hle) in Hlt. lia.
  - rewrite andb_false_r in Hadm. simplify_eq/=.
    eapply (IH r1 t); [done|done| |done|done|exact Hrest].
    by rewrite (Allow_hits_other _ _ _ _ _ _ Ha Hne).
Qed.

(** Whatever sequence of attempts arrives, for whatever keys, no window
    of the configured length ever contains more admitted attempts of one key
    than the limit. *)
Theorem rate_limit_bound limit window calls start k x ts r' :
  (0 < window)%Z → (0 ≤ limit)%Z → clock_from start calls →
  admitted k (NewRateLimiter limit window) calls = (ts, r') →
  (Z.of_nat (length (in_window window x ts)) ≤ limit)%Z.
Proof.
  intros Hw Hl Hck Hadm.
  apply (admitted_window k window x (NewRateLimiter limit window) calls start [] ts r'); simpl;
    rewrite ?lookup_empty; try done.
  split; [done|]. exists (start - window)%Z. split; [lia|done].
Qed.

Lemma rate_limit_bound_witness :
  (Z.of_nat (length (in_window 60 61 (admitted "login:1.2.3.4" (NewRateLimiter 2 60)
    [("login:1.2.3.4", 1); ("login:1.2.3.4", 2); ("login:1.2.3.4", 3);
     ("login:1.2.3.4", 61)]%Z).1)) ≤ 2)%Z.
Proof.
  eapply (rate_limit_bound 2 60
    [("login:1.2.3.4", 1); ("login:1.2.3.4", 2); ("login:1.2.3.4", 3);
     ("login:1.2.3.4", 61)]%Z 0); [lia|lia|simpl; lia|].
  apply surjective_pairing.
Defined.

Lemma remembers_later w now now' adm hits :
  remembers w now adm hits → (now ≤ now')%Z → remembers w now' adm hits.
Proof.
  intros (Hall & c & Hc & Hh) Hle. split; [by eapply Forall_le_mono|]. exists c. split; [lia|done].
Qed.

(** What the limiter remembers at the time [t] of the call after a trace. *)
Lemma admitted_remembers k w r calls now adm ts r' t :
  rl_window r = w → (0 < w)%Z → remembers w now adm (default [] (rl_hits r !! k)) →
  clock_from now (calls ++ [(k, t)]) → admitted k r calls = (ts, r') →
  rl_limit r' = rl_limit r ∧ rl_window r' = w ∧ remembers w t (adm ++ ts) (default [] (rl_hits r' !! k)).
Proof.
  revert r now adm ts. induction calls as [|[key x] calls IH]; intros r now adm ts Hw Hpos Hrem Hck Hadm.
  { simplify_eq/=. rewrite app_nil_r. split_and!; [done..|]. eapply remembers_later; [done|lia]. }
  simpl in Hadm, Hck. destruct Hck as [Hle Hck].
  destruct (Allow r key x) as [ok r1] eqn:Ha, (admitted k r1 calls) as [ts1 r2] eqn:Hrest.
  destruct (Allow_params _ _ _ _ _ Ha) as [<- Hw1]. rewrite Hw in Hw1.
  destruct (String.eqb_spec key k) as [->|Hne].
  - destruct (Allow_same _ _ _ _ _ Ha) as [(-> & Hh & _)|(-> & Hh & _)]; simpl in Hadm; simplify_eq; rewrite ?cons_middle, ?(assoc app);
      (eapply (IH r1 x); [done|done| |done|done]); rewrite Hh; [by eapply remembers_deny|by eapply remembers_admit].
  - rewrite andb_false_r in Hadm. simplify_eq/=. eapply (IH r1 x); [done|done| |done|done].
    rewrite (Allow_hits_other _ _ _ _ _ _ Ha Hne). by eapply remembers_later.
Qed.


