(* ===== verification/Base64.v ===== *)
(** The base64 codecs of Go's standard library that tokens, tickets, password
    hashes and signatures are written with: [RawURLEncoding],
    [RawStdEncoding] and [StdEncoding] of [encoding/base64], and the
    lower-case hexadecimal of [encoding/hex]. *)
From S2P Require Import Prelude.

Definition std_alphabet : string :=
  "ABCDEFGHIJKLMNOPQRSTUVWXYZabcdefghijklmnopqrstuvwxyz0123456789+/".
Definition url_alphabet : string :=
  "ABCDEFGHIJKLMNOPQRSTUVWXYZabcdefghijklmnopqrstuvwxyz0123456789-_".

Definition char_at (alpha : bytes) (v : N) : byte :=
  default "000"%char (alpha !! N.to_nat v).
Fixpoint index_of (alpha : bytes) (c : byte) : option N :=
  match alpha with
  | [] => None
  | a :: rest => if decide (a = c) then Some 0%N else N.succ <$> index_of rest c
  end.

(** The 6-bit digits of a byte string; a last group of one or two bytes gives
    two or three digits. *)
Fixpoint to_digits (b : bytes) : list N :=
  match b with
  | x :: y :: z :: rest =>
      let '(x, y, z) := (byte_val x, byte_val y, byte_val z) in
      (x / 4) :: (x mod 4 * 16 + y / 16) :: (y mod 16 * 4 + z / 64) :: (z mod 64) ::
      to_digits rest
  | [x; y] => let '(x, y) := (byte_val x, byte_val y) in
      [x / 4; x mod 4 * 16 + y / 16; y mod 16 * 4]
  | [x] => let x := byte_val x in [x / 4; x mod 4 * 16]
  | [] => []
  end%N.

(** Decoding is not strict: bits left over in the last digit are ignored; a
    single left-over digit is corrupt input. *)
Fixpoint of_digits (d : list N) : option bytes :=
  match d with
  | a :: b :: c :: e :: rest =>
      (λ r, byte_of (a * 4 + b / 16) :: byte_of (b mod 16 * 16 + c / 4) ::
            byte_of (c mod 4 * 64 + e) :: r)%N <$> of_digits rest
  | [a; b; c] => Some [byte_of (a * 4 + b / 16); byte_of (b mod 16 * 16 + c / 4)]
  | [a; b] => Some [byte_of (a * 4 + b / 16)]
  | [_] => None
  | [] => Some []
  end%N.

(** The decoder skips CR and LF wherever they stand. *)
Definition is_newline (c : byte) : bool := (byte_val c =? 10)%N || (byte_val c =? 13)%N.
Definition strip_newlines (b : bytes) : bytes := filter (λ c, is_newline c = false) b.

Definition raw_encode (alpha : string) (b : bytes) : string :=
  bytes_str (char_at (str_bytes alpha) <$> to_digits b).
Definition raw_decode (alpha : string) (s : string) : option bytes :=
  mapM (index_of (str_bytes alpha)) (strip_newlines (str_bytes s)) ≫= of_digits.

Definition pad_char : byte := "="%char.
(** The digits of a padded text: complete groups of four, of which the last
    may end in one or two padding characters. *)
Fixpoint unpad (b : bytes) : option bytes :=
  match b with
  | [] => Some []
  | [w; x; y; z] =>
      if decide (z = pad_char) then
        if decide (y = pad_char) then Some [w; x] else Some [w; x; y]
      else Some [w; x; y; z]
  | w :: x :: y :: z :: rest => (λ r, w :: x :: y :: z :: r) <$> unpad rest
  | _ => None
  end.
Definition padding (n : nat) : bytes :=
  match n mod 3 with 0 => [] | 1 => [pad_char; pad_char] | _ => [pad_char] end.

Definition std_encode (b : bytes) : string :=
  bytes_str ((char_at (str_bytes std_alphabet) <$> to_digits b) ++ padding (length b)).
Definition std_decode (s : string) : option bytes :=
  d ← unpad (strip_newlines (str_bytes s));
  mapM (index_of (str_bytes std_alphabet)) d ≫= of_digits.

(** [encoding/hex] *)
Definition hex_alphabet : string := "0123456789abcdef".
Definition hex_digit (c : byte) : option N :=
  let v := byte_val c in
  if (48 <=? v)%N && (v <=? 57)%N then Some (v - 48)%N
  else if (97 <=? v)%N && (v <=? 102)%N then Some (v - 87)%N
  else if (65 <=? v)%N && (v <=? 70)%N then Some (v - 55)%N
  else None.
Fixpoint hex_bytes (b : bytes) : bytes :=
  match b with
  | [] => []
  | x :: rest =>
      char_at (str_bytes hex_alphabet) (byte_val x / 16) ::
      char_at (str_bytes hex_alphabet) (byte_val x mod 16) :: hex_bytes rest
  end%N.
Fixpoint unhex_bytes (b : bytes) : option bytes :=
  match b with
  | [] => Some []
  | h :: l :: rest =>
      h ← hex_digit h; l ← hex_digit l; r ← unhex_bytes rest; Some (byte_of (h * 16 + l) :: r)
  | [_] => None
  end%N.
Definition hex_encode (b : bytes) : string := bytes_str (hex_bytes b).
Definition hex_decode (s : string) : option bytes := unhex_bytes (str_bytes s).

(** ** Round trips *)

(** An alphabet is usable when its 64 characters are distinct, none is a
    newline and none is the padding character. *)
Definition good_alphabet (alpha : string) : bool :=
  forallb (λ n, let v := N.of_nat n in
    bool_decide (index_of (str_bytes alpha) (char_at (str_bytes alpha) v) = Some v) &&
    negb (is_newline (char_at (str_bytes alpha) v)) &&
    bool_decide (char_at (str_bytes alpha) v ≠ pad_char)) (seq 0 64).

Lemma std_alphabet_good : good_alphabet std_alphabet = true.
Proof. vm_compute. reflexivity. Qed.
Lemma url_alphabet_good : good_alphabet url_alphabet = true.
Proof. vm_compute. reflexivity. Qed.

Lemma good_alphabet_char alpha v :
  good_alphabet alpha = true → (v < 64)%N →
  index_of (str_bytes alpha) (char_at (str_bytes alpha) v) = Some v ∧
  is_newline (char_at (str_bytes alpha) v) = false ∧
  char_at (str_bytes alpha) v ≠ pad_char.
Proof.
  unfold good_alphabet. rewrite forallb_forall. intros Hg Hv.
  specialize (Hg (N.to_nat v)). rewrite in_seq, N2Nat.id in Hg.
  specialize (Hg ltac:(lia)). by reflect_bools.
Qed.

Ltac byte_lia :=
  repeat match goal with
  | x : ascii |- _ =>
      lazymatch goal with
      | _ : (byte_val x < 256)%N |- _ => fail
      | _ => pose proof (byte_val_lt x)
      end
  end;
  zify; Z.to_euclidean_division_equations; lia.

(** Induction in steps of three. *)
Lemma three_ind {A} (P : list A → Prop) :
  P [] → (∀ x, P [x]) → (∀ x y, P [x; y]) →
  (∀ x y z l, P l → P (x :: y :: z :: l)) → ∀ l, P l.
Proof.
  intros H0 H1 H2 H3. fix IH 1. intros [|x [|y [|z l]]]; [apply H0|apply H1|apply H2|].
  apply H3, IH.
Qed.

Lemma to_digits_lt b : Forall (λ d, d < 64)%N (to_digits b).
Proof.
  induction b as [|x|x y|x y z b IH] using three_ind; simpl;
    repeat constructor; try done; byte_lia.
Qed.

Lemma byte_of_eq n x : n = byte_val x → byte_of n = x.
Proof. intros ->. apply byte_of_val. Qed.

Lemma of_digits_to_digits b : of_digits (to_digits b) = Some b.
Proof.
  induction b as [|x|x y|x y z b IH] using three_ind; simpl; [done|..|rewrite IH; simpl];
    repeat f_equal; apply byte_of_eq; byte_lia.
Qed.

Lemma strip_newlines_chars alpha ds :
  good_alphabet alpha = true → Forall (λ d, d < 64)%N ds →
  strip_newlines (char_at (str_bytes alpha) <$> ds) = char_at (str_bytes alpha) <$> ds.
Proof.
  intros Hg Hds. unfold strip_newlines. induction Hds as [|d ds Hd _ IH]; [done|].
  rewrite fmap_cons, filter_cons, IH. destruct (good_alphabet_char _ _ Hg Hd) as (_ & Hn & _).
  by rewrite decide_True.
Qed.

Lemma mapM_index_chars alpha ds :
  good_alphabet alpha = true → Forall (λ d, d < 64)%N ds →
  mapM (index_of (str_bytes alpha)) (char_at (str_bytes alpha) <$> ds) = Some ds.
Proof.
  intros Hg Hds. apply mapM_Some. induction Hds as [|d ds Hd _ IH]; [constructor|].
  constructor; [|exact IH]. by apply good_alphabet_char.
Qed.

Lemma raw_decode_encode alpha b :
  good_alphabet alpha = true → raw_decode alpha (raw_encode alpha b) = Some b.
Proof.
  intros Hg. pose proof (to_digits_lt b) as Hd. unfold raw_decode, raw_encode.
  rewrite bytes_str_bytes, strip_newlines_chars, mapM_index_chars by done.
  apply of_digits_to_digits.
Qed.

Lemma unpad_step w x y z r r' :
  z ≠ pad_char → unpad r = Some r' → unpad (w :: x :: y :: z :: r) = Some (w :: x :: y :: z :: r').
Proof.
  intros Hz Hr. destruct r as [|a r]; simpl in *.
  - simplify_eq. by rewrite decide_False.
  - by rewrite Hr.
Qed.

Lemma padding_step n : padding (S (S (S n))) = padding n.
Proof.
  unfold padding. replace (S (S (S n))) with (n + 1 * 3) by lia. by rewrite Nat.Div0.mod_add.
Qed.

Lemma unpad_chars b :
  let cs := char_at (str_bytes std_alphabet) <$> to_digits b in
  unpad (cs ++ padding (length b)) = Some cs.
Proof.
  assert (∀ d, (d < 64)%N → char_at (str_bytes std_alphabet) d ≠ pad_char) as Hne
    by (intros; by apply (good_alphabet_char _ _ std_alphabet_good)).
  induction b as [|x|x y|x y z b IH] using three_ind; simpl; [done| |  |].
  - reflexivity.
  - unfold unpad, padding; simpl. by rewrite decide_False by (apply Hne; byte_lia).
  - rewrite padding_step. apply unpad_step; [apply Hne; byte_lia|exact IH].
Qed.

Lemma std_decode_encode b : std_decode (std_encode b) = Some b.
Proof.
  pose proof (to_digits_lt b) as Hd. unfold std_decode, std_encode.
  rewrite bytes_str_bytes. unfold strip_newlines. rewrite list.filter_app.
  fold (strip_newlines (char_at (str_bytes std_alphabet) <$> to_digits b)).
  rewrite strip_newlines_chars by (done || apply std_alphabet_good).
  replace (filter _ (padding (length b))) with (padding (length b))
    by (unfold padding; by destruct (length b mod 3) as [|[]]).
  rewrite unpad_chars. cbn [mbind option_bind].
  rewrite mapM_index_chars by (done || apply std_alphabet_good). apply of_digits_to_digits.
Qed.

Definition good_hex : bool :=
  forallb (λ n, bool_decide (hex_digit (char_at (str_bytes hex_alphabet) (N.of_nat n)) =
                             Some (N.of_nat n))) (seq 0 16).

Lemma hex_digit_char v :
  (v < 16)%N → hex_digit (char_at (str_bytes hex_alphabet) v) = Some v.
Proof.
  intros Hv. assert (good_hex = true) as Hg by (vm_compute; reflexivity).
  unfold good_hex in Hg. rewrite forallb_forall in Hg.
  specialize (Hg (N.to_nat v)). rewrite in_seq, N2Nat.id in Hg.
  by specialize (Hg ltac:(lia)); reflect_bools.
Qed.

Lemma hex_decode_encode b : hex_decode (hex_encode b) = Some b.
Proof.
  unfold hex_decode, hex_encode. rewrite bytes_str_bytes.
  induction b as [|x b IH]; [done|]. cbn [hex_bytes unhex_bytes].
  rewrite !hex_digit_char by byte_lia. simpl. rewrite IH. simpl.
  repeat f_equal. apply byte_of_eq. byte_lia.
Qed.

Lemma substring_all s : substring 0 (String.length s) s = s.
Proof. induction s as [|c s IH]; simpl; [done|]. by rewrite IH. Qed.

Lemma raw_encode_pos alpha b : b ≠ [] → 0 < String.length (raw_encode alpha b).
Proof.
  intros Hb. unfold raw_encode. destruct b as [|x [|y [|z b]]]; [done|simpl; lia..].
Qed.
