(* ===== verification/Sha256.v ===== *)
(** SHA-256 of [crypto/sha256] as FIPS 180-4 defines it, on byte lists.  The
    server hashes session, enrolment and reconnection tokens, recovery codes
    and audit records with it; the agent and the release tool hash binaries. *)
From S2P Require Import Prelude.

Open Scope N_scope.

Definition mask32 (x : N) : N := N.land x 4294967295.
Definition add32 (x y : N) : N := mask32 (x + y).
Definition rotr (n x : N) : N :=
  N.lor (N.shiftr x n) (mask32 (N.shiftl x (32 - n))).
Definition not32 (x : N) : N := N.lxor x 4294967295.

Definition ch x y z : N := N.lxor (N.land x y) (N.land (not32 x) z).
Definition maj x y z : N := N.lxor (N.lxor (N.land x y) (N.land x z)) (N.land y z).
Definition bsig0 x : N := N.lxor (N.lxor (rotr 2 x) (rotr 13 x)) (rotr 22 x).
Definition bsig1 x : N := N.lxor (N.lxor (rotr 6 x) (rotr 11 x)) (rotr 25 x).
Definition ssig0 x : N := N.lxor (N.lxor (rotr 7 x) (rotr 18 x)) (N.shiftr x 3).
Definition ssig1 x : N := N.lxor (N.lxor (rotr 17 x) (rotr 19 x)) (N.shiftr x 10).

(** The constants of the standard are the first 32 bits of the fractional
    parts of the square and cube roots of the first primes; they are computed
    here from that description. *)
Definition is_prime (n : N) : bool :=
  forallb (λ k, negb (n mod N.of_nat k =? 0)) (seq 2 (N.to_nat n - 2)).
Definition primes : list N :=
  Eval vm_compute in filter (λ n, is_prime n = true) (map N.of_nat (seq 2 310)).

(** The integer cube root, one binary digit at a time. *)
Fixpoint cube_root_from (bits : nat) (r n : N) : N :=
  match bits with
  | O => r
  | S b =>
      let r' := r + 2 ^ N.of_nat b in
      cube_root_from b (if r' * r' * r' <=? n then r' else r) n
  end.
Definition cube_frac (p : N) : N := mask32 (cube_root_from 40 0 (p * 2 ^ 96)).
Definition root_frac (p : N) : N := mask32 (N.sqrt (p * 2 ^ 64)).

Definition round_constants : list N := Eval vm_compute in map cube_frac primes.

Record hstate : Type := mkH { ha : N; hb : N; hc : N; hd : N; he : N; hf : N; hg : N; hh : N }.
Definition h_init : hstate :=
  Eval vm_compute in
    match map root_frac (take 8 primes) with
    | [a; b; c; d; e; f; g; h] => mkH a b c d e f g h
    | _ => mkH 0 0 0 0 0 0 0 0
    end.

(** The message schedule as a sliding window of sixteen words. *)
Definition next_word (w : list N) : N :=
  add32 (add32 (ssig1 (nth 14 w 0)) (nth 9 w 0)) (add32 (ssig0 (nth 1 w 0)) (nth 0 w 0)).

Definition round (k w : N) (h : hstate) : hstate :=
  let t1 := add32 (add32 (hh h) (bsig1 (he h))) (add32 (ch (he h) (hf h) (hg h)) (add32 k w)) in
  let t2 := add32 (bsig0 (ha h)) (maj (ha h) (hb h) (hc h)) in
  mkH (add32 t1 t2) (ha h) (hb h) (hc h) (add32 (hd h) t1) (he h) (hf h) (hg h).

Fixpoint rounds (ks : list N) (w : list N) (h : hstate) : hstate :=
  match ks with
  | [] => h
  | k :: ks' => rounds ks' (tl w ++ [next_word w]) (round k (nth 0 w 0) h)
  end.

Definition add_h (a b : hstate) : hstate :=
  mkH (add32 (ha a) (ha b)) (add32 (hb a) (hb b)) (add32 (hc a) (hc b)) (add32 (hd a) (hd b))
      (add32 (he a) (he b)) (add32 (hf a) (hf b)) (add32 (hg a) (hg b)) (add32 (hh a) (hh b)).

(** [n] bytes of [x], most significant first. *)
Fixpoint be_bytes (n : nat) (x : N) : bytes :=
  match n with
  | O => []
  | S n' => byte_of (N.shiftr x (8 * N.of_nat n')) :: be_bytes n' x
  end.

Fixpoint words (b : bytes) : list N :=
  match b with
  | b0 :: b1 :: b2 :: b3 :: rest =>
      (N.shiftl (byte_val b0) 24 + N.shiftl (byte_val b1) 16 + N.shiftl (byte_val b2) 8
       + byte_val b3) :: words rest
  | _ => []
  end.

Definition pad (m : bytes) : bytes :=
  m ++ [byte_of 128] ++ replicate (((119 - length m mod 64) mod 64)%nat) (byte_of 0)
    ++ be_bytes 8 (8 * N.of_nat (length m)).

Fixpoint blocks (fuel : nat) (w : list N) (h : hstate) : hstate :=
  match fuel with
  | O => h
  | S fuel' =>
      match w with
      | [] => h
      | _ => blocks fuel' (drop 16 w) (add_h h (rounds round_constants (take 16 w) h))
      end
  end.

Definition digest (h : hstate) : bytes :=
  be_bytes 4 (ha h) ++ be_bytes 4 (hb h) ++ be_bytes 4 (hc h) ++ be_bytes 4 (hd h) ++
  be_bytes 4 (he h) ++ be_bytes 4 (hf h) ++ be_bytes 4 (hg h) ++ be_bytes 4 (hh h).

(** [sha256.Sum256]; one unit of fuel per 64-byte block is enough. *)
Definition Sum256 (m : bytes) : bytes :=
  let w := words (pad m) in digest (blocks (length w) w h_init).

Close Scope N_scope.

Lemma be_bytes_length n x : length (be_bytes n x) = n.
Proof. induction n; simpl; congruence. Qed.

Lemma Sum256_length m : length (Sum256 m) = 32.
Proof. unfold Sum256, digest. rewrite !length_app, !be_bytes_length. reflexivity. Qed.

Lemma pad_length m : (length (pad m) mod 64 = 0)%nat.
Proof.
  unfold pad. rewrite !length_app, length_replicate, be_bytes_length. cbn [length].
  pose proof (Nat.div_mod_eq (length m) 64). pose proof (Nat.mod_upper_bound (length m) 64).
  set (q := length m / 64) in *. set (r := length m mod 64) in *.
  pose proof (Nat.div_mod_eq (119 - r) 64). pose proof (Nat.mod_upper_bound (119 - r) 64).
  set (q' := (119 - r) / 64) in *. set (z := (119 - r) mod 64) in *.
  apply Nat.Div0.mod_divides. exists (q + 2 - q'). lia.
Qed.

(** FIPS 180-4 test vectors. *)
Example Sum256_abc :
  Sum256 (str_bytes "abc") =
  be_bytes 32 0xba7816bf8f01cfea414140de5dae2223b00361a396177a9cb410ff61f20015ad.
Proof. vm_compute. reflexivity. Qed.
Example Sum256_two_blocks :
  Sum256 (str_bytes "abcdbcdecdefdefgefghfghighijhijkijkljklmklmnlmnomnopnopq") =
  be_bytes 32 0x248d6a61d20638b8e5c026930c3e6039a33ce45964ff2167f6ecedd419db06c1.
Proof. vm_compute. reflexivity. Qed.

#[global] Opaque Sum256.
