(* ===== verification/Password.v ===== *)
(** Argon2id password hashes ([internal/auth/password.go]): the PHC-like text
    that is stored, and its verification. *)
From S2P Require Import Prelude Base64.

(** ** The pieces of [strings] and [fmt] the code uses *)

(** [strings.Split] on a one-byte separator. *)
Fixpoint split_on (sep : byte) (b : bytes) : list bytes :=
  match b with
  | [] => [[]]
  | c :: rest =>
      if decide (c = sep) then [] :: split_on sep rest
      else match split_on sep rest with
           | h :: t => (c :: h) :: t
           | [] => [[c]]
           end
  end.

(** [%d] of an unsigned number of at most [fuel] decimal digits. *)
Definition digit_char (n : N) : byte := byte_of (48 + n mod 10).
Fixpoint dec_aux (fuel : nat) (n : N) (acc : bytes) : bytes :=
  match fuel with
  | O => acc
  | S fuel' =>
      let acc' := digit_char n :: acc in
      if (n / 10 =? 0)%N then acc' else dec_aux fuel' (n / 10) acc'
  end.
Definition format_uint (n : N) : bytes := dec_aux 20 n [].

Definition is_digit (c : byte) : bool := (48 <=? byte_val c)%N && (byte_val c <=? 57)%N.
Definition is_space (c : byte) : bool :=
  (byte_val c =? 32)%N || (byte_val c =? 9)%N || (byte_val c =? 11)%N ||
  (byte_val c =? 12)%N || (byte_val c =? 13)%N.
Fixpoint scan_digits (acc : N) (b : bytes) : N * bytes :=
  match b with
  | c :: rest => if is_digit c then scan_digits (acc * 10 + (byte_val c - 48)) rest else (acc, b)
  | [] => (acc, [])
  end%N.
Fixpoint skip_space (b : bytes) : bytes :=
  match b with
  | c :: rest => if is_space c then skip_space rest else b
  | [] => []
  end.
(** [%d] of [fmt.Sscanf] into an unsigned variable below [bound]. *)
Definition scan_uint (bound : N) (b : bytes) : option (N * bytes) :=
  match skip_space b with
  | c :: rest =>
      if is_digit c then
        let '(n, rest') := scan_digits 0 (c :: rest) in
        if (n <? bound)%N then Some (n, rest') else None
      else None
  | [] => None
  end.
(** Literal text of a scan format. *)
Fixpoint scan_lit (lit b : bytes) : option bytes :=
  match lit, b with
  | [], _ => Some b
  | x :: lit', c :: b' => if decide (x = c) then scan_lit lit' b' else None
  | _ :: _, [] => None
  end.

(** ** The code *)

(* internal/auth/password.go:13-21 Argon2Params *)
Record Argon2Params : Type := mkArgon2 {
  MemoryKiB : N; Iterations : N; Parallelism : N; SaltLen : N; KeyLen : N }.

(* internal/auth/password.go:23-25 DefaultArgon2Params *)
Definition DefaultArgon2Params : Argon2Params := mkArgon2 (19 * 1024) 2 1 16 32.

Inductive password_error : Type :=
| EmptyPassword
| SaltFailure
| UnrecognizedFormat
| BadParams
| BadSalt
| BadHash.

(** [argon2.IDKey password salt time memory threads keyLen], of
    golang.org/x/crypto. *)
Class Argon2 : Type := IDKey : bytes → bytes → N → N → N → N → bytes.
(** The derived key has the requested length. *)
Class Argon2Laws `{Argon2} : Prop :=
  IDKey_length p s t m k l : N.of_nat (length (IDKey p s t m k l)) = l.

Definition argon2id_tag : bytes := str_bytes "argon2id".
Definition dollar : byte := "$"%char.

Section password.
Context `{Argon2}.

(* internal/auth/password.go:27-46 HashPassword *)
Definition HashPassword (password : string) (p : Argon2Params) (salt : option bytes)
    : res password_error string :=
  if String.length password =? 0 then Err EmptyPassword
  else match salt with
  | None => Err SaltFailure
  | Some salt =>
      let hash := IDKey (str_bytes password) salt (Iterations p) (MemoryKiB p)
                    (Parallelism p) (KeyLen p) in
      Ok (bytes_str
        (str_bytes "$argon2id$v=19$m=" ++ format_uint (MemoryKiB p) ++
         str_bytes ",t=" ++ format_uint (Iterations p) ++
         str_bytes ",p=" ++ format_uint (Parallelism p) ++
         str_bytes "$" ++ str_bytes (raw_encode std_alphabet salt) ++
         str_bytes "$" ++ str_bytes (raw_encode std_alphabet hash)))
  end.

(** [fmt.Sscanf(s, "m=%d,t=%d,p=%d", &memoryKiB, &iterations, &parallelism)] *)
Definition scan_params (s : bytes) : option (N * N * N) :=
  s ← scan_lit (str_bytes "m=") s;
  '(m, s) ← scan_uint (2 ^ 32) s;
  s ← scan_lit (str_bytes ",t=") s;
  '(t, s) ← scan_uint (2 ^ 32) s;
  s ← scan_lit (str_bytes ",p=") s;
  '(p, s) ← scan_uint (2 ^ 8) s;
  Some (m, t, p).

(* internal/auth/password.go:48-72 VerifyPassword *)
Definition VerifyPassword (password encoded : string) : res password_error bool :=
  match split_on dollar (str_bytes encoded) with
  | [_; tag; _; params; salt64; want64] =>
      if decide (tag = argon2id_tag) then
        match scan_params params with
        | None => Err BadParams
        | Some (m, t, p) =>
            match raw_decode std_alphabet (bytes_str salt64) with
            | None => Err BadSalt
            | Some salt =>
                match raw_decode std_alphabet (bytes_str want64) with
                | None => Err BadHash
                | Some want =>
                    let got := IDKey (str_bytes password) salt t m p
                                 (N.of_nat (length want) mod 2 ^ 32) in
                    Ok (bool_decide (got = want))
                end
            end
        end
      else Err UnrecognizedFormat
  | _ => Err UnrecognizedFormat
  end.
End password.

(** ** Splitting *)

Lemma split_on_app sep a b :
  sep ∉ a → split_on sep (a ++ sep :: b) = a :: split_on sep b.
Proof.
  induction a as [|c a IH]; intros Hs; simpl; [by rewrite decide_True|].
  apply not_elem_of_cons in Hs as [Hne Hs]. rewrite decide_False by done. by rewrite IH.
Qed.

Lemma split_on_single sep a : sep ∉ a → split_on sep a = [a].
Proof.
  induction a as [|c a IH]; intros Hs; simpl; [done|].
  apply not_elem_of_cons in Hs as [Hne Hs]. rewrite decide_False by done. by rewrite IH.
Qed.

(** ** Decimal numbers *)

Lemma is_digit_char n : is_digit (digit_char n) = true.
Proof.
  unfold is_digit, digit_char. rewrite byte_val_of. apply andb_true_iff.
  split; apply N.leb_le; zify; Z.to_euclidean_division_equations; lia.
Qed.

Lemma digit_char_val n : (byte_val (digit_char n) - 48 = n mod 10)%N.
Proof.
  unfold digit_char. rewrite byte_val_of. zify; Z.to_euclidean_division_equations; lia.
Qed.

Lemma dec_aux_app f n acc : dec_aux f n acc = dec_aux f n [] ++ acc.
Proof.
  revert n acc. induction f as [|f IH]; intros n acc; simpl; [done|].
  case_match; [done|]. rewrite IH, (IH _ [_]). by rewrite <-(assoc app).
Qed.

Definition digits_val (acc : N) (ds : bytes) : N :=
  fold_left (λ a c, a * 10 + (byte_val c - 48))%N ds acc.

Lemma scan_digits_app ds acc rest :
  Forall (λ c, is_digit c = true) ds →
  scan_digits acc (ds ++ rest) = scan_digits (digits_val acc ds) rest.
Proof.
  intros Hd. revert acc. induction Hd as [|c ds Hc _ IH]; intros acc; simpl; [done|].
  by rewrite Hc, IH.
Qed.

Lemma dec_aux_digits f n : Forall (λ c, is_digit c = true) (dec_aux f n []).
Proof.
  revert n. induction f as [|f IH]; intros n; simpl; [constructor|].
  case_match; [repeat constructor; apply is_digit_char|].
  rewrite dec_aux_app. apply Forall_app. split; [apply IH|].
  repeat constructor. apply is_digit_char.
Qed.

Lemma dec_aux_val f n : (n < 10 ^ N.of_nat f)%N → digits_val 0 (dec_aux f n []) = n.
Proof.
  revert n. induction f as [|f IH]; intros n Hn; [simpl in *; lia|].
  rewrite Nat2N.inj_succ, N.pow_succ_r' in Hn. simpl.
  destruct (N.eqb_spec (n / 10) 0) as [H0|H0].
  - unfold digits_val. simpl. rewrite digit_char_val.
    zify; Z.to_euclidean_division_equations; lia.
  - rewrite dec_aux_app. unfold digits_val. rewrite fold_left_app.
    fold (digits_val 0 (dec_aux f (n / 10) [])). rewrite IH by (apply N.Div0.div_lt_upper_bound; lia).
    simpl. rewrite digit_char_val. zify; Z.to_euclidean_division_equations; lia.
Qed.

Lemma dec_aux_nonempty f n : dec_aux (S f) n [] ≠ [].
Proof.
  cbn [dec_aux]. case_match; [done|]. rewrite dec_aux_app. by destruct (dec_aux f _ []).
Qed.

Lemma format_uint_cons n : ∃ c ds, format_uint n = c :: ds ∧ is_digit c = true.
Proof.
  pose proof (dec_aux_digits 20 n) as Hd. unfold format_uint.
  pose proof (dec_aux_nonempty 19 n) as Hne.
  destruct (dec_aux 20 n []) as [|c ds]; [done|inversion Hd; eauto].
Qed.

Lemma digit_not_space c : is_digit c = true → is_space c = false.
Proof.
  unfold is_digit, is_space. rewrite andb_true_iff, !N.leb_le. intros [].
  repeat (rewrite (proj2 (N.eqb_neq _ _)) by lia). done.
Qed.

Lemma scan_uint_format bound n rest :
  (n < bound)%N → (n < 10 ^ 20)%N →
  match rest with c :: _ => is_digit c = false | [] => True end →
  scan_uint bound (format_uint n ++ rest) = Some (n, rest).
Proof.
  intros Hb Hn Hr. destruct (format_uint_cons n) as (c & ds & Hf & Hc).
  unfold scan_uint. rewrite Hf. cbn [app skip_space]. rewrite (digit_not_space _ Hc), Hc.
  change (c :: ds ++ rest) with ((c :: ds) ++ rest). rewrite <-Hf, scan_digits_app.
  - unfold format_uint. rewrite dec_aux_val by done. destruct rest as [|x rest]; simpl.
    + by rewrite (proj2 (N.ltb_lt _ _)).
    + rewrite Hr. by rewrite (proj2 (N.ltb_lt _ _)).
  - apply dec_aux_digits.
Qed.

Lemma dollar_not_digits ds : Forall (λ c, is_digit c = true) ds → dollar ∉ ds.
Proof. intros Hd Hin. by apply (proj1 (list.Forall_forall _ _) Hd) in Hin. Qed.

Lemma dollar_not_format n : dollar ∉ format_uint n.
Proof. apply dollar_not_digits, dec_aux_digits. Qed.

Lemma dollar_not_base64 b : dollar ∉ str_bytes (raw_encode std_alphabet b).
Proof.
  unfold raw_encode. rewrite bytes_str_bytes. intros (d & Hd & Hin)%list_elem_of_fmap.
  pose proof (proj1 (list.Forall_forall _ _) (to_digits_lt b) d Hin) as Hlt.
  destruct (good_alphabet_char _ _ std_alphabet_good Hlt) as (Hi & _).
  rewrite <-Hd in Hi. vm_compute in Hi. discriminate.
Qed.

Section verify.
Context `{Argon2Laws}.

(** A parameter set within the widths of its Go fields. *)
Definition params_ok (p : Argon2Params) : bool :=
  (MemoryKiB p <? 2 ^ 32)%N && (Iterations p <? 2 ^ 32)%N && (Parallelism p <? 2 ^ 8)%N &&
  (KeyLen p <? 2 ^ 32)%N.

Lemma scan_params_format m t p :
  (m < 2 ^ 32)%N → (t < 2 ^ 32)%N → (p < 2 ^ 8)%N →
  scan_params (str_bytes "m=" ++ format_uint m ++ str_bytes ",t=" ++ format_uint t ++
               str_bytes ",p=" ++ format_uint p) = Some (m, t, p).
Proof.
  intros Hm Ht Hp. unfold scan_params. simpl.
  rewrite (scan_uint_format _ m) by (lia || done). simpl.
  rewrite (scan_uint_format _ t) by (lia || done). simpl.
  rewrite <-(app_nil_r (format_uint p)), (scan_uint_format _ p) by (lia || done). done.
Qed.

Lemma split_encoded m t p s64 h64 :
  dollar ∉ s64 → dollar ∉ h64 →
  split_on dollar
    (str_bytes "$argon2id$v=19$m=" ++ format_uint m ++ str_bytes ",t=" ++ format_uint t ++
     str_bytes ",p=" ++ format_uint p ++ str_bytes "$" ++ s64 ++ str_bytes "$" ++ h64) =
  [[]; argon2id_tag; str_bytes "v=19";
   str_bytes "m=" ++ format_uint m ++ str_bytes ",t=" ++ format_uint t ++
     str_bytes ",p=" ++ format_uint p; s64; h64].
Proof.
  intros Hs Hh.
  trans (split_on dollar ([] ++ dollar :: argon2id_tag ++ dollar :: str_bytes "v=19" ++ dollar ::
    (str_bytes "m=" ++ format_uint m ++ str_bytes ",t=" ++ format_uint t ++
     str_bytes ",p=" ++ format_uint p) ++ dollar :: s64 ++ dollar :: h64)).
  { f_equal. simpl. repeat (rewrite <-app_assoc; cbn [app]). done. }
  rewrite split_on_app by apply not_elem_of_nil.
  rewrite split_on_app by (apply (bool_decide_unpack _); vm_compute; exact I).
  rewrite split_on_app by (apply (bool_decide_unpack _); vm_compute; exact I).
  rewrite split_on_app, split_on_app, split_on_single; try done.
  pose proof (dollar_not_format m). pose proof (dollar_not_format t).
  pose proof (dollar_not_format p). rewrite !not_elem_of_app.
  repeat split; first [done | apply (bool_decide_unpack _); vm_compute; exact I].
Qed.

(** What [HashPassword] stores verifies: [VerifyPassword] re-derives the
    key with the salt and cost parameters written into the hash itself, so
    it accepts the original password, and any other only on an equal
    Argon2id key. *)
Theorem password_verify pw q p salt enc :
  params_ok p = true → HashPassword pw p (Some salt) = Ok enc →
  let key w := IDKey (str_bytes w) salt (Iterations p) (MemoryKiB p) (Parallelism p) (KeyLen p) in
  VerifyPassword q enc = Ok (bool_decide (key q = key pw)) ∧ VerifyPassword pw enc = Ok true.
Proof.
  intros Hok Henc. unfold params_ok in Hok. reflect_bools. rewrite !N.ltb_lt in *.
  unfold HashPassword in Henc. destruct (String.length pw =? 0); [discriminate|].
  match type of Henc with Ok ?e = _ => assert (enc = e) as -> by congruence end. clear Henc.
  set (hash := IDKey _ _ _ _ _ _). set (enc := bytes_str _). cbv zeta.
  assert (∀ w, VerifyPassword w enc = Ok (bool_decide
    (IDKey (str_bytes w) salt (Iterations p) (MemoryKiB p) (Parallelism p) (KeyLen p) = hash)))
    as Hv; [|split; [apply Hv|]; rewrite Hv; by rewrite bool_decide_eq_true_2].
  intros w. unfold VerifyPassword, enc. rewrite bytes_str_bytes.
  rewrite split_encoded by apply dollar_not_base64.
  rewrite decide_True, scan_params_format by done.
  rewrite !str_bytes_str, !raw_decode_encode by apply std_alphabet_good.
  assert (N.of_nat (length hash) = KeyLen p) as -> by apply IDKey_length.
  by rewrite N.mod_small.
Qed.
End verify.

(** The hypotheses of [password_verify] hold for a stand-in derivation. *)
Definition toy_IDKey : Argon2 := λ p s t m k l, replicate (N.to_nat l) (byte_of (N.of_nat (length p))).
Lemma toy_IDKey_laws : @Argon2Laws toy_IDKey.
Proof. intros p s t m k l. unfold IDKey, toy_IDKey. rewrite length_replicate. lia. Qed.

Lemma password_verify_witness :
  ∃ enc, @HashPassword toy_IDKey "hunter2hunter2" DefaultArgon2Params
           (Some (replicate 16 "s"%char)) = Ok enc ∧
         @VerifyPassword toy_IDKey "hunter2hunter2" enc = Ok true ∧
         @VerifyPassword toy_IDKey "guess" enc = Ok false.
Proof.
  eexists. split; [reflexivity|].
  destruct (@password_verify toy_IDKey toy_IDKey_laws "hunter2hunter2" "guess"
    DefaultArgon2Params (replicate 16 "s"%char) _ eq_refl eq_refl) as [Hq Hp].
  split; [exact Hp|]. rewrite Hq. reflexivity.
Defined.
