(* ===== verification/AuthStore.v ===== *)
(** The account tables and their repository ([internal/auth/repo.go]): users,
    role assignments, failed-login lockout.  The tables of sessions, MFA
    enrolments, login challenges and re-authentication tokens are part of
    the same database record; their operations are in [Sessions.v],
    [Mfa.v] and [AuthService.v]. *)
From S2P Require Import Prelude Rbac.

(** ** Errors of the package *)

Inductive auth_error : Type :=
| ErrNotFound
| ErrLocked
| ErrInvalidCredentials
| ErrRateLimited
| ErrMFANotConfigured
| ErrMFAAlreadyConfirmed
| ErrInvalidCode
| ErrSessionNotFound
| ErrSessionRevoked
| ErrSessionExpired
| ErrPasswordTooShort
| ErrPasswordHash
| ErrCrypto
| ErrUnique
| ErrDB.

(** [errors.Is(err, ErrSessionInvalid)] *)
Definition is_session_invalid (e : auth_error) : bool :=
  match e with ErrSessionNotFound | ErrSessionRevoked | ErrSessionExpired => true | _ => false end.

(** ** Rows *)

(* internal/auth/repo.go:18-24 UserStatus *)
Inductive UserStatus : Type := UserActive | UserDisabled | UserLocked.
#[export] Instance UserStatus_eq_dec : EqDecision UserStatus.
Proof. solve_decision. Defined.

(* internal/auth/repo.go:26-37 User *)
Record User : Type := mkUser {
  u_Username : string;
  u_DisplayName : string;
  u_PasswordHash : string;
  u_Status : UserStatus;
  u_MFARequired : bool;
  u_FailedLoginCount : Z;
  u_LockedUntil : option time;
  u_CreatedAt : time;
  u_LastLoginAt : option time }.

(** What [json.Marshal] writes of a user: every field but the password hash. *)
Record safeUser : Type := mkSafeUser {
  su_ID : uuid; su_Username : string; su_DisplayName : string; su_Status : UserStatus; su_MFARequired : bool;
  su_FailedLoginCount : Z; su_LockedUntil : option time; su_CreatedAt : time; su_LastLoginAt : option time }.
(* internal/auth/repo.go:45-62 MarshalJSON *)
Definition safe_user (ku : uuid * User) : safeUser :=
  let '(id, u) := ku in
  mkSafeUser id (u_Username u) (u_DisplayName u) (u_Status u) (u_MFARequired u) (u_FailedLoginCount u)
    (u_LockedUntil u) (u_CreatedAt u) (u_LastLoginAt u).

(* internal/auth/session.go:27-34 Session *)
Record Session : Type := mkSession {
  s_UserID : uuid;
  s_TokenHash : bytes;
  s_CreatedAt : time;
  s_LastSeenAt : time;
  s_ExpiresAt : time;
  s_IdleExpiresAt : time;
  s_RevokedAt : option time }.

Record Mfa : Type := mkMfa {
  m_Ciphertext : bytes;
  m_Nonce : bytes;
  m_ConfirmedAt : option time;
  m_RecoveryHashes : list string }.

Record Challenge : Type := mkChallenge {
  c_UserID : uuid;
  c_ExpiresAt : time;
  c_ConsumedAt : option time;
  c_Attempts : Z }.

Record ReauthToken : Type := mkReauth {
  ra_UserID : uuid;
  ra_ExpiresAt : time;
  ra_ConsumedAt : option time }.

Record UserRole : Type := mkUserRole {
  ur_UserID : uuid;
  ur_RoleID : uuid;
  ur_Scope : string;
  ur_ScopeID : option uuid }.

Record auth_db : Type := mkAuthDB {
  users : gmap uuid User;
  user_mfa : gmap uuid Mfa;
  user_sessions : gmap uuid Session;
  mfa_challenges : gmap uuid Challenge;
  reauth_tokens : gmap uuid ReauthToken;
  roles : gmap uuid string;
  role_permissions : list (uuid * string);
  user_roles : list UserRole }.

Definition empty_auth_db : auth_db := mkAuthDB ∅ ∅ ∅ ∅ ∅ ∅ [] [].

Definition on_users (f : gmap uuid User → gmap uuid User) (d : auth_db) : auth_db :=
  mkAuthDB (f (users d)) (user_mfa d) (user_sessions d) (mfa_challenges d) (reauth_tokens d)
    (roles d) (role_permissions d) (user_roles d).
Definition on_mfa (f : gmap uuid Mfa → gmap uuid Mfa) (d : auth_db) : auth_db :=
  mkAuthDB (users d) (f (user_mfa d)) (user_sessions d) (mfa_challenges d) (reauth_tokens d)
    (roles d) (role_permissions d) (user_roles d).
Definition on_sessions (f : gmap uuid Session → gmap uuid Session) (d : auth_db) : auth_db :=
  mkAuthDB (users d) (user_mfa d) (f (user_sessions d)) (mfa_challenges d) (reauth_tokens d)
    (roles d) (role_permissions d) (user_roles d).
Definition on_challenges (f : gmap uuid Challenge → gmap uuid Challenge) (d : auth_db) : auth_db :=
  mkAuthDB (users d) (user_mfa d) (user_sessions d) (f (mfa_challenges d)) (reauth_tokens d)
    (roles d) (role_permissions d) (user_roles d).
Definition on_reauth (f : gmap uuid ReauthToken → gmap uuid ReauthToken) (d : auth_db) : auth_db :=
  mkAuthDB (users d) (user_mfa d) (user_sessions d) (mfa_challenges d) (f (reauth_tokens d))
    (roles d) (role_permissions d) (user_roles d).
Definition on_user_roles (f : list UserRole → list UserRole) (d : auth_db) : auth_db :=
  mkAuthDB (users d) (user_mfa d) (user_sessions d) (mfa_challenges d) (reauth_tokens d)
    (roles d) (role_permissions d) (f (user_roles d)).

Abbreviation AuthM := (M auth_db auth_error).

(** ** Repository operations *)

Definition set_locked (l : option time) (c : Z) (u : User) : User :=
  mkUser (u_Username u) (u_DisplayName u) (u_PasswordHash u) (u_Status u) (u_MFARequired u)
    c l (u_CreatedAt u) (u_LastLoginAt u).

Section repo.
(** Equality of the [citext] column [username]. *)
Context (citext_eq : string → string → bool).

(* internal/auth/repo.go:72-87 GetByUsername *)
Definition GetByUsername (username : string) : AuthM (uuid * User) :=
  r ← mquery ErrDB (λ d, select_one (λ _ u, citext_eq (u_Username u) username) (users d));
  match r with
  | None => mfail ErrNotFound
  | Some u => mret u
  end.

(** A violated unique constraint (code 23505) is told apart from other
    faults. *)
(* internal/auth/repo.go:163-177 CreateUser *)
Definition CreateUser (username displayName passwordHash : string) (new_id : uuid) (now : time)
    : AuthM uuid :=
  mstmt ErrDB (λ d,
    if is_null (users d !! new_id) &&
       is_null (select_one (λ _ u, citext_eq (u_Username u) username) (users d))
    then (Ok new_id,
          on_users (<[new_id := mkUser username displayName passwordHash UserActive true 0 None
                                  now None]>) d)
    else (Err ErrUnique, d)).
End repo.

Section list.
(** The order of [ORDER BY username]. *)
Context (collate_le : string → string → bool).

(** The password hash is selected as the empty string. *)
Definition without_hash (u : User) : User :=
  mkUser (u_Username u) (u_DisplayName u) "" (u_Status u) (u_MFARequired u) (u_FailedLoginCount u)
    (u_LockedUntil u) (u_CreatedAt u) (u_LastLoginAt u).
(* internal/auth/repo.go:108-129 List *)
Definition ListUsers : AuthM (list (uuid * User)) :=
  mquery ErrDB (λ d, order_by (λ a b, collate_le (u_Username a.2) (u_Username b.2))
    (prod_map id without_hash <$> map_to_list (users d))).
End list.

(* internal/auth/repo.go:89-104 GetByID *)
Definition GetByID (id : uuid) : AuthM User :=
  r ← mquery ErrDB (λ d, users d !! id);
  match r with
  | None => mfail ErrNotFound
  | Some u => mret u
  end.

(** [UPDATE users SET ... WHERE id = $1], with [ErrNotFound] when no row had
    that id. *)
Definition update_user (id : uuid) (f : User → User) : AuthM unit :=
  n ← mstmt ErrDB (λ d, (Ok (rows_with_id id (users d)), on_users (update_id id f) d));
  if n =? 0 then mfail ErrNotFound else mret tt.

(* internal/auth/repo.go:131-145 SetStatus *)
Definition SetStatus (id : uuid) (status : UserStatus) : AuthM unit :=
  update_user id (λ u, mkUser (u_Username u) (u_DisplayName u) (u_PasswordHash u) status
    (u_MFARequired u) (u_FailedLoginCount u) None (u_CreatedAt u) (u_LastLoginAt u)).

(* internal/auth/repo.go:147-161 SetMFARequired *)
Definition SetMFARequired (id : uuid) (required : bool) : AuthM unit :=
  update_user id (λ u, mkUser (u_Username u) (u_DisplayName u) (u_PasswordHash u) (u_Status u)
    required (u_FailedLoginCount u) (u_LockedUntil u) (u_CreatedAt u) (u_LastLoginAt u)).

(* internal/auth/repo.go:179-192 UpdatePasswordHash *)
Definition UpdatePasswordHash (id : uuid) (passwordHash : string) : AuthM unit :=
  update_user id (λ u, mkUser (u_Username u) (u_DisplayName u) passwordHash (u_Status u)
    (u_MFARequired u) (u_FailedLoginCount u) (u_LockedUntil u) (u_CreatedAt u) (u_LastLoginAt u)).

(** The unique index of [user_roles] treats a missing scope as the nil id. *)
Definition same_assignment (a b : UserRole) : bool :=
  (ur_UserID a =? ur_UserID b)%N && (ur_RoleID a =? ur_RoleID b)%N &&
  String.eqb (ur_Scope a) (ur_Scope b) &&
  (default 0%N (ur_ScopeID a) =? default 0%N (ur_ScopeID b))%N.

(* internal/auth/repo.go:194-204 AssignRole *)
Definition AssignRole (userID roleID : uuid) (scope : string) (scopeID : option uuid) : AuthM unit :=
  mexec ErrDB (λ d,
    let r := mkUserRole userID roleID scope scopeID in
    if existsb (same_assignment r) (user_roles d) then d
    else on_user_roles (λ rs, rs ++ [r]) d).

(* internal/auth/repo.go:206-216 RoleIDByName *)
Definition RoleIDByName (name : string) : AuthM uuid :=
  r ← mquery ErrDB (λ d, select_one (λ _ n, String.eqb n name) (roles d));
  match r with
  | None => mfail ErrNotFound
  | Some (id, _) => mret id
  end.

Definition maxFailures : Z := 10.
Definition lockDuration : duration := (15 * Minute)%Z.

(* internal/auth/repo.go:218-240 RegisterFailedLogin *)
Definition RegisterFailedLogin (id : uuid) (now : time) : AuthM unit :=
  mexec ErrDB (on_users (update_id id (λ u,
    set_locked
      (if (maxFailures <=? u_FailedLoginCount u + 1)%Z then Some (now + lockDuration)%Z
       else u_LockedUntil u)
      (u_FailedLoginCount u + 1)%Z u))).

(* internal/auth/repo.go:242-251 ResetFailedLogins *)
Definition ResetFailedLogins (id : uuid) (now : time) : AuthM unit :=
  mexec ErrDB (on_users (update_id id (λ u,
    mkUser (u_Username u) (u_DisplayName u) (u_PasswordHash u) (u_Status u) (u_MFARequired u)
      0 None (u_CreatedAt u) (Some now)))).

Definition grants_of (d : auth_db) (userID : uuid) : list PermissionGrant :=
  flat_map (λ ur,
    if (ur_UserID ur =? userID)%N then
      flat_map (λ '(rid, perm),
        if (rid =? ur_RoleID ur)%N then [mkGrant perm (ur_Scope ur) (ur_ScopeID ur)] else [])
        (role_permissions d)
    else []) (user_roles d).

(* internal/auth/repo.go:261-285 PermissionsForUser *)
Definition PermissionsForUser (userID : uuid) : AuthM (list PermissionGrant) :=
  mquery ErrDB (λ d, grants_of d userID).

(** ** Role assignments decide permissions *)

Lemma elem_of_grants_of d userID g :
  g ∈ grants_of d userID ↔
  ∃ ur, ur ∈ user_roles d ∧ ur_UserID ur = userID ∧
    (ur_RoleID ur, g_Permission g) ∈ role_permissions d ∧
    g_Scope g = ur_Scope ur ∧ g_ScopeID g = ur_ScopeID ur.
Proof.
  unfold grants_of. setoid_rewrite list_elem_of_In. rewrite in_flat_map. split.
  - intros (ur & Hur & Hg). destruct (N.eqb_spec (ur_UserID ur) userID); [|done].
    apply in_flat_map in Hg as ((rid & perm) & Hrp & Hg).
    destruct (N.eqb_spec rid (ur_RoleID ur)); [|done].
    destruct Hg as [<-|[]]. simplify_eq/=. eauto 10.
  - intros (ur & Hur & <- & Hrp & Hs & Hi). exists ur. split; [done|].
    rewrite N.eqb_refl. apply in_flat_map. eexists. split; [exact Hrp|].
    simpl. rewrite N.eqb_refl. left. destruct g; simpl in *; by subst.
Qed.

(** A freshly assigned role takes effect, and only as assigned: a user's
    access after [AssignRole] is what it was before plus what the assigned
    role's permissions cover in the assigned scope. *)
Theorem AssignRole_effect d userID roleID scope scopeID p r :
  existsb (same_assignment (mkUserRole userID roleID scope scopeID)) (user_roles d) = false →
  let '(out, d') := run (AssignRole userID roleID scope scopeID) d in
  out = Ok tt ∧
  (HasPermission (grants_of d' userID) p r = true ↔
     HasPermission (grants_of d userID) p r = true ∨
     ((roleID, p) ∈ role_permissions d ∧ covers (mkGrant p scope scopeID) r)).
Proof.
  intros Hnew. unfold run, AssignRole, mexec, mstmt. simpl. rewrite Hnew. split; [done|].
  rewrite !HasPermission_iff. setoid_rewrite elem_of_grants_of. simpl.
  setoid_rewrite elem_of_app. setoid_rewrite list_elem_of_singleton. split.
  - intros (g & (ur & [Hur| ->] & Hu & Hrp & Hs & Hi) & <- & Hc).
    + left. exists g. eauto 10.
    + right. simpl in *. split; [done|]. destruct g; simplify_eq/=. by subst.
  - intros [(g & (ur & Hur & Hu & Hrp & Hs & Hi) & Hp & Hc)|(Hrp & Hc)].
    + exists g. eauto 10.
    + exists (mkGrant p scope scopeID). split; [|done].
      exists (mkUserRole userID roleID scope scopeID). eauto 10.
Qed.

Definition demo_roles : auth_db :=
  mkAuthDB ∅ ∅ ∅ ∅ ∅ {[1%N := "viewer"%string]} [(1%N, PermDeviceRead)] [].
Lemma AssignRole_effect_witness :
  HasPermission (grants_of (run (AssignRole 5 1 ScopeGlobal None) demo_roles).2 5)
    PermDeviceRead (mkResource None None) = true.
Proof.
  pose proof (AssignRole_effect demo_roles 5 1 ScopeGlobal None PermDeviceRead
    (mkResource None None) eq_refl) as H.
  destruct (run _ _) as [out d'] eqn:E. destruct H as [_ H]. apply H. right.
  split; [left|by left].
Defined.

(** ** The lockout *)

Fixpoint failed_logins (id : uuid) (times : list time) (d : auth_db) : auth_db :=
  match times with
  | [] => d
  | t :: rest => failed_logins id rest (run (RegisterFailedLogin id t) d).2
  end.

Lemma RegisterFailedLogin_run id t d :
  run (RegisterFailedLogin id t) d =
  (Ok tt, on_users (update_id id (λ u,
    set_locked
      (if (maxFailures <=? u_FailedLoginCount u + 1)%Z then Some (t + lockDuration)%Z
       else u_LockedUntil u)
      (u_FailedLoginCount u + 1)%Z u)) d).
Proof. reflexivity. Qed.

Lemma failed_logins_lookup id ts d u :
  users d !! id = Some u →
  ∃ u', users (failed_logins id ts d) !! id = Some u' ∧
    u_FailedLoginCount u' = (u_FailedLoginCount u + Z.of_nat (length ts))%Z ∧
    u_LockedUntil u' =
      match list.last ts with
      | Some t => if (maxFailures <=? u_FailedLoginCount u + Z.of_nat (length ts))%Z
                  then Some (t + lockDuration)%Z else u_LockedUntil u
      | None => u_LockedUntil u
      end.
Proof.
  revert d u. induction ts as [|t ts IH]; intros d u Hu.
  { exists u. simpl. rewrite Z.add_0_r. done. }
  cbn [failed_logins]. rewrite RegisterFailedLogin_run. simpl snd.
  destruct (IH (on_users (update_id id (λ u,
    set_locked
      (if (maxFailures <=? u_FailedLoginCount u + 1)%Z then Some (t + lockDuration)%Z
       else u_LockedUntil u)
      (u_FailedLoginCount u + 1)%Z u)) d) _
    ltac:(simpl; rewrite lookup_update_id, decide_True, Hu by done; reflexivity))
    as (u' & Hu' & Hc & Hl).
  exists u'. split; [done|]. simpl in Hc, Hl. simpl length. split; [lia|].
  rewrite Hl. destruct ts as [|t' ts]; cbn [list.last].
  - by rewrite Nat2Z.inj_succ.
  - change (list.last (t :: t' :: ts)) with (list.last (t' :: ts)).
    destruct (list.last (t' :: ts)) as [tl|] eqn:E; [|by apply last_None in E].
    replace (u_FailedLoginCount u + Z.of_nat (S (length (t' :: ts))))%Z
      with (u_FailedLoginCount u + 1 + Z.of_nat (length (t' :: ts)))%Z by lia.
    destruct (Z.leb_spec maxFailures
      (u_FailedLoginCount u + 1 + Z.of_nat (length (t' :: ts)))); [done|].
    destruct (Z.leb_spec maxFailures (u_FailedLoginCount u + 1)); [|done]. lia.
Qed.

(** Ten failed password attempts in a row lock the account for fifteen
    minutes from the last of them, and nine do not: the lock is always
    temporary and its end is known. *)
Theorem lockout_after_ten id ts d u :
  users d !! id = Some u → u_FailedLoginCount u = 0%Z → u_LockedUntil u = None → ts ≠ [] →
  ∃ u' t, users (failed_logins id ts d) !! id = Some u' ∧ list.last ts = Some t ∧
    u_LockedUntil u' = if 10 <=? length ts then Some (t + 15 * Minute)%Z else None.
Proof.
  intros Hu Hc Hl Hne. destruct (failed_logins_lookup id ts d u Hu) as (u' & Hu' & _ & Hl').
  destruct (list.last ts) as [t|] eqn:E; [|by apply last_None in E].
  exists u', t. split; [done|]. split; [done|]. rewrite Hl', Hc, Hl. unfold maxFailures, lockDuration.
  destruct (Nat.leb_spec 10 (length ts)), (Z.leb_spec 10 (0 + Z.of_nat (length ts))); done || lia.
Qed.

Definition demo_user : User := mkUser "admin" "" "" UserActive true 0 None 0 None.
Lemma lockout_after_ten_witness :
  ∃ u', users (failed_logins 3 (replicate 10 7%Z) (on_users (<[3%N := demo_user]>) empty_auth_db))
          !! 3%N = Some u' ∧ u_LockedUntil u' = Some (7 + 15 * Minute)%Z.
Proof.
  destruct (lockout_after_ten 3 (replicate 10 7%Z) (on_users (<[3%N := demo_user]>) empty_auth_db)
    demo_user (lookup_insert_eq _ _ _) eq_refl eq_refl ltac:(done)) as (u' & t & Hu & Ht & Hl).
  exists u'. split; [exact Hu|]. simpl in Ht. injection Ht as <-. exact Hl.
Defined.
