(* ===== verification/Sessions.v ===== *)
(** Browser sessions ([internal/auth/session.go]): opaque tokens of which only
    the hash is stored, an absolute and a sliding idle expiry, revocation. *)
From S2P Require Import Prelude Sha256 Rbac AuthStore.

(** ** Tokens *)

Definition token_alphabet : string :=
  "ABCDEFGHIJKLMNOPQRSTUVWXYZabcdefghijklmnopqrstuvwxyz0123456789".

(* internal/auth/session.go:61-68 encodeToken *)
Definition encodeToken (raw : bytes) : string :=
  bytes_str (map (λ b,
    default Ascii.zero (String.get (N.to_nat (byte_val b mod 62)) token_alphabet)) raw).

(* internal/auth/session.go:70-73 hashToken *)
Definition hashToken (token : string) : bytes := Sum256 (str_bytes token).

(** [rand.Read(raw)] either fails or fills the 32 bytes. *)
(* internal/auth/session.go:47-59 newOpaqueToken *)
Definition newOpaqueToken (rnd : option bytes) : res auth_error (string * bytes) :=
  match rnd with
  | None => Err ErrCrypto
  | Some raw =>
      let token := encodeToken raw in
      Ok (token, hashToken token)
  end.

(** ** The store *)

(* internal/auth/session.go:36-45 SessionStore *)
Record SessionStore : Type := mkSessionStore {
  cookieName : string;
  absoluteTTL : duration;
  idleTTL : duration }.

(* internal/auth/session.go:75-104 Create *)
Definition Create (st : SessionStore) (userID : uuid) (rnd : option bytes) (new_id : uuid)
    (now : time) : AuthM (string * (uuid * Session)) :=
  '(token, hash) ← mlift (newOpaqueToken rnd);
  let sess := mkSession userID hash now now (now + absoluteTTL st)%Z (now + idleTTL st)%Z None in
  mstmt ErrDB (λ d,
    if is_null (user_sessions d !! new_id) &&
       is_null (select_one (λ _ s, bool_decide (s_TokenHash s = hash)) (user_sessions d)) &&
       negb (is_null (users d !! userID))
    then (Ok (token, (new_id, sess)), on_sessions (<[new_id := sess]>) d)
    else (Err ErrDB, d)).

Definition slide (now idle : time) (s : Session) : Session :=
  mkSession (s_UserID s) (s_TokenHash s) (s_CreatedAt s) now (s_ExpiresAt s) idle (s_RevokedAt s).

(* internal/auth/session.go:106-141 Validate *)
Definition Validate (st : SessionStore) (token : string) (now : time) : AuthM (uuid * Session) :=
  r ← mquery ErrDB (λ d,
        select_one (λ _ s, bool_decide (s_TokenHash s = hashToken token)) (user_sessions d));
  match r with
  | None => mfail ErrSessionNotFound
  | Some (id, sess) =>
      if negb (is_null (s_RevokedAt sess)) then mfail ErrSessionRevoked
      else if After now (s_ExpiresAt sess) || After now (s_IdleExpiresAt sess)
      then mfail ErrSessionExpired
      else
        let newIdle := (now + idleTTL st)%Z in
        let newIdle := if After newIdle (s_ExpiresAt sess) then s_ExpiresAt sess else newIdle in
        mexec ErrDB (on_sessions (update_id id (slide now newIdle)));;
        mret (id, slide now newIdle sess)
  end.

Definition revoke_session (now : time) (s : Session) : Session :=
  mkSession (s_UserID s) (s_TokenHash s) (s_CreatedAt s) (s_LastSeenAt s) (s_ExpiresAt s)
    (s_IdleExpiresAt s) (Some now).

(* internal/auth/session.go:143-149 Revoke *)
Definition Revoke (sessionID : uuid) (now : time) : AuthM unit :=
  mexec ErrDB (on_sessions (update_where
    (λ id s, (id =? sessionID)%N && is_null (s_RevokedAt s)) (revoke_session now))).

(* internal/auth/session.go:151-159 RevokeAllForUser *)
Definition RevokeAllForUser (userID : uuid) (now : time) : AuthM unit :=
  mexec ErrDB (on_sessions (update_where
    (λ _ s, (s_UserID s =? userID)%N && is_null (s_RevokedAt s)) (revoke_session now))).

(** ** Cookies *)

Inductive SameSite : Type := SameSiteDefault | SameSiteLax | SameSiteStrict | SameSiteNone.
Record Cookie : Type := mkCookie {
  ck_Name : string;
  ck_Value : string;
  ck_Path : string;
  ck_Expires : option time;
  ck_MaxAge : Z;
  ck_Secure : bool;
  ck_HttpOnly : bool;
  ck_SameSite : SameSite }.

(* internal/auth/session.go:161-173 SetCookie *)
Definition SetCookie (st : SessionStore) (token : string) (expires : time) : Cookie :=
  mkCookie (cookieName st) token "/" (Some expires) 0 true true SameSiteStrict.

(* internal/auth/session.go:175-185 ClearCookie *)
Definition ClearCookie (st : SessionStore) : Cookie :=
  mkCookie (cookieName st) "" "/" None (-1) true true SameSiteStrict.

(** The request's cookies in header order. *)
(* internal/auth/session.go:187-193 ReadCookie *)
Definition ReadCookie (st : SessionStore) (cookies : list (string * string))
    : res auth_error string :=
  match find (λ c, String.eqb c.1 (cookieName st)) cookies with
  | None => Err ErrSessionNotFound
  | Some (_, v) => Ok v
  end.

(** ** Effects of the operations *)

Definition with_hash (h : bytes) : uuid → Session → bool :=
  λ _ s, bool_decide (s_TokenHash s = h).

(** What [Create] does: it stores one new session under the hash of the
    token it returns, or nothing. *)
Definition created (st : SessionStore) (userID : uuid) (now : time) (d : auth_db)
    (r : res auth_error (string * (uuid * Session))) (d' : auth_db) : Prop :=
  match r with
  | Ok (token, (id, s)) =>
      s = mkSession userID (hashToken token) now now (now + absoluteTTL st)%Z
            (now + idleTTL st)%Z None ∧
      d' = on_sessions (<[id := s]>) d ∧ user_sessions d !! id = None ∧
      (∀ j s', user_sessions d !! j = Some s' → s_TokenHash s' ≠ hashToken token)
  | Err e => d' = d ∧ is_session_invalid e = false
  end.

Lemma Create_always st userID rnd id now d :
  always (Create st userID rnd id now) (created st userID now d) d.
Proof.
  unfold Create. always_step. apply always_mlift. destruct rnd as [raw|]; simpl; [|done].
  apply always_mstmt; [done|].
  destruct (_ && _ && _) eqn:E; simpl; [|done]. reflect_bools.
  split; [done|]. split; [done|]. split.
  - by destruct (user_sessions d !! id).
  - destruct (select_one _ _) eqn:Hsel; [done|]. rewrite select_one_None in Hsel.
    intros j s' Hj Heq. specialize (Hsel _ _ Hj). simpl in Hsel. by reflect_bools.
Qed.

(** What [Validate] does: it accepts only a live session, of which it moves
    the idle expiry, and rejects without changing anything. *)
Definition validated (st : SessionStore) (token : string) (now : time) (d : auth_db)
    (r : res auth_error (uuid * Session)) (d' : auth_db) : Prop :=
  match r with
  | Ok (id, s') =>
      ∃ s, user_sessions d !! id = Some s ∧ s_TokenHash s = hashToken token ∧
        s_RevokedAt s = None ∧ (now ≤ s_ExpiresAt s)%Z ∧ (now ≤ s_IdleExpiresAt s)%Z ∧
        s' = slide now (Z.min (now + idleTTL st) (s_ExpiresAt s)) s ∧
        d' = on_sessions (<[id := s']>) d
  | Err _ => d' = d
  end.

Lemma clamp_min a b : (if After a b then b else a) = Z.min a b.
Proof. unfold After. destruct (Z.ltb_spec b a); lia. Qed.

Lemma Validate_always st token now d :
  always (Validate st token now) (validated st token now d) d.
Proof.
  unfold Validate. always_step. apply always_mquery; [done|].
  destruct (select_one _ _) as [[id s]|] eqn:Hsel; [|by apply always_mfail].
  apply select_one_Some in Hsel as [Hs Hh]. reflect_bools.
  destruct (s_RevokedAt s) eqn:Hr; simpl; [by apply always_mfail|].
  unfold After at 1 2. destruct (_ || _) eqn:E; [by apply always_mfail|]. reflect_bools.
  rewrite clamp_min. always_step. apply always_mexec; [done|]. apply always_mret.
  exists s. repeat (split; [done || lia|]). unfold on_sessions. by rewrite (update_id_Some _ _ _ _ Hs).
Qed.

(** ** The invariant of the session table *)

Definition sessions_ok (st : SessionStore) (d : auth_db) : Prop :=
  (∀ i j a b, user_sessions d !! i = Some a → user_sessions d !! j = Some b →
     s_TokenHash a = s_TokenHash b → i = j) ∧
  (∀ i a, user_sessions d !! i = Some a →
     s_ExpiresAt a = (s_CreatedAt a + absoluteTTL st)%Z ∧
     (s_IdleExpiresAt a ≤ s_LastSeenAt a + idleTTL st)%Z).

(** [d'] knows every session of [d], none of them un-revoked, with the same
    owner, token and absolute expiry. *)
Definition sessions_grow (d d' : auth_db) : Prop :=
  ∀ i a, user_sessions d !! i = Some a → ∃ a', user_sessions d' !! i = Some a' ∧
    s_UserID a' = s_UserID a ∧ s_TokenHash a' = s_TokenHash a ∧
    s_ExpiresAt a' = s_ExpiresAt a ∧
    (s_RevokedAt a ≠ None → s_RevokedAt a' ≠ None).

#[export] Instance sessions_grow_preorder : PreOrder sessions_grow.
Proof.
  split.
  - intros d i a Ha. exists a. done.
  - intros d1 d2 d3 H12 H23 i a Ha. destruct (H12 i a Ha) as (b & Hb & ? & ? & ? & ?).
    destruct (H23 i b Hb) as (c & Hc & ? & ? & ? & ?). exists c. naive_solver congruence.
Qed.

(** Neither looks at the other tables. *)
Lemma sessions_ok_same st d d' :
  user_sessions d' = user_sessions d → sessions_ok st d → sessions_ok st d'.
Proof. unfold sessions_ok. by intros ->. Qed.
Lemma sessions_grow_same d d' : user_sessions d' = user_sessions d → sessions_grow d d'.
Proof. intros E i a Ha. exists a. by rewrite E. Qed.

Definition session_inv (st : SessionStore) (d d' : auth_db) : Prop :=
  sessions_ok st d' ∧ sessions_grow d d'.

Lemma session_inv_refl st d : sessions_ok st d → session_inv st d d.
Proof. intros H. split; [done|reflexivity]. Qed.

Lemma created_inv st userID now d r d' :
  sessions_ok st d → created st userID now d r d' → session_inv st d d'.
Proof.
  intros [Hu Hok]. destruct r as [[token [id s]]|e]; [|intros [-> _]; by apply session_inv_refl].
  intros (-> & -> & Hfresh & Hnew). split; [split|].
  - intros i j a b. simpl. rewrite !lookup_insert. intros Ha Hb Hh.
    repeat case_decide; simplify_eq/=; try done; [..|by eauto]; exfalso; by eapply Hnew.
  - intros i a. simpl. rewrite lookup_insert. case_decide; intros; simplify_eq/=; [lia|eauto].
  - intros i a Ha. exists a. simpl. rewrite lookup_insert_ne by congruence. done.
Qed.

Lemma validated_inv st token now d r d' :
  sessions_ok st d → validated st token now d r d' → session_inv st d d'.
Proof.
  intros [Hu Hok]. destruct r as [[id s']|e]; [|intros ->; by apply session_inv_refl].
  intros (s & Hs & Hh & Hr & He & Hi & -> & ->). split; [split|].
  - intros i j a b. simpl. rewrite !lookup_insert. intros Ha Hb Hab.
    repeat case_decide; simplify_eq/=; try done; eauto.
  - intros i a. simpl. rewrite lookup_insert. case_decide; intros; simplify_eq/=; [|eauto].
    destruct (Hok _ _ Hs). lia.
  - intros i a Ha. simpl. destruct (decide (id = i)) as [->|Hne].
    + simplify_eq. eexists. rewrite lookup_insert_eq. done.
    + exists a. rewrite lookup_insert_ne by done. done.
Qed.

Lemma revoke_where_inv st p now d :
  sessions_ok st d → session_inv st d (on_sessions (update_where p (revoke_session now)) d).
Proof.
  intros [Hu Hok]. split; [split|].
  - intros i j a b. simpl. rewrite !lookup_update_where, !fmap_Some.
    intros (a' & Ha & ->) (b' & Hb & ->) Hh. apply (Hu i j a' b'); [done..|].
    by destruct (p i a'), (p j b').
  - intros i a. simpl. rewrite lookup_update_where, fmap_Some. intros (a' & Ha & ->).
    destruct (p i a'); simpl; eauto.
  - intros i a Ha. simpl. rewrite lookup_update_where, Ha. simpl. eexists. split; [done|].
    by destruct (p i a).
Qed.

(** ** What a session promises *)

Lemma Validate_live st token now d id s :
  sessions_ok st d → user_sessions d !! id = Some s → s_TokenHash s = hashToken token →
  s_RevokedAt s = None → (now ≤ s_ExpiresAt s)%Z → (now ≤ s_IdleExpiresAt s)%Z →
  run (Validate st token now) d =
    (Ok (id, slide now (Z.min (now + idleTTL st) (s_ExpiresAt s)) s),
     on_sessions (<[id := slide now (Z.min (now + idleTTL st) (s_ExpiresAt s)) s]>) d).
Proof.
  intros [Hu _] Hs Hh Hr He Hi.
  assert (select_one (λ _ s, bool_decide (s_TokenHash s = hashToken token)) (user_sessions d)
          = Some (id, s)) as Hsel.
  { apply select_one_unique; [done|by apply bool_decide_eq_true_2|].
    intros k r Hk Hkr. reflect_bools. eapply Hu; eauto. congruence. }
  unfold run, Validate, mbind, M_bind, mquery, mexec, mstmt, mret, M_ret. simpl.
  rewrite Hsel. simpl. rewrite Hr. simpl. unfold After at 1 2.
  destruct (Z.ltb_spec (s_ExpiresAt s) now), (Z.ltb_spec (s_IdleExpiresAt s) now); try lia.
  simpl. rewrite clamp_min. unfold on_sessions. by rewrite (update_id_Some _ _ _ _ Hs).
Qed.

(** The token [Create] hands out is the one [Validate] accepts: used
    before both expiries it resolves to the session just created, and each
    use moves the idle expiry to the use plus the idle lifetime, never past
    the absolute expiry. *)
Theorem session_create_validate st userID rnd id now d token s d' now' :
  sessions_ok st d →
  run (Create st userID rnd id now) d = (Ok (token, (id, s)), d') →
  (now ≤ now')%Z → (now' ≤ now + Z.min (idleTTL st) (absoluteTTL st))%Z →
  ∃ d'', run (Validate st token now') d' =
    (Ok (id, slide now' (Z.min (now' + idleTTL st) (now + absoluteTTL st)) s), d'').
Proof.
  intros Hok Hrun Hle Hlt. pose proof (always_run _ _ _ (Create_always st userID rnd id now d)) as H.
  rewrite Hrun in H. pose proof (created_inv _ _ _ _ _ _ Hok H) as [Hok' _].
  destruct H as (-> & -> & _). eexists.
  eapply Validate_live; simpl; try done; [by rewrite lookup_insert_eq|lia..].
Qed.

Definition demo_store : SessionStore := mkSessionStore "__Host-session" (12 * Hour) (30 * Minute).
Definition demo_accounts : auth_db := on_users (<[5%N := demo_user]>) empty_auth_db.

Lemma sessions_ok_empty st d : user_sessions d = ∅ → sessions_ok st d.
Proof. intros E. split; intros ?; rewrite E; intros; by rewrite lookup_empty in *. Qed.

Lemma session_create_validate_witness :
  ∃ token s d' d'',
    run (Create demo_store 5 (Some (replicate 32 "k"%char)) 9 0) demo_accounts
      = (Ok (token, (9%N, s)), d') ∧
    run (Validate demo_store token (10 * Minute)) d' =
      (Ok (9%N, slide (10 * Minute) (40 * Minute) s), d'').
Proof.
  destruct (run (Create demo_store 5 (Some (replicate 32 "k"%char)) 9 0) demo_accounts)
    as [[[token [id s]]|e] d'] eqn:E; vm_compute in E; [|done].
  assert (id = 9%N) as -> by congruence.
  destruct (session_create_validate demo_store 5 (Some (replicate 32 "k"%char)) 9 0 demo_accounts
    token s d' (10 * Minute)%Z) as [d'' H].
  - by apply sessions_ok_empty.
  - vm_compute. exact E.
  - vm_compute. done.
  - vm_compute. done.
  - exists token, s, d', d''. split; [done|exact H].
Defined.
