(* ===== verification/Mfa.v ===== *)
(** The second factor ([internal/auth/totp.go]): TOTP secrets encrypted at
    rest and single-use recovery codes. *)
From S2P Require Import Prelude Base64 Sha256 Rbac AuthStore.

(** AES-256-GCM with a 12-byte nonce: [seal key nonce plaintext] and
    [open key nonce ciphertext], which fails on anything not sealed so.
    [cipher_ok] is [aes.NewCipher]'s check of the key length. *)
Class AEAD : Type := {
  seal : bytes → bytes → bytes → bytes;
  open : bytes → bytes → bytes → option bytes }.
Class AEADLaws `{AEAD} : Prop := {
  open_seal k n p : open k n (seal k n p) = Some p }.

(** [github.com/pquerna/otp]: [totp_valid] is [ValidateCustom] with the
    options of the source (period 30, skew 1, six digits, SHA-1), [None]
    where it reports an error; [totp.Validate] uses the same options and maps
    an error to [false]. *)
Class Totp : Type := { totp_valid : string → string → time → option bool }.

(* internal/auth/totp.go:27-37 MFAStore *)
Record MFAStore : Type := mkMFAStore { mfa_key : bytes }.

Section mfa.
Context `{AEAD, Totp}.

(** [aes.NewCipher] accepts keys of 16, 24 and 32 bytes. *)
Definition newCipher_ok (key : bytes) : bool :=
  (length key =? 16) || (length key =? 24) || (length key =? 32).

(* internal/auth/totp.go:39-54 encrypt *)
Definition encrypt (st : MFAStore) (plaintext : bytes) (rnd : option bytes)
    : res auth_error (bytes * bytes) :=
  if newCipher_ok (mfa_key st) then
    match rnd with
    | None => Err ErrCrypto
    | Some nonce => Ok (seal (mfa_key st) nonce plaintext, nonce)
    end
  else Err ErrCrypto.

(* internal/auth/totp.go:56-66 decrypt *)
Definition decrypt (st : MFAStore) (ciphertext nonce : bytes) : res auth_error bytes :=
  if newCipher_ok (mfa_key st) then
    match open (mfa_key st) nonce ciphertext with
    | None => Err ErrCrypto
    | Some p => Ok p
    end
  else Err ErrCrypto.

(** [generated] is the outcome of [totp.Generate]: the secret and its
    provisioning URI. *)
(* internal/auth/totp.go:68-100 BeginSetup *)
Definition BeginSetup (st : MFAStore) (userID : uuid) (generated : option (string * string))
    (rnd : option bytes) : AuthM string :=
  match generated with
  | None => mfail ErrCrypto
  | Some (secret, url) =>
      '(ciphertext, nonce) ← mlift (encrypt st (str_bytes secret) rnd);
      mexec ErrDB (on_mfa (λ t,
        match t !! userID with
        | None => <[userID := mkMfa ciphertext nonce None []]> t
        | Some m =>
            if is_null (m_ConfirmedAt m) then <[userID := mkMfa ciphertext nonce None []]> t
            else t
        end));;
      mret url
  end.

(* internal/auth/totp.go:102-119 loadSecret *)
Definition loadSecret (st : MFAStore) (userID : uuid) : AuthM (string * bool) :=
  r ← mquery ErrDB (λ d, user_mfa d !! userID);
  match r with
  | None => mfail ErrMFANotConfigured
  | Some m =>
      plain ← mlift (decrypt st (m_Ciphertext m) (m_Nonce m));
      mret (bytes_str plain, negb (is_null (m_ConfirmedAt m)))
  end.

(* internal/auth/totp.go:242-245 hashRecoveryCode *)
Definition hashRecoveryCode (code : string) : string :=
  raw_encode std_alphabet (Sum256 (str_bytes code)).

(** [bufs] are the results of the successive [rand.Read(buf)] calls. *)
(* internal/auth/totp.go:229-240 generateRecoveryCodes *)
Fixpoint generateRecoveryCodes (n : nat) (bufs : list (option bytes))
    : res auth_error (list string * list string) :=
  match n with
  | O => Ok ([], [])
  | S n' =>
      match bufs with
      | Some buf :: rest =>
          match generateRecoveryCodes n' rest with
          | Ok (codes, hashes) =>
              Ok (hex_encode buf :: codes, hashRecoveryCode (hex_encode buf) :: hashes)
          | Err e => Err e
          end
      | _ => Err ErrCrypto
      end
  end.

Lemma generateRecoveryCodes_length n bufs codes hashes :
  generateRecoveryCodes n bufs = Ok (codes, hashes) → length codes = n.
Proof.
  revert bufs codes hashes.
  induction n as [|n IH]; intros bufs codes hashes; cbn [generateRecoveryCodes].
  { by intros [= <- <-]. }
  destruct bufs as [|[b|] bufs]; [done| |done].
  destruct (generateRecoveryCodes n bufs) as [[? ?]|] eqn:E; [|done].
  intros [= <- <-]. simpl. f_equal. eauto.
Qed.

#[local] Arguments generateRecoveryCodes : simpl never.

(* internal/auth/totp.go:121-153 ConfirmSetup *)
Definition ConfirmSetup (st : MFAStore) (userID : uuid) (code : string) (now : time)
    (bufs : list (option bytes)) : AuthM (list string) :=
  '(secret, confirmed) ← loadSecret st userID;
  if (confirmed : bool) then mfail ErrMFAAlreadyConfirmed
  else if negb (default false (totp_valid code secret now)) then mfail ErrInvalidCode
  else
    '(codes, hashes) ← mlift (generateRecoveryCodes 10 bufs);
    mexec ErrDB (on_mfa (update_id userID (λ m,
      mkMfa (m_Ciphertext m) (m_Nonce m) (Some now) hashes)));;
    mret codes.

(* internal/auth/totp.go:157-176 ValidateCode *)
Definition ValidateCode (st : MFAStore) (userID : uuid) (code : string) (now : time) : AuthM bool :=
  '(secret, confirmed) ← loadSecret st userID;
  if negb confirmed then mfail ErrMFANotConfigured
  else match totp_valid code secret now with
       | None => mret false
       | Some valid => mret valid
       end.

(* internal/auth/totp.go:178-188 IsConfirmed *)
Definition IsConfirmed (st : MFAStore) (userID : uuid) : AuthM bool :=
  r ← mtry (loadSecret st userID);
  match r with
  | Err ErrMFANotConfigured => mret false
  | Err e => mfail e
  | Ok (_, confirmed) => mret confirmed
  end.

Fixpoint hash_index (h : string) (hashes : list string) : option nat :=
  match hashes with
  | [] => None
  | x :: rest => if String.eqb x h then Some 0 else S <$> hash_index h rest
  end.

(* internal/auth/totp.go:190-227 ConsumeRecoveryCode *)
Definition ConsumeRecoveryCode (userID : uuid) (code : string) : AuthM bool :=
  r ← mquery ErrDB (λ d, user_mfa d !! userID);
  match r with
  | None => mfail ErrMFANotConfigured
  | Some m =>
      let hashes := m_RecoveryHashes m in
      match hash_index (hashRecoveryCode code) hashes with
      | None => mret false
      | Some idx =>
          let hashes := take idx hashes ++ drop (S idx) hashes in
          mexec ErrDB (on_mfa (update_id userID (λ m,
            mkMfa (m_Ciphertext m) (m_Nonce m) (m_ConfirmedAt m) hashes)));;
          mret true
      end
  end.

(** ** The enrolment of a confirmed user is permanent *)

(** Every operation of the store, with every input and every fault. *)
Inductive mfa_step (st : MFAStore) : auth_db → auth_db → Prop :=
| mfa_begin userID gen rnd d d' : effect (BeginSetup st userID gen rnd) d d' → mfa_step st d d'
| mfa_confirm userID code now bufs d d' :
    effect (ConfirmSetup st userID code now bufs) d d' → mfa_step st d d'
| mfa_validate userID code now d d' : effect (ValidateCode st userID code now) d d' → mfa_step st d d'
| mfa_recovery userID code d d' : effect (ConsumeRecoveryCode userID code) d d' → mfa_step st d d'.

(** An enrolment may change into another only while it is unconfirmed. *)
Definition mfa_kept (d d' : auth_db) : Prop :=
  ∀ u m, user_mfa d !! u = Some m → m_ConfirmedAt m ≠ None →
    ∃ m', user_mfa d' !! u = Some m' ∧ m_ConfirmedAt m' = m_ConfirmedAt m ∧
      m_Ciphertext m' = m_Ciphertext m ∧ m_Nonce m' = m_Nonce m ∧
      m_RecoveryHashes m' ⊆+ m_RecoveryHashes m.

#[export] Instance mfa_kept_preorder : PreOrder mfa_kept.
Proof.
  split.
  - intros d u m Hm Hc. exists m. done.
  - intros d1 d2 d3 H12 H23 u m Hm Hc. destruct (H12 u m Hm Hc) as (m2 & Hm2 & E & E1 & E2 & Hs).
    destruct (H23 u m2 Hm2 ltac:(congruence)) as (m3 & Hm3 & E' & E1' & E2' & Hs').
    exists m3. repeat (split; [congruence|]). by trans (m_RecoveryHashes m2).
Qed.

Lemma mfa_kept_same d d' : user_mfa d' = user_mfa d → mfa_kept d d'.
Proof. intros E u m Hm Hc. exists m. by rewrite E. Qed.

Lemma BeginSetup_kept st userID gen rnd d :
  always (BeginSetup st userID gen rnd) (λ _ d', mfa_kept d d') d.
Proof.
  unfold BeginSetup. destruct gen as [[secret url]|]; [|by apply always_mfail].
  always_step. always_step. destruct (encrypt _ _ _) as [[c n]|e]; [|done].
  always_step. apply always_mexec; [done|]. apply always_mret.
  intros u m Hm Hc. simpl. destruct (user_mfa d !! userID) as [m0|] eqn:E0.
  - destruct (m_ConfirmedAt m0) eqn:Ec; simpl; [by exists m|].
    exists m. rewrite lookup_insert_ne by congruence. done.
  - exists m. rewrite lookup_insert_ne by congruence. done.
Qed.

(** [loadSecret] reads: it yields the decrypted secret of the row. *)
Definition loaded (st : MFAStore) (userID : uuid) (d : auth_db)
    (r : res auth_error (string * bool)) (d' : auth_db) : Prop :=
  d' = d ∧
  match r with
  | Ok (secret, confirmed) =>
      ∃ m p, user_mfa d !! userID = Some m ∧ decrypt st (m_Ciphertext m) (m_Nonce m) = Ok p ∧
        secret = bytes_str p ∧ confirmed = negb (is_null (m_ConfirmedAt m))
  | Err _ => True
  end.

Lemma loadSecret_always st userID d : always (loadSecret st userID) (loaded st userID d) d.
Proof.
  unfold loadSecret. always_step. apply always_mquery; [done|].
  destruct (user_mfa d !! userID) as [m|] eqn:E; [|by apply always_mfail].
  always_step. always_step. destruct (decrypt _ _ _) as [p|e] eqn:Ed; [|done].
  always_step. split; [done|]. naive_solver.
Qed.

Lemma ConfirmSetup_kept st userID code now bufs d :
  always (ConfirmSetup st userID code now bufs) (λ _ d', mfa_kept d d') d.
Proof.
  unfold ConfirmSetup. always_step. eapply always_mono; [apply loadSecret_always|].
  intros [[secret confirmed]|e] d' [-> Hl]; [|done].
  destruct confirmed; [by apply always_mfail|].
  destruct (negb _); [by apply always_mfail|].
  always_step. always_step. destruct (generateRecoveryCodes _ _) as [[codes hashes]|e]; [|done].
  always_step. apply always_mexec; [done|]. apply always_mret.
  destruct Hl as (m & p & Hm & _ & _ & Hc). intros u m' Hm' Hc'. simpl.
  rewrite lookup_update_id. case_decide; [|by exists m']. subst.
  assert (m' = m) as -> by congruence. by destruct (m_ConfirmedAt m).
Qed.

(** Setup is confirmed only for a user whose second factor was not. *)
Lemma ConfirmSetup_unconfirmed st userID code now bufs d :
  always (ConfirmSetup st userID code now bufs) (λ r _, ∀ codes, r = Ok codes →
    ∀ m, user_mfa d !! userID = Some m → m_ConfirmedAt m = None) d.
Proof.
  unfold ConfirmSetup. always_step. eapply always_mono; [apply loadSecret_always|].
  intros [[secret confirmed]|e] d' [-> Hl]; [|done].
  destruct confirmed; [by apply always_mfail|].
  destruct Hl as (m & p & Hm & _ & _ & Hc). apply always_any. intros _ _ _ _ m' Hm'.
  assert (m' = m) as -> by congruence. by destruct (m_ConfirmedAt m).
Qed.

Lemma ValidateCode_always st userID code now d :
  always (ValidateCode st userID code now) (λ r d', d' = d ∧
    (r = Ok true → ∃ m p, user_mfa d !! userID = Some m ∧ m_ConfirmedAt m ≠ None ∧
       decrypt st (m_Ciphertext m) (m_Nonce m) = Ok p ∧
       totp_valid code (bytes_str p) now = Some true)) d.
Proof.
  unfold ValidateCode. always_step. eapply always_mono; [apply loadSecret_always|].
  intros [[secret confirmed]|e] d' [-> Hl]; [|done].
  destruct confirmed; [|by apply always_mfail].
  destruct Hl as (m & p & Hm & Hd & -> & Hc).
  destruct (totp_valid _ _ _) as [[]|] eqn:Ev; apply always_mret; (split; [done|]); [|done..].
  intros _. exists m, p. by destruct (m_ConfirmedAt m).
Qed.

Lemma IsConfirmed_always st userID d :
  always (IsConfirmed st userID) (λ r d', d' = d ∧
    (r = Ok false → ∀ m, user_mfa d !! userID = Some m → m_ConfirmedAt m = None)) d.
Proof.
  unfold IsConfirmed. always_step. always_step.
  unfold loadSecret. always_step. apply always_mquery; [by apply always_mfail|].
  destruct (user_mfa d !! userID) as [m|] eqn:E.
  - always_step. always_step. destruct (decrypt _ _ _) as [p|e] eqn:Ed.
    + always_step. apply always_mret. split; [done|]. intros Hc m' Hm'.
      simplify_eq. destruct (m_ConfirmedAt m'); done.
    + assert (e ≠ ErrMFANotConfigured) as Hne
        by (unfold decrypt in Ed; repeat case_match; congruence).
      destruct e; done || by apply always_mfail.
  - apply always_mfail. apply always_mret. naive_solver.
Qed.

Lemma hash_index_submseteq h hashes i :
  hash_index h hashes = Some i → take i hashes ++ drop (S i) hashes ⊆+ hashes.
Proof.
  revert i. induction hashes as [|x hashes IH]; intros i; simpl; [done|].
  case_match; intros; simplify_eq/=; [by apply submseteq_cons|].
  destruct (hash_index h hashes) as [j|]; simplify_eq/=. apply submseteq_skip. eauto.
Qed.

Lemma ConsumeRecoveryCode_kept userID code d :
  always (ConsumeRecoveryCode userID code) (λ _ d', mfa_kept d d') d.
Proof.
  unfold ConsumeRecoveryCode. always_step. apply always_mquery; [done|].
  destruct (user_mfa d !! userID) as [m|] eqn:E; [|by apply always_mfail].
  destruct (hash_index _ _) as [i|] eqn:Ei; [|by apply always_mret].
  always_step. apply always_mexec; [done|]. apply always_mret.
  intros u m' Hm' Hc. simpl. rewrite lookup_update_id.
  case_decide; subst; [|by exists m']. assert (m' = m) as -> by congruence. rewrite E. eexists. split; [done|].
  repeat (split; [done|]). by eapply hash_index_submseteq.
Qed.

Lemma mfa_step_kept st d d' : mfa_step st d d' → mfa_kept d d'.
Proof.
  destruct 1 as [u g r d d' E|u c n b d d' E|u c n d d' E|u c d d' E];
    revert E; apply effect_always.
  - apply BeginSetup_kept.
  - apply ConfirmSetup_kept.
  - eapply always_mono; [apply ValidateCode_always|]. by intros r d1 [-> _].
  - apply ConsumeRecoveryCode_kept.
Qed.

(** Once a user's second factor is confirmed, no sequence of operations
    of the MFA store, whatever fails on the way, replaces the secret or
    un-confirms it: a repeated setup leaves it alone, and recovery codes only
    ever disappear. *)
Theorem mfa_confirmed_permanent st d d' u m :
  reachable (eq d) (mfa_step st) d' →
  user_mfa d !! u = Some m → m_ConfirmedAt m ≠ None →
  ∃ m', user_mfa d' !! u = Some m' ∧ m_ConfirmedAt m' = m_ConfirmedAt m ∧
    m_Ciphertext m' = m_Ciphertext m ∧ m_Nonce m' = m_Nonce m ∧
    m_RecoveryHashes m' ⊆+ m_RecoveryHashes m.
Proof.
  intros Hr. enough (mfa_kept d d') by auto.
  revert d' Hr. apply invariant_reachable; [by intros ? <-|].
  intros s s' Hs Hst. etrans; [done|by eapply mfa_step_kept].
Qed.

(** ** Recovery codes *)

Fixpoint consume_times (n : nat) (userID : uuid) (code : string) (d : auth_db) : list bool :=
  match n with
  | O => []
  | S n' =>
      match run (ConsumeRecoveryCode userID code) d with
      | (Ok b, d') => b :: consume_times n' userID code d'
      | (Err _, d') => false :: consume_times n' userID code d'
      end
  end.

Definition occurrences (h : string) (hashes : list string) : nat :=
  length (filter (λ x, x = h) hashes).

Lemma hash_index_None h hashes : hash_index h hashes = None → occurrences h hashes = 0.
Proof.
  unfold occurrences. induction hashes as [|x hashes IH]; simpl; [done|].
  destruct (String.eqb_spec x h); [done|]. rewrite filter_cons_False by done.
  destruct (hash_index h hashes); naive_solver.
Qed.

Lemma hash_index_remove h hashes i :
  hash_index h hashes = Some i →
  occurrences h hashes = S (occurrences h (take i hashes ++ drop (S i) hashes)).
Proof.
  unfold occurrences. revert i. induction hashes as [|x hashes IH]; intros i; simpl; [done|].
  destruct (String.eqb_spec x h).
  - intros; simplify_eq/=. by rewrite filter_cons_True.
  - destruct (hash_index h hashes) as [j|]; intros; simplify_eq/=.
    rewrite !filter_cons_False by done. by apply IH.
Qed.

Lemma ConsumeRecoveryCode_run userID code d m :
  user_mfa d !! userID = Some m →
  run (ConsumeRecoveryCode userID code) d =
  match hash_index (hashRecoveryCode code) (m_RecoveryHashes m) with
  | None => (Ok false, d)
  | Some i =>
      (Ok true, on_mfa (<[userID := mkMfa (m_Ciphertext m) (m_Nonce m) (m_ConfirmedAt m)
        (take i (m_RecoveryHashes m) ++ drop (S i) (m_RecoveryHashes m))]>) d)
  end.
Proof.
  intros Hm. unfold run, ConsumeRecoveryCode, mbind, M_bind, mquery, mstmt. simpl.
  rewrite Hm. destruct (hash_index _ _); [|done]. simpl.
  unfold on_mfa. by rewrite (update_id_Some _ _ _ _ Hm).
Qed.

(** A recovery code works exactly as often as it was issued: of [n]
    attempts in a row with a code whose hash is stored [k] times, the first
    [min n k] succeed and all later ones fail.  Issued once, it is accepted
    once. *)
Theorem recovery_code_single_use n userID code d m :
  user_mfa d !! userID = Some m →
  let k := occurrences (hashRecoveryCode code) (m_RecoveryHashes m) in
  consume_times n userID code d = replicate (min n k) true ++ replicate (n - k) false.
Proof.
  revert d m. induction n as [|n IH]; intros d m Hm; [done|].
  cbn [consume_times]. rewrite (ConsumeRecoveryCode_run _ _ _ _ Hm).
  destruct (hash_index _ _) as [i|] eqn:Ei.
  - erewrite IH by apply lookup_insert_eq. cbn [m_RecoveryHashes].
    by rewrite (hash_index_remove _ _ _ Ei).
  - erewrite IH by done. rewrite (hash_index_None _ _ Ei). simpl.
    by rewrite Nat.min_0_r, Nat.sub_0_r.
Qed.

Context `{!AEADLaws}.

Lemma decrypt_encrypt st p rnd c n : encrypt st p rnd = Ok (c, n) → decrypt st c n = Ok p.
Proof.
  unfold encrypt, decrypt. destruct (newCipher_ok _); [|done]. destruct rnd; [|done].
  intros [= <- <-]. by rewrite open_seal.
Qed.

(** Setup, confirmation and use fit together: for a user without a
    confirmed second factor, the secret stored by [BeginSetup] is the one
    whose codes [ConfirmSetup] accepts, and from then on [ValidateCode]
    answers with the TOTP check of that very secret. *)
Theorem mfa_setup_roundtrip st u secret url nonce d code now bufs codes d1 d2 :
  (∀ m, user_mfa d !! u = Some m → m_ConfirmedAt m = None) →
  run (BeginSetup st u (Some (secret, url)) (Some nonce)) d = (Ok url, d1) →
  run (ConfirmSetup st u code now bufs) d1 = (Ok codes, d2) →
  totp_valid code secret now = Some true ∧ length codes = 10 ∧
  ∀ code' now', run (ValidateCode st u code' now') d2 =
    (Ok (default false (totp_valid code' secret now')), d2).
Proof.
  intros Hun HB HC.
  assert (∃ c n, d1 = on_mfa (<[u := mkMfa c n None []]>) d ∧ decrypt st c n = Ok (str_bytes secret))
    as (c & n & -> & Hd).
  { revert HB. unfold run, BeginSetup, mbind, M_bind, mlift, mexec, mstmt, mret, M_ret.
    destruct (encrypt st (str_bytes secret) (Some nonce)) as [[c n]|e] eqn:Ee; simpl; [|done].
    intros HB. exists c, n. split; [|by eapply decrypt_encrypt]. injection HB as <-.
    unfold on_mfa. destruct (user_mfa d !! u) as [m|] eqn:Em; [|done]. by rewrite (Hun m). }
  revert HC. unfold run at 1, ConfirmSetup, loadSecret, mbind, M_bind, mquery, mlift, mexec, mstmt,
    mret, M_ret. simpl. rewrite lookup_insert_eq. simpl. rewrite Hd. simpl. rewrite str_bytes_str.
  destruct (totp_valid code secret now) as [[]|] eqn:Ev; simpl; [|done..].
  destruct (generateRecoveryCodes 10 bufs) as [[cs hs]|e] eqn:Eg; simpl; [|done].
  intros [= <- <-]. split; [done|]. split.
  - by eapply generateRecoveryCodes_length.
  - intros code' now'. unfold run, ValidateCode, loadSecret, mbind, M_bind, mquery, mlift, mstmt,
      mret, M_ret. simpl. rewrite lookup_update_id, decide_True, lookup_insert_eq by done. simpl.
    rewrite Hd. simpl. rewrite str_bytes_str. by destruct (totp_valid code' secret now').
Qed.
End mfa.

(** ** A concrete instance *)

(** Encryption and TOTP by trivially invertible functions: enough to run the
    store. *)
Definition demo_aead : AEAD :=
  {| seal k n p := k ++ n ++ p;
     open k n c := if bool_decide (take (length (k ++ n)) c = k ++ n)
                   then Some (drop (length (k ++ n)) c) else None |}.
Lemma demo_aead_laws : @AEADLaws demo_aead.
Proof.
  constructor. intros k n p. simpl. rewrite app_assoc, take_app_length, drop_app_length.
  by rewrite bool_decide_eq_true_2.
Qed.
Definition demo_totp : Totp := {| totp_valid code secret _ := Some (String.eqb code secret) |}.
Definition demo_mfa_store : MFAStore := mkMFAStore (replicate 32 "k"%char).
Definition demo_mfa (confirmed : option time) : auth_db :=
  on_mfa (<[7%N := mkMfa [] [] confirmed [hashRecoveryCode "c0"; hashRecoveryCode "c1"]]>)
    empty_auth_db.

Lemma mfa_confirmed_permanent_witness :
  ∃ m', user_mfa (run (@BeginSetup demo_aead demo_mfa_store 7 (Some ("s", "u")%string)
                         (Some [])) (demo_mfa (Some 1%Z))).2 !! 7%N = Some m' ∧
    m_ConfirmedAt m' = Some 1%Z.
Proof.
  destruct (@mfa_confirmed_permanent demo_aead demo_totp demo_mfa_store (demo_mfa (Some 1%Z))
    (run (@BeginSetup demo_aead demo_mfa_store 7 (Some ("s", "u")%string)
            (Some [])) (demo_mfa (Some 1%Z))).2 7
    (mkMfa [] [] (Some 1%Z) [hashRecoveryCode "c0"; hashRecoveryCode "c1"]))
    as (m' & Hm & Hc & _).
  - eapply reach_step; [by apply reach_init|].
    eapply mfa_begin with (userID := 7%N) (gen := Some ("s", "u")%string) (rnd := Some []).
    exists []. unfold run. by destruct (BeginSetup _ _ _ _ _).
  - apply lookup_insert_eq.
  - done.
  - exists m'. split; [exact Hm|]. exact Hc.
Defined.

Lemma recovery_code_single_use_witness :
  consume_times 3 7 "c1" (demo_mfa (Some 1%Z)) = [true; false; false].
Proof.
  assert (occurrences (hashRecoveryCode "c1") [hashRecoveryCode "c0"; hashRecoveryCode "c1"] = 1)
    as Hk by (vm_compute; reflexivity).
  pose proof (recovery_code_single_use 3 7 "c1" (demo_mfa (Some 1%Z)) _
    (lookup_insert_eq _ _ _)) as H.
  cbn [m_RecoveryHashes] in H. rewrite Hk in H. exact H.
Defined.

Lemma mfa_setup_roundtrip_witness :
  ∃ d1 d2 codes,
    run (@BeginSetup demo_aead demo_mfa_store 7 (Some ("s", "u")%string) (Some [])) (demo_mfa None)
      = (Ok "u"%string, d1) ∧
    run (@ConfirmSetup demo_aead demo_totp demo_mfa_store 7 "s" 5 (replicate 10 (Some ["a"%char]))) d1
      = (Ok codes, d2) ∧
    run (@ValidateCode demo_aead demo_totp demo_mfa_store 7 "s" 99) d2 = (Ok true, d2).
Proof.
  destruct (run (@BeginSetup demo_aead demo_mfa_store 7 (Some ("s", "u")%string) (Some []))
    (demo_mfa None)) as [[u|e] d1] eqn:E1; [|by vm_compute in E1].
  assert (u = "u"%string) as -> by (vm_compute in E1; congruence).
  destruct (run (@ConfirmSetup demo_aead demo_totp demo_mfa_store 7 "s" 5
    (replicate 10 (Some ["a"%char]))) d1) as [[codes|e] d2] eqn:E2.
  2:{ assert (d1 = (run (@BeginSetup demo_aead demo_mfa_store 7 (Some ("s", "u")%string) (Some []))
        (demo_mfa None)).2) as -> by by rewrite E1. exfalso. clear E1. vm_compute in E2. congruence. }
  exists d1, d2, codes. split; [done|]. split; [done|].
  pose proof demo_aead_laws as L.
  destruct (@mfa_setup_roundtrip demo_aead demo_totp L demo_mfa_store 7 "s" "u" [] (demo_mfa None)
    "s" 5 (replicate 10 (Some ["a"%char])) codes d1 d2) as (_ & _ & H).
  - intros m Hm. unfold demo_mfa in Hm. simpl in Hm. rewrite lookup_insert_eq in Hm.
    injection Hm as <-. done.
  - exact E1.
  - exact E2.
  - exact (H "s"%string 99%Z).
Defined.
