(* ===== verification/AuthService.v ===== *)
(** Login, second factor, re-authentication and the request guards:
    [internal/auth/service.go], [internal/auth/middleware.go] and the
    handlers of [internal/httpapi/handlers_auth.go] that call them. *)
From S2P Require Import Prelude Base64 Sha256 Rbac RateLimit Password AuthStore Sessions Mfa.

(** ** State *)

(* internal/auth/service.go:16-42 Service *)
Record Service : Type := mkService {
  sv_Sessions : SessionStore;
  sv_MFA : MFAStore;
  sv_Argon2 : Argon2Params;
  sv_RequireMFA : bool }.

(** A call of [audit.Record] as the handlers make it. *)
Record audit_call : Type := mkCall {
  ac_EventType : string;
  ac_Success : bool;
  ac_ActorID : option uuid;
  ac_SessionID : option uuid }.

(** The database, the two rate limiters and the audit calls made so far. *)
Record svc_state : Type := mkSvc {
  sv_db : auth_db;
  sv_LoginLimiter : RateLimiter;
  sv_MFALimiter : RateLimiter;
  sv_audit : list audit_call }.

Definition set_db (d : auth_db) (s : svc_state) : svc_state :=
  mkSvc d (sv_LoginLimiter s) (sv_MFALimiter s) (sv_audit s).

Definition NewLimiters (d : auth_db) : svc_state :=
  mkSvc d (NewRateLimiter 10 Minute) (NewRateLimiter 5 Minute) [].

Abbreviation SvcM := (M svc_state auth_error).
Definition repo {A} (m : AuthM A) : SvcM A := mzoom sv_db set_db m.

Definition allow_login (key : string) (now : time) : SvcM bool :=
  mstate (λ s, let '(ok, l) := Allow (sv_LoginLimiter s) key now in
               (ok, mkSvc (sv_db s) l (sv_MFALimiter s) (sv_audit s))).
Definition allow_mfa (key : string) (now : time) : SvcM bool :=
  mstate (λ s, let '(ok, l) := Allow (sv_MFALimiter s) key now in
               (ok, mkSvc (sv_db s) (sv_LoginLimiter s) l (sv_audit s))).
Definition record (c : audit_call) : SvcM unit :=
  mstate (λ s, (tt, mkSvc (sv_db s) (sv_LoginLimiter s) (sv_MFALimiter s) (sv_audit s ++ [c]))).

(** What one request draws from [crypto/rand], [gen_random_uuid()] and
    [totp.Generate]. *)
Record entropy : Type := mkEntropy {
  e_token : option bytes;
  e_id : uuid;
  e_totp : option (string * string);
  e_nonce : option bytes;
  e_codes : list (option bytes);
  e_salt : option bytes }.

(* internal/auth/service.go:48-55 LoginResult *)
Inductive LoginResult : Type :=
| MfaSetupRequired (uri : string)
| MfaRequired (challengeID : string)
| Authenticated (token : string) (sess : uuid * Session).

Section service.
Context (citext_eq : string → string → bool).
Context `{Argon2, AEAD, Totp, UuidText}.

(* internal/auth/service.go:122-137 createMFAChallenge *)
Definition createMFAChallenge (userID new_id : uuid) (now : time) : AuthM string :=
  mstmt ErrDB (λ d,
    if is_null (mfa_challenges d !! new_id) && negb (is_null (users d !! userID)) then
      (Ok (uuid_string new_id),
       on_challenges (<[new_id := mkChallenge userID (now + 5 * Minute)%Z None 0]>) d)
    else (Err ErrDB, d)).

(** The account checks of [Login] that follow a successful lookup. *)
(* internal/auth/service.go:57-115 Login *)
Definition Login (svc : Service) (username password ip : string) (ent : entropy) (now : time)
    : SvcM LoginResult :=
  ok ← allow_login ("login:" +:+ ip) now;
  if negb ok then mfail ErrRateLimited
  else
    r ← mtry (repo (GetByUsername citext_eq username));
    match r with
    | Err _ => mfail ErrInvalidCredentials
    | Ok (uid, user) =>
        if negb (bool_decide (u_Status user = UserActive)) then mfail ErrInvalidCredentials
        else if match u_LockedUntil user with Some l => Before now l | None => false end
        then mfail ErrLocked
        else
          match VerifyPassword password (u_PasswordHash user) with
          | Err _ => mfail ErrPasswordHash
          | Ok false =>
              mignore (repo (RegisterFailedLogin uid now));;
              mfail ErrInvalidCredentials
          | Ok true =>
              confirmed ← repo (IsConfirmed (sv_MFA svc) uid);
              if negb confirmed then
                if sv_RequireMFA svc || u_MFARequired user then
                  uri ← repo (BeginSetup (sv_MFA svc) uid (e_totp ent) (e_nonce ent));
                  mret (MfaSetupRequired uri)
                else
                  mignore (E := auth_error) (repo (ResetFailedLogins uid now));;
                  '(token, sess) ← repo (Create (sv_Sessions svc) uid (e_token ent) (e_id ent) now);
                  mret (Authenticated token sess)
              else
                challengeID ← repo (createMFAChallenge uid (e_id ent) now);
                mret (MfaRequired challengeID)
          end
    end.

Definition attempt (c : Challenge) : Challenge :=
  mkChallenge (c_UserID c) (c_ExpiresAt c) (c_ConsumedAt c) (c_Attempts c + 1).
Definition consume_challenge (now : time) (c : Challenge) : Challenge :=
  mkChallenge (c_UserID c) (c_ExpiresAt c) (Some now) (c_Attempts c).

(* internal/auth/service.go:139-188 CompleteMFA *)
Definition CompleteMFA (svc : Service) (challengeID code : string) (ent : entropy) (now : time)
    : SvcM LoginResult :=
  ok ← allow_mfa ("mfa:" +:+ challengeID) now;
  if negb ok then mfail ErrRateLimited
  else
    match uuid_parse challengeID with
    | None => mfail ErrInvalidCredentials
    | Some cid =>
        r ← repo (mquery ErrDB (λ d, mfa_challenges d !! cid));
        match r with
        | None => mfail ErrInvalidCredentials
        | Some c =>
            if negb (is_null (c_ConsumedAt c)) || After now (c_ExpiresAt c) ||
               (5 <=? c_Attempts c)%Z
            then mfail ErrInvalidCredentials
            else
              v ← mtry (repo (ValidateCode (sv_MFA svc) (c_UserID c) code now));
              match v with
              | Ok true =>
                  repo (mexec ErrDB (on_challenges (update_id cid (consume_challenge now))));;
                  mignore (E := auth_error) (repo (ResetFailedLogins (c_UserID c) now));;
                  '(token, sess) ← repo (Create (sv_Sessions svc) (c_UserID c) (e_token ent)
                                           (e_id ent) now);
                  mret (Authenticated token sess)
              | Ok false | Err ErrMFANotConfigured =>
                  mignore (E := auth_error)
                    (repo (mexec ErrDB (on_challenges (update_id cid attempt))));;
                  mfail ErrInvalidCredentials
              | Err e => mfail e
              end
        end
    end.

(* internal/auth/service.go:190-196 ConfirmMFASetup *)
Definition ConfirmMFASetup (svc : Service) (userID : uuid) (code : string) (ent : entropy)
    (now : time) : AuthM (list string) :=
  ConfirmSetup (sv_MFA svc) userID code now (e_codes ent).

(* internal/auth/service.go:198-232 Reauth *)
Definition Reauth (svc : Service) (userID : uuid) (password code : string) (ent : entropy)
    (now : time) : SvcM string :=
  ok ← allow_mfa ("reauth:" +:+ uuid_string userID) now;
  if negb ok then mfail ErrRateLimited
  else
    r ← mtry (E := auth_error) (repo (GetByID userID));
    match r with
    | Err _ => mfail ErrInvalidCredentials
    | Ok user =>
        match VerifyPassword password (u_PasswordHash user) with
        | Ok true =>
            v ← mtry (E := auth_error) (repo (ValidateCode (sv_MFA svc) userID code now));
            match v with
            | Ok true =>
                repo (mstmt ErrDB (λ d,
                  if is_null (reauth_tokens d !! e_id ent) && negb (is_null (users d !! userID))
                  then (Ok (uuid_string (e_id ent)),
                        on_reauth (<[e_id ent := mkReauth userID (now + 5 * Minute)%Z None]>) d)
                  else (Err ErrDB, d)))
            | _ => mfail ErrInvalidCredentials
            end
        | _ => mfail ErrInvalidCredentials
        end
    end.

Definition fresh_reauth (id userID : uuid) (now : time) : uuid → ReauthToken → bool :=
  λ k t, (k =? id)%N && (ra_UserID t =? userID)%N && is_null (ra_ConsumedAt t) &&
         After (ra_ExpiresAt t) now.
Definition consume_reauth_token (now : time) (t : ReauthToken) : ReauthToken :=
  mkReauth (ra_UserID t) (ra_ExpiresAt t) (Some now).

(* internal/auth/service.go:234-249 ConsumeReauth *)
Definition ConsumeReauth (userID : uuid) (reauthID : string) (now : time) : AuthM bool :=
  match uuid_parse reauthID with
  | None => mret false
  | Some id =>
      n ← mstmt ErrDB (λ d,
            (Ok (count_where (fresh_reauth id userID now) (reauth_tokens d)),
             on_reauth (update_where (fresh_reauth id userID now) (consume_reauth_token now)) d));
      mret (n =? 1)
  end.

(* internal/auth/service.go:256-270 ChangeOwnPassword *)
Definition ChangeOwnPassword (svc : Service) (userID : uuid) (newPassword : string) (ent : entropy)
    : AuthM unit :=
  if String.length newPassword <? 12 then mfail ErrPasswordTooShort
  else
    match HashPassword newPassword (sv_Argon2 svc) (e_salt ent) with
    | Err _ => mfail ErrPasswordHash
    | Ok hash => UpdatePasswordHash userID hash
    end.

(** ** Responses and guards *)

Record Response : Type := mkResponse {
  rs_Status : Z;
  rs_Code : string;
  rs_Cookies : list Cookie;
  rs_Data : list string }.

(* internal/auth/middleware.go:96-107 writeError *)
Definition writeErr (status : Z) (code : string) : Response := mkResponse status code [] [].
(* internal/httpapi/handlers.go:63-72 writeJSON *)
Definition writeJSON (state : string) (cookies : list Cookie) (data : list string) : Response :=
  mkResponse 200 state cookies data.

(* internal/httpapi/security.go:28-46 setCSRFCookie *)
Definition setCSRFCookie (buf : bytes) : Cookie :=
  mkCookie "wr_csrf" (raw_encode url_alphabet buf) "/" None 0 true false SameSiteStrict.
(* internal/httpapi/security.go:48-52 clearCSRFCookie *)
Definition clearCSRFCookie : Cookie :=
  mkCookie "wr_csrf" "" "/" None (-1) true false SameSiteStrict.

Record Request : Type := mkRequest {
  rq_Method : string;
  rq_Cookies : list (string * string);
  rq_CSRFHeader : string;
  rq_ClientIP : string }.

(* internal/httpapi/security.go:54-78 withCSRF *)
Definition csrf_ok (enabled : bool) (req : Request) : bool :=
  if negb enabled then true
  else if String.eqb (rq_Method req) "GET" || String.eqb (rq_Method req) "HEAD" ||
          String.eqb (rq_Method req) "OPTIONS" then true
  else
    match find (λ c, String.eqb c.1 "wr_csrf") (rq_Cookies req) with
    | None => false
    | Some (_, v) =>
        if String.eqb v "" then false
        else negb (String.eqb (rq_CSRFHeader req) "" || negb (String.eqb (rq_CSRFHeader req) v))
    end.
Definition withCSRF (enabled : bool) (req : Request) (next : SvcM Response) : SvcM Response :=
  if csrf_ok enabled req then next else mret (writeErr 403 "permission_denied").

(** What [RequireSession] puts into the request context. *)
Record authctx : Type := mkCtx {
  cx_Session : uuid * Session;
  cx_User : uuid * User;
  cx_Grants : list PermissionGrant }.

(** The checks of [RequireSession] with its refusals as errors, and the
    middleware itself. *)
(* internal/auth/middleware.go:18-55 RequireSession *)
Definition CheckSession (svc : Service) (req : Request) (now : time) : M svc_state Response authctx :=
  match ReadCookie (sv_Sessions svc) (rq_Cookies req) with
  | Err _ => mfail (writeErr 401 "unauthenticated")
  | Ok token =>
      v ← mtry (repo (Validate (sv_Sessions svc) token now));
      match v with
      | Err _ => mfail (writeErr 401 "unauthenticated")
      | Ok (sid, sess) =>
          u ← mtry (repo (GetByID (s_UserID sess)));
          match u with
          | Err _ => mfail (writeErr 401 "unauthenticated")
          | Ok user =>
              if negb (bool_decide (u_Status user = UserActive)) then mfail (writeErr 401 "unauthenticated")
              else
                g ← mtry (repo (PermissionsForUser (s_UserID sess)));
                match g with
                | Err _ => mfail (writeErr 500 "internal_error")
                | Ok grants => mret (mkCtx (sid, sess) (s_UserID sess, user) grants)
                end
          end
      end
  end.
Definition RequireSession (svc : Service) (req : Request) (now : time)
    (next : authctx → SvcM Response) : SvcM Response :=
  r ← mtry (CheckSession svc req now);
  match r with
  | Ok cx => next cx
  | Err resp => mret resp
  end.

(* internal/auth/middleware.go:72-90 RequirePermission *)
Definition RequirePermission (permission : string) (resource : option Resource) (cx : authctx)
    (next : SvcM Response) : SvcM Response :=
  let r := default (mkResource None None) resource in
  if negb (HasPermission (cx_Grants cx) permission r)
  then mret (writeErr 403 "permission_denied")
  else next.

(* internal/auth/middleware.go:92-94 GlobalResource *)
Definition GlobalResource : Resource := mkResource None None.

(** ** The handlers *)

(* internal/httpapi/handlers_auth.go:52-64 auditLoginFailure *)
Definition auditLoginFailure (e : auth_error) : SvcM unit :=
  let eventType := match e with ErrLocked => "auth.login.lockout" | _ => "auth.login.failure" end in
  record (mkCall eventType false None None).

(** [body] is the decoded request, [None] where decoding failed. *)
(* internal/httpapi/handlers_auth.go:17-50 handleLogin *)
Definition handleLogin (svc : Service) (req : Request) (body : option (string * string))
    (ent : entropy) (csrf : bytes) (now : time) : SvcM Response :=
  match body with
  | None => mret (writeErr 400 "invalid_request")
  | Some (username, password) =>
      if String.eqb username "" || String.eqb password "" then mret (writeErr 400 "invalid_request")
      else
        r ← mtry (E := auth_error) (Login svc username password (rq_ClientIP req) ent now);
        match r with
        | Err e =>
            auditLoginFailure e;;
            match e with
            | ErrRateLimited => mret (writeErr 429 "rate_limited")
            | ErrLocked => mret (writeErr 403 "permission_denied")
            | _ => mret (writeErr 401 "unauthenticated")
            end
        | Ok (MfaSetupRequired uri) =>
            record (mkCall "auth.login.success" true None None);;
            mret (writeJSON "mfa_setup_required" [] [uri])
        | Ok (MfaRequired challengeID) => mret (writeJSON "mfa_required" [] [challengeID])
        | Ok (Authenticated token (sid, sess)) =>
            record (mkCall "auth.login.success" true (Some (s_UserID sess)) (Some sid));;
            mret (writeJSON "authenticated"
              [SetCookie (sv_Sessions svc) token (s_ExpiresAt sess); setCSRFCookie csrf] [])
        end
  end.

(* internal/httpapi/handlers_auth.go:71-91 handleTOTP *)
Definition handleTOTP (svc : Service) (req : Request) (body : option (string * string))
    (ent : entropy) (csrf : bytes) (now : time) : SvcM Response :=
  match body with
  | None => mret (writeErr 400 "invalid_request")
  | Some (challengeID, code) =>
      if String.eqb challengeID "" || String.eqb code "" then mret (writeErr 400 "invalid_request")
      else
        r ← mtry (E := auth_error) (CompleteMFA svc challengeID code ent now);
        match r with
        | Err e =>
            record (mkCall "auth.mfa.failure" false None None);;
            match e with
            | ErrRateLimited => mret (writeErr 429 "rate_limited")
            | _ => mret (writeErr 401 "unauthenticated")
            end
        | Ok (Authenticated token (sid, sess)) =>
            record (mkCall "auth.mfa.success" true (Some (s_UserID sess)) (Some sid));;
            mret (writeJSON "authenticated"
              [SetCookie (sv_Sessions svc) token (s_ExpiresAt sess); setCSRFCookie csrf] [])
        | Ok _ => mret (writeJSON "authenticated" [] [])
        end
  end.

(* internal/httpapi/handlers_auth.go:99-140 handleMFASetupConfirm *)
Definition handleMFASetupConfirm (svc : Service) (req : Request)
    (body : option (string * string * string)) (ent : entropy) (csrf : bytes) (now : time)
    : SvcM Response :=
  match body with
  | None => mret (writeErr 400 "invalid_request")
  | Some (username, password, code) =>
      if String.eqb username "" || String.eqb password "" || String.eqb code ""
      then mret (writeErr 400 "invalid_request")
      else
        ok ← allow_login ("mfa-setup:" +:+ rq_ClientIP req) now;
        if negb ok then mret (writeErr 429 "rate_limited")
        else
          r ← mtry (E := auth_error) (repo (GetByUsername citext_eq username));
          match r with
          | Err _ => mret (writeErr 401 "unauthenticated")
          | Ok (uid, user) =>
              match VerifyPassword password (u_PasswordHash user) with
              | Ok true =>
                  c ← mtry (E := auth_error) (repo (ConfirmMFASetup svc uid code ent now));
                  match c with
                  | Err _ => mret (writeErr 401 "unauthenticated")
                  | Ok codes =>
                      mignore (E := auth_error) (repo (ResetFailedLogins uid now));;
                      s ← mtry (E := auth_error)
                            (repo (Create (sv_Sessions svc) uid (e_token ent) (e_id ent) now));
                      match s with
                      | Err _ => mret (writeErr 500 "internal_error")
                      | Ok (token, (sid, sess)) =>
                          record (mkCall "auth.mfa.setup_confirmed" true (Some uid) (Some sid));;
                          mret (writeJSON "authenticated"
                            [SetCookie (sv_Sessions svc) token (s_ExpiresAt sess);
                             setCSRFCookie csrf] codes)
                      end
                  end
              | _ =>
                  mignore (E := auth_error) (repo (RegisterFailedLogin uid now));;
                  mret (writeErr 401 "unauthenticated")
              end
          end
  end.

(* internal/httpapi/handlers_auth.go:142-153 handleLogout *)
Definition handleLogout (svc : Service) (req : Request) (now : time) : SvcM Response :=
  match ReadCookie (sv_Sessions svc) (rq_Cookies req) with
  | Ok token =>
      v ← mtry (E := auth_error) (repo (Validate (sv_Sessions svc) token now));
      match v with
      | Ok (sid, sess) =>
          mignore (E := auth_error) (repo (Revoke sid now));;
          record (mkCall "auth.logout" true (Some (s_UserID sess)) (Some sid))
      | Err _ => mret tt
      end
  | Err _ => mret tt
  end;;
  mret (writeJSON "logged_out" [ClearCookie (sv_Sessions svc); clearCSRFCookie] []).

(* internal/httpapi/handlers_auth.go:160-188 handleReauth *)
Definition handleReauth (svc : Service) (req : Request) (body : option (string * string))
    (ent : entropy) (now : time) : SvcM Response :=
  match ReadCookie (sv_Sessions svc) (rq_Cookies req) with
  | Err _ => mret (writeErr 401 "unauthenticated")
  | Ok token =>
      v ← mtry (E := auth_error) (repo (Validate (sv_Sessions svc) token now));
      match v with
      | Err _ => mret (writeErr 401 "unauthenticated")
      | Ok (sid, sess) =>
          match body with
          | None => mret (writeErr 400 "invalid_request")
          | Some (password, code) =>
              if String.eqb password "" || String.eqb code ""
              then mret (writeErr 400 "invalid_request")
              else
                r ← mtry (E := auth_error) (Reauth svc (s_UserID sess) password code ent now);
                match r with
                | Err e =>
                    record (mkCall "auth.reauth.failure" false (Some (s_UserID sess)) (Some sid));;
                    match e with
                    | ErrRateLimited => mret (writeErr 429 "rate_limited")
                    | _ => mret (writeErr 401 "unauthenticated")
                    end
                | Ok reauthID =>
                    record (mkCall "auth.reauth.success" true (Some (s_UserID sess)) (Some sid));;
                    mret (writeJSON "reauth_id" [] [reauthID])
                end
          end
      end
  end.

(* internal/httpapi/handlers_auth.go:195-227 handleChangePassword *)
Definition handleChangePassword (svc : Service) (cx : authctx) (body : option (string * string))
    (ent : entropy) (now : time) : SvcM Response :=
  match body with
  | None => mret (writeErr 400 "invalid_request")
  | Some (reauthID, newPassword) =>
      if String.eqb reauthID "" || String.eqb newPassword "" then mret (writeErr 400 "invalid_request")
      else
        v ← mtry (E := auth_error) (repo (ConsumeReauth (cx_User cx).1 reauthID now));
        match v with
        | Ok true =>
            c ← mtry (E := auth_error) (repo (ChangeOwnPassword svc (cx_User cx).1 newPassword ent));
            match c with
            | Err ErrPasswordTooShort => mret (writeErr 400 "invalid_request")
            | Err _ => mret (writeErr 500 "internal_error")
            | Ok _ =>
                record (mkCall "user.password_changed" true (Some (cx_User cx).1) None);;
                mret (writeJSON "ok" [] [])
            end
        | _ => mret (writeErr 403 "privilege_required")
        end
  end.

(** ** What every request keeps *)

(** Challenges and re-authentication tokens only move towards their end. *)
Definition challenges_grow (d d' : auth_db) : Prop :=
  ∀ i c, mfa_challenges d !! i = Some c → ∃ c', mfa_challenges d' !! i = Some c' ∧
    c_UserID c' = c_UserID c ∧ c_ExpiresAt c' = c_ExpiresAt c ∧
    (c_ConsumedAt c ≠ None → c_ConsumedAt c' ≠ None) ∧ (c_Attempts c ≤ c_Attempts c')%Z.
Definition reauth_grow (d d' : auth_db) : Prop :=
  ∀ i t, reauth_tokens d !! i = Some t → ∃ t', reauth_tokens d' !! i = Some t' ∧
    ra_UserID t' = ra_UserID t ∧ ra_ExpiresAt t' = ra_ExpiresAt t ∧
    (ra_ConsumedAt t ≠ None → ra_ConsumedAt t' ≠ None).

#[local] Instance challenges_grow_preorder : PreOrder challenges_grow.
Proof.
  split; [intros d i c Hc; exists c; split_and!; done || lia|].
  intros d1 d2 d3 H12 H23 i c Hc. destruct (H12 i c Hc) as (c2 & Hc2 & ? & ? & ? & ?).
  destruct (H23 i c2 Hc2) as (c3 & Hc3 & ? & ? & ? & ?).
  exists c3. split_and!; [done|congruence..|tauto|lia].
Qed.
#[local] Instance reauth_grow_preorder : PreOrder reauth_grow.
Proof.
  split; [intros d i c Hc; by exists c|].
  intros d1 d2 d3 H12 H23 i c Hc. destruct (H12 i c Hc) as (c2 & Hc2 & ? & ? & ?).
  destruct (H23 i c2 Hc2) as (c3 & Hc3 & ? & ? & ?). exists c3. split_and!; [done|congruence..|tauto].
Qed.

Definition auth_rel (st : SessionStore) (d d' : auth_db) : Prop :=
  (sessions_ok st d → session_inv st d d') ∧ mfa_kept d d' ∧
  challenges_grow d d' ∧ reauth_grow d d'.
#[export] Instance auth_rel_preorder st : PreOrder (auth_rel st).
Proof.
  split.
  - intros d. split_and!; try reflexivity. apply session_inv_refl.
  - intros d1 d2 d3 (S1 & M1 & C1 & R1) (S2 & M2 & C2 & R2). split_and!; try (by etrans).
    intros Hok. destruct (S1 Hok) as [Hok2 G1]. destruct (S2 Hok2) as [Hok3 G2].
    split; [done|by etrans].
Qed.

Definition svc_rel (st : SessionStore) (s s' : svc_state) : Prop :=
  auth_rel st (sv_db s) (sv_db s').
#[export] Instance svc_rel_preorder st : PreOrder (svc_rel st).
Proof. split; [intros s; unfold svc_rel; reflexivity|intros s1 s2 s3 ??; unfold svc_rel in *; by etrans]. Qed.

Lemma challenges_grow_same d d' : mfa_challenges d' = mfa_challenges d → challenges_grow d d'.
Proof. intros E i c Hc. exists c. rewrite E. split_and!; done || lia. Qed.
Lemma reauth_grow_same d d' : reauth_tokens d' = reauth_tokens d → reauth_grow d d'.
Proof. intros E i c Hc. exists c. by rewrite E. Qed.
(** A table the operation does not write. *)
Ltac untouched :=
  first [ by apply mfa_kept_same | by apply challenges_grow_same | by apply reauth_grow_same
        | intros ?; split; [by eapply sessions_ok_same|by apply sessions_grow_same] ].

Lemma auth_rel_same st d d' :
  user_sessions d' = user_sessions d → user_mfa d' = user_mfa d →
  mfa_challenges d' = mfa_challenges d → reauth_tokens d' = reauth_tokens d → auth_rel st d d'.
Proof.
  intros ES EM EC ER. split_and!; untouched.
Qed.

Lemma auth_rel_sessions st d f :
  (sessions_ok st d → session_inv st d (on_sessions f d)) → auth_rel st d (on_sessions f d).
Proof.
  intros Hs. split_and!; done || untouched.
Qed.

(** The operations of the repository, one by one. *)
Lemma repo_preserves {A} st (m : AuthM A) :
  preserves (auth_rel st) m → preserves (svc_rel st) (repo m).
Proof. intros Hm. eapply preserves_mzoom; [exact Hm|]. by intros s t. Qed.

Lemma GetByUsername_rel st u : preserves (auth_rel st) (GetByUsername citext_eq u).
Proof. unfold GetByUsername. preserve_steps. Qed.
Lemma GetByID_rel st u : preserves (auth_rel st) (GetByID u).
Proof. unfold GetByID. preserve_steps. Qed.
Lemma PermissionsForUser_rel st u : preserves (auth_rel st) (PermissionsForUser u).
Proof. unfold PermissionsForUser. preserve_steps. Qed.
Lemma users_stmt_rel {A} st (g : auth_db → res auth_error A) (f : auth_db → _ → _) :
  preserves (auth_rel st) (mstmt ErrDB (λ d, (g d, on_users (f d) d))).
Proof. apply preserves_mstmt; [apply _|]. intros d. by apply auth_rel_same. Qed.
Lemma RegisterFailedLogin_rel st u now : preserves (auth_rel st) (RegisterFailedLogin u now).
Proof. apply (users_stmt_rel st (λ _, Ok tt) (λ _, _)). Qed.
Lemma ResetFailedLogins_rel st u now : preserves (auth_rel st) (ResetFailedLogins u now).
Proof. apply (users_stmt_rel st (λ _, Ok tt) (λ _, _)). Qed.
Lemma update_user_rel st id f : preserves (auth_rel st) (update_user id f).
Proof.
  unfold update_user. preserve_step; [|preserve_steps].
  apply (users_stmt_rel st (λ d, Ok (rows_with_id id (users d))) (λ _, _)).
Qed.
Lemma Create_rel st u rnd id now : preserves (auth_rel st) (Create st u rnd id now).
Proof.
  intros d. eapply always_mono; [apply Create_always|]. intros r d' Hc. split.
  - intros Hok. by eapply created_inv.
  - destruct r as [[token [sid s]]|e]; [destruct Hc as (_ & -> & _)|destruct Hc as [-> _]];
      split_and!; reflexivity || untouched.
Qed.
Lemma Validate_rel st token now : preserves (auth_rel st) (Validate st token now).
Proof.
  intros d. eapply always_mono; [apply Validate_always|]. intros r d' Hv. split.
  - intros Hok. by eapply validated_inv.
  - destruct r as [[sid s]|e]; [destruct Hv as (s0 & _ & _ & _ & _ & _ & _ & ->)|rewrite Hv];
      split_and!; reflexivity || untouched.
Qed.
Lemma Revoke_rel st sid now : preserves (auth_rel st) (Revoke sid now).
Proof.
  apply preserves_mexec; [apply _|]. intros d. apply auth_rel_sessions. apply revoke_where_inv.
Qed.
Lemma RevokeAllForUser_rel st u now : preserves (auth_rel st) (RevokeAllForUser u now).
Proof.
  apply preserves_mexec; [apply _|]. intros d. apply auth_rel_sessions. apply revoke_where_inv.
Qed.

(** The MFA store touches only its own table. *)
Definition only_mfa (d d' : auth_db) : Prop := ∃ f, d' = on_mfa f d.
#[local] Instance only_mfa_preorder : PreOrder only_mfa.
Proof.
  split; [intros d; exists id; by destruct d|].
  intros d1 d2 d3 [f ->] [g ->]. by exists (g ∘ f).
Qed.
Lemma loadSecret_only st u : preserves only_mfa (loadSecret st u).
Proof. unfold loadSecret. preserve_steps. Qed.
#[local] Hint Resolve loadSecret_only : preserve.
Lemma BeginSetup_only st u g r : preserves only_mfa (BeginSetup st u g r).
Proof.
  unfold BeginSetup. preserve_steps. apply preserves_mexec; [apply _|]. intros d. by eexists.
Qed.
Lemma ConfirmSetup_only st u c now b : preserves only_mfa (ConfirmSetup st u c now b).
Proof.
  unfold ConfirmSetup. preserve_steps. apply preserves_mexec; [apply _|]. intros d. by eexists.
Qed.
Lemma mfa_rel {A} st (m : AuthM A) :
  preserves only_mfa m → (∀ d, always m (λ _ d', mfa_kept d d') d) → preserves (auth_rel st) m.
Proof.
  intros Ho Hk d. pose proof (always_and _ _ _ _ (Ho d) (Hk d)) as H'.
  eapply always_mono; [exact H'|]. intros r d' [[f ->] Hkept]. split_and!; done || untouched.
Qed.
Lemma BeginSetup_rel st ms u g r : preserves (auth_rel st) (BeginSetup ms u g r).
Proof. apply mfa_rel; [apply BeginSetup_only|]. intros d. apply BeginSetup_kept. Qed.
Lemma ConfirmSetup_rel st ms u c now b : preserves (auth_rel st) (ConfirmSetup ms u c now b).
Proof. apply mfa_rel; [apply ConfirmSetup_only|]. intros d. apply ConfirmSetup_kept. Qed.
Lemma ValidateCode_rel st ms u c now : preserves (auth_rel st) (ValidateCode ms u c now).
Proof.
  intros d. eapply always_mono; [apply ValidateCode_always|]. intros r d' [-> _]. reflexivity.
Qed.
Lemma IsConfirmed_rel st ms u : preserves (auth_rel st) (IsConfirmed ms u).
Proof.
  intros d. eapply always_mono; [apply IsConfirmed_always|]. intros r d' [-> _]. reflexivity.
Qed.

Lemma createMFAChallenge_rel st u id now : preserves (auth_rel st) (createMFAChallenge u id now).
Proof.
  apply preserves_mstmt; [apply _|]. intros d. destruct (_ && _) eqn:E; simpl; [|reflexivity].
  reflect_bools. split_and!; [untouched|untouched| |untouched].
  intros i c Hc. exists c. simpl. rewrite lookup_insert_ne; [split_and!; done || lia|].
  intros <-. by rewrite Hc in H3.
Qed.
Lemma challenge_update_rel st cid f :
  (∀ c, c_UserID (f c) = c_UserID c ∧ c_ExpiresAt (f c) = c_ExpiresAt c ∧
        (c_ConsumedAt c ≠ None → c_ConsumedAt (f c) ≠ None) ∧ (c_Attempts c ≤ c_Attempts (f c))%Z) →
  preserves (auth_rel st) (mexec ErrDB (on_challenges (update_id cid f))).
Proof.
  intros Hf. apply preserves_mexec; [apply _|]. intros d.
  split_and!; [untouched|untouched| |untouched].
  intros i c Hc. simpl. rewrite lookup_update_id, Hc. destruct (Hf c) as (? & ? & ? & ?).
  case_decide; [by exists (f c)|]. exists c. split_and!; done || lia.
Qed.
Lemma attempt_rel st cid : preserves (auth_rel st) (mexec ErrDB (on_challenges (update_id cid attempt))).
Proof. apply challenge_update_rel. intros c. simpl. split_and!; done || lia. Qed.
Lemma consume_challenge_rel st cid now :
  preserves (auth_rel st) (mexec ErrDB (on_challenges (update_id cid (consume_challenge now)))).
Proof. apply challenge_update_rel. intros c. simpl. split_and!; done || lia. Qed.

#[local] Hint Resolve GetByUsername_rel GetByID_rel PermissionsForUser_rel RegisterFailedLogin_rel
  ResetFailedLogins_rel update_user_rel Create_rel Validate_rel Revoke_rel RevokeAllForUser_rel
  BeginSetup_rel ConfirmSetup_rel ValidateCode_rel IsConfirmed_rel createMFAChallenge_rel
  attempt_rel consume_challenge_rel repo_preserves : preserve.

Lemma allow_login_rel st key now : preserves (svc_rel st) (allow_login key now).
Proof.
  apply preserves_mstate. intros s. destruct (Allow _ _ _). unfold svc_rel. reflexivity.
Qed.
Lemma allow_mfa_rel st key now : preserves (svc_rel st) (allow_mfa key now).
Proof.
  apply preserves_mstate. intros s. destruct (Allow _ _ _). unfold svc_rel. reflexivity.
Qed.
Lemma record_rel st c : preserves (svc_rel st) (record c).
Proof. apply preserves_mstate. intros s. unfold svc_rel. reflexivity. Qed.
#[local] Hint Resolve allow_login_rel allow_mfa_rel record_rel : preserve.

Lemma Login_rel svc u p ip ent now : preserves (svc_rel (sv_Sessions svc)) (Login svc u p ip ent now).
Proof. unfold Login. preserve_steps. Qed.

Lemma CompleteMFA_rel svc c code ent now :
  preserves (svc_rel (sv_Sessions svc)) (CompleteMFA svc c code ent now).
Proof.
  unfold CompleteMFA. preserve_steps. apply repo_preserves. preserve_steps.
Qed.

Lemma reauth_insert_rel st u id now :
  preserves (auth_rel st) (mstmt ErrDB (λ d,
    if is_null (reauth_tokens d !! id) && negb (is_null (users d !! u))
    then (Ok (uuid_string id), on_reauth (<[id := mkReauth u (now + 5 * Minute)%Z None]>) d)
    else (Err ErrDB, d))).
Proof.
  apply preserves_mstmt; [apply _|]. intros d. destruct (_ && _) eqn:E; simpl; [|reflexivity].
  reflect_bools. split_and!; [untouched|untouched|untouched|].
  intros i c Hc. exists c. simpl. rewrite lookup_insert_ne; [done|]. intros <-. by rewrite Hc in H3.
Qed.
#[local] Hint Resolve reauth_insert_rel : preserve.

Lemma Reauth_rel svc u p c ent now : preserves (svc_rel (sv_Sessions svc)) (Reauth svc u p c ent now).
Proof. unfold Reauth. preserve_steps. Qed.

Lemma ConsumeReauth_rel st u r now : preserves (auth_rel st) (ConsumeReauth u r now).
Proof.
  unfold ConsumeReauth. preserve_steps. apply preserves_mstmt; [apply _|]. intros d. simpl.
  split_and!; [untouched|untouched|untouched|].
  intros i t Ht. simpl. rewrite lookup_update_where, Ht. simpl. eexists. split; [done|].
  by destruct (fresh_reauth _ _ _ _ _).
Qed.
Lemma ChangeOwnPassword_rel st svc u p ent : preserves (auth_rel st) (ChangeOwnPassword svc u p ent).
Proof. unfold ChangeOwnPassword, UpdatePasswordHash. preserve_steps. Qed.
#[local] Hint Resolve Login_rel CompleteMFA_rel Reauth_rel ConsumeReauth_rel ChangeOwnPassword_rel : preserve.

(** ** Requests *)

(** The authentication endpoints as the router mounts them, and the account
    administration the server performs between requests. *)
Inductive request : Type :=
| RqLogin (req : Request) (body : option (string * string)) (ent : entropy) (csrf : bytes) (now : time)
| RqTOTP (req : Request) (body : option (string * string)) (ent : entropy) (csrf : bytes) (now : time)
| RqMFASetup (req : Request) (body : option (string * string * string)) (ent : entropy)
    (csrf : bytes) (now : time)
| RqLogout (req : Request) (now : time)
| RqReauth (req : Request) (body : option (string * string)) (ent : entropy) (now : time)
| RqChangePassword (csrf_enabled : bool) (req : Request) (body : option (string * string))
    (ent : entropy) (now : time)
| RqSetStatus (id : uuid) (status : UserStatus)
| RqSetMFARequired (id : uuid) (required : bool)
| RqRevokeSessions (userID : uuid) (now : time)
| RqAssignRole (userID roleID : uuid) (scope : string) (scopeID : option uuid).

(* internal/httpapi/router.go:241-251 NewRouter *)
Definition serve (svc : Service) (r : request) : SvcM Response :=
  match r with
  | RqLogin req body ent csrf now => handleLogin svc req body ent csrf now
  | RqTOTP req body ent csrf now => handleTOTP svc req body ent csrf now
  | RqMFASetup req body ent csrf now => handleMFASetupConfirm svc req body ent csrf now
  | RqLogout req now => handleLogout svc req now
  | RqReauth req body ent now => handleReauth svc req body ent now
  | RqChangePassword csrf_enabled req body ent now =>
      withCSRF csrf_enabled req
        (RequireSession svc req now (λ cx, handleChangePassword svc cx body ent now))
  | RqSetStatus id status => repo (SetStatus id status);; mret (writeJSON "ok" [] [])
  | RqSetMFARequired id required => repo (SetMFARequired id required);; mret (writeJSON "ok" [] [])
  | RqRevokeSessions userID now => repo (RevokeAllForUser userID now);; mret (writeJSON "ok" [] [])
  | RqAssignRole userID roleID scope scopeID =>
      repo (AssignRole userID roleID scope scopeID);; mret (writeJSON "ok" [] [])
  end.

Definition auth_step (svc : Service) (s s' : svc_state) : Prop :=
  ∃ r, effect (serve svc r) s s'.

Lemma AssignRole_rel st u r sc si : preserves (auth_rel st) (AssignRole u r sc si).
Proof.
  apply preserves_mexec; [apply _|]. intros d. simpl. destruct (existsb _ _); [reflexivity|].
  by apply auth_rel_same.
Qed.
#[local] Hint Resolve AssignRole_rel : preserve.

Lemma serve_rel svc r : preserves (svc_rel (sv_Sessions svc)) (serve svc r).
Proof.
  destruct r; cbn [serve];
    unfold handleLogin, handleTOTP, handleMFASetupConfirm, handleLogout, handleReauth, withCSRF,
      RequireSession, CheckSession, handleChangePassword, auditLoginFailure, ConfirmMFASetup, SetStatus,
      SetMFARequired; preserve_steps.
Qed.

Lemma reachable_rel svc s s' :
  reachable (eq s) (auth_step svc) s' → svc_rel (sv_Sessions svc) s s'.
Proof.
  revert s'. apply invariant_reachable; [by intros ? <-|].
  intros s1 s2 Hs [r Hr]. etrans; [exact Hs|]. revert Hr. apply effect_always, serve_rel.
Qed.

(** ** Sessions across requests *)

Lemma revoked_session_rel st d d' i a token now fs :
  sessions_ok st d → user_sessions d !! i = Some a → s_RevokedAt a ≠ None → hashToken token = s_TokenHash a →
  auth_rel st d d' → is_ok (Validate st token now (World d' fs)).1 = false.
Proof using Type.
  intros Hok Ha Hrev Hh [Hs _].
  destruct (Hs Hok) as [[Hu _] Hg]. destruct (Hg i a Ha) as (a' & Ha' & _ & Hh' & _ & Hrev').
  pose proof (Validate_always st token now d' fs) as Hv.
  destruct (Validate _ _ _ _) as [[[id x]|e] w]; [|done].
  destruct Hv as (b & Hb & Hbh & Hbr & _). simpl. exfalso.
  assert (id = i) as -> by (eapply Hu; eauto; congruence).
  apply Hrev'; [done|]. congruence.
Qed.


(** A revoked session stays dead: whatever requests are served
    afterwards (logins, second factors, administration), and whatever
    statements fail, no token resolves to it again. *)
Theorem revoked_session_dead svc s s' i a token now fs :
  sessions_ok (sv_Sessions svc) (sv_db s) →
  user_sessions (sv_db s) !! i = Some a → s_RevokedAt a ≠ None →
  hashToken token = s_TokenHash a →
  reachable (eq s) (auth_step svc) s' →
  is_ok (Validate (sv_Sessions svc) token now (World (sv_db s') fs)).1 = false.
Proof.
  intros Hok Ha Hrev Hh Hr. by eapply revoked_session_rel; [..|apply (reachable_rel _ _ _ Hr)].
Qed.

(** C33: a session never outlives its lifetimes: if a token is accepted at
    time [now] in any state the server can reach, then the session was
    created at most the absolute lifetime ago, was last used at most the idle
    lifetime ago, and was not revoked. *)
Theorem session_lifetime_bounded svc s s' token now fs id x w :
  sessions_ok (sv_Sessions svc) (sv_db s) →
  reachable (eq s) (auth_step svc) s' →
  Validate (sv_Sessions svc) token now (World (sv_db s') fs) = (Ok (id, x), w) →
  ∃ a, user_sessions (sv_db s') !! id = Some a ∧ s_RevokedAt a = None ∧
    s_UserID x = s_UserID a ∧ s_TokenHash a = hashToken token ∧
    (now ≤ s_CreatedAt a + absoluteTTL (sv_Sessions svc))%Z ∧
    (now ≤ s_LastSeenAt a + idleTTL (sv_Sessions svc))%Z.
Proof.
  intros Hok Hr Hv. destruct (reachable_rel _ _ _ Hr) as [Hs _].
  destruct (Hs Hok) as [[_ Hlife] _].
  pose proof (Validate_always (sv_Sessions svc) token now (sv_db s') fs) as Ha. rewrite Hv in Ha.
  destruct Ha as (a & Ha & Hh & Hrev & He & Hi & -> & _). destruct (Hlife _ _ Ha).
  exists a. split_and!; try done; lia.
Qed.

(** ** No second factor, no session *)

(** The sessions a program creates, read off the states around it. *)
Definition new_session (d d' : auth_db) (u : uuid) : Prop :=
  ∃ i a, user_sessions d !! i = None ∧ user_sessions d' !! i = Some a ∧ s_UserID a = u.

(** Every new session belongs to a user satisfying [C]; old ones keep their
    owner. *)
Definition owners (C : uuid → Prop) (d d' : auth_db) : Prop :=
  (∀ u, new_session d d' u → C u) ∧
  (∀ i a, user_sessions d !! i = Some a →
     ∃ a', user_sessions d' !! i = Some a' ∧ s_UserID a' = s_UserID a).

#[local] Instance owners_preorder C : PreOrder (owners C).
Proof.
  split.
  - intros d. split; [|by eauto]. intros u (i & a & Hn & Hs & _). congruence.
  - intros d1 d2 d3 [N12 K12] [N23 K23]. split.
    + intros u (i & a & Hn & Hs & Hu). destruct (user_sessions d2 !! i) as [b|] eqn:E2.
      * destruct (K23 i b E2) as (a' & Ha' & Hub). apply N12. exists i, b.
        split_and!; try done. congruence.
      * apply N23. exists i, a. done.
    + intros i a Ha. destruct (K12 i a Ha) as (b & Hb & E). destruct (K23 i b Hb) as (c & Hc & E').
      exists c. split; [done|congruence].
Qed.

Lemma owners_mono (C C' : uuid → Prop) d d' :
  (∀ u, C u → C' u) → owners C d d' → owners C' d d'.
Proof. intros HC [N K]. split; [|done]. eauto. Qed.

Lemma owners_same C d d' : user_sessions d' = user_sessions d → owners C d d'.
Proof.
  intros E. split; [|intros i a; rewrite E; eauto]. intros u (i & a & Hn & Hs & _). congruence.
Qed.

Definition svc_owners (C : uuid → Prop) (s s' : svc_state) : Prop := owners C (sv_db s) (sv_db s').
#[local] Instance svc_owners_preorder C : PreOrder (svc_owners C).
Proof. split; [intros s; unfold svc_owners; reflexivity|]. intros s1 s2 s3 ??. unfold svc_owners in *. by etrans. Qed.

Lemma repo_owners {A} C (m : AuthM A) : preserves (owners C) m → preserves (svc_owners C) (repo m).
Proof. intros Hm. eapply preserves_mzoom; [exact Hm|]. by intros s t. Qed.

Definition same_sessions (d d' : auth_db) : Prop := user_sessions d' = user_sessions d.
#[local] Instance same_sessions_preorder : PreOrder same_sessions.
Proof. split; [by intros d|]. intros d1 d2 d3 E1 E2. unfold same_sessions in *. congruence. Qed.

Lemma same_owners {A} C (m : AuthM A) : preserves same_sessions m → preserves (owners C) m.
Proof. intros Hm d. eapply always_mono; [apply Hm|]. intros r d'. apply owners_same. Qed.

(** Operations that leave the session table alone. *)
Ltac leaves_sessions :=
  apply same_owners; preserve_steps;
  try (apply preserves_mstmt; [apply _|]; intros d; simpl; try case_match; done).

Lemma GetByUsername_owners C u : preserves (owners C) (GetByUsername citext_eq u).
Proof. unfold GetByUsername. leaves_sessions. Qed.
Lemma GetByID_owners C u : preserves (owners C) (GetByID u).
Proof. unfold GetByID. leaves_sessions. Qed.
Lemma PermissionsForUser_owners C u : preserves (owners C) (PermissionsForUser u).
Proof. unfold PermissionsForUser. leaves_sessions. Qed.
Lemma RegisterFailedLogin_owners C u now : preserves (owners C) (RegisterFailedLogin u now).
Proof. unfold RegisterFailedLogin, mexec. leaves_sessions. Qed.
Lemma ResetFailedLogins_owners C u now : preserves (owners C) (ResetFailedLogins u now).
Proof. unfold ResetFailedLogins, mexec. leaves_sessions. Qed.
Lemma update_user_owners C u f : preserves (owners C) (update_user u f).
Proof. unfold update_user. leaves_sessions. Qed.
Lemma AssignRole_owners C u r sc si : preserves (owners C) (AssignRole u r sc si).
Proof. unfold AssignRole, mexec. leaves_sessions. Qed.
Lemma createMFAChallenge_owners C u id now : preserves (owners C) (createMFAChallenge u id now).
Proof. unfold createMFAChallenge. leaves_sessions. Qed.
Lemma ConsumeReauth_owners C u r now : preserves (owners C) (ConsumeReauth u r now).
Proof. unfold ConsumeReauth. leaves_sessions. Qed.
Lemma challenge_update_owners C cid f :
  preserves (owners C) (mexec ErrDB (on_challenges (update_id cid f))).
Proof. unfold mexec. leaves_sessions. Qed.
Lemma reauth_insert_owners C u id now :
  preserves (owners C) (mstmt ErrDB (λ d,
    if is_null (reauth_tokens d !! id) && negb (is_null (users d !! u))
    then (Ok (uuid_string id), on_reauth (<[id := mkReauth u (now + 5 * Minute)%Z None]>) d)
    else (Err ErrDB, d))).
Proof. leaves_sessions. Qed.
Lemma mfa_owners {A} C (m : AuthM A) : preserves only_mfa m → preserves (owners C) m.
Proof.
  intros Hm. apply same_owners. intros d. eapply always_mono; [apply Hm|]. by intros r d' [f ->].
Qed.
Lemma ValidateCode_owners C ms u c now : preserves (owners C) (ValidateCode ms u c now).
Proof. apply mfa_owners. unfold ValidateCode. preserve_steps. Qed.
Lemma IsConfirmed_owners C ms u : preserves (owners C) (IsConfirmed ms u).
Proof. apply mfa_owners. unfold IsConfirmed. preserve_steps. Qed.
Lemma BeginSetup_owners C ms u g r : preserves (owners C) (BeginSetup ms u g r).
Proof. apply mfa_owners, BeginSetup_only. Qed.
Lemma ConfirmSetup_owners C ms u c now b : preserves (owners C) (ConfirmSetup ms u c now b).
Proof. apply mfa_owners, ConfirmSetup_only. Qed.

Lemma Validate_owners C st token now : preserves (owners C) (Validate st token now).
Proof.
  intros d. eapply always_mono; [apply Validate_always|].
  intros [[id x]|e] d'; [|by intros ->]. intros (a & Ha & _ & _ & _ & _ & -> & ->). split.
  - intros u (i & b & Hn & Hs & _). simpl in Hs. rewrite lookup_insert in Hs.
    case_decide; simplify_eq.
  - intros i b Hb. simpl. rewrite lookup_insert. case_decide; simplify_eq; eauto.
Qed.
Lemma revoke_where_owners C p now :
  preserves (owners C) (mexec ErrDB (on_sessions (update_where p (revoke_session now)))).
Proof.
  apply preserves_mexec; [apply _|]. intros d. split.
  - intros u (i & b & Hn & Hs & _). simpl in Hs. rewrite lookup_update_where, Hn in Hs. done.
  - intros i b Hb. simpl. rewrite lookup_update_where, Hb. simpl. eexists. split; [done|].
    by destruct (p i b).
Qed.
(** [Create] makes a session for the user it is called with, and no other. *)
Lemma Create_owners (C : uuid → Prop) st u rnd id now :
  C u → preserves (owners C) (Create st u rnd id now).
Proof.
  intros HC d. eapply always_mono; [apply Create_always|].
  intros [[token [i a]]|e] d'; [|by intros [-> _]]. intros (-> & -> & Hf & _). split.
  - intros u' (j & b & Hn & Hs & <-). simpl in Hs. rewrite lookup_insert in Hs.
    case_decide; simplify_eq; done.
  - intros j b Hb. simpl. rewrite lookup_insert_ne by congruence. eauto.
Qed.
#[local] Hint Resolve GetByUsername_owners GetByID_owners PermissionsForUser_owners
  RegisterFailedLogin_owners ResetFailedLogins_owners update_user_owners AssignRole_owners
  createMFAChallenge_owners ConsumeReauth_owners challenge_update_owners reauth_insert_owners
  ValidateCode_owners IsConfirmed_owners BeginSetup_owners ConfirmSetup_owners Validate_owners
  revoke_where_owners Create_owners repo_owners : preserve.

Lemma allow_login_owners C key now : preserves (svc_owners C) (allow_login key now).
Proof. apply preserves_mstate. intros s. destruct (Allow _ _ _). by apply owners_same. Qed.
Lemma allow_mfa_owners C key now : preserves (svc_owners C) (allow_mfa key now).
Proof. apply preserves_mstate. intros s. destruct (Allow _ _ _). by apply owners_same. Qed.
Lemma record_owners C c : preserves (svc_owners C) (record c).
Proof. apply preserves_mstate. intros s. by apply owners_same. Qed.
Lemma ChangeOwnPassword_owners C svc u p ent :
  preserves (owners C) (ChangeOwnPassword svc u p ent).
Proof. unfold ChangeOwnPassword, UpdatePasswordHash. preserve_steps. Qed.
#[local] Hint Resolve allow_login_owners allow_mfa_owners record_owners ChangeOwnPassword_owners
  : preserve.

(** Programs that only read the database. *)
Definition same_db (s s' : svc_state) : Prop := sv_db s' = sv_db s.
#[local] Instance same_db_preorder : PreOrder same_db.
Proof. split; [by intros s|]. intros s1 s2 s3 E1 E2. unfold same_db in *. congruence. Qed.

Lemma repo_reads {A} (m : AuthM A) : (∀ d, always m (λ _ d', d' = d) d) → preserves same_db (repo m).
Proof.
  intros Hm. eapply (preserves_mzoom _ _ _ (λ d d', d' = d)); [exact Hm|]. by intros s t ->.
Qed.
Lemma GetByUsername_reads u : preserves same_db (repo (GetByUsername citext_eq u)).
Proof.
  apply repo_reads. intros d. unfold GetByUsername. always_steps; done.
Qed.
Lemma allow_login_reads key now : preserves same_db (allow_login key now).
Proof. apply preserves_mstate. intros s. by destruct (Allow _ _ _). Qed.
Lemma allow_mfa_reads key now : preserves same_db (allow_mfa key now).
Proof. apply preserves_mstate. intros s. by destruct (Allow _ _ _). Qed.

Section decisions.
Context (C : uuid → Prop) (d : auth_db).
Abbreviation goal_of m s := (always m (λ _ s', owners C d (sv_db s')) s).

Lemma reads_then {A B} (m : SvcM A) (k : A → SvcM B) s :
  sv_db s = d → preserves same_db m → (∀ a s', sv_db s' = d → goal_of (k a) s') →
  goal_of (m ≫= k) s.
Proof.
  intros E Hm Hk. apply always_mbind. eapply always_mono; [apply Hm|].
  intros [a|e] s' Hs; [|apply owners_same; unfold same_db in Hs; congruence].
  apply Hk. unfold same_db in Hs. congruence.
Qed.
Lemma try_reads_then {A B} (m : SvcM A) (k : res auth_error A → SvcM B) s P :
  sv_db s = d → always m (λ r s', sv_db s' = d ∧ P r) s →
  (∀ r s', sv_db s' = d → P r → goal_of (k r) s') → goal_of (mtry m ≫= k) s.
Proof.
  intros E Hm Hk. apply always_mbind, always_mtry. eapply always_mono; [apply Hm|].
  intros r s' [Hs HP]. by apply Hk.
Qed.
Lemma checks_then {A B} (m : SvcM A) (k : A → SvcM B) s P :
  sv_db s = d → always m (λ r s', sv_db s' = d ∧ P r) s →
  (∀ a s', sv_db s' = d → P (Ok a) → goal_of (k a) s') → goal_of (m ≫= k) s.
Proof.
  intros E Hm Hk. apply always_mbind. eapply always_mono; [apply Hm|].
  intros [a|e] s' [Hs HP]; [by apply Hk|]. apply owners_same. congruence.
Qed.
Lemma rest_owners {A} (m : SvcM A) s : sv_db s = d → preserves (svc_owners C) m → goal_of m s.
Proof. intros <- Hm. apply Hm. Qed.
End decisions.

Lemma repo_always {A} (m : AuthM A) (Q : res auth_error A → auth_db → Prop) d s :
  sv_db s = d → always m Q d → always (repo m) (λ r s', Q r (sv_db s')) s.
Proof. intros <- Hm. apply always_mzoom. exact Hm. Qed.

(** The user has no confirmed second factor. *)
Definition unconfirmed (d : auth_db) (u : uuid) : Prop :=
  ∀ m, user_mfa d !! u = Some m → m_ConfirmedAt m = None.

Lemma Login_owners svc username password ip ent now s :
  always (Login svc username password ip ent now)
    (λ _ s', owners (unconfirmed (sv_db s)) (sv_db s) (sv_db s')) s.
Proof.
  unfold Login. apply reads_then; [done|apply allow_login_reads|]. intros ok s1 E1.
  destruct (negb ok); [apply rest_owners; [done|preserve_steps]|].
  apply reads_then; [done|apply preserves_mtry, GetByUsername_reads|]. intros r s2 E2.
  destruct r as [[uid user]|]; [|apply rest_owners; [done|preserve_steps]].
  destruct (negb _); [apply rest_owners; [done|preserve_steps]|].
  destruct (match u_LockedUntil user with Some l => Before now l | None => false end);
    [apply rest_owners; [done|preserve_steps]|].
  destruct (VerifyPassword _ _) as [[]|]; [|apply rest_owners; [done|preserve_steps]..].
  eapply checks_then with (P := λ r, r = Ok false → unconfirmed (sv_db s) uid); [done| |].
  { eapply always_mono; [exact (repo_always _ _ _ _ E2 (IsConfirmed_always _ _ _))|].
    intros r s3 Hr. exact Hr. }
  intros confirmed s3 E3 Hc. apply rest_owners; [done|]. cbn beta in Hc.
  destruct confirmed; cbn [negb]; [preserve_steps|].
  destruct (_ || _); [preserve_steps|].
  pose proof (Hc eq_refl : unconfirmed (sv_db s) uid). preserve_steps.
Qed.

Lemma handleLogin_owners svc req body ent csrf now s :
  always (handleLogin svc req body ent csrf now)
    (λ _ s', owners (unconfirmed (sv_db s)) (sv_db s) (sv_db s')) s.
Proof.
  unfold handleLogin. destruct body as [[u p]|]; [|apply rest_owners; [done|preserve_steps]].
  destruct (_ || _); [apply rest_owners; [done|preserve_steps]|].
  apply always_mbind, always_mtry. eapply always_mono; [apply Login_owners|].
  intros r s1 H1'. eapply always_mono with (P := λ _ s', owners (unconfirmed (sv_db s)) (sv_db s1) (sv_db s')).
  - apply rest_owners; [done|]. unfold auditLoginFailure. preserve_steps.
  - intros r' s2 H2'. etrans; [exact H1'|exact H2'].
Qed.

Lemma handleMFASetupConfirm_owners svc req body ent csrf now s :
  always (handleMFASetupConfirm svc req body ent csrf now)
    (λ _ s', owners (unconfirmed (sv_db s)) (sv_db s) (sv_db s')) s.
Proof.
  unfold handleMFASetupConfirm.
  destruct body as [[[u p] code]|]; [|apply rest_owners; [done|preserve_steps]].
  destruct (_ || _ || _); [apply rest_owners; [done|preserve_steps]|].
  apply reads_then; [done|apply allow_login_reads|]. intros ok s1 E1.
  destruct (negb ok); [apply rest_owners; [done|preserve_steps]|].
  apply reads_then; [done|apply preserves_mtry, GetByUsername_reads|]. intros r s2 E2.
  destruct r as [[uid user]|]; [|apply rest_owners; [done|preserve_steps]].
  destruct (VerifyPassword _ _) as [[]|]; [|apply rest_owners; [done|preserve_steps]..].
  apply always_mbind, always_mtry. unfold ConfirmMFASetup.
  eapply always_mono; [exact (repo_always _ _ _ _ E2 (always_and _ _ _ _
    (ConfirmSetup_only _ _ _ _ _ _) (ConfirmSetup_unconfirmed _ _ _ _ _ _)))|].
  intros r s3 [[f Ef] Hr]. 
  eapply always_mono with (P := λ _ s', owners (unconfirmed (sv_db s)) (sv_db s3) (sv_db s')).
  - apply rest_owners; [done|]. destruct r as [codes|e]; [|preserve_steps].
    pose proof (Hr codes eq_refl : unconfirmed (sv_db s) uid). preserve_steps.
  - intros r' s4 H4. etrans; [|exact H4]. apply owners_same. by rewrite Ef.
Qed.

(** The request presents a valid code for a live challenge of user [u]. *)
Definition second_factor (svc : Service) (d : auth_db) (challengeID code : string) (now : time)
    (u : uuid) : Prop :=
  ∃ cid c m p, uuid_parse challengeID = Some cid ∧ mfa_challenges d !! cid = Some c ∧
    c_UserID c = u ∧ c_ConsumedAt c = None ∧ (now ≤ c_ExpiresAt c)%Z ∧ (c_Attempts c < 5)%Z ∧
    user_mfa d !! u = Some m ∧ m_ConfirmedAt m ≠ None ∧
    decrypt (sv_MFA svc) (m_Ciphertext m) (m_Nonce m) = Ok p ∧
    totp_valid code (bytes_str p) now = Some true.

Lemma CompleteMFA_owners svc challengeID code ent now s :
  always (CompleteMFA svc challengeID code ent now)
    (λ _ s', owners (second_factor svc (sv_db s) challengeID code now) (sv_db s) (sv_db s')) s.
Proof.
  unfold CompleteMFA. apply reads_then; [done|apply allow_mfa_reads|]. intros ok s1 E1.
  destruct (negb ok); [apply rest_owners; [done|preserve_steps]|].
  destruct (uuid_parse challengeID) as [cid|] eqn:Ep; [|apply rest_owners; [done|preserve_steps]].
  eapply checks_then with (P := λ r, ∀ x, r = Ok x → mfa_challenges (sv_db s) !! cid = x); [done| |].
  { apply always_mzoom. apply always_mquery; [done|]. split; [done|]. intros x [= <-].
    by rewrite E1. }
  intros x s2 E2 Hx. specialize (Hx x eq_refl).
  destruct x as [c|]; [|apply rest_owners; [done|preserve_steps]].
  destruct (_ || _ || _) eqn:Eg; [apply rest_owners; [done|preserve_steps]|].
  unfold After in Eg. reflect_bools.
  eapply try_reads_then; [done| |].
  { eapply always_mono; [exact (repo_always _ _ _ _ E2 (ValidateCode_always _ _ _ _ _))|].
    intros r s3 Hr. exact Hr. }
  intros v s3 E3 Hv. cbn beta in Hv. apply rest_owners; [done|].
  assert (v = Ok true → second_factor svc (sv_db s) challengeID code now (c_UserID c)) as HC.
  { intros Hok. destruct (Hv Hok) as (m & p & Hm & Hconf & Hd & Ht).
    destruct (c_ConsumedAt c) eqn:Ec; [done|]. exists cid, c, m, p. done. }
  destruct v as [[]|[]]; try specialize (HC eq_refl); preserve_steps.
Qed.

Lemma handleTOTP_owners svc req challengeID code ent csrf now s :
  always (handleTOTP svc req (Some (challengeID, code)) ent csrf now)
    (λ _ s', owners (second_factor svc (sv_db s) challengeID code now) (sv_db s) (sv_db s')) s.
Proof.
  unfold handleTOTP. destruct (_ || _); [apply rest_owners; [done|preserve_steps]|].
  apply always_mbind, always_mtry. eapply always_mono; [apply CompleteMFA_owners|].
  intros r s1 Hr. eapply always_mono.
  - apply rest_owners; [done|]. preserve_steps.
  - intros r' s2 H2'. etrans; [exact Hr|exact H2'].
Qed.

(** C2: the second factor cannot be bypassed: if serving a request creates a
    session for a user whose second factor is confirmed, then the request was
    the TOTP endpoint's, it named an unused, unexpired challenge of that very
    user with fewer than five failed attempts, and its code passed the TOTP
    check of the user's stored secret. *)
Theorem mfa_never_bypassed svc r s s' u :
  effect (serve svc r) s s' → new_session (sv_db s) (sv_db s') u →
  ¬ unconfirmed (sv_db s) u →
  ∃ req challengeID code ent csrf now,
    r = RqTOTP req (Some (challengeID, code)) ent csrf now ∧
    second_factor svc (sv_db s) challengeID code now u.
Proof.
  intros He Hnew Hconf.
  assert (∀ m : SvcM Response, preserves (svc_owners (λ _, False)) m → effect m s s' → False) as Hno.
  { intros m Hm Hme. apply (effect_always m (svc_owners (λ _, False) s) s s') in Hme; [|apply Hm].
    by destruct Hme as [Hn _]; apply (Hn u). }
  assert (∀ m : SvcM Response, always m (λ _ s', owners (unconfirmed (sv_db s)) (sv_db s) (sv_db s')) s →
    effect m s s' → False) as Hun.
  { intros m Hm Hme. apply (effect_always _ _ _ _ Hm) in Hme. destruct Hme as [Hn _]. by apply Hconf, Hn. }
  destruct r as [req body ent csrf now|req [[cid code]|] ent csrf now|req body ent csrf now| | | | | | | ];
    cbn [serve] in He.
  - exfalso. eapply Hun; [apply handleLogin_owners|exact He].
  - apply (effect_always _ _ _ _ (handleTOTP_owners svc req cid code ent csrf now s)) in He.
    destruct He as [Hn _]. do 6 eexists. split; [done|]. by apply Hn.
  - exfalso. revert He. apply Hno. unfold handleTOTP. preserve_steps.
  - exfalso. eapply Hun; [apply handleMFASetupConfirm_owners|exact He].
  - exfalso. revert He. apply Hno. unfold handleLogout, Revoke. preserve_steps.
  - exfalso. revert He. apply Hno. unfold handleReauth, Reauth. preserve_steps.
  - exfalso. revert He. apply Hno. unfold withCSRF, RequireSession, CheckSession, handleChangePassword. preserve_steps.
  - exfalso. revert He. apply Hno. unfold SetStatus. preserve_steps.
  - exfalso. revert He. apply Hno. unfold SetMFARequired. preserve_steps.
  - exfalso. revert He. apply Hno. unfold RevokeAllForUser. preserve_steps.
  - exfalso. revert He. apply Hno. preserve_steps.
Qed.

(** ** Single use *)

Lemma spent_challenge_rel svc s s' challengeID cid c code ent now fs :
  uuid_parse challengeID = Some cid → mfa_challenges (sv_db s) !! cid = Some c →
  c_ConsumedAt c ≠ None ∨ (5 ≤ c_Attempts c)%Z →
  svc_rel (sv_Sessions svc) s s' →
  let '(r, w) := CompleteMFA svc challengeID code ent now (World s' fs) in
  is_ok r = false ∧ ∀ u, ¬ new_session (sv_db s') (sv_db (w_db w)) u.
Proof.
  intros Hp Hc Hdead (_ & _ & Hg & _).
  destruct (Hg cid c Hc) as (c' & Hc' & _ & _ & Hcons & Hatt).
  pose proof (CompleteMFA_owners svc challengeID code ent now s' fs) as Ho.
  assert (always (CompleteMFA svc challengeID code ent now) (λ r _, is_ok r = false) s') as Hf.
  { unfold CompleteMFA. apply always_mbind. eapply always_mono; [apply allow_mfa_reads|].
    intros [ok|] s1 E1; [|done]. unfold same_db in E1.
    destruct (negb ok); [by apply always_mfail|]. rewrite Hp.
    apply always_mbind, always_mzoom. apply always_mquery; [done|]. rewrite E1, Hc'.
    replace (_ || _ || _) with true; [by apply always_mfail|].
    destruct Hdead as [Hd|Hd].
    - destruct (c_ConsumedAt c') eqn:E; [done|]. by destruct (Hcons Hd).
    - destruct (Z.leb_spec 5 (c_Attempts c')); [|lia]. by rewrite orb_true_r. }
  specialize (Hf fs). destruct (CompleteMFA _ _ _ _ _ _) as [r w]. split; [done|].
  intros u Hu. destruct Ho as [Hn _].
  destruct (Hn u Hu) as (cid' & c2 & m & p & Hp' & Hc2 & _ & Hn1 & _ & Hn2 & _).
  rewrite Hp in Hp'. injection Hp' as <-. rewrite Hc' in Hc2. injection Hc2 as <-.
  destruct Hdead as [Hd|Hd]; [by apply Hcons in Hd|lia].
Qed.

(** A login challenge that has been used, or has failed five times, is
    dead for good: in no later state does any code complete it, and the
    attempt creates no session. *)
Theorem mfa_challenge_dead svc s s' challengeID cid c code ent now fs :
  uuid_parse challengeID = Some cid → mfa_challenges (sv_db s) !! cid = Some c →
  c_ConsumedAt c ≠ None ∨ (5 ≤ c_Attempts c)%Z →
  reachable (eq s) (auth_step svc) s' →
  let '(r, w) := CompleteMFA svc challengeID code ent now (World s' fs) in
  is_ok r = false ∧ ∀ u, ¬ new_session (sv_db s') (sv_db (w_db w)) u.
Proof.
  intros Hp Hc Hdead Hr. by eapply spent_challenge_rel; [..|apply (reachable_rel _ _ _ Hr)].
Qed.

Lemma fresh_reauth_count id u now t :
  count_where (fresh_reauth id u now) t =
  match t !! id with Some r => if fresh_reauth id u now id r then 1 else 0 | None => 0 end.
Proof. apply count_where_key. intros k r Hf. unfold fresh_reauth in Hf. by reflect_bools. Qed.

Lemma spent_reauth_rel st d d' id t u reauthID now fs :
  uuid_parse reauthID = Some id → reauth_tokens d !! id = Some t → ra_ConsumedAt t ≠ None → auth_rel st d d' →
  (ConsumeReauth u reauthID now (World d' fs)).1 ≠ Ok true.
Proof using Type.
  intros Ep Ht Hc (_ & _ & _ & Hg). destruct (Hg id t Ht) as (t2 & Ht2 & _ & _ & Hc2).
  unfold ConsumeReauth. rewrite Ep. unfold mbind, M_bind, mstmt, mret, M_ret.
  destruct (pop_fault (World d' fs)) as [[] w2] eqn:Epf2; [done|].
  apply pop_fault_db in Epf2 as Ew2. simpl. rewrite fresh_reauth_count, Ew2. rewrite Ht2. unfold fresh_reauth.
  destruct (ra_ConsumedAt t2); [|by destruct (Hc2 Hc)]. by rewrite andb_false_r.
Qed.

(** A re-authentication is spent by its first use: [ConsumeReauth]
    answers yes only for a token issued to that user which has not expired,
    and once it has, no later call on that token, by anyone, answers yes. *)
Theorem reauth_single_use svc s s1 s2 u reauthID now fs w1 :
  ConsumeReauth u reauthID now (World (sv_db s) fs) = (Ok true, w1) → sv_db s1 = w_db w1 →
  reachable (eq s1) (auth_step svc) s2 →
  (∃ id t, uuid_parse reauthID = Some id ∧ reauth_tokens (sv_db s) !! id = Some t ∧
     ra_UserID t = u ∧ ra_ConsumedAt t = None ∧ (now < ra_ExpiresAt t)%Z) ∧
  ∀ u' now' fs', (ConsumeReauth u' reauthID now' (World (sv_db s2) fs')).1 ≠ Ok true.
Proof.
  unfold ConsumeReauth at 1. destruct (uuid_parse reauthID) as [id|] eqn:Ep; [|done].
  intros Hc Ew1 Hr.
  unfold mbind, M_bind, mstmt, mret, M_ret in Hc. destruct (pop_fault _) as [[] w] eqn:Epf; [done|].
  apply pop_fault_db in Epf as Ew.
  rewrite fresh_reauth_count in Hc. rewrite Ew in Hc. simpl in Hc.
  destruct (reauth_tokens (sv_db s) !! id) as [t|] eqn:Ht; [|done].
  destruct (fresh_reauth id u now id t) eqn:Ef; [|done]. injection Hc as Es1.
  unfold fresh_reauth, After in Ef. reflect_bools. split.
  { exists id, t. destruct (ra_ConsumedAt t); done. }
  assert (∃ t1, reauth_tokens (sv_db s1) !! id = Some t1 ∧ ra_ConsumedAt t1 ≠ None)
    as (t1 & Ht1 & Hc1).
  { rewrite Ew1, <-Es1. simpl. rewrite lookup_update_where, Ht. simpl. unfold fresh_reauth, After.
    destruct (ra_ConsumedAt t) eqn:Et; [done|].
    rewrite (proj2 (N.eqb_eq _ _)), (proj2 (N.eqb_eq _ _)), (proj2 (Z.ltb_lt _ _)) by done.
    eexists. split; [done|]. done. }
  intros u' now' fs'. eapply (spent_reauth_rel (sv_Sessions svc)); [done|exact Ht1|done|apply (reachable_rel _ _ _ Hr)].
Qed.

(** ** The guards in front of every protected endpoint *)

(** The request carries a live session of an active user; [s1] is [s] with
    that session's idle expiry moved. *)
Definition entitled (svc : Service) (req : Request) (now : time) (s : svc_state) (cx : authctx)
    (s1 : svc_state) : Prop :=
  ∃ token, ReadCookie (sv_Sessions svc) (rq_Cookies req) = Ok token ∧
    validated (sv_Sessions svc) token now (sv_db s) (Ok (cx_Session cx)) (sv_db s1) ∧
    (cx_User cx).1 = s_UserID (cx_Session cx).2 ∧
    users (sv_db s) !! (cx_User cx).1 = Some (cx_User cx).2 ∧
    u_Status (cx_User cx).2 = UserActive ∧
    cx_Grants cx = grants_of (sv_db s) (cx_User cx).1.

(** A refused request changes at most the idle expiry of a session. *)
Definition only_slid (svc : Service) (now : time) (s s1 : svc_state) : Prop :=
  (∃ t r, validated (sv_Sessions svc) t now (sv_db s) r (sv_db s1)) ∧ s1 = set_db (sv_db s1) s.

Lemma CheckSession_always svc req now s :
  always (CheckSession svc req now) (λ r s1,
    only_slid svc now s s1 ∧
    match r with
    | Ok cx => entitled svc req now s cx s1
    | Err resp => (rs_Status resp = 401 ∨ rs_Status resp = 500)%Z
    end) s.
Proof using Type.
  assert (only_slid svc now s s) as Hsame.
  { split; [by exists ""%string, (Err ErrDB)|by destruct s]. }
  unfold CheckSession. destruct (ReadCookie _ _) as [token|] eqn:Ecookie; [|apply always_mfail; eauto].
  apply always_mbind, always_mtry, always_mzoom.
  eapply always_mono; [apply Validate_always|]. intros v d1 Hv.
  assert (only_slid svc now s (set_db d1 s)) as Hslid by (split; [exists token, v|]; done).
  destruct v as [[sid sess]|e]; [|apply always_mfail; eauto].
  assert (users d1 = users (sv_db s) ∧ grants_of d1 = grants_of (sv_db s)) as [Hus Hgr].
  { by destruct Hv as (a & _ & _ & _ & _ & _ & _ & ->). }
  apply always_mbind, always_mtry, always_mzoom. unfold GetByID. apply always_mbind, always_mquery.
  { apply always_mfail; eauto. }
  cbn [set_db sv_db]. rewrite Hus.
  destruct (users (sv_db s) !! s_UserID sess) as [user|] eqn:Eu;
    [apply always_mret|by apply always_mfail, always_mfail; eauto].
  destruct (negb _) eqn:Est; [apply always_mfail; eauto|]. reflect_bools.
  apply always_mbind, always_mtry, always_mzoom. unfold PermissionsForUser. apply always_mquery.
  { apply always_mfail; eauto. }
  cbn [set_db sv_db]. rewrite Hgr. apply always_mret. split; [done|]. exists token. split_and!; done.
Qed.

(** A protected endpoint's own code runs only for an authenticated and
    permitted caller: whatever that code guarantees when started by an active
    user with a live session whose current role assignments grant the
    permission on the resource, and whatever holds of the refusals (401, 403
    or 500, with nothing changed but the session's idle expiry), holds of
    every request to the endpoint, including those where the database fails. *)
Theorem protected_endpoint_guarded svc req now permission resource next Q s :
  (∀ cx s1, entitled svc req now s cx s1 →
     HasPermission (grants_of (sv_db s) (cx_User cx).1) permission
       (default GlobalResource resource) = true → always (next cx) Q s1) →
  (∀ resp s1, rs_Status resp = 401%Z ∨ rs_Status resp = 403%Z ∨ rs_Status resp = 500%Z →
     (∃ t r, validated (sv_Sessions svc) t now (sv_db s) r (sv_db s1)) → Q (Ok resp) s1) →
  always (RequireSession svc req now (λ cx, RequirePermission permission resource cx (next cx))) Q s.
Proof using Type.
  intros Hnext Hrefuse. unfold RequireSession. apply always_mbind, always_mtry.
  eapply always_mono; [apply CheckSession_always|]. intros [cx|resp] s1 [[Hslid _] Hr].
  - unfold RequirePermission. fold GlobalResource. destruct Hr as (token & Hc & Hv & Hu & Hus & Hst & Hg).
    rewrite Hg. destruct (negb _) eqn:Eperm; [by apply always_mret, Hrefuse; [right; left|]|]. reflect_bools.
    apply Hnext; [|done]. exists token. by split_and!.
  - apply always_mret, Hrefuse; [destruct Hr; [left|right; right]|]; done.
Qed.
End service.

(** ** Concrete runs *)

Definition demo_uuid : UuidText :=
  {| uuid_string u := hex_encode (be_bytes 16 u);
     uuid_parse s :=
       match hex_decode s with
       | Some b => if length b =? 16 then Some (fold_left (λ a c, a * 256 + byte_val c)%N b 0%N)
                   else None
       | None => None
       end |}.

Definition demo_service : Service :=
  mkService demo_store demo_mfa_store DefaultArgon2Params true.
Definition demo_entropy : entropy :=
  mkEntropy (Some (replicate 32 "r"%char)) 77 (Some ("s", "otpauth://s")%string) (Some [])
    (replicate 10 (Some ["a"%char])) (Some (replicate 16 "s"%char)).
Definition demo_request (cookies : list (string * string)) : Request :=
  mkRequest "POST" cookies "" "192.0.2.1".
(** User 5 with a confirmed second factor whose secret is "s", a pending
    challenge 8, a revoked session 1 with token "old", a live session 2 with
    token "live" and a re-authentication token 3. *)
Definition demo_db : auth_db :=
  mkAuthDB {[5%N := demo_user]}
    {[5%N := mkMfa (replicate 32 "k"%char ++ str_bytes "s") [] (Some 0%Z) []]}
    {[1%N := mkSession 5 (hashToken "old") 0 0 (12 * Hour) (30 * Minute) (Some 1%Z);
      2%N := mkSession 5 (hashToken "live") 0 0 (12 * Hour) (30 * Minute) None]}
    {[8%N := mkChallenge 5 (5 * Minute) None 0]}
    {[3%N := mkReauth 5 (5 * Minute) None]}
    {[1%N := "admin"%string]} [(1%N, PermDeviceRead)] [mkUserRole 5 1 ScopeGlobal None].
Definition demo_svc : svc_state := NewLimiters demo_db.

Lemma demo_sessions_ok : sessions_ok demo_store demo_db.
Proof.
  unfold sessions_ok, demo_db. cbn [user_sessions].
  assert (hashToken "old" ≠ hashToken "live") as Hne by (vm_compute; discriminate).
  revert Hne. generalize (hashToken "old") (hashToken "live"). intros h1 h2 Hne. split.
  - intros i j a b Ha Hb Hab. rewrite lookup_insert_Some in Ha, Hb. setoid_rewrite lookup_singleton_Some in Ha.
    setoid_rewrite lookup_singleton_Some in Hb.
    destruct Ha as [[<- <-]|[_ [<- <-]]], Hb as [[<- <-]|[_ [<- <-]]]; cbn in Hab; congruence.
  - intros i a Ha. rewrite lookup_insert_Some, lookup_singleton_Some in Ha.
    destruct Ha as [[<- <-]|[_ [<- <-]]]; vm_compute; done.
Qed.

Definition demo_after : svc_state :=
  (run (@serve String.eqb toy_IDKey demo_aead demo_totp demo_uuid demo_service
          (RqRevokeSessions 9 7)) demo_svc).2.
Lemma demo_after_reachable :
  reachable (eq demo_svc)
    (@auth_step String.eqb toy_IDKey demo_aead demo_totp demo_uuid demo_service) demo_after.
Proof.
  eapply reach_step; [by apply reach_init|]. exists (RqRevokeSessions 9 7), [].
  unfold demo_after, run. by destruct (serve _ _ _ _).
Qed.

Lemma revoked_session_dead_witness :
  is_ok (Validate demo_store "old" 5 (World (sv_db demo_after) [])).1 = false.
Proof.
  eapply (@revoked_session_dead String.eqb toy_IDKey demo_aead demo_totp demo_uuid demo_service
    demo_svc demo_after 1 _ "old" 5 []).
  - exact demo_sessions_ok.
  - apply lookup_insert_eq.
  - done.
  - done.
  - apply demo_after_reachable.
Defined.

Lemma session_lifetime_bounded_witness :
  ∃ id x w a, Validate demo_store "live" 5 (World (sv_db demo_after) []) = (Ok (id, x), w) ∧
    user_sessions (sv_db demo_after) !! id = Some a ∧ (5 ≤ s_CreatedAt a + 12 * Hour)%Z.
Proof.
  destruct (Validate demo_store "live" 5 (World (sv_db demo_after) [])) as [[[id x]|e] w] eqn:E;
    [|by vm_compute in E].
  destruct (@session_lifetime_bounded String.eqb toy_IDKey demo_aead demo_totp demo_uuid demo_service
    demo_svc demo_after "live" 5 [] id x w demo_sessions_ok demo_after_reachable E)
    as (a & Ha & _ & _ & _ & Hc & _).
  exists id, x, w, a. split_and!; [done|exact Ha|exact Hc].
Defined.

Definition demo_totp_request : request :=
  RqTOTP (demo_request []) (Some (hex_encode (be_bytes 16 8), "s")%string) demo_entropy [] 10.

Lemma mfa_never_bypassed_witness :
  ∃ req challengeID code ent csrf now,
    demo_totp_request = RqTOTP req (Some (challengeID, code)) ent csrf now ∧
    @second_factor demo_aead demo_totp demo_uuid demo_service demo_db challengeID code now 5.
Proof.
  apply (@mfa_never_bypassed String.eqb toy_IDKey demo_aead demo_totp demo_uuid demo_service
    demo_totp_request demo_svc
    (run (@serve String.eqb toy_IDKey demo_aead demo_totp demo_uuid demo_service
            demo_totp_request) demo_svc).2).
  - exists []. unfold run. by destruct (serve _ _ _ _).
  - exists 77%N. eexists. split_and!; [by vm_compute|vm_compute; reflexivity|reflexivity].
  - intros Hu. specialize (Hu _ (lookup_singleton_eq _ _)). done.
Defined.

Definition demo_spent : svc_state :=
  (run (@serve String.eqb toy_IDKey demo_aead demo_totp demo_uuid demo_service demo_totp_request)
     demo_svc).2.
Lemma mfa_challenge_dead_witness :
  is_ok (@CompleteMFA demo_aead demo_totp demo_uuid demo_service (hex_encode (be_bytes 16 8)) "s"
           demo_entropy 11 (World demo_spent [])).1 = false.
Proof.
  pose proof (@mfa_challenge_dead String.eqb toy_IDKey demo_aead demo_totp demo_uuid demo_service
    demo_spent demo_spent (hex_encode (be_bytes 16 8)) 8 (mkChallenge 5 (5 * Minute) (Some 10%Z) 0)
    "s" demo_entropy 11 []) as Hd.
  destruct (CompleteMFA _ _ _ _ _ _) as [r w]. apply Hd.
  - vm_compute. reflexivity.
  - vm_compute. reflexivity.
  - left. done.
  - by apply reach_init.
Defined.

Definition demo_reauthed : res auth_error bool * world auth_db :=
  @ConsumeReauth demo_uuid 5 (hex_encode (be_bytes 16 3)) 4 (World demo_db []).
Lemma reauth_single_use_witness :
  demo_reauthed.1 = Ok true ∧
  (@ConsumeReauth demo_uuid 5 (hex_encode (be_bytes 16 3)) 6 (World (w_db demo_reauthed.2) [])).1
    ≠ Ok true.
Proof.
  assert (demo_reauthed.1 = Ok true) as E by (vm_compute; reflexivity).
  split; [exact E|].
  pose proof (@reauth_single_use String.eqb toy_IDKey demo_aead demo_totp demo_uuid demo_service
    demo_svc (NewLimiters (w_db demo_reauthed.2)) (NewLimiters (w_db demo_reauthed.2)) 5
    (hex_encode (be_bytes 16 3)) 4 [] demo_reauthed.2) as H.
  destruct H as [_ H].
  - change (demo_reauthed = (Ok true, demo_reauthed.2)). rewrite <-E. apply surjective_pairing.
  - done.
  - by apply reach_init.
  - exact (H 5%N 6%Z []).
Defined.

(** An endpoint that returns its caller's id, guarded by a permission. *)
Definition demo_endpoint (cx : authctx) : SvcM Response :=
  mret (writeJSON (if bool_decide (s_UserID (cx_Session cx).2 = 5%N) then "ok" else "other") [] []).
Lemma protected_endpoint_guarded_witness :
  always (RequireSession demo_service (demo_request [("__Host-session", "live")%string]) 10
    (λ cx, RequirePermission PermDeviceRead None cx (demo_endpoint cx)))
    (λ r _, ∃ resp, r = Ok resp ∧ (rs_Code resp = "ok"%string ∨ rs_Status resp ≠ 200%Z)) demo_svc.
Proof.
  apply protected_endpoint_guarded.
  - intros cx s1 (token & _ & Hv & Hu & Hus & _) _. apply always_mret. eexists. split; [done|]. left.
    simpl. rewrite bool_decide_eq_true_2; [done|]. rewrite <-Hu.
    unfold demo_svc, NewLimiters, demo_db in Hus. cbn [sv_db users] in Hus.
    apply lookup_singleton_Some in Hus as [<- _]. done.
  - intros resp s1 [E|[E|E]] _; eexists; (split; [done|]); right; by rewrite E.
Defined.

(** A locked account whose second factor is not confirmed yet. *)
Definition locked_hash : string :=
  match @HashPassword toy_IDKey "correct horse" DefaultArgon2Params (Some (replicate 16 "s"%char)) with
  | Ok h => h
  | Err _ => ""
  end.
Definition locked_svc : svc_state :=
  NewLimiters (mkAuthDB
    {[5%N := mkUser "eve" "" locked_hash UserActive true 10 (Some (15 * Minute)%Z) 0 None]}
    {[5%N := mkMfa (replicate 32 "k"%char ++ str_bytes "s") [] None []]}
    ∅ ∅ ∅ ∅ [] []).

(** The lockout does not cover the second-factor setup endpoint: while
    an account is locked, [handleLogin] refuses the right password, yet
    [handleMFASetupConfirm] still tests passwords for that account and, with
    the right one and a valid code, opens a session. *)
Theorem mfa_setup_ignores_lockout :
  let login := @handleLogin String.eqb toy_IDKey demo_aead demo_uuid demo_service
    (demo_request []) (Some ("eve", "correct horse")%string) demo_entropy [] 10 in
  let setup := @handleMFASetupConfirm String.eqb toy_IDKey demo_aead demo_totp demo_service
    (demo_request []) (Some ("eve", "correct horse", "s")%string) demo_entropy [] 10 in
  (∃ resp, (run login locked_svc).1 = Ok resp ∧ rs_Status resp = 403%Z) ∧
  (∃ resp, (run setup locked_svc).1 = Ok resp ∧ rs_Status resp = 200%Z ∧
     new_session (sv_db locked_svc) (sv_db (run setup locked_svc).2) 5).
Proof.
  split.
  - eexists. split; [vm_compute; reflexivity|reflexivity].
  - eexists. split_and!; [vm_compute; reflexivity|reflexivity|].
    exists 77%N. eexists. split_and!; [reflexivity|vm_compute; reflexivity|reflexivity].
Qed.
