(* ===== verification/Device.v ===== *)
(** The device registry ([internal/device/device.go]): the devices table and
    the tables that hang off it, connectivity and health updates, patching,
    listing, credentials, revocation and deletion.  The metrics operations on
    the same tables are in [Metrics.v], enrolment in [Enrollment.v]. *)
From Stdlib Require Export SpecFloat.
From S2P Require Import Prelude.

(** ** Rows *)

Inductive device_error : Type :=
| DevNotFound
| DevHasHistory
| DevDB.

(* internal/device/device.go:22-30 Status *)
Inductive Status : Type :=
| StatusUnknown | StatusOnline | StatusConnectionLost | StatusOffline | StatusRevoked.
(* internal/device/device.go:32-40 Health *)
Inductive Health : Type :=
| HealthHealthy | HealthWarning | HealthCritical | HealthOffline | HealthUnknown.
(** The [credential_status] column: 'none', 'active' or 'revoked'. *)
Inductive CredentialStatus : Type := CredNone | CredActive | CredRevoked.
#[export] Instance Status_eq_dec : EqDecision Status.
Proof. solve_decision. Defined.
#[export] Instance Health_eq_dec : EqDecision Health.
Proof. solve_decision. Defined.
#[export] Instance CredentialStatus_eq_dec : EqDecision CredentialStatus.
Proof. solve_decision. Defined.

(* internal/device/device.go:42-67 Device *)
Record Device : Type := mkDevice {
  dv_InstallID : uuid;
  dv_CustomerID : option uuid;
  dv_GroupID : option uuid;
  dv_DisplayName : string;
  dv_Hostname : string;
  dv_OSFamily : string;
  dv_OSName : string;
  dv_OSVersion : string;
  dv_Architecture : string;
  dv_AgentVersion : string;
  dv_Status : Status;
  dv_Health : Health;
  dv_HealthReasons : list string;
  dv_Tags : list string;
  dv_Policy : string;
  dv_LastSeenAt : option time;
  dv_LastPublicIP : string;
  dv_TransportSecure : option bool;
  dv_CredentialStatus : CredentialStatus;
  dv_RevokedAt : option time;
  dv_CreatedAt : time }.

Record Credential : Type := mkCredential {
  cr_DeviceID : uuid;
  cr_PublicKey : bytes;
  cr_ExpiresAt : option time;
  cr_RevokedAt : option time;
  cr_KeyVersion : Z }.

Record EnrollmentToken : Type := mkToken {
  et_TokenHash : bytes;
  et_CustomerID : option uuid;
  et_GroupID : option uuid;
  et_DisplayName : option string;
  et_Tags : list string;
  et_CreatedBy : option uuid;
  et_CreatedAt : time;
  et_ExpiresAt : time;
  et_ConsumedAt : option time;
  et_ConsumedDeviceID : option uuid;
  et_RevokedAt : option time;
  et_IsReusable : bool;
  et_UseCount : Z;
  et_LastUsedAt : option time }.

Record NetworkRow : Type := mkNetworkRow {
  nw_DeviceID : uuid;
  nw_ObservedAt : time;
  nw_PublicIP : option string }.

Abbreviation float := spec_float.

(* internal/protocol/protocol.go:201-208 FilesystemUsage *)
Record FilesystemUsage : Type := mkFilesystem {
  fs_Path : string;
  fs_UsedBytes : Z;
  fs_TotalBytes : Z;
  fs_Removable : bool }.

Record MetricsRow : Type := mkMetricsRow {
  mt_DeviceID : uuid;
  mt_ObservedAt : time;
  mt_CPUPercent : float;
  mt_MemoryUsedBytes : Z;
  mt_MemoryTotalBytes : Z;
  mt_Filesystems : list FilesystemUsage;
  mt_UptimeSeconds : Z;
  mt_DiskUsedBytes : Z;
  mt_DiskTotalBytes : Z }.

Record HourlyRow : Type := mkHourlyRow {
  hr_AvgCPUPercent : float;
  hr_AvgMemoryUsedBytes : Z;
  hr_AvgMemoryTotalBytes : Z;
  hr_AvgDiskUsedBytes : Z;
  hr_AvgDiskTotalBytes : Z;
  hr_SampleCount : Z }.

Record NetMetricsRow : Type := mkNetMetricsRow {
  nm_DeviceID : uuid;
  nm_ObservedAt : time;
  nm_IntervalSeconds : float;
  nm_BytesSentTotal : Z;
  nm_BytesRecvTotal : Z;
  nm_BytesSentControl : Z;
  nm_BytesRecvControl : Z }.

Record NetHourlyRow : Type := mkNetHourlyRow {
  nh_SumIntervalSeconds : float;
  nh_SumBytesSentTotal : Z;
  nh_SumBytesRecvTotal : Z;
  nh_SumBytesSentControl : Z;
  nh_SumBytesRecvControl : Z;
  nh_SampleCount : Z }.

Record dev_db : Type := mkDevDB {
  devices : gmap uuid Device;
  credentials : list Credential;
  enrollment_tokens : gmap uuid EnrollmentToken;
  capabilities : list (uuid * string);
  device_network : list NetworkRow;
  device_metrics : list MetricsRow;
  metrics_hourly : gmap (uuid * time) HourlyRow;
  network_metrics : list NetMetricsRow;
  network_hourly : gmap (uuid * time) NetHourlyRow }.

Definition empty_dev_db : dev_db := mkDevDB ∅ [] ∅ [] [] [] ∅ [] ∅.

Definition on_devices (f : gmap uuid Device → gmap uuid Device) (d : dev_db) : dev_db :=
  mkDevDB (f (devices d)) (credentials d) (enrollment_tokens d) (capabilities d) (device_network d)
    (device_metrics d) (metrics_hourly d) (network_metrics d) (network_hourly d).
Definition on_credentials (f : list Credential → list Credential) (d : dev_db) : dev_db :=
  mkDevDB (devices d) (f (credentials d)) (enrollment_tokens d) (capabilities d) (device_network d)
    (device_metrics d) (metrics_hourly d) (network_metrics d) (network_hourly d).
Definition on_tokens (f : gmap uuid EnrollmentToken → gmap uuid EnrollmentToken) (d : dev_db) : dev_db :=
  mkDevDB (devices d) (credentials d) (f (enrollment_tokens d)) (capabilities d) (device_network d)
    (device_metrics d) (metrics_hourly d) (network_metrics d) (network_hourly d).
Definition on_capabilities (f : list (uuid * string) → list (uuid * string)) (d : dev_db) : dev_db :=
  mkDevDB (devices d) (credentials d) (enrollment_tokens d) (f (capabilities d)) (device_network d)
    (device_metrics d) (metrics_hourly d) (network_metrics d) (network_hourly d).
Definition on_network (f : list NetworkRow → list NetworkRow) (d : dev_db) : dev_db :=
  mkDevDB (devices d) (credentials d) (enrollment_tokens d) (capabilities d) (f (device_network d))
    (device_metrics d) (metrics_hourly d) (network_metrics d) (network_hourly d).
Definition on_metrics (f : list MetricsRow → list MetricsRow) (d : dev_db) : dev_db :=
  mkDevDB (devices d) (credentials d) (enrollment_tokens d) (capabilities d) (device_network d)
    (f (device_metrics d)) (metrics_hourly d) (network_metrics d) (network_hourly d).
Definition on_hourly (f : gmap (uuid * time) HourlyRow → gmap (uuid * time) HourlyRow) (d : dev_db)
    : dev_db :=
  mkDevDB (devices d) (credentials d) (enrollment_tokens d) (capabilities d) (device_network d)
    (device_metrics d) (f (metrics_hourly d)) (network_metrics d) (network_hourly d).
Definition on_netmetrics (f : list NetMetricsRow → list NetMetricsRow) (d : dev_db) : dev_db :=
  mkDevDB (devices d) (credentials d) (enrollment_tokens d) (capabilities d) (device_network d)
    (device_metrics d) (metrics_hourly d) (f (network_metrics d)) (network_hourly d).
Definition on_nethourly (f : gmap (uuid * time) NetHourlyRow → gmap (uuid * time) NetHourlyRow)
    (d : dev_db) : dev_db :=
  mkDevDB (devices d) (credentials d) (enrollment_tokens d) (capabilities d) (device_network d)
    (device_metrics d) (metrics_hourly d) (network_metrics d) (f (network_hourly d)).

Abbreviation DevM := (M dev_db device_error).

(** ** Field updates of a device row *)

Definition set_connectivity (st : Status) (seen : option time) (ip : string) (x : Device) : Device :=
  mkDevice (dv_InstallID x) (dv_CustomerID x) (dv_GroupID x) (dv_DisplayName x) (dv_Hostname x)
    (dv_OSFamily x) (dv_OSName x) (dv_OSVersion x) (dv_Architecture x) (dv_AgentVersion x)
    st (dv_Health x) (dv_HealthReasons x) (dv_Tags x) (dv_Policy x) seen ip
    (dv_TransportSecure x) (dv_CredentialStatus x) (dv_RevokedAt x) (dv_CreatedAt x).
Definition set_health (h : Health) (reasons : list string) (x : Device) : Device :=
  mkDevice (dv_InstallID x) (dv_CustomerID x) (dv_GroupID x) (dv_DisplayName x) (dv_Hostname x)
    (dv_OSFamily x) (dv_OSName x) (dv_OSVersion x) (dv_Architecture x) (dv_AgentVersion x)
    (dv_Status x) h reasons (dv_Tags x) (dv_Policy x) (dv_LastSeenAt x) (dv_LastPublicIP x)
    (dv_TransportSecure x) (dv_CredentialStatus x) (dv_RevokedAt x) (dv_CreatedAt x).
Definition set_inventory (hostname osFamily osName osVersion arch agentVersion : string)
    (x : Device) : Device :=
  mkDevice (dv_InstallID x) (dv_CustomerID x) (dv_GroupID x) (dv_DisplayName x) hostname
    osFamily osName osVersion arch agentVersion
    (dv_Status x) (dv_Health x) (dv_HealthReasons x) (dv_Tags x) (dv_Policy x) (dv_LastSeenAt x)
    (dv_LastPublicIP x) (dv_TransportSecure x) (dv_CredentialStatus x) (dv_RevokedAt x)
    (dv_CreatedAt x).
Definition set_transport (secure : bool) (x : Device) : Device :=
  mkDevice (dv_InstallID x) (dv_CustomerID x) (dv_GroupID x) (dv_DisplayName x) (dv_Hostname x)
    (dv_OSFamily x) (dv_OSName x) (dv_OSVersion x) (dv_Architecture x) (dv_AgentVersion x)
    (dv_Status x) (dv_Health x) (dv_HealthReasons x) (dv_Tags x) (dv_Policy x) (dv_LastSeenAt x)
    (dv_LastPublicIP x) (Some secure) (dv_CredentialStatus x) (dv_RevokedAt x) (dv_CreatedAt x).
Definition set_revoked (now : time) (x : Device) : Device :=
  mkDevice (dv_InstallID x) (dv_CustomerID x) (dv_GroupID x) (dv_DisplayName x) (dv_Hostname x)
    (dv_OSFamily x) (dv_OSName x) (dv_OSVersion x) (dv_Architecture x) (dv_AgentVersion x)
    StatusRevoked (dv_Health x) (dv_HealthReasons x) (dv_Tags x) (dv_Policy x) (dv_LastSeenAt x)
    (dv_LastPublicIP x) (dv_TransportSecure x) CredRevoked (Some now) (dv_CreatedAt x).

(** ** Reading and listing *)

(* internal/device/device.go:105-115 GetByID *)
Definition GetByID (id : uuid) : DevM (uuid * Device) :=
  r ← mquery DevDB (λ d, devices d !! id);
  match r with None => mfail DevNotFound | Some x => mret (id, x) end.

(* internal/device/device.go:117-127 GetByInstallID *)
Definition GetByInstallID (installID : uuid) : DevM (uuid * Device) :=
  r ← mquery DevDB (λ d, select_one (λ _ x, (dv_InstallID x =? installID)%N) (devices d));
  match r with None => mfail DevNotFound | Some x => mret x end.

(* internal/device/device.go:129-138 ListFilter *)
Record ListFilter : Type := mkFilter {
  lf_Status : option Status;
  lf_Health : option Health;
  lf_CustomerID : option uuid;
  lf_GroupID : option uuid;
  lf_Tag : string;
  lf_Query : string;
  lf_Page : Z;
  lf_PageSize : Z }.

Section listing.
(** PostgreSQL's text operators: [a ILIKE '%' || q || '%'] and the order of
    [ORDER BY display_name]. *)
Context (ilike : string → string → bool) (collate_le : string → string → bool).

Definition opt_test {A} `{EqDecision A} (want : option A) (have : A) : bool :=
  match want with None => true | Some w => bool_decide (have = w) end.

Definition matches (f : ListFilter) (x : Device) : bool :=
  opt_test (lf_Status f) (dv_Status x) && opt_test (lf_Health f) (dv_Health x) &&
  match lf_CustomerID f with None => true | Some c => bool_decide (dv_CustomerID x = Some c) end &&
  match lf_GroupID f with None => true | Some g => bool_decide (dv_GroupID x = Some g) end &&
  (String.eqb (lf_Tag f) "" || existsb (String.eqb (lf_Tag f)) (dv_Tags x)) &&
  (String.eqb (lf_Query f) "" ||
   ilike (dv_DisplayName x) (lf_Query f) || ilike (dv_Hostname x) (lf_Query f)).

Definition by_name (a b : uuid * Device) : bool :=
  collate_le (dv_DisplayName a.2) (dv_DisplayName b.2).

Definition page_of (f : ListFilter) : Z := if (lf_Page f <? 1)%Z then 1 else lf_Page f.
Definition page_size_of (f : ListFilter) : Z :=
  if (lf_PageSize f <? 1)%Z || (200 <? lf_PageSize f)%Z then 50 else lf_PageSize f.

(** [LIMIT n OFFSET k] on a result; PostgreSQL rejects a negative offset. *)
(* internal/device/device.go:140-195 List *)
Definition List (f : ListFilter) : DevM (list (uuid * Device) * Z) :=
  total ← mquery DevDB (λ d, Z.of_nat (count_where (λ _ x, matches f x) (devices d)));
  let offset := wrap64 ((page_of f - 1) * page_size_of f) in
  rows ← mstmt DevDB (λ d,
    if (offset <? 0)%Z then (Err DevDB, d)
    else (Ok (take (Z.to_nat (page_size_of f)) (drop (Z.to_nat offset)
           (order_by by_name (select_where (λ _ x, matches f x) (devices d))))), d));
  mret (rows, total).

(* internal/device/device.go:197-215 ListAll *)
Definition ListAll : DevM (list (uuid * Device)) :=
  mquery DevDB (λ d,
    order_by by_name
      (select_where (λ _ x, negb (bool_decide (dv_Status x = StatusRevoked))) (devices d))).
End listing.

(** ** Changing a device *)

(* internal/device/device.go:217-226 PatchInput *)
Record PatchInput : Type := mkPatch {
  pi_DisplayName : option string;
  pi_CustomerID : option (option uuid);
  pi_GroupID : option (option uuid);
  pi_Tags : option (list string);
  pi_Policy : option string }.

Definition apply_patch (i : PatchInput) (x : Device) : Device :=
  mkDevice (dv_InstallID x) (default (dv_CustomerID x) (pi_CustomerID i))
    (default (dv_GroupID x) (pi_GroupID i)) (default (dv_DisplayName x) (pi_DisplayName i))
    (dv_Hostname x) (dv_OSFamily x) (dv_OSName x) (dv_OSVersion x) (dv_Architecture x)
    (dv_AgentVersion x) (dv_Status x) (dv_Health x) (dv_HealthReasons x)
    (default (dv_Tags x) (pi_Tags i)) (default (dv_Policy x) (pi_Policy i)) (dv_LastSeenAt x)
    (dv_LastPublicIP x) (dv_TransportSecure x) (dv_CredentialStatus x) (dv_RevokedAt x)
    (dv_CreatedAt x).

(* internal/device/device.go:228-263 Patch *)
Definition Patch (id : uuid) (i : PatchInput) : DevM unit :=
  n ← mstmt DevDB (λ d, (Ok (rows_with_id id (devices d)), on_devices (update_id id (apply_patch i)) d));
  if n =? 0 then mfail DevNotFound else mret tt.

(* internal/device/device.go:276-292 UpdateConnectivity *)
Definition UpdateConnectivity (id : uuid) (status : Status) (publicIP : string) (now : time) : DevM unit :=
  mexec DevDB (on_devices (update_id id (λ x,
    set_connectivity status (Some now)
      (if String.eqb publicIP "" then dv_LastPublicIP x else publicIP) x))).

(* internal/device/device.go:294-300 UpdateStatusOnly *)
Definition UpdateStatusOnly (id : uuid) (status : Status) : DevM unit :=
  mexec DevDB (on_devices (update_id id (λ x,
    set_connectivity status (dv_LastSeenAt x) (dv_LastPublicIP x) x))).

(* internal/device/device.go:302-310 UpdateHealth *)
Definition UpdateHealth (id : uuid) (health : Health) (reasons : list string) : DevM unit :=
  mexec DevDB (on_devices (update_id id (set_health health reasons))).

(* internal/device/device.go:312-324 ApplyInventory *)
Definition ApplyInventory (id : uuid) (hostname osFamily osName osVersion arch agentVersion : string)
    : DevM unit :=
  mexec DevDB (on_devices (update_id id
    (set_inventory hostname osFamily osName osVersion arch agentVersion))).

(* internal/device/device.go:647-654 UpdateTransportSecurity *)
Definition UpdateTransportSecurity (id : uuid) (secure : bool) : DevM unit :=
  mexec DevDB (on_devices (update_id id (set_transport secure))).

(** The foreign key of every table that refers to a device. *)
Definition has_device (id : uuid) (d : dev_db) : bool := negb (is_null (devices d !! id)).

(* internal/device/device.go:326-340 RecordNetwork *)
Definition RecordNetwork (id : uuid) (publicIP : string) (now : time) : DevM unit :=
  mstmt DevDB (λ d,
    if has_device id d then
      (Ok tt, on_network (λ t, t ++ [mkNetworkRow id now
                (if String.eqb publicIP "" then None else Some publicIP)]) d)
    else (Err DevDB, d)).

(* internal/device/device.go:342-348 IPHistoryEntry *)
Record IPHistoryEntry : Type := mkIPEntry { ih_IP : string; ih_FirstSeen : time; ih_LastSeen : time }.

(** The rows of one group, folded into its first and last observation. *)
Definition observe_ip (ip : string) (t : time) (acc : list IPHistoryEntry) : list IPHistoryEntry :=
  if existsb (λ e, String.eqb (ih_IP e) ip) acc then
    map (λ e, if String.eqb (ih_IP e) ip
              then mkIPEntry ip (Z.min (ih_FirstSeen e) t) (Z.max (ih_LastSeen e) t) else e) acc
  else mkIPEntry ip t t :: acc.

(* internal/device/device.go:350-376 RecentIPHistory *)
Definition RecentIPHistory (id : uuid) (since : duration) (now : time) : DevM (list IPHistoryEntry) :=
  mquery DevDB (λ d,
    order_by (λ a b, (ih_LastSeen b <=? ih_LastSeen a)%Z)
      (fold_right (λ r acc,
         match nw_PublicIP r with
         | Some ip =>
             if (nw_DeviceID r =? id)%N && (now - since <=? nw_ObservedAt r)%Z
             then observe_ip ip (nw_ObservedAt r) acc else acc
         | None => acc
         end) [] (device_network d))).

(** ** Credentials, revocation, deletion *)

Definition usable (id : uuid) (now : time) (c : Credential) : bool :=
  (cr_DeviceID c =? id)%N && is_null (cr_RevokedAt c) &&
  match cr_ExpiresAt c with None => true | Some e => After e now end.

(* internal/device/device.go:579-596 ActiveCredentialPublicKey *)
Definition ActiveCredentialPublicKey (id : uuid) (now : time) : DevM bytes :=
  r ← mquery DevDB (λ d,
        head (order_by (λ a b, (cr_KeyVersion b <=? cr_KeyVersion a)%Z)
                (filter (λ c, usable id now c = true) (credentials d))));
  match r with None => mfail DevNotFound | Some c => mret (cr_PublicKey c) end.

Definition revoke_credential (id : uuid) (now : time) (c : Credential) : Credential :=
  if (cr_DeviceID c =? id)%N && is_null (cr_RevokedAt c)
  then mkCredential (cr_DeviceID c) (cr_PublicKey c) (cr_ExpiresAt c) (Some now) (cr_KeyVersion c)
  else c.

(* internal/device/device.go:598-614 Revoke *)
Definition Revoke (id : uuid) (now : time) : DevM unit :=
  mtx DevDB DevDB (
    mexec DevDB (on_devices (update_id id (set_revoked now)));;
    mexec DevDB (on_credentials (map (revoke_credential id now)))).

(** [ON DELETE CASCADE] on the tables that refer to a device, [ON DELETE SET
    NULL] on [enrollment_tokens.consumed_device_id]. *)
Definition cascade (id : uuid) (d : dev_db) : dev_db :=
  mkDevDB (delete id (devices d))
    (filter (λ c, cr_DeviceID c ≠ id) (credentials d))
    (fmap (λ t, if bool_decide (et_ConsumedDeviceID t = Some id) then
              mkToken (et_TokenHash t) (et_CustomerID t) (et_GroupID t) (et_DisplayName t)
                (et_Tags t) (et_CreatedBy t) (et_CreatedAt t) (et_ExpiresAt t) (et_ConsumedAt t)
                None (et_RevokedAt t) (et_IsReusable t) (et_UseCount t) (et_LastUsedAt t)
            else t) (enrollment_tokens d))
    (filter (λ c, c.1 ≠ id) (capabilities d))
    (filter (λ r, nw_DeviceID r ≠ id) (device_network d))
    (filter (λ r, mt_DeviceID r ≠ id) (device_metrics d))
    (delete_where (λ k _, (k.1 =? id)%N) (metrics_hourly d))
    (filter (λ r, nm_DeviceID r ≠ id) (network_metrics d))
    (delete_where (λ k _, (k.1 =? id)%N) (network_hourly d)).

(* internal/device/device.go:626-645 Delete *)
Definition Delete (id : uuid) : DevM unit :=
  n ← mstmt DevDB (λ d,
    match devices d !! id with
    | Some x => if is_null (dv_LastSeenAt x) then (Ok 1, cascade id d) else (Ok 0, d)
    | None => (Ok 0, d)
    end);
  if n =? 0 then
    r ← mtry (E := device_error) (GetByID id);
    match r with
    | Ok _ => mfail DevHasHistory
    | Err _ => mfail DevNotFound
    end
  else mret tt.

Definition insert_capability (id : uuid) (cap : string) (t : list (uuid * string)) : list (uuid * string) :=
  if bool_decide ((id, cap) ∈ t) then t else t ++ [(id, cap)].

(** One [INSERT ... ON CONFLICT DO NOTHING] per capability. *)
Fixpoint insert_capabilities (id : uuid) (caps : list string) : DevM unit :=
  match caps with
  | [] => mret tt
  | cap :: rest =>
      mstmt DevDB (λ d, if has_device id d then (Ok tt, on_capabilities (insert_capability id cap) d)
                        else (Err DevDB, d));;
      insert_capabilities id rest
  end.

(* internal/device/device.go:656-672 SetCapabilities *)
Definition SetCapabilities (id : uuid) (caps : list string) : DevM unit :=
  mtx DevDB DevDB (
    mexec DevDB (on_capabilities (filter (λ c, c.1 ≠ id)));;
    insert_capabilities id caps).

(** ** The invariant of the registry *)

Record dev_inv (d : dev_db) : Prop := {
  inv_cred_device : ∀ c, c ∈ credentials d → ∃ x, devices d !! cr_DeviceID c = Some x;
  inv_install_unique : ∀ i j x y, devices d !! i = Some x → devices d !! j = Some y →
    dv_InstallID x = dv_InstallID y → i = j;
  inv_revoked_creds : ∀ c x, c ∈ credentials d → devices d !! cr_DeviceID c = Some x →
    dv_CredentialStatus x = CredRevoked → cr_RevokedAt c ≠ None }.

(** What no operation undoes on a device row: its installation, a
    revocation, having been seen. *)
Definition row_rel (x x' : Device) : Prop :=
  dv_InstallID x' = dv_InstallID x ∧
  (dv_CredentialStatus x = CredRevoked → dv_CredentialStatus x' = CredRevoked) ∧
  (dv_LastSeenAt x ≠ None → dv_LastSeenAt x' ≠ None).

Definition dev_rel (d d' : dev_db) : Prop :=
  (dev_inv d → dev_inv d') ∧
  ∀ id x, devices d !! id = Some x →
    (∃ x', devices d' !! id = Some x' ∧ row_rel x x') ∨ dv_LastSeenAt x = None.

#[export] Instance dev_rel_preorder : PreOrder dev_rel.
Proof.
  split.
  - intros d. split; [done|]. intros id x Hx. left. exists x. done.
  - intros d1 d2 d3 [I12 R12] [I23 R23]. split; [tauto|]. intros id x Hx.
    destruct (R12 id x Hx) as [(y & Hy & E1 & E2 & E3)|]; [|by right].
    destruct (R23 id y Hy) as [(z & Hz & F1 & F2 & F3)|Hn].
    + left. exists z. split; [done|]. split_and!; [congruence|tauto..].
    + right. destruct (dv_LastSeenAt x); [|done]. by destruct E3.
Qed.

(** An update of one row that keeps the installation, the credential status
    and the fact of having been seen. *)
Lemma update_device_rel d id f :
  (∀ x, dv_InstallID (f x) = dv_InstallID x ∧ dv_CredentialStatus (f x) = dv_CredentialStatus x ∧
        (dv_LastSeenAt x ≠ None → dv_LastSeenAt (f x) ≠ None)) →
  dev_rel d (on_devices (update_id id f) d).
Proof.
  intros Hf. split.
  - intros [I1 I2 I3]. split.
    + intros c Hc. destruct (I1 c Hc) as [x Hx]. simpl. rewrite lookup_update_id, Hx.
      case_decide; eauto.
    + intros i j x y Hx Hy E. simpl in Hx, Hy.
      apply update_id_inv in Hx as (x0 & Hx0 & Ex), Hy as (y0 & Hy0 & Ey).
      destruct (Hf x0) as (Fx & _), (Hf y0) as (Fy & _).
      apply (I2 i j x0 y0); [done..|]. destruct Ex as [->|[_ ->]], Ey as [->|[_ ->]]; congruence.
    + intros c x Hc. simpl. rewrite lookup_update_id. case_decide; [|by eauto].
      subst. destruct (I1 c Hc) as [x0 Hx0]. rewrite Hx0. intros [= <-] Hr.
      destruct (Hf x0) as (_ & E & _). eapply I3; eauto. congruence.
  - intros i x Hx. left. simpl. rewrite lookup_update_id, Hx. destruct (Hf x) as (? & E & ?).
    case_decide; [|by exists x]. exists (f x). split; [done|]. split_and!; [done|congruence|done].
Qed.

(** Tables that neither devices nor credentials depend on. *)
Lemma dev_rel_same d d' : devices d' = devices d → credentials d' = credentials d → dev_rel d d'.
Proof.
  intros E1 E2. split.
  - intros [I1 I2 I3]. split; intros *; rewrite ?E1, ?E2; eauto.
  - intros id x Hx. left. exists x. by rewrite E1.
Qed.

Ltac device_update := apply preserves_mexec; [apply _|]; intros d; apply update_device_rel;
  intros x; by simpl.

Lemma DeviceByID_rel id : preserves dev_rel (GetByID id).
Proof. unfold GetByID. preserve_steps. Qed.
Lemma GetByInstallID_rel id : preserves dev_rel (GetByInstallID id).
Proof. unfold GetByInstallID. preserve_steps. Qed.
Lemma UpdateConnectivity_rel id st ip now : preserves dev_rel (UpdateConnectivity id st ip now).
Proof. unfold UpdateConnectivity. device_update. Qed.
Lemma UpdateStatusOnly_rel id st : preserves dev_rel (UpdateStatusOnly id st).
Proof. unfold UpdateStatusOnly. device_update. Qed.
Lemma UpdateHealth_rel id h rs : preserves dev_rel (UpdateHealth id h rs).
Proof. unfold UpdateHealth. device_update. Qed.
Lemma ApplyInventory_rel id h fam nm ver arch ag :
  preserves dev_rel (ApplyInventory id h fam nm ver arch ag).
Proof. unfold ApplyInventory. device_update. Qed.
Lemma UpdateTransportSecurity_rel id s : preserves dev_rel (UpdateTransportSecurity id s).
Proof. unfold UpdateTransportSecurity. device_update. Qed.
Lemma Patch_rel id i : preserves dev_rel (Patch id i).
Proof.
  unfold Patch. preserve_step; [|preserve_steps]. apply preserves_mstmt; [apply _|]. intros d.
  apply update_device_rel. intros x. by simpl.
Qed.
Lemma RecordNetwork_rel id ip now : preserves dev_rel (RecordNetwork id ip now).
Proof.
  apply preserves_mstmt; [apply _|]. intros d. destruct (has_device id d); by apply dev_rel_same.
Qed.
Lemma insert_capabilities_rel id caps : preserves dev_rel (insert_capabilities id caps).
Proof.
  induction caps as [|c caps IH]; cbn [insert_capabilities]; [preserve_steps|].
  preserve_step; [|apply IH]. apply preserves_mstmt; [apply _|]. intros d.
  destruct (has_device id d); by apply dev_rel_same.
Qed.
Lemma SetCapabilities_rel id caps : preserves dev_rel (SetCapabilities id caps).
Proof.
  unfold SetCapabilities. preserve_step. preserve_step; [|apply insert_capabilities_rel].
  apply preserves_mexec; [apply _|]. intros d. by apply dev_rel_same.
Qed.

Lemma revoked_db_inv d id now :
  dev_inv d →
  dev_inv (on_credentials (map (revoke_credential id now)) (on_devices (update_id id (set_revoked now)) d)).
Proof.
  assert (∀ c, cr_DeviceID (revoke_credential id now c) = cr_DeviceID c) as Hdev.
  { intros c. unfold revoke_credential. by destruct (_ && _). }
  intros [I1 I2 I3]. split.
  - intros c Hc. simpl in Hc. apply list_elem_of_fmap in Hc as (c0 & -> & Hc0).
    rewrite Hdev. simpl. rewrite lookup_update_id. destruct (I1 _ Hc0) as [x ->]. case_decide; eauto.
  - intros i j x y Hx Hy E. simpl in Hx, Hy.
    apply update_id_inv in Hx as (x0 & Hx0 & Ex), Hy as (y0 & Hy0 & Ey).
    apply (I2 i j x0 y0); [done..|]. destruct Ex as [->|[_ ->]], Ey as [->|[_ ->]]; exact E.
  - intros c x Hc Hx Hr. simpl in *. apply list_elem_of_fmap in Hc as (c0 & -> & Hc0).
    rewrite Hdev, lookup_update_id in Hx. unfold revoke_credential. case_decide.
    + subst. rewrite N.eqb_refl. destruct (cr_RevokedAt c0) eqn:Er; simpl; [by rewrite Er|done].
    + assert (cr_RevokedAt c0 ≠ None) by eauto. by destruct (_ && _).
Qed.

Lemma RevokeDevice_rel id now : preserves dev_rel (Revoke id now).
Proof.
  intros d. unfold Revoke. apply always_mtx; [reflexivity|].
  apply always_mbind, always_mexec; [reflexivity|]. apply always_mexec; [reflexivity|].
  split; [reflexivity|]. split; [apply revoked_db_inv|]. intros i x Hx. left. simpl.
  rewrite lookup_update_id, Hx. case_decide; eexists; (split; [done|]); done.
Qed.

Lemma cascade_inv d id : dev_inv d → dev_inv (cascade id d).
Proof.
  intros [I1 I2 I3]. split.
  - intros c Hc. simpl in *. apply list_elem_of_filter in Hc as [Hne Hc].
    rewrite lookup_delete_ne by done. eauto.
  - intros i j x y. simpl. rewrite !lookup_delete. intros. repeat case_decide; simplify_eq. eauto.
  - intros c x Hc. simpl. apply list_elem_of_filter in Hc as [Hne Hc].
    rewrite lookup_delete_ne by done. eauto.
Qed.

Lemma Delete_rel id : preserves dev_rel (Delete id).
Proof.
  unfold Delete. preserve_step; [|preserve_steps; apply DeviceByID_rel].
  apply preserves_mstmt; [apply _|]. intros d. destruct (devices d !! id) as [x|] eqn:Ex; [|done].
  destruct (dv_LastSeenAt x) eqn:El; simpl; [done|]. split; [apply cascade_inv|].
  intros i y Hy. simpl. destruct (decide (i = id)) as [->|Hne].
  - right. congruence.
  - left. exists y. by rewrite lookup_delete_ne.
Qed.
#[export] Hint Resolve DeviceByID_rel GetByInstallID_rel UpdateConnectivity_rel UpdateStatusOnly_rel
  UpdateHealth_rel ApplyInventory_rel UpdateTransportSecurity_rel Patch_rel RecordNetwork_rel
  SetCapabilities_rel RevokeDevice_rel Delete_rel : preserve.
