(* ===== verification/Enrollment.v ===== *)
(** Enrolment of agents ([internal/enrollment/enrollment.go]): tokens of
    which only the hash is stored, and the transaction that trades a token
    for a device with its first credential. *)
From S2P Require Import Prelude Base64 Sha256 Device.

Inductive enroll_error : Type :=
| ErrTokenInvalid
| ErrInstallExists
| ErrEntropy
| ErrEnrollDB.

Abbreviation EnrollM := (M dev_db enroll_error).

(** ** Tokens *)

Definition token_prefix : string := "wr_enroll_".

(* internal/enrollment/enrollment.go:58-69 generateToken *)
Definition generateToken (rnd : option bytes) : res enroll_error (string * bytes) :=
  match rnd with
  | None => Err ErrEntropy
  | Some raw => Ok (token_prefix +:+ raw_encode url_alphabet raw, Sum256 raw)
  end.

(* internal/enrollment/enrollment.go:71-82 hashToken *)
Definition hashToken (token : string) : res enroll_error bytes :=
  if (String.length token <=? String.length token_prefix) ||
     negb (String.eqb (substring 0 (String.length token_prefix) token) token_prefix)
  then Err ErrTokenInvalid
  else
    match raw_decode url_alphabet
            (substring (String.length token_prefix)
               (String.length token - String.length token_prefix) token) with
    | None => Err ErrTokenInvalid
    | Some raw => Ok (Sum256 raw)
    end.

Definition maxExpiry : duration := (24 * Hour)%Z.
Definition maxReusableExpiry : duration := (90 * 24 * Hour)%Z.
Definition defaultExpiry : duration := (30 * Minute)%Z.

(* internal/enrollment/enrollment.go:26-41 CreateParams *)
Record CreateParams : Type := mkCreateParams {
  cp_CustomerID : option uuid;
  cp_GroupID : option uuid;
  cp_DisplayName : string;
  cp_ExpiresIn : duration;
  cp_Tags : list string;
  cp_CreatedBy : uuid;
  cp_Reusable : bool }.

(* internal/enrollment/enrollment.go:84-91 maxExpiry *)
Definition expiry_ceiling (reusable : bool) : duration :=
  if reusable then maxReusableExpiry else maxExpiry.
Definition effective_expiry (p : CreateParams) : duration :=
  if (cp_ExpiresIn p <=? 0)%Z || (expiry_ceiling (cp_Reusable p) <? cp_ExpiresIn p)%Z
  then defaultExpiry else cp_ExpiresIn p.

Definition has_hash (hash : bytes) : uuid → EnrollmentToken → bool :=
  λ _ t, bool_decide (et_TokenHash t = hash).

(* internal/enrollment/enrollment.go:93-121 Create *)
Definition Create (p : CreateParams) (rnd : option bytes) (new_id : uuid) (now : time)
    : EnrollM (uuid * string * time) :=
  '(token, hash) ← mlift (generateToken rnd);
  let expiresAt := (now + effective_expiry p)%Z in
  mstmt ErrEnrollDB (λ d,
    if is_null (enrollment_tokens d !! new_id) &&
       is_null (select_one (has_hash hash) (enrollment_tokens d)) then
      (Ok (new_id, token, expiresAt),
       on_tokens (<[new_id := mkToken hash (cp_CustomerID p) (cp_GroupID p)
                      (Some (cp_DisplayName p)) (cp_Tags p) (Some (cp_CreatedBy p)) now expiresAt
                      None None None (cp_Reusable p) 0 None]>) d)
    else (Err ErrEnrollDB, d)).

Definition revoke_token (now : time) (t : EnrollmentToken) : EnrollmentToken :=
  mkToken (et_TokenHash t) (et_CustomerID t) (et_GroupID t) (et_DisplayName t) (et_Tags t)
    (et_CreatedBy t) (et_CreatedAt t) (et_ExpiresAt t) (et_ConsumedAt t) (et_ConsumedDeviceID t)
    (Some now) (et_IsReusable t) (et_UseCount t) (et_LastUsedAt t).
Definition open_token (t : EnrollmentToken) : bool :=
  is_null (et_ConsumedAt t) && is_null (et_RevokedAt t).

(* internal/enrollment/enrollment.go:123-135 Revoke *)
Definition RevokeToken (id : uuid) (now : time) : EnrollM unit :=
  n ← mstmt ErrEnrollDB (λ d,
        let p := λ (k : uuid) t, (k =? id)%N && open_token t in
        (Ok (count_where p (enrollment_tokens d)), on_tokens (update_where p (revoke_token now)) d));
  if n =? 0 then mfail ErrTokenInvalid else mret tt.

Definition listed (now : time) (t : EnrollmentToken) : bool :=
  is_null (et_RevokedAt t) && After (et_ExpiresAt t) now &&
  (et_IsReusable t || is_null (et_ConsumedAt t)).

(* internal/enrollment/enrollment.go:151-175 ListOutstanding *)
Definition ListOutstanding (now : time) : EnrollM (list (uuid * EnrollmentToken)) :=
  mquery ErrEnrollDB (λ d,
    order_by (λ a b, (et_CreatedAt b.2 <=? et_CreatedAt a.2)%Z)
      (select_where (λ _ t, listed now t) (enrollment_tokens d))).

(* internal/enrollment/enrollment.go:177-190 RevokeAllOutstanding *)
Definition RevokeAllOutstanding (now : time) : EnrollM nat :=
  mstmt ErrEnrollDB (λ d,
    let p := λ (_ : uuid) t, open_token t in
    (Ok (count_where p (enrollment_tokens d)), on_tokens (update_where p (revoke_token now)) d)).

(** ** Consuming a token *)

(* internal/enrollment/enrollment.go:192-201 AgentEnrollRequest *)
Record AgentEnrollRequest : Type := mkEnrollRequest {
  er_Token : string;
  er_InstallID : uuid;
  er_PublicKey : bytes;
  er_AgentVersion : string;
  er_Hostname : string }.

Section consume.
Context `{UuidText}.

(* internal/enrollment/enrollment.go:261-267 Consume *)
Definition device_name (req : AgentEnrollRequest) (displayName : option string) : string :=
  let name := match displayName with
              | Some n => if String.eqb n "" then er_Hostname req else n
              | None => er_Hostname req
              end in
  if String.eqb name "" then uuid_string (er_InstallID req) else name.

(* internal/enrollment/enrollment.go:269-277 Consume *)
Definition enrolled_device (req : AgentEnrollRequest) (t : EnrollmentToken) (now : time) : Device :=
  mkDevice (er_InstallID req) (et_CustomerID t) (et_GroupID t) (device_name req (et_DisplayName t))
    (er_Hostname req) "" "" "" "" (er_AgentVersion req) StatusUnknown HealthUnknown [] (et_Tags t)
    "{}" None "" None CredActive None now.

Definition use_token (deviceID : uuid) (now : time) (t : EnrollmentToken) : EnrollmentToken :=
  if et_IsReusable t then
    mkToken (et_TokenHash t) (et_CustomerID t) (et_GroupID t) (et_DisplayName t) (et_Tags t)
      (et_CreatedBy t) (et_CreatedAt t) (et_ExpiresAt t) (et_ConsumedAt t) (et_ConsumedDeviceID t)
      (et_RevokedAt t) (et_IsReusable t) (et_UseCount t + 1) (Some now)
  else
    mkToken (et_TokenHash t) (et_CustomerID t) (et_GroupID t) (et_DisplayName t) (et_Tags t)
      (et_CreatedBy t) (et_CreatedAt t) (et_ExpiresAt t) (Some now) (Some deviceID)
      (et_RevokedAt t) (et_IsReusable t) 1 (Some now).

(* internal/enrollment/enrollment.go:208-304 Consume *)
Definition Consume (req : AgentEnrollRequest) (new_id : uuid) (now : time) : EnrollM uuid :=
  if negb (length (er_PublicKey req) =? 32) then mfail ErrTokenInvalid
  else
    hash ← mlift (hashToken (er_Token req));
    mtx ErrEnrollDB ErrEnrollDB (
      r ← mquery ErrEnrollDB (λ d, select_one (has_hash hash) (enrollment_tokens d));
      match r with
      | None => mfail ErrTokenInvalid
      | Some (tokenID, t) =>
          if negb (is_null (et_ConsumedAt t)) || negb (is_null (et_RevokedAt t)) ||
             After now (et_ExpiresAt t)
          then mfail ErrTokenInvalid
          else
            existing ← mquery ErrEnrollDB (λ d,
              select_one (λ _ x, (dv_InstallID x =? er_InstallID req)%N) (devices d));
            match existing with
            | Some _ => mfail ErrInstallExists
            | None =>
                deviceID ← mstmt ErrEnrollDB (λ d,
                  if is_null (devices d !! new_id) then
                    (Ok new_id, on_devices (<[new_id := enrolled_device req t now]>) d)
                  else (Err ErrEnrollDB, d));
                mexec ErrEnrollDB (on_credentials (λ cs,
                  cs ++ [mkCredential deviceID (er_PublicKey req) None None 1]));;
                mexec ErrEnrollDB (on_tokens (update_id tokenID (use_token deviceID now)));;
                mret deviceID
            end
      end).

(** The state after a successful enrolment. *)
Definition enrolled (req : AgentEnrollRequest) (new_id tokenID : uuid) (t : EnrollmentToken)
    (now : time) (d : dev_db) : dev_db :=
  on_tokens (update_id tokenID (use_token new_id now))
    (on_credentials (λ cs, cs ++ [mkCredential new_id (er_PublicKey req) None None 1])
       (on_devices (<[new_id := enrolled_device req t now]>) d)).

(** The token is unused, not revoked and not past its expiry. *)
Definition token_live (now : time) (t : EnrollmentToken) : Prop :=
  et_ConsumedAt t = None ∧ et_RevokedAt t = None ∧ (now ≤ et_ExpiresAt t)%Z.

Definition consumed (req : AgentEnrollRequest) (new_id : uuid) (now : time) (d : dev_db)
    (r : res enroll_error uuid) (d' : dev_db) : Prop :=
  match r with
  | Ok id =>
      ∃ hash tokenID t, id = new_id ∧ hashToken (er_Token req) = Ok hash ∧
        enrollment_tokens d !! tokenID = Some t ∧ et_TokenHash t = hash ∧ token_live now t ∧
        (∀ i x, devices d !! i = Some x → dv_InstallID x ≠ er_InstallID req) ∧
        devices d !! new_id = None ∧ length (er_PublicKey req) = 32 ∧
        d' = enrolled req new_id tokenID t now d
  | Err _ => d' = d
  end.

Lemma Consume_always req new_id now d :
  always (Consume req new_id now) (consumed req new_id now d) d.
Proof.
  unfold Consume. destruct (negb _) eqn:Elen; [by apply always_mfail|].
  apply always_mbind, always_mlift. destruct (hashToken _) as [hash|e] eqn:Eh; [|done].
  apply always_mtx; [done|]. apply always_mbind, always_mquery; [done|].
  destruct (select_one _ _) as [[tid t]|] eqn:Et; [|by apply always_mfail].
  apply select_one_Some in Et as [Ht Hh]. unfold has_hash in Hh. reflect_bools.
  destruct (_ || _ || _) eqn:El; [by apply always_mfail|]. unfold After in El. reflect_bools.
  apply always_mbind, always_mquery; [done|].
  destruct (select_one _ _) eqn:Ei; [by apply always_mfail|].
  apply always_mbind, always_mstmt; [done|].
  destruct (devices d !! new_id) eqn:En; simpl; [done|].
  apply always_mbind, always_mexec; [done|]. apply always_mbind, always_mexec; [done|].
  apply always_mret. split; [done|]. exists hash, tid, t. rewrite select_one_None in Ei.
  destruct (et_ConsumedAt t) eqn:Ec, (et_RevokedAt t) eqn:Er; try done.
  split_and!; try done; [|by apply Nat.eqb_eq].
  intros i x Hx Hne. specialize (Ei i x Hx). simpl in Ei. reflect_bools. done.
Qed.

(** ** What happens to tokens *)

Record tokens_ok (d : dev_db) : Prop := {
  tok_unique : ∀ i j a b, enrollment_tokens d !! i = Some a → enrollment_tokens d !! j = Some b →
    et_TokenHash a = et_TokenHash b → i = j;
  tok_reusable : ∀ i a, enrollment_tokens d !! i = Some a → et_IsReusable a = true →
    et_ConsumedAt a = None }.

Definition tok_le (t t' : EnrollmentToken) : Prop :=
  et_TokenHash t' = et_TokenHash t ∧ et_IsReusable t' = et_IsReusable t ∧
  et_ExpiresAt t' = et_ExpiresAt t ∧
  (et_ConsumedAt t ≠ None → et_ConsumedAt t' ≠ None) ∧
  (et_RevokedAt t ≠ None → et_RevokedAt t' ≠ None) ∧
  (et_IsReusable t = true → et_ConsumedAt t = None → et_ConsumedAt t' = None).

Definition tok_rel (d d' : dev_db) : Prop :=
  (tokens_ok d → tokens_ok d') ∧
  ∀ i t, enrollment_tokens d !! i = Some t → ∃ t', enrollment_tokens d' !! i = Some t' ∧ tok_le t t'.

Lemma tok_le_trans t1 t2 t3 : tok_le t1 t2 → tok_le t2 t3 → tok_le t1 t3.
Proof.
  intros (A1 & A2 & A3 & A4 & A5 & A6) (B1 & B2 & B3 & B4 & B5 & B6).
  split_and!; try congruence; try tauto. intros Hr Hc. apply B6; [congruence|auto].
Qed.
#[export] Instance tok_rel_preorder : PreOrder tok_rel.
Proof.
  split.
  - intros d. split; [done|]. intros i t Ht. exists t. by split_and!.
  - intros d1 d2 d3 [I12 R12] [I23 R23]. split; [tauto|]. intros i t Ht.
    destruct (R12 i t Ht) as (t2 & Ht2 & L2). destruct (R23 i t2 Ht2) as (t3 & Ht3 & L3).
    exists t3. split; [done|]. by eapply tok_le_trans.
Qed.

(** A statement that rewrites token rows one for one. *)
Lemma tok_rel_pointwise d d' :
  (∀ i, enrollment_tokens d !! i = None → enrollment_tokens d' !! i = None) →
  (∀ i t, enrollment_tokens d !! i = Some t →
     ∃ t', enrollment_tokens d' !! i = Some t' ∧ tok_le t t') → tok_rel d d'.
Proof.
  intros Hnone Hsome. split; [|done]. intros [U R].
  assert (∀ i a', enrollment_tokens d' !! i = Some a' →
    ∃ a, enrollment_tokens d !! i = Some a ∧ tok_le a a') as Hback.
  { intros i a' Ha'. destruct (enrollment_tokens d !! i) as [a|] eqn:Ea.
    - destruct (Hsome i a Ea) as (a2 & Ha2 & L). exists a. split; [done|]. congruence.
    - rewrite (Hnone i Ea) in Ha'. done. }
  split.
  - intros i j a' b' Ha' Hb' E. destruct (Hback i a' Ha') as (a & Ha & La & _).
    destruct (Hback j b' Hb') as (b & Hb & Lb & _). apply (U i j a b); congruence.
  - intros i a' Ha' Hr. destruct (Hback i a' Ha') as (a & Ha & _ & E & _ & _ & _ & L).
    apply L; [congruence|]. apply (R i a); congruence.
Qed.

Lemma tok_rel_same d d' : enrollment_tokens d' = enrollment_tokens d → tok_rel d d'.
Proof.
  intros E. apply tok_rel_pointwise; intros i; rewrite E; [done|]. intros t Ht.
  exists t. by split_and!.
Qed.

Lemma tok_rel_update d p f :
  (∀ i t, p i t = true → tok_le t (f t)) → tok_rel d (on_tokens (update_where p f) d).
Proof.
  intros Hf. apply tok_rel_pointwise; intros i; simpl; rewrite lookup_update_where.
  - by intros ->.
  - intros t ->. simpl. eexists. split; [done|]. destruct (p i t) eqn:E; [by eapply Hf|].
    by split_and!.
Qed.

(** ** The registry as a transition system *)

(** Every operation on devices and enrolment tokens, with any input and any
    faults; operations on the other tables are the last case. *)
Inductive registry_step : dev_db → dev_db → Prop :=
| rs_create p rnd id now d d' : effect (Create p rnd id now) d d' → registry_step d d'
| rs_revoke_token id now d d' : effect (RevokeToken id now) d d' → registry_step d d'
| rs_revoke_tokens now d d' : effect (RevokeAllOutstanding now) d d' → registry_step d d'
| rs_consume req id now d d' : effect (Consume req id now) d d' → registry_step d d'
| rs_patch id i d d' : effect (Patch id i) d d' → registry_step d d'
| rs_connectivity id st ip now d d' : effect (UpdateConnectivity id st ip now) d d' → registry_step d d'
| rs_status id st d d' : effect (UpdateStatusOnly id st) d d' → registry_step d d'
| rs_health id h rs d d' : effect (UpdateHealth id h rs) d d' → registry_step d d'
| rs_inventory id h f n v a g d d' : effect (ApplyInventory id h f n v a g) d d' → registry_step d d'
| rs_transport id b d d' : effect (UpdateTransportSecurity id b) d d' → registry_step d d'
| rs_revoke id now d d' : effect (Device.Revoke id now) d d' → registry_step d d'
| rs_delete id d d' : effect (Delete id) d d' → registry_step d d'
| rs_other d d' : devices d' = devices d → credentials d' = credentials d →
    enrollment_tokens d' = enrollment_tokens d → registry_step d d'.

Definition reg_rel (d d' : dev_db) : Prop := dev_rel d d' ∧ tok_rel d d'.
#[export] Instance reg_rel_preorder : PreOrder reg_rel.
Proof.
  split; [intros d; split; reflexivity|]. intros d1 d2 d3 [A B] [C D]. split; by etrans.
Qed.

Lemma Create_reg p rnd id now : preserves reg_rel (Create p rnd id now).
Proof.
  unfold Create. preserve_step; [preserve_steps|]. destruct a as [token hash].
  apply preserves_mstmt; [apply _|]. intros d. destruct (_ && _) eqn:E; simpl; [|reflexivity].
  reflect_bools. split; [by apply dev_rel_same|]. destruct (enrollment_tokens d !! id) eqn:Ei; [done|].
  destruct (select_one _ _) eqn:Es; [done|]. rewrite select_one_None in Es.
  assert (∀ i t, enrollment_tokens d !! i = Some t → et_TokenHash t ≠ hash) as Hfresh.
  { intros i t Ht Eh. specialize (Es i t Ht). unfold has_hash in Es. by reflect_bools. }
  split.
  - intros [U R]. split.
    + intros i j a b. simpl. rewrite !lookup_insert. intros Ha Hb Eab.
      repeat case_decide; simplify_eq/=; try done; [..|by eauto]; exfalso; by eapply Hfresh.
    + intros i a. simpl. rewrite lookup_insert. case_decide; intros; simplify_eq/=; eauto.
  - intros i t Ht. exists t. simpl. rewrite lookup_insert_ne by congruence. by split_and!.
Qed.

Lemma revoke_tokens_rel p now d : reg_rel d (on_tokens (update_where p (revoke_token now)) d).
Proof. split; [by apply dev_rel_same|]. apply tok_rel_update. intros i t _. by split_and!. Qed.

Lemma Consume_reg req id now : preserves reg_rel (Consume req id now).
Proof.
  intros d. eapply always_mono; [apply Consume_always|]. intros [i|e] d'; [|by intros ->].
  intros (hash & tid & t & -> & Eh & Ht & Hh & (Lc & Lr & Le) & Hinst & Hid & Hpk & ->). split.
  - split.
    + intros [I1 I2 I3]. split.
      * intros c Hc. simpl in *. apply elem_of_app in Hc as [Hc|Hc].
        -- destruct (I1 c Hc) as [x Hx]. rewrite lookup_insert_ne; [eauto|congruence].
        -- apply list_elem_of_singleton in Hc as ->. simpl. rewrite lookup_insert_eq. eauto.
      * intros a b x y. simpl. rewrite !lookup_insert. intros Hx Hy E.
        destruct (decide (id = a)) as [<-|], (decide (id = b)) as [<-|]; [done|..|by eauto].
        -- injection Hx as <-. destruct (Hinst b y Hy). by symmetry.
        -- injection Hy as <-. by destruct (Hinst a x Hx).
      * intros c x Hc Hx Hr. simpl in *. apply elem_of_app in Hc as [Hc|Hc].
        -- rewrite lookup_insert_ne in Hx; [eauto|]. destruct (I1 c Hc) as [y Hy]. congruence.
        -- apply list_elem_of_singleton in Hc as ->. simpl in Hx. rewrite lookup_insert_eq in Hx.
           by simplify_eq.
    + intros i x Hx. left. exists x. simpl. rewrite lookup_insert_ne by congruence. done.
  - apply tok_rel_pointwise; intros i; simpl; rewrite lookup_update_id.
    + intros ->. by case_decide.
    + intros t' Ht'. rewrite Ht'. case_decide; [|exists t'; by split_and!]. subst.
      assert (t' = t) as -> by congruence. exists (use_token id now t). split; [done|].
      unfold use_token. destruct (et_IsReusable t) eqn:Ere; split_and!; simpl; done || congruence.
Qed.

(** An operation that writes no token row. *)
Lemma device_op_reg {E A} (m : M dev_db E A) :
  preserves dev_rel m → (∀ d, always m (λ _ d', tok_rel d d') d) → preserves reg_rel m.
Proof. intros Hd Ht d. apply always_and; [apply Hd|apply Ht]. Qed.
Lemma tokens_untouched {E} (e : E) (f : dev_db → dev_db) :
  (∀ d, enrollment_tokens (f d) = enrollment_tokens d) →
  ∀ d, always (mexec e f) (λ _ d', tok_rel d d') d.
Proof. intros Hf d. apply always_mexec; apply tok_rel_same; [done|apply Hf]. Qed.

Lemma cascade_tok id d : tok_rel d (cascade id d).
Proof.
  apply tok_rel_pointwise; intros i; simpl; rewrite lookup_fmap; [by intros ->|].
  intros t ->. simpl. eexists. split; [done|]. destruct (bool_decide _); by split_and!.
Qed.

Lemma registry_step_rel d d' : registry_step d d' → reg_rel d d'.
Proof.
  intros Hs. destruct Hs as [p rnd id now d d' E|id now d d' E|now d d' E|req id now d d' E
    |id i d d' E|id st ip now d d' E|id st d d' E|id h rs d d' E|id h f n v a g d d' E|id b d d' E
    |id now d d' E|id d d' E|d d' E1 E2 E3]; [revert E; apply effect_always..|].
  - apply Create_reg.
  - apply always_mbind, always_mstmt; [reflexivity|]. simpl.
    eapply always_mono with (P := λ _ d', d' = _); [by case_match; [apply always_mfail|apply always_mret]|].
    intros _ d2 ->. apply revoke_tokens_rel.
  - apply always_mstmt; [reflexivity|]. apply revoke_tokens_rel.
  - apply Consume_reg.
  - apply device_op_reg; [apply Patch_rel|]. clear. intros d. apply always_mbind, always_mstmt.
    { by apply tok_rel_same. }
    simpl. case_match; [apply always_mfail|apply always_mret]; by apply tok_rel_same.
  - apply device_op_reg; [apply UpdateConnectivity_rel|by apply tokens_untouched].
  - apply device_op_reg; [apply UpdateStatusOnly_rel|by apply tokens_untouched].
  - apply device_op_reg; [apply UpdateHealth_rel|by apply tokens_untouched].
  - apply device_op_reg; [apply ApplyInventory_rel|by apply tokens_untouched].
  - apply device_op_reg; [apply UpdateTransportSecurity_rel|by apply tokens_untouched].
  - apply device_op_reg; [apply RevokeDevice_rel|]. clear. intros d. apply always_mtx.
    { by apply tok_rel_same. }
    apply always_mbind, always_mexec; [by apply tok_rel_same|].
    apply always_mexec; [by apply tok_rel_same|]. split; by apply tok_rel_same.
  - apply device_op_reg; [apply Delete_rel|]. clear. intros d. apply always_mbind, always_mstmt.
    { by apply tok_rel_same. }
    destruct (devices d !! id) as [x|]; [destruct (is_null _)|]; simpl.
    + apply always_mret, cascade_tok.
    + unfold GetByID. always_steps; by apply tok_rel_same.
    + unfold GetByID. always_steps; by apply tok_rel_same.
  - split; [by apply dev_rel_same|by apply tok_rel_same].
Qed.

Lemma registry_reachable_rel d d' : reachable (eq d) registry_step d' → reg_rel d d'.
Proof.
  revert d'. apply invariant_reachable; [by intros ? <-|].
  intros s s' Hs Hst. etrans; [exact Hs|]. by apply registry_step_rel.
Qed.

(** ** Properties *)

(** C6: enrolment is all or nothing: whatever database statement fails,
    [Consume] either changes nothing, or it has found a live token with the
    hash of the one presented, an installation not known yet and a 32-byte
    key, and has created exactly one device with exactly that credential and
    marked the token used. *)
Theorem enrollment_atomic req new_id now d fs :
  let '(r, w) := Consume req new_id now (World d fs) in
  match r with
  | Ok id =>
      ∃ hash tokenID t, id = new_id ∧ hashToken (er_Token req) = Ok hash ∧
        enrollment_tokens d !! tokenID = Some t ∧ et_TokenHash t = hash ∧ token_live now t ∧
        (∀ i x, devices d !! i = Some x → dv_InstallID x ≠ er_InstallID req) ∧
        devices d !! new_id = None ∧ length (er_PublicKey req) = 32 ∧
        w_db w = enrolled req new_id tokenID t now d
  | Err _ => w_db w = d
  end.
Proof. exact (Consume_always req new_id now d fs). Qed.

(** A token that is used up or revoked stays dead in every state the registry
    gets to. *)
Lemma dead_token_rel d d' tid t req id now fs :
  tokens_ok d → enrollment_tokens d !! tid = Some t → et_ConsumedAt t ≠ None ∨ et_RevokedAt t ≠ None →
  hashToken (er_Token req) = Ok (et_TokenHash t) → tok_rel d d' →
  is_ok (Consume req id now (World d' fs)).1 = false.
Proof.
  intros Hok Ht Hdead Hh [Hok2 Hle].
  destruct (Hok2 Hok) as [U2 _]. destruct (Hle _ _ Ht) as (t2 & Ht2 & Hhash & _ & _ & Hcons & Hrev2 & _).
  pose proof (Consume_always req id now d' fs) as H3.
  destruct (Consume req id now (World d' fs)) as [[i|e] w3]; [|done].
  destruct H3 as (hash3 & tid3 & t3 & _ & Eh3 & Ht3 & Hh3 & (Lc & Lr & _) & _). exfalso.
  assert (tid3 = tid) as -> by (apply (U2 tid3 tid t3 t2); congruence).
  assert (t3 = t2) as -> by congruence. destruct Hdead as [Hd|Hd]; [by apply Hcons in Hd|by apply Hrev2 in Hd].
Qed.

(** A single-use token enrols one device: once a non-reusable token has
    been consumed, no later attempt with any token of the same hash succeeds,
    whatever else happens to devices and tokens in between. *)
Theorem enrollment_single_use req id now d fs w d' req' id' now' fs' tid t :
  tokens_ok d → Consume req id now (World d fs) = (Ok id, w) →
  enrollment_tokens d !! tid = Some t → hashToken (er_Token req) = Ok (et_TokenHash t) →
  et_IsReusable t = false → reachable (eq (w_db w)) registry_step d' →
  hashToken (er_Token req') = hashToken (er_Token req) →
  is_ok (Consume req' id' now' (World d' fs')).1 = false.
Proof.
  intros Hok Hc Ht Hh Hre Hr Hh'. pose proof (Consume_always req id now d fs) as H1.
  pose proof (Consume_reg req id now d fs) as H2. rewrite Hc in H1, H2.
  destruct H1 as (hash & tid1 & t1 & _ & Eh & Ht1 & Hh1 & _ & _ & _ & _ & Ew).
  destruct H2 as [_ [Hok1 _]]. specialize (Hok1 Hok). destruct Hok as [U _].
  assert (tid1 = tid) as -> by (apply (U tid1 tid t1 t); congruence).
  assert (t1 = t) as -> by congruence.
  assert (enrollment_tokens (w_db w) !! tid = Some (use_token id now t)) as Hu.
  { rewrite Ew. simpl. by rewrite lookup_update_id, decide_True, Ht. }
  eapply dead_token_rel; [exact Hok1|exact Hu| | |apply (registry_reachable_rel _ _ Hr)].
  - left. unfold use_token. by rewrite Hre.
  - rewrite Hh', Hh. unfold use_token. by destruct (et_IsReusable t).
Qed.

(** A revoked enrolment token never enrols a device again, single-use or
    reusable, and neither does one revoked by the global revocation. *)
Theorem revoked_token_dead d d' tid t req id now fs :
  tokens_ok d → enrollment_tokens d !! tid = Some t → et_RevokedAt t ≠ None →
  hashToken (er_Token req) = Ok (et_TokenHash t) → reachable (eq d) registry_step d' →
  is_ok (Consume req id now (World d' fs)).1 = false.
Proof.
  intros Hok Ht Hrev Hh Hr. eapply dead_token_rel; [done..|by right|done|apply (registry_reachable_rel _ _ Hr)].
Qed.

Lemma RevokeAllOutstanding_effect d now :
  ∀ tid t, enrollment_tokens (run (RevokeAllOutstanding now) d).2 !! tid = Some t →
    et_ConsumedAt t ≠ None ∨ et_RevokedAt t ≠ None.
Proof.
  intros tid t. unfold run, RevokeAllOutstanding, mstmt. simpl. rewrite lookup_update_where.
  destruct (enrollment_tokens d !! tid) as [t0|]; [|done]. simpl. intros [= <-].
  unfold open_token. destruct (et_ConsumedAt t0) eqn:Ec, (et_RevokedAt t0) eqn:Er; simpl;
    rewrite ?Ec, ?Er; auto.
Qed.

Lemma revoked_device_rel d d' id x now fs :
  dev_inv d → devices d !! id = Some x → dv_CredentialStatus x = CredRevoked → dv_LastSeenAt x ≠ None → dev_rel d d' →
  (∃ x', devices d' !! id = Some x' ∧ dv_CredentialStatus x' = CredRevoked) ∧
  is_ok (ActiveCredentialPublicKey id now (World d' fs)).1 = false.
Proof.
  intros Hinv Hx Hr Hseen [Hinv' Hrows].
  destruct (Hrows id x Hx) as [(x' & Hx' & _ & Hr' & _)|]; [|done]. specialize (Hr' Hr).
  split; [by exists x'|]. destruct (Hinv' Hinv) as [_ _ I3].
  assert (filter (λ c, usable id now c = true) (credentials d') = []) as Hnone.
  { apply elem_of_nil_inv. intros c Hc. apply list_elem_of_filter in Hc as [Hu Hc].
    unfold usable in Hu. reflect_bools. subst id. destruct (cr_RevokedAt c) eqn:Ec; [done|].
    by apply (I3 c x' Hc Hx' Hr'). }
  assert (always (ActiveCredentialPublicKey id now) (λ r _, is_ok r = false) d') as Ha.
  { unfold ActiveCredentialPublicKey. apply always_mbind, always_mquery; [done|].
    rewrite Hnone. by apply always_mfail. }
  specialize (Ha fs). by destruct (ActiveCredentialPublicKey _ _ _).
Qed.

(** A device whose credential is revoked, and which has ever connected,
    is locked out for good: in every later state of the registry it is still
    there, still revoked, and has no key the control channel would accept. *)
Theorem revoked_device_locked_out d d' id x now fs :
  dev_inv d → devices d !! id = Some x → dv_CredentialStatus x = CredRevoked →
  dv_LastSeenAt x ≠ None → reachable (eq d) registry_step d' →
  (∃ x', devices d' !! id = Some x' ∧ dv_CredentialStatus x' = CredRevoked) ∧
  is_ok (ActiveCredentialPublicKey id now (World d' fs)).1 = false.
Proof.
  intros Hinv Hx Hr Hseen Hreach. by eapply revoked_device_rel; [..|apply (registry_reachable_rel _ _ Hreach)].
Qed.

(** The token shown to the administrator is the token [Consume] looks
    up: decoding what [generateToken] printed gives back the stored hash. *)
Theorem enrollment_token_roundtrip raw token hash :
  raw ≠ [] → generateToken (Some raw) = Ok (token, hash) → hashToken token = Ok hash.
Proof.
  intros Hne [= <- <-]. unfold hashToken.
  set (enc := raw_encode url_alphabet raw).
  assert (0 < String.length enc) as Hlen by by apply raw_encode_pos.
  assert (String.length (token_prefix +:+ enc) = 10 + String.length enc) as El by reflexivity.
  rewrite El. change (String.length token_prefix) with 10.
  rewrite (proj2 (Nat.leb_gt _ _)) by lia.
  replace (substring 0 10 (token_prefix +:+ enc)) with token_prefix
    by (simpl; by destruct enc).
  rewrite String.eqb_refl. cbn [orb negb].
  replace (10 + String.length enc - 10) with (String.length enc) by lia.
  replace (substring 10 (String.length enc) (token_prefix +:+ enc)) with enc
    by (simpl; symmetry; apply substring_all).
  unfold enc. by rewrite (raw_decode_encode _ _ url_alphabet_good).
Qed.

(** What the dashboard lists as outstanding works: in a fault-free run,
    a listed token enrols any new installation with a well-formed key, and
    the new device authenticates with exactly that key. *)
Theorem listed_token_enrolls d tid t req new_id now :
  tokens_ok d → dev_inv d → enrollment_tokens d !! tid = Some t → listed now t = true →
  hashToken (er_Token req) = Ok (et_TokenHash t) → length (er_PublicKey req) = 32 →
  (∀ i x, devices d !! i = Some x → dv_InstallID x ≠ er_InstallID req) →
  devices d !! new_id = None →
  ∃ d', run (Consume req new_id now) d = (Ok new_id, d') ∧
    run (ActiveCredentialPublicKey new_id now) d' = (Ok (er_PublicKey req), d').
Proof.
  intros [U R] Hinv Ht Hl Hh Hpk Hinst Hid. unfold listed, After in Hl. reflect_bools.
  exists (enrolled req new_id tid t now d). split.
  - unfold Consume. rewrite Hpk, Hh. run_unfold. simpl.
    rewrite (select_one_unique (has_hash (et_TokenHash t)) (enrollment_tokens d) tid t Ht);
      [|by apply bool_decide_eq_true_2|].
    2:{ intros k r Hk Hkr. unfold has_hash in Hkr. reflect_bools. by apply (U k tid r t). }
    simpl. destruct (et_RevokedAt t); [done|].
    assert (et_ConsumedAt t = None) as ->.
    { destruct (et_IsReusable t) eqn:Er; [by apply (R tid t)|]. simpl in *.
      by destruct (et_ConsumedAt t). }
    simpl. unfold After. rewrite (proj2 (Z.ltb_ge _ _)) by lia. simpl.
    rewrite (proj2 (select_one_None _ _)).
    2:{ intros k x Hx. simpl. apply N.eqb_neq. by apply (Hinst k). }
    simpl. rewrite Hid. done.
  - destruct Hinv as [I1 _ _].
    assert (filter (λ c, usable new_id now c = true) (credentials d) = []) as Hnone.
    { apply elem_of_nil_inv. intros c Hc. apply list_elem_of_filter in Hc as [Hu Hc].
      unfold usable in Hu. reflect_bools. subst. destruct (I1 c Hc) as [x Hx]. congruence. }
    unfold run, ActiveCredentialPublicKey, mbind, M_bind, mquery, mstmt. simpl.
    rewrite list.filter_app, Hnone. simpl. rewrite filter_cons_True; [done|].
    unfold usable. simpl. by rewrite N.eqb_refl.
Qed.
End consume.

(** ** A concrete registry *)

Lemma registry_inv `{UuidText} d :
  reachable (eq empty_dev_db) registry_step d → dev_inv d ∧ tokens_ok d.
Proof.
  intros Hr. destruct (registry_reachable_rel _ _ Hr) as [[Hd _] [Ht _]]. split.
  - apply Hd. split; intros *; simpl; rewrite ?lookup_empty; try done. intros Hc. by apply elem_of_nil in Hc.
  - apply Ht. split; intros *; simpl; by rewrite lookup_empty.
Qed.

Definition demo_ids : UuidText := {| uuid_string _ := "id"; uuid_parse _ := None |}.
Definition demo_raw : bytes := replicate 32 "t"%char.
Definition demo_token : string := token_prefix +:+ raw_encode url_alphabet demo_raw.
Definition demo_params (reusable : bool) : CreateParams :=
  mkCreateParams None None "office" (2 * Hour) [] 1 reusable.
Definition demo_created : dev_db :=
  (run (Create (demo_params false) (Some demo_raw) 10 0) empty_dev_db).2.
Definition demo_enroll (install : uuid) : AgentEnrollRequest :=
  mkEnrollRequest demo_token install (replicate 32 "p"%char) "0.2.0" "host".
Definition demo_tok : EnrollmentToken :=
  mkToken (Sum256 demo_raw) None None (Some "office"%string) [] (Some 1%N) 0 (2 * Hour)
    None None None false 0 None.

Lemma demo_created_reachable : @reachable dev_db (eq empty_dev_db) (@registry_step demo_ids) demo_created.
Proof. eapply reach_step; [by apply reach_init|]. eapply rs_create, effect_run. Qed.
Lemma demo_token_hash : hashToken demo_token = Ok (Sum256 demo_raw).
Proof. vm_compute. reflexivity. Qed.
Lemma demo_created_lookup : enrollment_tokens demo_created !! 10%N = Some demo_tok.
Proof. vm_compute. reflexivity. Qed.

Definition demo_enrolled : res enroll_error uuid * world dev_db :=
  @Consume demo_ids (demo_enroll 7) 20 5 (World demo_created []).
Lemma demo_enrolled_ok : demo_enrolled = (Ok 20%N, demo_enrolled.2).
Proof. vm_compute. reflexivity. Qed.

Lemma enrollment_single_use_witness :
  is_ok (@Consume demo_ids (demo_enroll 8) 21 6 (World (w_db demo_enrolled.2) [])).1 = false.
Proof.
  apply (@enrollment_single_use demo_ids (demo_enroll 7) 20 5 demo_created [] demo_enrolled.2
    (w_db demo_enrolled.2) (demo_enroll 8) 21 6 [] 10 demo_tok).
  - apply (@registry_inv demo_ids), demo_created_reachable.
  - exact demo_enrolled_ok.
  - exact demo_created_lookup.
  - exact demo_token_hash.
  - reflexivity.
  - by apply reach_init.
  - reflexivity.
Defined.

Definition demo_revoked : dev_db := (run (RevokeToken 10 3) demo_created).2.
Lemma demo_revoked_reachable : @reachable dev_db (eq empty_dev_db) (@registry_step demo_ids) demo_revoked.
Proof. eapply reach_step; [apply demo_created_reachable|]. eapply rs_revoke_token, effect_run. Qed.
Lemma revoked_token_dead_witness :
  is_ok (@Consume demo_ids (demo_enroll 8) 21 6 (World demo_revoked [])).1 = false.
Proof.
  apply (@revoked_token_dead demo_ids demo_revoked demo_revoked 10 (revoke_token 3 demo_tok)
    (demo_enroll 8) 21 6 []).
  - apply (@registry_inv demo_ids), demo_revoked_reachable.
  - vm_compute. reflexivity.
  - done.
  - exact demo_token_hash.
  - by apply reach_init.
Defined.

Lemma enrollment_token_roundtrip_witness : hashToken demo_token = Ok (Sum256 demo_raw).
Proof. apply (enrollment_token_roundtrip demo_raw); [done|reflexivity]. Defined.

Lemma listed_token_enrolls_witness :
  ∃ d', run (@Consume demo_ids (demo_enroll 7) 20 5) demo_created = (Ok 20%N, d') ∧
    run (ActiveCredentialPublicKey 20 5) d' = (Ok (replicate 32 "p"%char), d').
Proof.
  apply (@listed_token_enrolls demo_ids demo_created 10 demo_tok (demo_enroll 7) 20 5).
  - apply (@registry_inv demo_ids), demo_created_reachable.
  - apply (@registry_inv demo_ids), demo_created_reachable.
  - exact demo_created_lookup.
  - vm_compute. reflexivity.
  - exact demo_token_hash.
  - reflexivity.
  - intros i x Hx. vm_compute in Hx. done.
  - vm_compute. reflexivity.
Defined.

(** Device 20 enrolled, connected once, then revoked. *)
Definition demo_online : dev_db :=
  (run (UpdateConnectivity 20 StatusOnline "198.51.100.7" 6) (w_db demo_enrolled.2)).2.
Definition demo_locked : dev_db := (run (Device.Revoke 20 9) demo_online).2.
Lemma demo_locked_reachable : @reachable dev_db (eq empty_dev_db) (@registry_step demo_ids) demo_locked.
Proof.
  eapply reach_step; [eapply reach_step; [eapply reach_step; [apply demo_created_reachable|]|]|].
  - eapply rs_consume with (req := demo_enroll 7) (id := 20%N) (now := 5%Z). by exists [].
  - eapply rs_connectivity, effect_run.
  - eapply rs_revoke, effect_run.
Qed.
Lemma revoked_device_locked_out_witness :
  is_ok (ActiveCredentialPublicKey 20 10 (World demo_locked [])).1 = false.
Proof.
  edestruct (@revoked_device_locked_out demo_ids demo_locked demo_locked 20) as [_ H].
  - apply (@registry_inv demo_ids), demo_locked_reachable.
  - vm_compute. reflexivity.
  - reflexivity.
  - done.
  - by apply reach_init.
  - exact H.
Defined.
