(* ===== verification/AuditLog.v ===== *)
(** The audit log ([internal/audit/audit.go]): append-only records linked by
    a SHA-256 hash chain, its verification, and the listing query. *)
From S2P Require Import Prelude Sha256.

(** ** [time.RFC3339Nano] in UTC *)

Definition digit (n : Z) : byte := byte_of (Z.to_N (48 + n mod 10)).
(** [n] with at least [w] digits, zero-padded. *)
Fixpoint digits (w : nat) (n : Z) : bytes :=
  match w with O => [] | S w' => digits w' (n / 10) ++ [digit n] end.

(** Gregorian date of a day number counted from 1970-01-01. *)
Definition civil (z : Z) : Z * Z * Z :=
  let z := (z + 719468)%Z in
  let era := (z / 146097)%Z in
  let doe := (z - era * 146097)%Z in
  let yoe := ((doe - doe / 1460 + doe / 36524 - doe / 146096) / 365)%Z in
  let doy := (doe - (365 * yoe + yoe / 4 - yoe / 100))%Z in
  let mp := ((5 * doy + 2) / 153)%Z in
  let d := (doy - (153 * mp + 2) / 5 + 1)%Z in
  let m := (if mp <? 10 then mp + 3 else mp - 9)%Z in
  let y := (yoe + era * 400 + (if m <=? 2 then 1 else 0))%Z in
  (y, m, d).

Fixpoint trim_zeros (r : bytes) : bytes :=
  match r with
  | c :: r' => if decide (c = "0"%char) then trim_zeros r' else r
  | [] => []
  end.
Definition fraction (ns : Z) : bytes :=
  match rev (trim_zeros (rev (digits 9 ns))) with [] => [] | ds => "."%char :: ds end.

Definition RFC3339Nano (t : time) : bytes :=
  let day := (t / (24 * Hour))%Z in
  let rem := (t mod (24 * Hour))%Z in
  let '(y, m, d) := civil day in
  digits 4 y ++ ["-"%char] ++ digits 2 m ++ ["-"%char] ++ digits 2 d ++ ["T"%char] ++
  digits 2 (rem / Hour) ++ [":"%char] ++ digits 2 (rem / Minute mod 60) ++ [":"%char] ++
  digits 2 (rem / Second mod 60) ++ fraction (rem mod Second) ++ ["Z"%char].

Example RFC3339Nano_1 :
  bytes_str (RFC3339Nano (1700000000 * Second + 120000)) = "2023-11-14T22:13:20.00012Z"%string.
Proof. vm_compute. reflexivity. Qed.
Example RFC3339Nano_2 : bytes_str (RFC3339Nano (951782400 * Second)) = "2000-02-29T00:00:00Z"%string.
Proof. vm_compute. reflexivity. Qed.

(** ** Rows and events *)

Inductive audit_error : Type := ErrAuditJSON | ErrAuditDB.

(* internal/audit/audit.go:86-98 Event *)
Record Event : Type := mkEvent {
  ev_ActorType : string;
  ev_ActorID : option uuid;
  ev_SessionID : option uuid;
  ev_DeviceID : option uuid;
  ev_CustomerID : option uuid;
  ev_EventType : string;
  ev_Result : string;
  ev_SourceIP : string;
  ev_RequestID : option uuid;
  (** [json.Marshal] of the metadata map, [None] where it fails. *)
  ev_Metadata : option bytes }.

(* internal/audit/audit.go:188-203 chainableFields *)
Record chainableFields : Type := mkFields {
  cf_OccurredAt : time;
  cf_ActorType : string;
  cf_ActorID : option uuid;
  cf_SessionID : option uuid;
  cf_DeviceID : option uuid;
  cf_CustomerID : option uuid;
  cf_EventType : string;
  cf_Result : string;
  cf_SourceIP : string;
  cf_RequestID : option uuid;
  cf_MetadataJSON : bytes }.

(** A row of [audit_log]; a [NULL] hash column is the empty byte string, which
    is what Go reads it as. *)
Record AuditRow : Type := mkAuditRow {
  ar_ID : Z;
  ar_Fields : chainableFields;
  ar_PrevHash : bytes;
  ar_EntryHash : bytes }.

(** Rows in [id] order. *)
Abbreviation audit_db := (list AuditRow).
Abbreviation AuditM := (M audit_db audit_error).

Section audit.
Context `{UuidText}.
(** What a value becomes when it is written to the [inet] and [jsonb] columns
    and read back, [None] where PostgreSQL rejects it: [host(source_ip)], and
    the metadata re-marshalled by [encoding/json]. *)
Context (inet : string → option string) (jsonb : bytes → option bytes).

(* internal/audit/audit.go:205-209 writeUUIDPtr *)
Definition writeUUIDPtr (id : option uuid) : bytes :=
  match id with Some u => str_bytes (uuid_string u) | None => [] end.

(** What [computeEntryHash] writes into the hash. *)
Definition entry_bytes (prevHash : bytes) (f : chainableFields) : bytes :=
  prevHash ++ RFC3339Nano (cf_OccurredAt f) ++ str_bytes (cf_ActorType f) ++
  writeUUIDPtr (cf_ActorID f) ++ writeUUIDPtr (cf_SessionID f) ++ writeUUIDPtr (cf_DeviceID f) ++
  writeUUIDPtr (cf_CustomerID f) ++ str_bytes (cf_EventType f) ++ str_bytes (cf_Result f) ++
  str_bytes (cf_SourceIP f) ++ writeUUIDPtr (cf_RequestID f) ++ cf_MetadataJSON f.

(* internal/audit/audit.go:211-226 computeEntryHash *)
Definition computeEntryHash (prevHash : bytes) (f : chainableFields) : bytes :=
  Sum256 (entry_bytes prevHash f).

Definition fields_of (ev : Event) (occurredAt : time) (meta : bytes) : chainableFields :=
  mkFields occurredAt (ev_ActorType ev) (ev_ActorID ev) (ev_SessionID ev) (ev_DeviceID ev)
    (ev_CustomerID ev) (ev_EventType ev) (ev_Result ev) (ev_SourceIP ev) (ev_RequestID ev) meta.

(** The row as the columns store it, or [None] where the insert is rejected. *)
Definition stored (f : chainableFields) : option chainableFields :=
  ip ← (if String.eqb (cf_SourceIP f) "" then Some ""%string else inet (cf_SourceIP f));
  meta ← jsonb (cf_MetadataJSON f);
  Some (mkFields (cf_OccurredAt f) (cf_ActorType f) (cf_ActorID f) (cf_SessionID f) (cf_DeviceID f)
          (cf_CustomerID f) (cf_EventType f) (cf_Result f) ip (cf_RequestID f) meta).

(** [next_id] is the value the sequence hands out: above every id so far. *)
(* internal/audit/audit.go:115-186 Record *)
Definition Record_ (ev : Event) (next_id : Z) (now : time) : AuditM unit :=
  match ev_Metadata ev with
  | None => mfail ErrAuditJSON
  | Some metaJSON =>
      mtx ErrAuditDB ErrAuditDB (
        mexec ErrAuditDB (λ d, d);;
        last ← mquery ErrAuditDB (λ d, list.last d);
        let prevHash := match last with Some r => ar_EntryHash r | None => [] end in
        let occurredAt := (now - now mod Microsecond)%Z in
        let f := fields_of ev occurredAt metaJSON in
        let entryHash := computeEntryHash prevHash f in
        mstmt ErrAuditDB (λ d,
          match stored f with
          | None => (Err ErrAuditDB, d)
          | Some f' =>
              if forallb (λ r, (ar_ID r <? next_id)%Z) d
              then (Ok tt, d ++ [mkAuditRow next_id f' prevHash entryHash])
              else (Err ErrAuditDB, d)
          end))
  end.

(* internal/audit/audit.go:337-347 bytesEqual *)
Fixpoint bytesEqual (a b : bytes) : bool :=
  match a, b with
  | [], [] => true
  | x :: a', y :: b' => bool_decide (x = y) && bytesEqual a' b'
  | _, _ => false
  end.

(* internal/audit/audit.go:228-243 ChainVerification *)
Record ChainVerification : Type := mkVerification {
  cv_Valid : bool;
  cv_EntriesCheck : Z;
  cv_EntriesPreChain : Z;
  cv_BrokenAtID : option Z }.

(* internal/audit/audit.go:272-334 VerifyChain *)
Fixpoint verify_rows (rows : list AuditRow) (expectedPrev : bytes) (count preChain : Z)
    (chainStarted : bool) : ChainVerification :=
  match rows with
  | [] => mkVerification true count preChain None
  | r :: rest =>
      if negb chainStarted && (length (ar_EntryHash r) =? 0) then
        verify_rows rest expectedPrev count (preChain + 1) chainStarted
      else
        let count := (count + 1)%Z in
        let recomputed := computeEntryHash expectedPrev (ar_Fields r) in
        if negb (bytesEqual (ar_PrevHash r) expectedPrev) ||
           negb (bytesEqual (ar_EntryHash r) recomputed)
        then mkVerification false count preChain (Some (ar_ID r))
        else verify_rows rest (ar_EntryHash r) count preChain true
  end.

(* internal/audit/audit.go:245-335 VerifyChain *)
Definition VerifyChain : AuditM ChainVerification :=
  mquery ErrAuditDB (λ d, verify_rows d [] 0 0 false).

(** ** Listing *)

(* internal/audit/audit.go:37-44 Filter *)
Record Filter : Type := mkAuditFilter {
  fl_ActorID : option uuid;
  fl_DeviceID : option uuid;
  fl_EventType : string;
  fl_From : option time;
  fl_To : option time;
  fl_Limit : Z }.

Definition opt_eq (want : option uuid) (have : option uuid) : bool :=
  match want with None => true | Some u => bool_decide (have = Some u) end.

(* internal/audit/audit.go:349-405 List *)
Definition List (f : Filter) (now : time) : AuditM (list AuditRow) :=
  let limit := if (fl_Limit f <=? 0)%Z || (1000 <? fl_Limit f)%Z then 200%Z else fl_Limit f in
  let to := default now (fl_To f) in
  let from := default (to - 30 * 24 * Hour)%Z (fl_From f) in
  mquery ErrAuditDB (λ d,
    take (Z.to_nat limit)
      (order_by (λ a b, (cf_OccurredAt (ar_Fields b) <=? cf_OccurredAt (ar_Fields a))%Z)
        (filter (λ r,
           (from <=? cf_OccurredAt (ar_Fields r))%Z && (cf_OccurredAt (ar_Fields r) <=? to)%Z &&
           opt_eq (fl_ActorID f) (cf_ActorID (ar_Fields r)) &&
           opt_eq (fl_DeviceID f) (cf_DeviceID (ar_Fields r)) &&
           (String.eqb (fl_EventType f) "" || String.eqb (cf_EventType (ar_Fields r)) (fl_EventType f))
           = true) d))).

(** ** The chain *)

Lemma bytesEqual_spec a b : bytesEqual a b = true ↔ a = b.
Proof.
  revert b. induction a as [|x a IH]; intros [|y b]; simpl; try done.
  rewrite andb_true_iff, IH. split.
  - intros [->%bool_decide_eq_true_1 ->]. done.
  - intros [= -> ->]. split; [by apply bool_decide_eq_true_2|done].
Qed.

(** [chained prev rows]: every row links to the one before it, starting from
    [prev], and carries the hash of its fields. *)
Fixpoint chained (prev : bytes) (rows : list AuditRow) : Prop :=
  match rows with
  | [] => True
  | r :: rest =>
      ar_PrevHash r = prev ∧ ar_EntryHash r = computeEntryHash prev (ar_Fields r) ∧
      chained (ar_EntryHash r) rest
  end.
Definition pre_chain (r : AuditRow) : Prop := ar_EntryHash r = [].

Lemma entry_hash_nonempty prev f : (length (computeEntryHash prev f) =? 0) = false.
Proof. unfold computeEntryHash. by rewrite Sum256_length. Qed.

Lemma verify_chained rows prev count pre started :
  cv_Valid (verify_rows rows prev count pre started) = true → started = true → chained prev rows.
Proof.
  revert prev count started. induction rows as [|r rows IH]; intros prev count started; simpl; [done|].
  intros Hv ->. simpl in Hv. destruct (_ || _) eqn:E; [done|]. reflect_bools.
  apply bytesEqual_spec in H0, H1. split_and!; [done..|]. by eapply IH.
Qed.

Lemma verify_pre old rows count pre prev :
  Forall pre_chain old →
  verify_rows (old ++ rows) prev count pre false =
  verify_rows rows prev count (pre + Z.of_nat (length old)) false.
Proof.
  intros Hold. revert pre. induction Hold as [|r old Hr Hold IH]; intros pre; simpl.
  { by rewrite Z.add_0_r. }
  rewrite Hr. simpl. rewrite IH. f_equal. lia.
Qed.

Lemma chained_app prev rows r :
  chained prev (rows ++ [r]) ↔
  chained prev rows ∧
    let p := match list.last rows with Some x => ar_EntryHash x | None => prev end in
    ar_PrevHash r = p ∧ ar_EntryHash r = computeEntryHash p (ar_Fields r).
Proof.
  clear inet jsonb. revert prev.
  induction rows as [|x rows IH]; intros prev; [simpl; tauto|].
  cbn [chained app]. rewrite IH. destruct rows as [|y rows]; [simpl; tauto|].
  change (list.last (x :: y :: rows)) with (list.last (y :: rows)).
  destruct (list.last (y :: rows)) eqn:E; cbv zeta; [tauto|by apply last_None in E].
Qed.

(** ** Recording *)

(** A row that [Record_] wrote after [prev]: it links to [prev] and carries the
    hash of the fields [f] it was given, which the columns may give back
    differently. *)
Definition written (prev : bytes) (r : AuditRow) : Prop :=
  ar_PrevHash r = prev ∧ ∃ f, stored f = Some (ar_Fields r) ∧ ar_EntryHash r = computeEntryHash prev f.
Fixpoint recorded (prev : bytes) (rows : list AuditRow) : Prop :=
  match rows with [] => True | r :: rest => written prev r ∧ recorded (ar_EntryHash r) rest end.
(** The columns gave back another address or other metadata than was hashed,
    and the hash of what they gave back is another. *)
Definition altered (r : AuditRow) : Prop :=
  ∃ f, stored f = Some (ar_Fields r) ∧
    (cf_SourceIP f ≠ cf_SourceIP (ar_Fields r) ∨ cf_MetadataJSON f ≠ cf_MetadataJSON (ar_Fields r)) ∧
    ar_EntryHash r = computeEntryHash (ar_PrevHash r) f ∧
    ar_EntryHash r ≠ computeEntryHash (ar_PrevHash r) (ar_Fields r).

Lemma stored_same f g :
  stored f = Some g → cf_SourceIP f = cf_SourceIP g → cf_MetadataJSON f = cf_MetadataJSON g → f = g.
Proof.
  unfold stored. intros Hs Hip Hm. destruct (if String.eqb _ _ then _ else _) as [ip|]; [|done]. simpl in Hs.
  destruct (jsonb _) as [meta|]; [|done]. injection Hs as <-. simpl in *. subst. by destruct f.
Qed.
Lemma written_altered prev r :
  written prev r → ar_EntryHash r ≠ computeEntryHash prev (ar_Fields r) → altered r.
Proof.
  intros (Hp & f & Hs & He) Hne. exists f. rewrite Hp. split_and!; try done.
  destruct (decide (cf_SourceIP f = cf_SourceIP (ar_Fields r))) as [Hip|]; [|by left].
  destruct (decide (cf_MetadataJSON f = cf_MetadataJSON (ar_Fields r))) as [Hm|]; [|by right].
  apply (stored_same f) in Hip; [|done..]. by rewrite Hip in He.
Qed.

(** Calls of [Record_], whatever fails. *)
Inductive record_step : audit_db → audit_db → Prop :=
| step_record ev id now d d' : effect (Record_ ev id now) d d' → record_step d d'.

Definition last_hash (prev : bytes) (d : audit_db) : bytes :=
  match list.last d with Some x => ar_EntryHash x | None => prev end.

Lemma Record_always ev id now d :
  always (Record_ ev id now) (λ r d',
    (d' = d ∧ r ≠ Ok tt) ∨
    ∃ row, d' = d ++ [row] ∧ r = Ok tt ∧ written (last_hash [] d) row ∧
      ar_ID row = id ∧ Forall (λ r, (ar_ID r < id)%Z) d) d.
Proof.
  unfold Record_. destruct (ev_Metadata ev) as [meta|] eqn:Em; [|by apply always_mfail; left].
  apply always_mtx; [by left|]. apply always_mbind, always_mexec; [by left|].
  apply always_mbind, always_mquery; [by left|]. apply always_mstmt; [by left|].
  destruct (stored _) as [f|] eqn:Es; [|by left]. destruct (forallb _ d) eqn:Ef; [|by left].
  split; [by left|]. right. eexists. split; [done|]. split; [done|]. split_and!; [|done|].
  - split; [done|]. by exists (fields_of ev (now - now mod Microsecond) meta).
  - apply list.Forall_forall. intros x Hx. rewrite forallb_forall in Ef.
    apply list_elem_of_In in Hx. apply Ef in Hx. by reflect_bools.
Qed.

Lemma recorded_snoc prev rows r :
  recorded prev (rows ++ [r]) ↔ recorded prev rows ∧ written (last_hash prev rows) r.
Proof.
  revert prev. induction rows as [|x rows IH]; intros prev; [simpl; tauto|].
  cbn [recorded app]. rewrite IH. unfold last_hash. destruct rows as [|y rows]; [simpl; tauto|].
  change (list.last (x :: y :: rows)) with (list.last (y :: rows)).
  destruct (list.last (y :: rows)) eqn:E; [tauto|by apply last_None in E].
Qed.

Definition log_ok (old : audit_db) (d : audit_db) : Prop :=
  ∃ rows, d = old ++ rows ∧ recorded [] rows.

Lemma last_old_hash (old rows : audit_db) :
  Forall pre_chain old → last_hash [] (old ++ rows) = last_hash [] rows.
Proof.
  intros Hold. unfold last_hash. rewrite last_app. destruct (list.last rows) eqn:E; [done|].
  destruct (list.last old) as [x|] eqn:Eo; [|done]. rewrite last_Some in Eo.
  destruct Eo as [l ->]. apply Forall_app in Hold as [_ Hx]. by inversion Hx.
Qed.

Lemma Record_log_ok old d d' : Forall pre_chain old → log_ok old d → record_step d d' → log_ok old d'.
Proof.
  intros Hold (rows & Hd & Hc) Hs. destruct Hs as [ev id now d d' He]. subst d.
  revert He. apply effect_always. eapply always_mono; [by apply Record_always|].
  intros r d1 [[-> _]|(row & -> & _ & Hw & _)]; [by exists rows|].
  exists (rows ++ [row]). split; [by rewrite app_assoc|]. apply recorded_snoc. split; [done|].
  by rewrite last_old_hash in Hw.
Qed.

(** The verdict on recorded rows: valid if none was altered, or else broken at
    the first that was. *)
Definition verdict (pre : Z) (count : Z) (rows : audit_db) (v : ChainVerification) : Prop :=
  (Forall (λ r, ¬ altered r) rows ∧ v = mkVerification true (count + Z.of_nat (length rows)) pre None) ∨
  ∃ k r, rows !! k = Some r ∧ altered r ∧ Forall (λ r, ¬ altered r) (take k rows) ∧ v = mkVerification false (count + Z.of_nat k + 1) pre (Some (ar_ID r)).

Lemma recorded_verdict rows prev count pre started :
  recorded prev rows → verdict pre count rows (verify_rows rows prev count pre started).
Proof.
  revert prev count started. induction rows as [|r rows IH]; intros prev count started.
  { intros _. left. simpl. by rewrite Z.add_0_r. }
  intros [Hw Hc]. pose proof Hw as (Hp & f & _ & He). cbn [verify_rows].
  rewrite He at 1. rewrite entry_hash_nonempty, andb_false_r, Hp, (proj2 (bytesEqual_spec _ _) eq_refl). cbn [negb orb].
  destruct (bytesEqual _ _) eqn:Eb; cbn [negb].
  - assert (¬ altered r) as Hr by (intros (g & _ & _ & _ & Hne); apply Hne; rewrite Hp; by apply bytesEqual_spec).
    destruct (IH _ (count + 1)%Z true Hc) as [[Hall ->]|(k & x & Hk & Hx & Hall & ->)].
    + left. split; [by constructor|]. f_equal; cbn [length]; lia.
    + right. exists (S k), x. split_and!; [done..|by constructor|f_equal; lia].
  - right. exists 0, r. split_and!; [done| |by constructor|f_equal; lia]. eapply written_altered; [done|].
    intros E. apply bytesEqual_spec in E. congruence.
Qed.

Lemma log_ok_verdict old d :
  Forall pre_chain old → log_ok old d →
  ∃ rows v, d = old ++ rows ∧ recorded [] rows ∧ run VerifyChain d = (Ok v, d) ∧ verdict (Z.of_nat (length old)) 0 rows v.
Proof.
  intros Hold (rows & -> & Hc). exists rows, (verify_rows (old ++ rows) [] 0 0 false). split_and!; [done..|].
  rewrite verify_pre by done. by apply recorded_verdict.
Qed.

(** Honest histories verify: starting from a log of unchained legacy
    rows, after any sequence of [Record_] calls, whatever database statements
    fail, [VerifyChain] covers exactly the rows recorded; it reports a valid
    chain, or the first record whose columns gave back something else. *)
Theorem audit_chain_verifies old d :
  Forall pre_chain old → reachable (eq old) record_step d →
  ∃ rows v, d = old ++ rows ∧ recorded [] rows ∧ run VerifyChain d = (Ok v, d) ∧ verdict (Z.of_nat (length old)) 0 rows v.
Proof.
  intros Hold Hr. apply log_ok_verdict; [done|]. revert d Hr.
  apply invariant_reachable; [intros ? <-; exists []; by rewrite app_nil_r|].
  intros s s' Hs Hst. by eapply Record_log_ok.
Qed.

(** ** What the chain commits to *)

(** Two rows at the same place that hash different bytes to the same digest. *)
Definition clash (rows rows' : audit_db) : Prop :=
  ∃ k r r', rows !! k = Some r ∧ rows' !! k = Some r' ∧
    entry_bytes (ar_PrevHash r) (ar_Fields r) ≠ entry_bytes (ar_PrevHash r') (ar_Fields r') ∧
    computeEntryHash (ar_PrevHash r) (ar_Fields r) = computeEntryHash (ar_PrevHash r') (ar_Fields r').

Lemma app_inj_len (a b x y : bytes) : length a = length b → a ++ x = b ++ y → a = b ∧ x = y.
Proof. intros Hl He. by apply app_inj_1. Qed.

Definition row_bytes (r : AuditRow) : bytes := entry_bytes (ar_PrevHash r) (ar_Fields r).

Lemma chained_last_length p (rows rows' : audit_db) :
  length rows = length rows' → chained p rows → chained p rows' →
  length (match list.last rows with Some x => ar_EntryHash x | None => p end) =
  length (match list.last rows' with Some x => ar_EntryHash x | None => p end).
Proof.
  intros Hl Hc Hc'. assert (∀ rs, chained p rs → rs ≠ [] →
    length (match list.last rs with Some x => ar_EntryHash x | None => p end) = 32) as H32.
  { intros rs. destruct rs as [|x rs _] using rev_ind; [done|]. intros (_ & _ & E)%chained_app _.
    rewrite last_snoc, E. apply Sum256_length. }
  destruct rows, rows'; [done..|]. by rewrite !H32.
Qed.

Lemma chained_binding p rows rows' :
  length rows = length rows' → chained p rows → chained p rows' →
  ar_EntryHash <$> list.last rows = ar_EntryHash <$> list.last rows' →
  row_bytes <$> rows = row_bytes <$> rows' ∨ clash rows rows'.
Proof.
  revert rows'. induction rows as [|r rows IH] using rev_ind; intros rows' Hl Hc Hc' Hlast.
  { destruct rows'; [by left|done]. }
  destruct rows' as [|r' rows' _] using rev_ind; [by rewrite length_app in Hl; simpl in Hl; lia|].
  rewrite !length_app in Hl. simpl in Hl. rewrite !last_snoc in Hlast. simpl in Hlast.
  apply chained_app in Hc as (Hc & Hp & He), Hc' as (Hc' & Hp' & He').
  injection Hlast as Hlast. unfold computeEntryHash in He, He'.
  destruct (decide (row_bytes r = row_bytes r')) as [Heq|Hne].
  2:{ right. exists (length rows), r, r'. rewrite !lookup_app_r, Nat.sub_diag by lia.
      replace (length rows - length rows') with 0 by lia. split_and!; [done..|]. unfold computeEntryHash. congruence. }
  assert (ar_PrevHash r = ar_PrevHash r') as Hpp.
  { assert (length (ar_PrevHash r) = length (ar_PrevHash r')) as Hll.
    { rewrite Hp, Hp'. apply chained_last_length; [lia|done..]. }
    unfold row_bytes, entry_bytes in Heq. by apply app_inj_len in Heq as [? _]. }
  destruct (IH rows') as [Hbytes|(k & x & x' & Hk & Hk' & Hx)]; [lia|done|done| |left|].
  - rewrite Hp, Hp' in Hpp. destruct (list.last rows) eqn:E1, (list.last rows') eqn:E2; simpl; try done.
    + congruence.
    + apply last_None in E2 as ->. destruct rows; [done|simpl in *; lia].
    + apply last_None in E1 as ->. destruct rows'; [done|simpl in *; lia].
  - by rewrite !fmap_app, Hbytes; simpl; rewrite Heq.
  - right. exists k, x, x'. split_and!; [by apply lookup_app_l_Some..|apply Hx|apply Hx].
Qed.

Lemma verify_pre_le rows p c k b : (k ≤ cv_EntriesPreChain (verify_rows rows p c k b))%Z.
Proof.
  revert p c k b. induction rows as [|r rows IH]; intros p c k b; simpl; [lia|].
  destruct (_ && _); [|destruct (_ || _); [simpl; lia|apply IH]].
  specialize (IH p c (k + 1)%Z b). lia.
Qed.

Lemma valid_chained rows :
  cv_Valid (verify_rows rows [] 0 0 false) = true → cv_EntriesPreChain (verify_rows rows [] 0 0 false) = 0%Z →
  chained [] rows.
Proof.
  destruct rows as [|r rows]; [done|]. cbn [verify_rows negb andb]. intros Hv Hk.
  destruct (length (ar_EntryHash r) =? 0) eqn:El.
  - pose proof (verify_pre_le rows [] 0 (0 + 1) false) as Hp. rewrite Hk in Hp. lia.
  - destruct (_ || _) eqn:E; [done|]. reflect_bools. apply bytesEqual_spec in H0, H1.
    split_and!; [done..|]. by eapply verify_chained.
Qed.

(** C15: tampering is detected: take a log that verifies and another of the
    same length with the same newest entry hash, in which the hashed bytes of
    some row differ.  Then [VerifyChain] does not accept the other log as an
    unbroken chain from its first row (it reports a broken link, or rows it
    skipped as older than the chain), unless two rows at the same place of
    these two logs are a SHA-256 collision. *)
Theorem audit_chain_binding rows rows' n :
  length rows = length rows' →
  run VerifyChain rows = (Ok (mkVerification true n 0 None), rows) →
  ar_EntryHash <$> list.last rows = ar_EntryHash <$> list.last rows' →
  row_bytes <$> rows ≠ row_bytes <$> rows' →
  (∃ v, run VerifyChain rows' = (Ok v, rows') ∧ (cv_Valid v = false ∨ (0 < cv_EntriesPreChain v)%Z)) ∨
  clash rows rows'.
Proof.
  intros Hl Hv Hlast Hne. assert (chained [] rows) as Hc.
  { unfold VerifyChain in Hv. run_unfold. simpl in Hv. injection Hv as Hv. apply valid_chained; by rewrite Hv. }
  set (v := verify_rows rows' [] 0 0 false). pose proof (verify_pre_le rows' [] 0 0 false : (0 ≤ cv_EntriesPreChain v)%Z).
  destruct (cv_Valid v) eqn:Ev; [|left; exists v; by eauto].
  destruct (decide (cv_EntriesPreChain v = 0%Z)) as [Hk|]; [|left; exists v; split; [done|right; lia]].
  right. destruct (chained_binding [] rows rows') as [|]; try done. by apply valid_chained.
Qed.

(** ** What it does not commit to *)

Lemma verify_take n d p c k b :
  cv_Valid (verify_rows d p c k b) = true → cv_Valid (verify_rows (take n d) p c k b) = true.
Proof.
  revert d p c k b. induction n as [|n IH]; intros [|r d] p c k b; simpl; try done.
  repeat case_match; try done; apply IH.
Qed.

(** Removing the newest records goes unnoticed: every prefix of a log
    that verifies also verifies. *)
Theorem audit_truncation_undetected d n :
  cv_Valid (verify_rows d [] 0 0 false) = true →
  ∃ v, run VerifyChain (take n d) = (Ok v, take n d) ∧ cv_Valid v = true.
Proof.
  intros Hv. exists (verify_rows (take n d) [] 0 0 false). split; [done|].
  by apply verify_take.
Qed.

(** The same record with its session reference filed as its device. *)
Definition refile (r : AuditRow) : AuditRow :=
  let f := ar_Fields r in
  mkAuditRow (ar_ID r)
    (mkFields (cf_OccurredAt f) (cf_ActorType f) (cf_ActorID f) (cf_DeviceID f) (cf_SessionID f)
       (cf_CustomerID f) (cf_EventType f) (cf_Result f) (cf_SourceIP f) (cf_RequestID f)
       (cf_MetadataJSON f))
    (ar_PrevHash r) (ar_EntryHash r).

(** Some edits go unnoticed: the hash runs the optional identifiers
    together, so a record that names a session and no device verifies
    exactly as before after the identifier is moved from the session column
    to the device column. *)
Theorem audit_refile_undetected pre r post u :
  cf_SessionID (ar_Fields r) = Some u → cf_DeviceID (ar_Fields r) = None →
  ar_Fields (refile r) ≠ ar_Fields r ∧
  (run VerifyChain (pre ++ refile r :: post)).1 = (run VerifyChain (pre ++ r :: post)).1.
Proof.
  intros Hs Hd. split.
  { intros E. apply (f_equal cf_SessionID) in E. simpl in E. congruence. }
  unfold VerifyChain. run_unfold. simpl. f_equal.
  assert (∀ p, computeEntryHash p (ar_Fields (refile r)) = computeEntryHash p (ar_Fields r)) as Hh.
  { intros p. unfold computeEntryHash, entry_bytes, refile. cbn [ar_Fields cf_OccurredAt cf_ActorType
      cf_ActorID cf_SessionID cf_DeviceID cf_CustomerID cf_EventType cf_Result cf_SourceIP
      cf_RequestID cf_MetadataJSON]. by rewrite Hs, Hd. }
  assert (∀ p c k b, verify_rows (pre ++ refile r :: post) p c k b =
    verify_rows (pre ++ r :: post) p c k b) as Heq; [|apply Heq].
  induction pre as [|x pre IH]; intros p c k b; cbn [app verify_rows]; [|by rewrite !IH].
  rewrite Hh. reflexivity.
Qed.
(** What a record says, apart from its time, address and metadata. *)
Definition says (f : chainableFields) :=
  (cf_EventType f, cf_Result f, cf_ActorID f, cf_SessionID f, cf_DeviceID f).
Definition says_of (ev : Event) :=
  (ev_EventType ev, ev_Result ev, ev_ActorID ev, ev_SessionID ev, ev_DeviceID ev).

(** Without faults a record that the columns can hold is written. *)
Lemma Record_writes ev id now d :
  (∃ meta, ev_Metadata ev = Some meta ∧ is_Some (jsonb meta)) →
  ev_SourceIP ev = ""%string ∨ is_Some (inet (ev_SourceIP ev)) → Forall (λ r, (ar_ID r < id)%Z) d →
  ideal (Record_ ev id now) (λ r d', r = Ok tt ∧ ∃ row, d' = d ++ [row] ∧ ar_ID row = id ∧ says (ar_Fields row) = says_of ev) d.
Proof using Type.
  intros (meta & Hmeta & meta' & Hjson) Hip Hd. unfold Record_. rewrite Hmeta.
  apply ideal_mtx, ideal_mbind, ideal_mexec, ideal_mbind, ideal_mquery, ideal_mstmt.
  assert (forallb (λ r, (ar_ID r <? id)%Z) d = true) as ->.
  { apply forallb_forall. intros r Hr. apply Z.ltb_lt. rewrite list.Forall_forall in Hd. apply Hd. by apply list_elem_of_In. }
  unfold stored. cbn [fields_of cf_SourceIP cf_MetadataJSON]. rewrite Hjson.
  assert (∃ ip, (if String.eqb (ev_SourceIP ev) "" then Some ""%string else inet (ev_SourceIP ev)) = Some ip) as [ip ->].
  { destruct (String.eqb_spec (ev_SourceIP ev) ""); [by eexists|]. destruct Hip as [?|[ip Hip]]; [done|by exists ip]. }
  simpl. split; [done|]. eexists. split; [done|]. done.
Qed.
End audit.

(** ** A concrete log *)

Definition demo_audit_ids : UuidText :=
  {| uuid_string u := bytes_str (be_bytes 16 u); uuid_parse _ := None |}.
Definition demo_event (session : option uuid) : Event :=
  mkEvent "user" (Some 5%N) session None None "auth.logout" "success" "" None (Some (str_bytes "{}")).
Definition demo_log : audit_db :=
  (run (@Record_ demo_audit_ids Some Some (demo_event (Some 9%N)) 2 2000)
    (run (@Record_ demo_audit_ids Some Some (demo_event None) 1 1000) []).2).2.

Lemma demo_log_reachable : reachable (eq []) (@record_step demo_audit_ids Some Some) demo_log.
Proof.
  eapply reach_step; [eapply reach_step; [by apply reach_init|]|]; eapply step_record; apply effect_run.
Qed.

Lemma audit_chain_verifies_witness :
  ∃ rows v, demo_log = [] ++ rows ∧ @recorded demo_audit_ids Some Some [] rows ∧
    run (@VerifyChain demo_audit_ids) demo_log = (Ok v, demo_log) ∧ @verdict demo_audit_ids Some Some 0 0 rows v.
Proof.
  apply (@audit_chain_verifies demo_audit_ids Some Some []); [by constructor|exact demo_log_reachable].
Defined.

(** The first record of the log says something else, with its hash kept. *)
Definition tamper (r : AuditRow) : AuditRow :=
  let f := ar_Fields r in
  mkAuditRow (ar_ID r)
    (mkFields (cf_OccurredAt f) (cf_ActorType f) (cf_ActorID f) (cf_SessionID f) (cf_DeviceID f)
       (cf_CustomerID f) "auth.login.success" (cf_Result f) (cf_SourceIP f) (cf_RequestID f) (cf_MetadataJSON f))
    (ar_PrevHash r) (ar_EntryHash r).
Definition tampered_log : audit_db := alter tamper 0 demo_log.
Lemma tampered_no_clash : ¬ @clash demo_audit_ids demo_log tampered_log.
Proof.
  intros (k & r & r' & Hr & Hr' & Hne & He). destruct k as [|[|k]]; vm_compute in Hr, Hr'; try discriminate Hr;
    injection Hr as <-; injection Hr' as <-; [vm_compute in He; discriminate He|apply Hne; reflexivity].
Qed.
Lemma audit_chain_binding_witness :
  ∃ v, run (@VerifyChain demo_audit_ids) tampered_log = (Ok v, tampered_log) ∧ (cv_Valid v = false ∨ (0 < cv_EntriesPreChain v)%Z).
Proof.
  destruct (@audit_chain_binding demo_audit_ids demo_log tampered_log 2) as [Hv|Hc].
  - reflexivity.
  - vm_compute. reflexivity.
  - vm_compute. reflexivity.
  - intros E. vm_compute in E. discriminate E.
  - exact Hv.
  - destruct (tampered_no_clash Hc).
Defined.

(** The address of a record is hashed as the proxy spelled it and read back as
    PostgreSQL spells it: an untouched log is reported as broken. *)
Definition inet_lower (ip : string) : option string :=
  Some (if String.eqb ip "2001:DB8::1" then "2001:db8::1" else ip)%string.
Definition spelled_event : Event :=
  mkEvent "user" (Some 5%N) None None None "auth.logout" "success" "2001:DB8::1" None (Some (str_bytes "{}")).
Theorem address_spelling_breaks_chain :
  let d := (run (@Record_ demo_audit_ids inet_lower Some spelled_event 1 1000) []).2 in
  run (@VerifyChain demo_audit_ids) d = (Ok (mkVerification false 1 0 (Some 1%Z)), d).
Proof. vm_compute. reflexivity. Qed.

Lemma audit_truncation_undetected_witness :
  ∃ v, run (@VerifyChain demo_audit_ids) (take 1 demo_log) = (Ok v, take 1 demo_log) ∧
    cv_Valid v = true.
Proof. apply (@audit_truncation_undetected demo_audit_ids demo_log 1). vm_compute. reflexivity. Defined.

Lemma audit_refile_undetected_witness :
  ∃ r, demo_log = take 1 demo_log ++ [r] ∧
    (run (@VerifyChain demo_audit_ids) (take 1 demo_log ++ [refile r])).1 =
    (run (@VerifyChain demo_audit_ids) (take 1 demo_log ++ [r])).1.
Proof.
  destruct (nth_error demo_log 1) as [r|] eqn:E; [|by vm_compute in E].
  exists r. split; [vm_compute in E; injection E as <-; vm_compute; reflexivity|].
  apply (@audit_refile_undetected demo_audit_ids (take 1 demo_log) r [] 9).
  - vm_compute in E. injection E as <-. reflexivity.
  - vm_compute in E. injection E as <-. reflexivity.
Defined.
