(* ===== verification/Metrics.v ===== *)
(** Metrics history ([internal/device/device.go], metrics part, and
    [internal/device/retention.go]): samples, hourly roll-ups, retention and
    the sweep that runs them. *)
From S2P Require Import Prelude Device.

(** PostgreSQL's aggregates over the floating-point columns. *)
Class PgFloat : Type := {
  pg_avg : list float → float;
  pg_sum : list float → float }.

(** [int64(x)] of a [uint64]: a two's complement reinterpretation. *)
Definition int64_of (x : Z) : Z := wrap64 x.

Section metrics.
Context `{PgFloat}.

(** ** Recording *)

(** Sums of [uint64] wrap. *)
Fixpoint disk_totals (l : list FilesystemUsage) : Z * Z :=
  match l with
  | [] => (0, 0)%Z
  | f :: rest =>
      let '(used, total) := disk_totals rest in
      if fs_Removable f then (used, total)
      else (wrapu64 (fs_UsedBytes f + used), wrapu64 (fs_TotalBytes f + total))
  end.

(* internal/device/device.go:378-402 RecordMetrics *)
Definition RecordMetrics (id : uuid) (cpuPercent : float) (memUsed memTotal : Z)
    (filesystems : list FilesystemUsage) (uptimeSeconds : Z) (now : time) : DevM unit :=
  let '(diskUsed, diskTotal) := disk_totals filesystems in
  mstmt DevDB (λ d,
    if has_device id d && (memUsed <? 2 ^ 63)%Z && (memTotal <? 2 ^ 63)%Z then
      (Ok tt, on_metrics (λ t, t ++ [mkMetricsRow id now cpuPercent memUsed memTotal filesystems
                uptimeSeconds (int64_of diskUsed) (int64_of diskTotal)]) d)
    else (Err DevDB, d)).

(** [protocol.NetworkMetricsSample]. *)
(* internal/protocol/protocol.go:235-242 NetworkMetricsSample *)
Record NetSample : Type := mkNetSample {
  ns_OccurredAt : time;
  ns_IntervalSeconds : float;
  ns_BytesSentTotal : Z;
  ns_BytesRecvTotal : Z;
  ns_BytesSentControl : Z;
  ns_BytesRecvControl : Z }.

Definition net_row (id : uuid) (s : NetSample) : NetMetricsRow :=
  mkNetMetricsRow id (ns_OccurredAt s) (ns_IntervalSeconds s) (int64_of (ns_BytesSentTotal s))
    (int64_of (ns_BytesRecvTotal s)) (int64_of (ns_BytesSentControl s))
    (int64_of (ns_BytesRecvControl s)).

(** A [pgx] batch is one implicit transaction: all rows or none. *)
(* internal/device/device.go:415-437 RecordNetworkMetricsBatch *)
Definition RecordNetworkMetricsBatch (id : uuid) (samples : list NetSample) : DevM unit :=
  match samples with
  | [] => mret tt
  | _ => mstmt DevDB (λ d,
      if has_device id d then (Ok tt, on_netmetrics (λ t, t ++ map (net_row id) samples) d)
      else (Err DevDB, d))
  end.

(** ** Reading *)

Definition clamp_limit (limit def : Z) : nat :=
  Z.to_nat (if (limit <=? 0)%Z || (5000 <? limit)%Z then def else limit).
Definition between (t from to : time) : bool := (from <=? t)%Z && (t <=? to)%Z.

(* internal/device/device.go:439-465 RecentNetworkMetrics *)
Definition RecentNetworkMetrics (id : uuid) (from to : time) (limit : Z) : DevM (list NetMetricsRow) :=
  mquery DevDB (λ d,
    take (clamp_limit limit 2000)
      (order_by (λ a b, (nm_ObservedAt b <=? nm_ObservedAt a)%Z)
        (filter (λ r, (nm_DeviceID r =? id)%N && between (nm_ObservedAt r) from to = true)
          (network_metrics d)))).

(* internal/device/device.go:467-496 HourlyNetworkMetrics *)
Definition HourlyNetworkMetrics (id : uuid) (from to : time) (limit : Z)
    : DevM (list (time * NetHourlyRow)) :=
  mquery DevDB (λ d,
    take (clamp_limit limit 2000)
      (order_by (λ a b, (b.1 <=? a.1)%Z)
        (map (λ kr, (kr.1.2, kr.2))
          (select_where (λ k _, (k.1 =? id)%N && between k.2 from to) (network_hourly d))))).

(* internal/device/device.go:685-702 LatestMetrics *)
Definition LatestMetrics (id : uuid) : DevM (option MetricsRow) :=
  mquery DevDB (λ d,
    head (order_by (λ a b, (mt_ObservedAt b <=? mt_ObservedAt a)%Z)
            (filter (λ r, mt_DeviceID r = id) (device_metrics d)))).

(* internal/device/device.go:704-729 RecentMetrics *)
Definition RecentMetrics (id : uuid) (from to : time) (limit : Z) : DevM (list MetricsRow) :=
  mquery DevDB (λ d,
    take (clamp_limit limit 500)
      (order_by (λ a b, (mt_ObservedAt b <=? mt_ObservedAt a)%Z)
        (filter (λ r, (mt_DeviceID r =? id)%N && between (mt_ObservedAt r) from to = true)
          (device_metrics d)))).

(* internal/device/device.go:731-758 HourlyMetrics *)
Definition HourlyMetrics (id : uuid) (from to : time) (limit : Z) : DevM (list (time * HourlyRow)) :=
  mquery DevDB (λ d,
    take (clamp_limit limit 500)
      (order_by (λ a b, (b.1 <=? a.1)%Z)
        (map (λ kr, (kr.1.2, kr.2))
          (select_where (λ k _, (k.1 =? id)%N && between k.2 from to) (metrics_hourly d))))).

(** ** Roll-ups *)

(** [date_trunc('hour', t)]. *)
Definition hour_of (t : time) : time := (t - t mod Hour)%Z.

(** [avg(x)::bigint]: rounds halves away from zero. *)
Definition avg_bigint (xs : list Z) : Z :=
  let n := Z.of_nat (length xs) in
  let s := fold_right Z.add 0%Z xs in
  if (n =? 0)%Z then 0%Z
  else (Z.sgn s * ((2 * Z.abs s + n) / (2 * n)))%Z.

Definition group_of {R} (dev : R → uuid) (at_ : R → time) (k : uuid * time) (rows : list R) : list R :=
  filter (λ r, (dev r, hour_of (at_ r)) = k) rows.
Definition group_keys {R} (dev : R → uuid) (at_ : R → time) (rows : list R) : list (uuid * time) :=
  map (λ r, (dev r, hour_of (at_ r))) rows.

(** [INSERT ... SELECT ... GROUP BY ... ON CONFLICT DO UPDATE]: each group of
    the rows before the current hour overwrites its aggregate. *)
Definition rollup {R H : Type} (dev : R → uuid) (at_ : R → time) (agg : list R → H) (now : time)
    (rows : list R) (t : gmap (uuid * time) H) : gmap (uuid * time) H :=
  let old := filter (λ r, Before (at_ r) (hour_of now) = true) rows in
  fold_right (λ k acc, <[k := agg (group_of dev at_ k old)]> acc) t (group_keys dev at_ old).

Definition hourly_of (rows : list MetricsRow) : HourlyRow :=
  mkHourlyRow (pg_avg (map mt_CPUPercent rows)) (avg_bigint (map mt_MemoryUsedBytes rows))
    (avg_bigint (map mt_MemoryTotalBytes rows)) (avg_bigint (map mt_DiskUsedBytes rows))
    (avg_bigint (map mt_DiskTotalBytes rows)) (Z.of_nat (length rows)).

Definition sum_of (f : NetMetricsRow → Z) (rows : list NetMetricsRow) : Z :=
  fold_right Z.add 0%Z (map f rows).
Definition net_hourly_of (rows : list NetMetricsRow) : NetHourlyRow :=
  mkNetHourlyRow (pg_sum (map nm_IntervalSeconds rows)) (sum_of nm_BytesSentTotal rows)
    (sum_of nm_BytesRecvTotal rows) (sum_of nm_BytesSentControl rows)
    (sum_of nm_BytesRecvControl rows) (Z.of_nat (length rows)).

(* internal/device/device.go:760-784 RollupHourlyMetrics *)
Definition RollupHourlyMetrics (now : time) : DevM unit :=
  mexec DevDB (λ d, on_hourly (rollup mt_DeviceID mt_ObservedAt hourly_of now (device_metrics d)) d).

(* internal/device/device.go:498-523 RollupHourlyNetworkMetrics *)
Definition RollupHourlyNetworkMetrics (now : time) : DevM unit :=
  mexec DevDB (λ d,
    on_nethourly (rollup nm_DeviceID nm_ObservedAt net_hourly_of now (network_metrics d)) d).

(* internal/device/device.go:786-796 ApplyMetricsRetention *)
Definition ApplyMetricsRetention (raw hourly : duration) (now : time) : DevM unit :=
  mexec DevDB (on_metrics (filter (λ r, Before (mt_ObservedAt r) (now - raw) = false)));;
  mexec DevDB (on_hourly (delete_where (λ k _, Before k.2 (now - hourly)%Z))).

(* internal/device/device.go:525-535 ApplyNetworkMetricsRetention *)
Definition ApplyNetworkMetricsRetention (raw hourly : duration) (now : time) : DevM unit :=
  mexec DevDB (on_netmetrics (filter (λ r, Before (nm_ObservedAt r) (now - raw) = false)));;
  mexec DevDB (on_nethourly (delete_where (λ k _, Before k.2 (now - hourly)%Z))).

(* internal/device/device.go:537-546 DeviceNetworkTotal *)
Record DeviceNetworkTotal : Type := mkNetTotal {
  nt_DeviceID : uuid;
  nt_DisplayName : string;
  nt_BytesSentTotal : Z;
  nt_BytesRecvTotal : Z;
  nt_BytesSentControl : Z;
  nt_BytesRecvControl : Z }.

(* internal/device/device.go:548-577 NetworkUsageSummary *)
Definition NetworkUsageSummary (since : time) : DevM (list DeviceNetworkTotal) :=
  mquery DevDB (λ d,
    order_by (λ a b, (nt_BytesSentTotal b + nt_BytesRecvTotal b <=?
                      nt_BytesSentTotal a + nt_BytesRecvTotal a)%Z)
      (omap (λ '(id, x),
         match filter (λ r, (nm_DeviceID r =? id)%N && (since <=? nm_ObservedAt r)%Z = true)
                 (network_metrics d) with
         | [] => None
         | rows => Some (mkNetTotal id (dv_DisplayName x) (sum_of nm_BytesSentTotal rows)
                    (sum_of nm_BytesRecvTotal rows) (sum_of nm_BytesSentControl rows)
                    (sum_of nm_BytesRecvControl rows))
         end) (map_to_list (devices d)))).

(** ** One tick of the sweeper *)

(** [metrics_retention] and [network_retention] are the outcomes of the
    settings lookups of this tick. *)
(* internal/device/retention.go:18-60 RunMetricsRetentionSweeper *)
Definition sweep (defaults netDefaults : duration * duration)
    (metrics_retention network_retention : res unit (duration * duration)) (now : time) : DevM unit :=
  r ← mtry (E := device_error) (RollupHourlyMetrics now);
  match r with
  | Err _ => mret tt
  | Ok _ =>
      let '(raw, hourly) := match metrics_retention with Ok x => x | Err _ => defaults end in
      mignore (E := device_error) (ApplyMetricsRetention raw hourly now)
  end;;
  n ← mtry (E := device_error) (RollupHourlyNetworkMetrics now);
  match n with
  | Err _ => mret tt
  | Ok _ =>
      let '(raw, hourly) := match network_retention with Ok x => x | Err _ => netDefaults end in
      mignore (E := device_error) (ApplyNetworkMetricsRetention raw hourly now)
  end.

(** ** What a roll-up computes *)

Lemma rollup_lookup {R T : Type} (dev : R → uuid) at_ (agg : list R → T) now rows t k :
  let old := filter (λ r, Before (at_ r) (hour_of now) = true) rows in
  rollup dev at_ agg now rows t !! k =
  if bool_decide (k ∈ group_keys dev at_ old) then Some (agg (group_of dev at_ k old)) else t !! k.
Proof.
  intros old. unfold rollup. fold old. generalize (group_keys dev at_ old) as ks.
  induction ks as [|k' ks IH]; cbn [fold_right].
  { rewrite bool_decide_eq_false_2; [done|apply not_elem_of_nil]. }
  destruct (decide (k' = k)) as [->|Hne].
  - rewrite lookup_insert_eq, bool_decide_eq_true_2; [done|left].
  - rewrite lookup_insert_ne, IH by done.
    rewrite (bool_decide_ext (k ∈ k' :: ks) (k ∈ ks)); [done|].
    rewrite elem_of_cons. naive_solver.
Qed.

Lemma rollup_rollup {R T : Type} (dev : R → uuid) at_ (agg : list R → T) now rows t :
  rollup dev at_ agg now rows (rollup dev at_ agg now rows t) = rollup dev at_ agg now rows t.
Proof.
  apply map_eq. intros k. rewrite !rollup_lookup. cbv zeta. by case_bool_decide.
Qed.

(** Both roll-ups are idempotent: running one again before any new
    sample arrives or an old one is deleted leaves the database exactly as
    the first run left it. *)
Theorem rollup_idempotent now d :
  run (RollupHourlyMetrics now;; RollupHourlyMetrics now) d = run (RollupHourlyMetrics now) d ∧
  run (RollupHourlyNetworkMetrics now;; RollupHourlyNetworkMetrics now) d =
    run (RollupHourlyNetworkMetrics now) d.
Proof.
  unfold RollupHourlyMetrics, RollupHourlyNetworkMetrics. run_unfold.
  destruct d. unfold on_hourly, on_nethourly. simpl. by rewrite !rollup_rollup.
Qed.

(** An hourly network total is exact while its samples are kept: after a
    roll-up, the stored totals of every finished hour with samples are the
    sums over all of that hour's raw rows. *)
Theorem network_rollup_exact d now d' id h r :
  run (RollupHourlyNetworkMetrics now) d = (Ok tt, d') →
  r ∈ network_metrics d → nm_DeviceID r = id → hour_of (nm_ObservedAt r) = h →
  (h < hour_of now)%Z →
  network_hourly d' !! (id, h) =
    Some (net_hourly_of (filter (λ x, (nm_DeviceID x, hour_of (nm_ObservedAt x)) = (id, h))
                           (network_metrics d))).
Proof.
  intros Hrun Hr <- <- Hlt. unfold RollupHourlyNetworkMetrics in Hrun. revert Hrun. run_unfold. simpl.
  intros [= <-]. simpl. rewrite rollup_lookup. cbv zeta.
  assert (∀ x, hour_of (nm_ObservedAt x) = hour_of (nm_ObservedAt r) →
    Before (nm_ObservedAt x) (hour_of now) = true) as Hold.
  { intros x Hx. unfold Before, hour_of in *. apply Z.ltb_lt.
    pose proof (Z.mod_pos_bound (nm_ObservedAt x) Hour eq_refl).
    pose proof (Z.mod_pos_bound now Hour eq_refl).
    pose proof (Z.div_mod (nm_ObservedAt x) Hour ltac:(done)).
    pose proof (Z.div_mod now Hour ltac:(done)). unfold Hour, Minute, Second in *. nia. }
  rewrite bool_decide_eq_true_2.
  - f_equal. f_equal. unfold group_of. rewrite list_filter_filter. apply list_filter_iff.
    intros x. split; [tauto|]. intros E. split; [done|]. apply Hold. congruence.
  - unfold group_keys. apply list_elem_of_fmap. exists r. split; [done|].
    apply list_elem_of_filter. split; [by apply Hold|done].
Qed.
End metrics.

(** ** Aggregates after retention *)

Definition demo_float : PgFloat := {| pg_avg _ := S754_zero false; pg_sum _ := S754_zero false |}.
Definition demo_sample (at_ bytes : Z) : NetMetricsRow :=
  mkNetMetricsRow 7 at_ (S754_zero false) bytes 0 0 0.
(** Two samples of the same hour, five and fifty minutes into it. *)
Definition demo_history : dev_db :=
  on_netmetrics (λ _, [demo_sample (5 * Minute) 100; demo_sample (50 * Minute) 1]) empty_dev_db.
(** A tick with a raw retention of one day. *)
Definition demo_sweep (now : time) (d : dev_db) : dev_db :=
  (run (@sweep demo_float (24 * Hour, 365 * 24 * Hour) (24 * Hour, 365 * 24 * Hour) (Err tt) (Err tt) now)
     d).2%Z.
Definition demo_total (d : dev_db) : option Z := nh_SumBytesSentTotal <$> network_hourly d !! (7%N, 0%Z).

(** Retention corrupts the history it should preserve: the retention
    cutoff is not aligned to the hour, so while an hour's raw samples expire
    one by one, each sweep overwrites the hour's stored total with the total
    of the samples still left. *)
Theorem retention_overwrites_hourly_totals :
  let d1 := demo_sweep (2 * Hour) demo_history in
  let d2 := demo_sweep (24 * Hour + 30 * Minute) d1 in
  let d3 := demo_sweep (24 * Hour + 40 * Minute) d2 in
  demo_total d1 = Some 101%Z ∧ demo_total d2 = Some 101%Z ∧ demo_total d3 = Some 1%Z.
Proof. vm_compute. split_and!; reflexivity. Qed.

Lemma network_rollup_exact_witness :
  network_hourly (run (@RollupHourlyNetworkMetrics demo_float (2 * Hour)) demo_history).2 !! (7%N, 0%Z) =
    Some (@net_hourly_of demo_float (network_metrics demo_history)).
Proof.
  pose proof (@network_rollup_exact demo_float demo_history (2 * Hour)
    (run (@RollupHourlyNetworkMetrics demo_float (2 * Hour)) demo_history).2 7 0
    (demo_sample (5 * Minute) 100)) as Hx.
  rewrite Hx; [|reflexivity|left|reflexivity|reflexivity|vm_compute; reflexivity].
  vm_compute. reflexivity.
Defined.
