(* ===== verification/Monitoring.v ===== *)
(** Device health ([internal/monitoring/health.go]): version comparison,
    sustained-load detection and the evaluation that stores a health state. *)
From S2P Require Import Prelude Device Metrics.

(** ** [float64] arithmetic *)

Definition f64_of_Z (z : Z) : float := binary_normalize 53 1024 z 0 false.
Definition f64_div (x y : float) : float := SFdiv 53 1024 x y.
Definition f64_mul (x y : float) : float := SFmul 53 1024 x y.
(** [x >= y] is false when either is NaN. *)
Definition f64_ge (x y : float) : bool := SFleb y x.
Definition percent (used total : Z) : float :=
  f64_mul (f64_div (f64_of_Z used) (f64_of_Z total)) (f64_of_Z 100).

(** ** Versions *)

(** [n = n*10 + int(c-'0')] on [int], which wraps. *)
Fixpoint atoi_loop (s : bytes) (n : Z) : option Z :=
  match s with
  | [] => Some n
  | c :: rest =>
      let v := byte_val c in
      if (48 <=? v)%N && (v <=? 57)%N
      then atoi_loop rest (wrap64 (wrap64 (n * 10) + Z.of_N (v - 48)))
      else None
  end.

(* internal/monitoring/health.go:196-208 atoiStrict *)
Definition atoiStrict (s : bytes) : option Z :=
  match s with [] => None | _ => atoi_loop s 0 end.

(** [cur] is [v[part:i]]; [out] holds the components found so far. *)
Fixpoint parse_loop (v cur : bytes) (out : list Z) : option (list Z) :=
  match v with
  | [] =>
      if 3 <=? length out then None
      else match atoiStrict cur with None => None | Some n => Some (out ++ [n]) end
  | c :: rest =>
      if decide (c = "."%char) then
        if 3 <=? length out then None
        else match atoiStrict cur with None => None | Some n => parse_loop rest [] (out ++ [n]) end
      else parse_loop rest (cur ++ [c]) out
  end.

(** Missing components stay zero in the [\[3\]int]. *)
(* internal/monitoring/health.go:176-194 ParseVersion *)
Definition ParseVersion (v : string) : option (Z * Z * Z) :=
  match parse_loop (str_bytes v) [] [] with
  | None => None
  | Some l => Some (nth 0 l 0%Z, nth 1 l 0%Z, nth 2 l 0%Z)
  end.

(* internal/monitoring/health.go:159-174 IsOlderVersion *)
Definition IsOlderVersion (version minimum : string) : bool :=
  match ParseVersion version, ParseVersion minimum with
  | Some (a1, a2, a3), Some (b1, b2, b3) =>
      if negb (a1 =? b1)%Z then (a1 <? b1)%Z
      else if negb (a2 =? b2)%Z then (a2 <? b2)%Z
      else if negb (a3 =? b3)%Z then (a3 <? b3)%Z
      else false
  | _, _ => false
  end.

(** ** Sustained conditions *)

(* internal/monitoring/health.go:132-157 sustainedAbove *)
Definition sustainedAbove (history : list MetricsRow) (window : duration) (pred : MetricsRow → bool) : bool :=
  match history with
  | [] => false
  | h0 :: _ =>
      if forallb pred history then
        let oldest := fold_left (λ o p, if Before (mt_ObservedAt p) o then mt_ObservedAt p else o)
                        history (mt_ObservedAt h0) in
        let newest := fold_left (λ n p, if After (mt_ObservedAt p) n then mt_ObservedAt p else n)
                        history (mt_ObservedAt h0) in
        (window - Minute <=? newest - oldest)%Z
      else false
  end.

(** ** Evaluation *)

(* internal/monitoring/health.go:15-24 Thresholds *)
Record Thresholds : Type := mkThresholds {
  th_DiskWarningPercent : float;
  th_DiskCriticalPercent : float;
  th_RAMWarningPercent : float;
  th_CPUWarningPercent : float;
  th_SustainedWindow : duration;
  th_MinSupportedAgentVer : string }.

(* internal/monitoring/health.go:26-35 DefaultThresholds *)
Definition DefaultThresholds : Thresholds :=
  mkThresholds (f64_of_Z 90) (f64_of_Z 97) (f64_of_Z 90) (f64_of_Z 95) (10 * Minute)%Z "0.1.0".

(** The reasons, before formatting. *)
Inductive reason : Type :=
| DiskCritical (path : string) (pct : float)
| DiskWarning (path : string) (pct : float)
| CPUSustained
| RAMSustained
| AgentOutdated (version : string).

Definition is_critical (r : reason) : bool := match r with DiskCritical _ _ => true | _ => false end.

Section evaluate.
(** [fmt.Sprintf] of a reason. *)
Context (render : reason → string) (th : Thresholds).

(* internal/monitoring/health.go:76-89 Evaluate: the disk loop *)
Definition disk_reasons (l : list FilesystemUsage) : list reason :=
  flat_map (λ f,
    if (fs_TotalBytes f =? 0)%Z || fs_Removable f then []
    else
      let pct := percent (fs_UsedBytes f) (fs_TotalBytes f) in
      if f64_ge pct (th_DiskCriticalPercent th) then [DiskCritical (fs_Path f) pct]
      else if f64_ge pct (th_DiskWarningPercent th) then [DiskWarning (fs_Path f) pct]
      else []) l.

(* internal/monitoring/health.go:96-98 Evaluate: the CPU predicate *)
Definition cpu_high (p : MetricsRow) : bool := f64_ge (mt_CPUPercent p) (th_CPUWarningPercent th).
(* internal/monitoring/health.go:102-107 Evaluate: the RAM predicate *)
Definition ram_high (p : MetricsRow) : bool :=
  if (mt_MemoryTotalBytes p =? 0)%Z then false
  else f64_ge (percent (mt_MemoryUsedBytes p) (mt_MemoryTotalBytes p)) (th_RAMWarningPercent th).

Definition health_of (rs : list reason) : Health :=
  if existsb is_critical rs then HealthCritical
  else match rs with [] => HealthHealthy | _ => HealthWarning end.

(* internal/monitoring/health.go:46-130 Evaluate *)
Definition Evaluate (deviceID : uuid) (now : time) : DevM (Health * list string) :=
  '(_, d) ← GetByID deviceID;
  match dv_Status d with
  | StatusOffline | StatusRevoked =>
      let health := match dv_Status d with StatusRevoked => HealthUnknown | _ => HealthOffline end in
      UpdateHealth deviceID health [];;
      mret (health, [])
  | _ =>
      latest ← LatestMetrics deviceID;
      reasons ←
        match latest with
        | None => mret []
        | Some m =>
            history ← RecentMetrics deviceID (now - th_SustainedWindow th)%Z now 200;
            mret (disk_reasons (mt_Filesystems m) ++
                  (if sustainedAbove history (th_SustainedWindow th) cpu_high then [CPUSustained] else []) ++
                  (if sustainedAbove history (th_SustainedWindow th) ram_high then [RAMSustained] else []))
        end;
      let reasons := reasons ++
        (if negb (String.eqb (dv_AgentVersion d) "") &&
            IsOlderVersion (dv_AgentVersion d) (th_MinSupportedAgentVer th)
         then [AgentOutdated (dv_AgentVersion d)] else []) in
      let health := health_of reasons in
      UpdateHealth deviceID health (map render reasons);;
      mret (health, map render reasons)
  end.
End evaluate.

(** ** Versions are ordered *)

Definition version_lt (a b : Z * Z * Z) : Prop :=
  let '(a1, a2, a3) := a in let '(b1, b2, b3) := b in
  (a1 < b1 ∨ a1 = b1 ∧ (a2 < b2 ∨ a2 = b2 ∧ a3 < b3))%Z.

(** [IsOlderVersion] is the lexicographic order on parsed versions: it is
    true exactly when both parse and the first is below the second, so no
    version is older than itself and of two versions at most one is older. *)
Theorem IsOlderVersion_spec v m :
  IsOlderVersion v m = true ↔
  ∃ a b, ParseVersion v = Some a ∧ ParseVersion m = Some b ∧ version_lt a b.
Proof.
  unfold IsOlderVersion.
  destruct (ParseVersion v) as [[[a1 a2] a3]|], (ParseVersion m) as [[[b1 b2] b3]|]; simpl.
  2-4: split; [done|intros (? & ? & ? & ? & _); done].
  split.
  - intros E. eexists _, _. split_and!; [done..|]. simpl.
    destruct (Z.eqb_spec a1 b1), (Z.eqb_spec a2 b2), (Z.eqb_spec a3 b3); simpl in E;
      reflect_bools; lia || done.
  - intros (a & b & [= <-] & [= <-] & L). simpl in L.
    destruct (Z.eqb_spec a1 b1), (Z.eqb_spec a2 b2), (Z.eqb_spec a3 b3); simpl; try apply Z.ltb_lt; lia.
Qed.

(** ** Sustained conditions need coverage *)

Lemma fold_oldest l o :
  fold_left (λ o p, if Before (mt_ObservedAt p) o then mt_ObservedAt p else o) l o =
  fold_left Z.min (map mt_ObservedAt l) o.
Proof.
  revert o. induction l as [|p l IH]; intros o; simpl; [done|]. rewrite IH. f_equal.
  unfold Before. destruct (Z.ltb_spec (mt_ObservedAt p) o); lia.
Qed.
Lemma fold_newest l n :
  fold_left (λ n p, if After (mt_ObservedAt p) n then mt_ObservedAt p else n) l n =
  fold_left Z.max (map mt_ObservedAt l) n.
Proof.
  revert n. induction l as [|p l IH]; intros n; simpl; [done|]. rewrite IH. f_equal.
  unfold After. destruct (Z.ltb_spec n (mt_ObservedAt p)); lia.
Qed.
Lemma fold_min_spec l o : ∃ x, fold_left Z.min l o = x ∧ (x = o ∨ x ∈ l) ∧ (x ≤ o)%Z ∧ ∀ y, y ∈ l → (x ≤ y)%Z.
Proof.
  revert o. induction l as [|a l IH]; intros o; simpl.
  { exists o. split_and!; [done|by left|lia|]. intros y Hy. by apply elem_of_nil in Hy. }
  destruct (IH (Z.min o a)) as (x & Hx & Hor & Hle & Hall). exists x. split_and!; [done| |lia|].
  - destruct Hor as [->|Hin]; [|right; by right]. destruct (Z.min_spec o a) as [[_ ->]|[_ ->]].
    + by left. + right; left.
  - intros y [->|Hy]%elem_of_cons; [lia|by apply Hall].
Qed.
Lemma fold_max_spec l o : ∃ x, fold_left Z.max l o = x ∧ (x = o ∨ x ∈ l) ∧ (o ≤ x)%Z ∧ ∀ y, y ∈ l → (y ≤ x)%Z.
Proof.
  revert o. induction l as [|a l IH]; intros o; simpl.
  { exists o. split_and!; [done|by left|lia|]. intros y Hy. by apply elem_of_nil in Hy. }
  destruct (IH (Z.max o a)) as (x & Hx & Hor & Hle & Hall). exists x. split_and!; [done| |lia|].
  - destruct Hor as [->|Hin]; [|right; by right]. destruct (Z.max_spec o a) as [[_ ->]|[_ ->]].
    + right; left. + by left.
  - intros y [->|Hy]%elem_of_cons; [lia|by apply Hall].
Qed.

Lemma sustainedAbove_iff history window pred :
  sustainedAbove history window pred = true ↔
  (∀ p, p ∈ history → pred p = true) ∧
  ∃ a b, a ∈ history ∧ b ∈ history ∧ (window - Minute ≤ mt_ObservedAt b - mt_ObservedAt a)%Z ∧
    history ≠ [].
Proof.
  destruct history as [|h0 rest].
  { simpl. split; [done|]. intros (_ & a & b & Ha & _). by apply elem_of_nil in Ha. }
  unfold sustainedAbove. rewrite fold_oldest, fold_newest. set (hs := h0 :: rest).
  destruct (fold_min_spec (map mt_ObservedAt hs) (mt_ObservedAt h0)) as (o & -> & Ho & _ & Hmin).
  destruct (fold_max_spec (map mt_ObservedAt hs) (mt_ObservedAt h0)) as (n & -> & Hn & _ & Hmax).
  assert (∀ x, x = mt_ObservedAt h0 ∨ x ∈ map mt_ObservedAt hs → ∃ p, p ∈ hs ∧ mt_ObservedAt p = x) as Hex.
  { intros x [->|Hx]; [exists h0; split; [left|done]|].
    apply list_elem_of_fmap in Hx as (p & -> & Hp). by exists p. }
  assert (forallb pred hs = true ↔ ∀ p, p ∈ hs → pred p = true) as Hfor.
  { rewrite forallb_forall. by setoid_rewrite list_elem_of_In. }
  destruct (forallb pred hs) eqn:Ef.
  - rewrite Z.leb_le. split.
    + intros Hle. split; [by apply Hfor|]. destruct (Hex _ Ho) as (a & Ha & Ea), (Hex _ Hn) as (b & Hb & Eb).
      exists a, b. split_and!; [done..|lia|done].
    + intros (_ & a & b & Ha & Hb & Hle & _).
      assert (o ≤ mt_ObservedAt a)%Z by (apply Hmin; apply list_elem_of_fmap; eauto).
      assert (mt_ObservedAt b ≤ n)%Z by (apply Hmax; apply list_elem_of_fmap; eauto). lia.
  - split; [done|]. intros (Hall & _). apply Hfor in Hall. done.
Qed.

(** [sustainedAbove] answers yes exactly when every sample satisfies the
    condition and two of them lie at least the window less a minute apart. *)
Theorem sustainedAbove_spec history window pred :
  sustainedAbove history window pred = true ↔
  (∀ p, p ∈ history → pred p = true) ∧
  ∃ a b, a ∈ history ∧ b ∈ history ∧ (window - Minute ≤ mt_ObservedAt b - mt_ObservedAt a)%Z ∧
    history ≠ [].
Proof. apply sustainedAbove_iff. Qed.

(** The agent's default reporting interval
    ([internal/config/server.go], [Agent.StatusInterval]). *)
Definition StatusInterval : duration := (5 * Minute)%Z.

(** Sustained load goes undetected at the default settings: with samples
    exactly every five minutes, and an evaluation at any moment that is not
    itself a sampling instant, the ten-minute history the engine loads never
    spans the nine minutes [sustainedAbove] asks for, so the CPU and RAM
    warnings cannot fire however long the load lasts. *)
Theorem sustained_load_missed history t0 now pred :
  (∀ p, p ∈ history → ∃ k, mt_ObservedAt p = (t0 + k * StatusInterval)%Z) →
  (∀ p, p ∈ history → (now - th_SustainedWindow DefaultThresholds ≤ mt_ObservedAt p ≤ now)%Z) →
  ((now - t0) mod StatusInterval ≠ 0)%Z →
  sustainedAbove history (th_SustainedWindow DefaultThresholds) pred = false.
Proof.
  intros Hgrid Hin Hoff. apply not_true_iff_false. rewrite sustainedAbove_iff.
  intros (_ & a & b & Ha & Hb & Hspan & _).
  destruct (Hgrid a Ha) as [ka Ea], (Hgrid b Hb) as [kb Eb].
  apply Hoff. specialize (Hin a Ha) as Hina. specialize (Hin b Hb) as Hinb.
  cbn [th_SustainedWindow DefaultThresholds] in *. unfold StatusInterval, Minute, Second in *.
  assert (now = t0 + kb * (5 * (60 * 1000000000)))%Z as -> by lia.
  replace (t0 + kb * (5 * (60 * 1000000000)) - t0)%Z with (kb * (5 * (60 * 1000000000)))%Z by lia.
  apply Z_mod_mult.
Qed.

Definition demo_metric (at_ : time) (cpu : Z) : MetricsRow :=
  mkMetricsRow 7 at_ (f64_of_Z cpu) 0 0 [] 0 0 0.
Lemma sustained_load_missed_witness :
  sustainedAbove [demo_metric (10 * Minute) 100; demo_metric (5 * Minute) 100]
    (th_SustainedWindow DefaultThresholds) (cpu_high DefaultThresholds) = false.
Proof.
  apply (sustained_load_missed _ 0 (10 * Minute + Second)).
  - intros p Hp. apply elem_of_cons in Hp as [->|Hp]; [by exists 2%Z|].
    apply list_elem_of_singleton in Hp as ->. by exists 1%Z.
  - intros p Hp. apply elem_of_cons in Hp as [->|Hp]; [vm_compute; done|].
    apply list_elem_of_singleton in Hp as ->. vm_compute. done.
  - vm_compute. done.
Defined.

(** ** Evaluation stores what it reports *)

Lemma health_of_spec rs :
  (health_of rs = HealthHealthy ↔ rs = []) ∧
  (health_of rs = HealthCritical ↔ ∃ path pct, DiskCritical path pct ∈ rs).
Proof.
  unfold health_of.
  assert (existsb is_critical rs = true ↔ ∃ path pct, DiskCritical path pct ∈ rs) as Hc.
  { rewrite existsb_exists. setoid_rewrite list_elem_of_In. split.
    - intros ([] & Hin & Hcr); simplify_eq/=. eauto.
    - intros (p & q & Hin). eauto. }
  destruct (existsb is_critical rs) eqn:E.
  - split; [split; [done|]|tauto]. intros ->. done.
  - split; [by destruct rs|]. split; [by destruct rs|]. intros Hcr. apply Hc in Hcr. done.
Qed.

(** What the outcome of an evaluation of device [x] has to say. *)
Definition evaluated (x : Device) (health : Health) (reasons : list reason) : Prop :=
  match dv_Status x with
  | StatusOffline => health = HealthOffline ∧ reasons = []
  | StatusRevoked => health = HealthUnknown ∧ reasons = []
  | _ => (health = HealthHealthy ↔ reasons = []) ∧
         (health = HealthCritical ↔ ∃ path pct, DiskCritical path pct ∈ reasons)
  end.
Definition evaluation_outcome (render : reason → string) (id : uuid) (d : dev_db)
    (r : res device_error (Health * list string)) (d' : dev_db) : Prop :=
  match r with
  | Ok (health, texts) =>
      ∃ x reasons, devices d !! id = Some x ∧ texts = map render reasons ∧
        d' = on_devices (update_id id (set_health health texts)) d ∧ evaluated x health reasons
  | Err _ => d' = d
  end.

Lemma store_health render id d x health reasons :
  devices d !! id = Some x → evaluated x health reasons →
  always (UpdateHealth id health (map render reasons);; mret (M := DevM) (health, map render reasons))
    (evaluation_outcome render id d) d.
Proof.
  intros Hx He. apply always_mbind, always_mexec; [done|]. apply always_mret. exists x, reasons. done.
Qed.

(** A health evaluation that succeeds has stored exactly what it returns,
    and the state follows the device: offline and revoked devices get their
    fixed state with no reasons; otherwise the state is critical exactly when
    a fixed disk is at or over the critical threshold and healthy exactly
    when there is nothing to report.  When it fails, nothing was stored. *)
Theorem health_evaluation_sound render th id now d :
  always (Evaluate render th id now) (evaluation_outcome render id d) d.
Proof.
  unfold Evaluate. apply always_mbind. unfold GetByID. apply always_mbind, always_mquery; [done|].
  destruct (devices d !! id) as [x|] eqn:Ex; [apply always_mret|by apply always_mfail].
  assert (∀ rs, dv_Status x ≠ StatusOffline → dv_Status x ≠ StatusRevoked → evaluated x (health_of rs) rs)
    as Hlive.
  { intros rs H1 H2. unfold evaluated. destruct (dv_Status x); done || apply health_of_spec. }
  destruct (dv_Status x) eqn:Est.
  4: { apply (store_health render id d x HealthOffline []); [done|]. unfold evaluated. by rewrite Est. }
  4: { apply (store_health render id d x HealthUnknown []); [done|]. unfold evaluated. by rewrite Est. }
  all: apply always_mbind, always_mquery; [done|]; apply always_mbind;
    destruct (head _); [apply always_mbind, always_mquery; [done|]|]; apply always_mret;
    apply (store_health render id d x); auto.
Qed.
