(* ===== verification/Alerting.v ===== *)
(** Alert rules ([internal/alerting/alerting.go], [internal/alerting/engine.go]):
    rules with a scope, alerts that open, are acknowledged and resolve, and
    the periodic evaluation that drives them. *)
From S2P Require Import Prelude Device Metrics Monitoring.

Inductive alert_error : Type := AlertNotFound | AlertBadConfig | AlertDB.

Inductive RuleType : Type :=
| RuleOffline | RuleCPU | RuleRAM | RuleDisk | RuleService | RuleAgentVersion | RuleOther (name : string).
Inductive RuleScope : Type := RScopeGlobal | RScopeCustomer | RScopeGroup | RScopeDevice.
(* internal/alerting/alerting.go:38-42 AlertStateOpen *)
Inductive AlertState : Type := AlertOpen | AlertAcknowledged | AlertResolved.
#[export] Instance AlertState_eq_dec : EqDecision AlertState.
Proof. solve_decision. Defined.

(* internal/alerting/alerting.go:46-53 Rule *)
Record Rule : Type := mkRule {
  rl_ScopeType : RuleScope;
  rl_ScopeID : option uuid;
  rl_RuleType : RuleType;
  rl_Config : bytes;
  rl_Enabled : bool }.

(* internal/alerting/alerting.go:55-64 Alert *)
Record Alert : Type := mkAlert {
  al_DeviceID : uuid;
  al_RuleID : option uuid;
  al_Critical : bool;
  al_State : AlertState;
  al_OpenedAt : time;
  al_ResolvedAt : option time;
  al_Summary : string }.

Record alert_db : Type := mkAlertDB {
  ad_rules : gmap uuid Rule;
  ad_alerts : gmap uuid Alert;
  ad_registry : dev_db }.
Definition on_rules (f : gmap uuid Rule → gmap uuid Rule) (d : alert_db) : alert_db :=
  mkAlertDB (f (ad_rules d)) (ad_alerts d) (ad_registry d).
Definition on_alerts (f : gmap uuid Alert → gmap uuid Alert) (d : alert_db) : alert_db :=
  mkAlertDB (ad_rules d) (f (ad_alerts d)) (ad_registry d).

Abbreviation AlertM := (M alert_db alert_error).

Definition active (a : Alert) : bool := negb (bool_decide (al_State a = AlertResolved)).
Definition active_for (deviceID ruleID : uuid) (a : Alert) : bool :=
  (al_DeviceID a =? deviceID)%N && bool_decide (al_RuleID a = Some ruleID) && active a.

(** ** Repository *)

Section repo.
(** [ORDER BY rule_type, scope_type]. *)
Context (rule_le : uuid * Rule → uuid * Rule → bool).
(* internal/alerting/alerting.go:74-90 ListRules *)
Definition ListRules : AlertM (list (uuid * Rule)) :=
  mquery AlertDB (λ d, order_by rule_le (map_to_list (ad_rules d))).
End repo.

(* internal/alerting/alerting.go:92-104 CreateRule *)
Definition CreateRule (r : Rule) : AlertM (uuid * Rule) :=
  let r := mkRule (rl_ScopeType r) (rl_ScopeID r) (rl_RuleType r)
             (match rl_Config r with [] => str_bytes "{}" | c => c end) (rl_Enabled r) in
  mstmt AlertDB (λ d,
    let id := fresh (dom (ad_rules d)) in (Ok (id, r), on_rules (<[id := r]>) d)).

(* internal/alerting/alerting.go:106-116 SetRuleEnabled *)
Definition SetRuleEnabled (id : uuid) (enabled : bool) : AlertM unit :=
  n ← mstmt AlertDB (λ d, (Ok (rows_with_id id (ad_rules d)), on_rules (update_id id (λ r,
        mkRule (rl_ScopeType r) (rl_ScopeID r) (rl_RuleType r) (rl_Config r) enabled)) d));
  if n =? 0 then mfail AlertNotFound else mret tt.

(** [ON DELETE SET NULL] on [alerts.rule_id]. *)
Definition forget_rule (id : uuid) (a : Alert) : Alert :=
  if bool_decide (al_RuleID a = Some id)
  then mkAlert (al_DeviceID a) None (al_Critical a) (al_State a) (al_OpenedAt a) (al_ResolvedAt a)
         (al_Summary a)
  else a.

(* internal/alerting/alerting.go:118-127 DeleteRule *)
Definition DeleteRule (id : uuid) : AlertM unit :=
  n ← mstmt AlertDB (λ d,
        (Ok (rows_with_id id (ad_rules d)),
         on_alerts (fmap (forget_rule id)) (on_rules (delete id) d)));
  if n =? 0 then mfail AlertNotFound else mret tt.

(* internal/alerting/alerting.go:129-165 ListAlerts *)
Definition ListAlerts (deviceID : option uuid) (state : option AlertState) : AlertM (list (uuid * Alert)) :=
  mquery AlertDB (λ d,
    take 500 (order_by (λ a b, (al_OpenedAt b.2 <=? al_OpenedAt a.2)%Z)
      (select_where (λ _ a,
         match deviceID with None => true | Some i => (al_DeviceID a =? i)%N end &&
         match state with None => true | Some s => bool_decide (al_State a = s) end) (ad_alerts d)))).

(* internal/alerting/alerting.go:167-174 CountOpen *)
Definition CountOpen : AlertM nat := mquery AlertDB (λ d, count_where (λ _ a, active a) (ad_alerts d)).

(* internal/alerting/alerting.go:176-196 OpenIfNotExists *)
Definition OpenIfNotExists (deviceID ruleID : uuid) (critical : bool) (summary : string) (now : time)
    : AlertM bool :=
  existing ← mquery AlertDB (λ d, select_one (λ _ a, active_for deviceID ruleID a) (ad_alerts d));
  match existing with
  | Some _ => mret false
  | None =>
      mstmt AlertDB (λ d,
        if has_device deviceID (ad_registry d) && negb (is_null (ad_rules d !! ruleID)) then
          (Ok tt, on_alerts (λ t, <[fresh (dom t) := mkAlert deviceID (Some ruleID) critical AlertOpen
                                     now None summary]> t) d)
        else (Err AlertDB, d));;
      mret true
  end.

Definition resolve (now : time) (a : Alert) : Alert :=
  mkAlert (al_DeviceID a) (al_RuleID a) (al_Critical a) AlertResolved (al_OpenedAt a) (Some now)
    (al_Summary a).

(* internal/alerting/alerting.go:198-210 AutoResolveIfOpen *)
Definition AutoResolveIfOpen (deviceID ruleID : uuid) (now : time) : AlertM bool :=
  n ← mstmt AlertDB (λ d,
        (Ok (count_where (λ _ a, active_for deviceID ruleID a) (ad_alerts d)),
         on_alerts (update_where (λ _ a, active_for deviceID ruleID a) (resolve now)) d));
  mret (0 <? n).

Definition acknowledge (a : Alert) : Alert :=
  mkAlert (al_DeviceID a) (al_RuleID a) (al_Critical a) AlertAcknowledged (al_OpenedAt a)
    (al_ResolvedAt a) (al_Summary a).

(* internal/alerting/alerting.go:212-221 Acknowledge *)
Definition Acknowledge (id : uuid) : AlertM unit :=
  n ← mstmt AlertDB (λ d,
        let p := λ (k : uuid) a, (k =? id)%N && bool_decide (al_State a = AlertOpen) in
        (Ok (count_where p (ad_alerts d)), on_alerts (update_where p acknowledge) d));
  if n =? 0 then mfail AlertNotFound else mret tt.

(* internal/alerting/alerting.go:223-232 Resolve *)
Definition Resolve (id : uuid) (now : time) : AlertM unit :=
  n ← mstmt AlertDB (λ d,
        let p := λ (k : uuid) a, (k =? id)%N && active a in
        (Ok (count_where p (ad_alerts d)), on_alerts (update_where p (resolve now)) d));
  if n =? 0 then mfail AlertNotFound else mret tt.

(* internal/alerting/alerting.go:234-247 Delete *)
Definition DeleteAlert (id : uuid) : AlertM unit :=
  n ← mstmt AlertDB (λ d, (Ok (rows_with_id id (ad_alerts d)), on_alerts (delete id) d));
  if n =? 0 then mfail AlertNotFound else mret tt.

(** ** Scopes *)

(* internal/alerting/engine.go:114-153 scopedDevices *)
Definition scopedDevices (all : list (uuid * Device)) (rule : Rule) : list (uuid * Device) :=
  match rl_ScopeType rule with
  | RScopeGlobal => all
  | RScopeCustomer =>
      match rl_ScopeID rule with
      | None => []
      | Some c => filter (λ d, dv_CustomerID d.2 = Some c) all
      end
  | RScopeGroup =>
      match rl_ScopeID rule with
      | None => []
      | Some g => filter (λ d, dv_GroupID d.2 = Some g) all
      end
  | RScopeDevice =>
      match rl_ScopeID rule with
      | None => []
      | Some i => match filter (λ d, d.1 = i) all with [] => [] | d :: _ => [d] end
      end
  end.

(** ** Evaluation *)

(** Why a rule triggered, before formatting. *)
Inductive trigger : Type :=
| TrOffline (name : string)
| TrCPU (pct threshold : float)
| TrRAM (pct threshold : float)
| TrDisk (path : string) (pct threshold : float)
| TrVersion (have want : string)
| TrServiceDown (name status : string)
| TrServiceMissing (name : string).
Definition tr_critical (t : trigger) : bool :=
  match t with TrOffline _ | TrServiceDown _ _ | TrServiceMissing _ => true | _ => false end.

(** The [json.Unmarshal] of a rule's configuration into the fields the rule
    type reads. *)
Class RuleConfig : Type := {
  cfg_threshold : bytes → option float;
  cfg_version : bytes → option string;
  cfg_service : bytes → option string }.

(** The rest of the system during one evaluation: the hub's [IsOnline], and
    the services an agent reports, [None] where it does not answer in time or
    its answer is not a success. *)
Record fleet : Type := mkFleet {
  fl_online : uuid → bool;
  fl_services : uuid → option (list (string * string)) }.

Section engine.
Context `{RuleConfig} (render : trigger → string) (fl : fleet).
Context (rule_le : uuid * Rule → uuid * Rule → bool) (collate_le : string → string → bool).

Definition registry {A} (m : DevM A) : AlertM A :=
  mwrap (λ _, AlertDB)
    (mzoom ad_registry (λ t d, mkAlertDB (ad_rules d) (ad_alerts d) t) m).

(* internal/alerting/engine.go:209-218 evaluateRule: the disk loop *)
Definition disk_trigger (threshold : float) (l : list FilesystemUsage) : option trigger :=
  head (omap (λ f,
    if (fs_TotalBytes f =? 0)%Z then None
    else
      let pct := percent (fs_UsedBytes f) (fs_TotalBytes f) in
      if f64_ge pct threshold then Some (TrDisk (fs_Path f) pct threshold) else None) l).

(* internal/alerting/engine.go:257-265 evaluateRule: the service loop *)
Definition service_trigger (name : string) (services : list (string * string)) : option trigger :=
  match find (λ s, String.eqb s.1 name) services with
  | Some (_, status) =>
      if negb (String.eqb status "running") then Some (TrServiceDown name status) else None
  | None => Some (TrServiceMissing name)
  end.

(* internal/alerting/engine.go:155-270 evaluateRule *)
Definition evaluateRule (rule : Rule) (id : uuid) (d : Device) : AlertM (option trigger) :=
  match rl_RuleType rule with
  | RuleOffline =>
      mret (if bool_decide (dv_Status d = StatusOffline) then Some (TrOffline (dv_DisplayName d)) else None)
  | RuleCPU =>
      match cfg_threshold (rl_Config rule) with
      | None => mfail AlertBadConfig
      | Some th =>
          latest ← registry (LatestMetrics id);
          mret (match latest with
                | Some m => if f64_ge (mt_CPUPercent m) th then Some (TrCPU (mt_CPUPercent m) th) else None
                | None => None
                end)
      end
  | RuleRAM =>
      match cfg_threshold (rl_Config rule) with
      | None => mfail AlertBadConfig
      | Some th =>
          latest ← registry (LatestMetrics id);
          mret (match latest with
                | Some m =>
                    if (mt_MemoryTotalBytes m =? 0)%Z then None
                    else
                      let pct := percent (mt_MemoryUsedBytes m) (mt_MemoryTotalBytes m) in
                      if f64_ge pct th then Some (TrRAM pct th) else None
                | None => None
                end)
      end
  | RuleDisk =>
      match cfg_threshold (rl_Config rule) with
      | None => mfail AlertBadConfig
      | Some th =>
          latest ← registry (LatestMetrics id);
          mret (match latest with
                | Some m => disk_trigger th (mt_Filesystems m)
                | None => None
                end)
      end
  | RuleAgentVersion =>
      match cfg_version (rl_Config rule) with
      | None => mfail AlertBadConfig
      | Some want =>
          mret (if negb (String.eqb (dv_AgentVersion d) "") && IsOlderVersion (dv_AgentVersion d) want
                then Some (TrVersion (dv_AgentVersion d) want) else None)
      end
  | RuleService =>
      match cfg_service (rl_Config rule) with
      | None => mfail AlertBadConfig
      | Some name =>
          mret (if String.eqb name "" || negb (fl_online fl id) then None
                else match fl_services fl id with
                     | None => None
                     | Some services => service_trigger name services
                     end)
      end
  | RuleOther _ => mret None
  end.

(** The body of the inner loop; every error is logged and the loop goes on. *)
Definition evaluate_pair (now : time) (ruleID : uuid) (rule : Rule) (id : uuid) (d : Device) : AlertM unit :=
  r ← mtry (E := alert_error) (evaluateRule rule id d);
  match r with
  | Err _ => mret tt
  | Ok (Some t) => mignore (E := alert_error) (OpenIfNotExists id ruleID (tr_critical t) (render t) now)
  | Ok None => mignore (E := alert_error) (AutoResolveIfOpen id ruleID now)
  end.

Fixpoint mfor {S E A} (l : list A) (f : A → M S E unit) : M S E unit :=
  match l with [] => mret tt | x :: rest => f x;; mfor rest f end.

(* internal/alerting/engine.go:55-112 Evaluate *)
Definition EvaluateAlerts (now : time) : AlertM unit :=
  rules ← ListRules rule_le;
  devices ← registry (ListAll collate_le);
  mfor rules (λ '(ruleID, rule),
    if negb (rl_Enabled rule) then mret tt
    else mfor (scopedDevices devices rule) (λ '(id, d), evaluate_pair now ruleID rule id d)).

(** ** At most one active alert per device and rule *)

Definition alerts_unique (d : alert_db) : Prop :=
  ∀ i j a b dev rule, ad_alerts d !! i = Some a → ad_alerts d !! j = Some b →
    active_for dev rule a = true → active_for dev rule b = true → i = j.

Definition keeps_unique (d d' : alert_db) : Prop := alerts_unique d → alerts_unique d'.
#[export] Instance keeps_unique_preorder : PreOrder keeps_unique.
Proof. split; [by intros d ?|]. intros d1 d2 d3 ??. unfold keeps_unique in *. auto. Qed.

Lemma keeps_unique_same d d' : ad_alerts d' = ad_alerts d → keeps_unique d d'.
Proof. unfold keeps_unique, alerts_unique. by intros ->. Qed.

(** Rewriting rows in place keeps uniqueness as long as no row becomes active
    for a pair it was not active for. *)
Lemma keeps_unique_update d f :
  (∀ i a dev rule, active_for dev rule (f i a) = true → active_for dev rule a = true) →
  keeps_unique d (on_alerts (map_imap (λ i a, Some (f i a))) d).
Proof.
  intros Hf Hu i j a b dev rule. simpl. rewrite !map_lookup_imap.
  destruct (ad_alerts d !! i) as [a0|] eqn:Ea, (ad_alerts d !! j) as [b0|] eqn:Eb; simpl; try done.
  intros [= <-] [= <-] Ha Hb. eapply Hu; eauto.
Qed.

Lemma resolve_inactive now a dev rule : active_for dev rule (resolve now a) = false.
Proof. unfold active_for, active, resolve. simpl. by rewrite andb_false_r. Qed.

Lemma keeps_unique_resolve d p now : keeps_unique d (on_alerts (update_where p (resolve now)) d).
Proof.
  apply keeps_unique_update with (f := λ i a, if p i a then resolve now a else a).
  intros i a dev rule. destruct (p i a); [by rewrite resolve_inactive|done].
Qed.

Lemma OpenIfNotExists_unique dev rule c s now : preserves keeps_unique (OpenIfNotExists dev rule c s now).
Proof.
  intros d. unfold OpenIfNotExists. apply always_mbind, always_mquery; [done|].
  destruct (select_one _ _) eqn:E; [by apply always_mret|].
  rewrite select_one_None in E.
  apply always_mbind, always_mstmt; [done|]. destruct (_ && _); simpl; [|done].
  apply always_mret. intros Hu i j a b dev' rule'. simpl. rewrite !lookup_insert.
  intros Ha Hb Aa Ab.
  destruct (decide (fresh (dom (ad_alerts d)) = i)) as [Ei|Ni],
           (decide (fresh (dom (ad_alerts d)) = j)) as [Ej|Nj]; [congruence|..|eauto].
  - injection Ha as <-. unfold active_for in Aa. simpl in Aa. reflect_bools. simplify_eq.
    by rewrite (E j b Hb) in Ab.
  - injection Hb as <-. unfold active_for in Ab. simpl in Ab. reflect_bools. simplify_eq.
    by rewrite (E i a Ha) in Aa.
Qed.

Lemma AutoResolve_unique dev rule now : preserves keeps_unique (AutoResolveIfOpen dev rule now).
Proof.
  unfold AutoResolveIfOpen. preserve_step; [|preserve_steps].
  apply preserves_mstmt; [apply _|]. intros d. apply keeps_unique_resolve.
Qed.

Lemma registry_unique {A} (m : DevM A) : preserves keeps_unique (registry m).
Proof.
  unfold registry. apply preserves_mwrap. intros d. apply always_mzoom.
  apply always_any. intros r t. by apply keeps_unique_same.
Qed.
#[local] Hint Resolve OpenIfNotExists_unique AutoResolve_unique registry_unique : preserve.

Lemma evaluate_pair_unique now rid rule id d : preserves keeps_unique (evaluate_pair now rid rule id d).
Proof. unfold evaluate_pair, evaluateRule. preserve_steps. Qed.

Lemma mfor_preserves {S E A} (R : S → S → Prop) `{!PreOrder R} (l : list A) (f : A → M S E unit) :
  (∀ x, preserves R (f x)) → preserves R (mfor l f).
Proof. intros Hf. induction l as [|x l IH]; cbn [mfor]; [preserve_steps|]. preserve_step; auto. Qed.

Lemma EvaluateAlerts_unique now : preserves keeps_unique (EvaluateAlerts now).
Proof.
  unfold EvaluateAlerts, ListRules. preserve_steps.
  apply mfor_preserves; [apply _|]. intros [rid rule]. destruct (negb _); [preserve_steps|].
  apply mfor_preserves; [apply _|]. intros [id d]. apply evaluate_pair_unique.
Qed.

(** The operations on alerts and rules. *)
Lemma Acknowledge_unique id : preserves keeps_unique (Acknowledge id).
Proof using Type.
  unfold Acknowledge. preserve_step; [|preserve_steps]. apply preserves_mstmt; [apply _|]. intros d. simpl.
  apply keeps_unique_update with (f := λ i a,
    if (i =? id)%N && bool_decide (al_State a = AlertOpen) then acknowledge a else a).
  intros i a dev rule. destruct (_ && _) eqn:E; [|done]. apply andb_true_iff in E as [_ E].
  apply bool_decide_eq_true in E. unfold active_for, active. by rewrite E.
Qed.
Lemma Resolve_unique id now : preserves keeps_unique (Resolve id now).
Proof using Type.
  unfold Resolve. preserve_step; [|preserve_steps]. apply preserves_mstmt; [apply _|]. intros d.
  apply keeps_unique_resolve.
Qed.
Lemma keeps_unique_sub d (t : gmap uuid Alert) :
  (∀ i a, t !! i = Some a → ad_alerts d !! i = Some a) → keeps_unique d (on_alerts (λ _, t) d).
Proof using Type. intros Hsub Hu i j a b dev rule Ha Hb. apply Hu; by apply Hsub. Qed.
Lemma DeleteAlert_unique id : preserves keeps_unique (DeleteAlert id).
Proof using Type.
  unfold DeleteAlert. preserve_step; [|preserve_steps]. apply preserves_mstmt; [apply _|]. intros d.
  apply (keeps_unique_sub d (delete id (ad_alerts d))). by intros i a [_ Ha]%lookup_delete_Some.
Qed.
Lemma CreateRule_unique r : preserves keeps_unique (CreateRule r).
Proof using Type. apply preserves_mstmt; [apply _|]. intros d. by apply keeps_unique_same. Qed.
Lemma SetRuleEnabled_unique id b : preserves keeps_unique (SetRuleEnabled id b).
Proof using Type.
  unfold SetRuleEnabled. preserve_step; [|preserve_steps]. apply preserves_mstmt; [apply _|]. intros d.
  by apply keeps_unique_same.
Qed.
Lemma DeleteRule_unique id : preserves keeps_unique (DeleteRule id).
Proof using Type.
  unfold DeleteRule. preserve_step; [|preserve_steps]. apply preserves_mstmt; [apply _|]. intros d Hu.
  intros i j a b dev rule. simpl. rewrite !lookup_fmap.
  destruct (ad_alerts d !! i) as [a0|] eqn:Ea, (ad_alerts d !! j) as [b0|] eqn:Eb; simpl; try done.
  intros [= <-] [= <-].
  assert (∀ x, active_for dev rule (forget_rule id x) = true → active_for dev rule x = true) as Hf.
  { intros x. unfold forget_rule. case_bool_decide; [|done]. unfold active_for at 1. simpl.
    by rewrite andb_false_r. }
  intros Ha Hb. eapply Hu; eauto.
Qed.

Inductive alert_step : alert_db → alert_db → Prop :=
| as_evaluate now d d' : effect (EvaluateAlerts now) d d' → alert_step d d'
| as_acknowledge id d d' : effect (Acknowledge id) d d' → alert_step d d'
| as_resolve id now d d' : effect (Resolve id now) d d' → alert_step d d'
| as_delete id d d' : effect (DeleteAlert id) d d' → alert_step d d'
| as_create_rule r d d' : effect (CreateRule r) d d' → alert_step d d'
| as_enable_rule id b d d' : effect (SetRuleEnabled id b) d d' → alert_step d d'
| as_delete_rule id d d' : effect (DeleteRule id) d d' → alert_step d d'
| as_registry d d' : ad_rules d' = ad_rules d → ad_alerts d' = ad_alerts d → alert_step d d'.

Lemma alert_step_unique d d' : alert_step d d' → keeps_unique d d'.
Proof.
  intros Hs. destruct Hs as [now d d' E|id d d' E|id now d d' E|id d d' E|r d d' E|id b d d' E
    |id d d' E|d d' _ E]; [revert E; apply effect_always..|by apply keeps_unique_same].
  - apply EvaluateAlerts_unique.
  - apply Acknowledge_unique.
  - apply Resolve_unique.
  - apply DeleteAlert_unique.
  - apply CreateRule_unique.
  - apply SetRuleEnabled_unique.
  - apply DeleteRule_unique.
Qed.

(** A condition that keeps holding never piles up alerts: in every state
    reached by evaluations (with any faults), acknowledgements, resolutions,
    deletions and rule changes, each device has at most one active alert per
    rule. *)
Theorem alerts_never_duplicate d d' :
  alerts_unique d → reachable (eq d) alert_step d' → alerts_unique d'.
Proof.
  intros Hu Hr. enough (keeps_unique d d') by auto. revert d' Hr.
  apply invariant_reachable; [by intros ? <-|].
  intros s s' Hs Hst. etrans; [exact Hs|by apply alert_step_unique].
Qed.

(** ** Alerts follow the conditions *)

(** The outcome of [evaluateRule] without faults, as a function of the
    registry. *)
Definition trigger_of (reg : dev_db) (rule : Rule) (id : uuid) (d : Device) : res alert_error (option trigger) :=
  (run (evaluateRule rule id d) (mkAlertDB ∅ ∅ reg)).1.

Lemma evaluateRule_exec rule id d db :
  evaluateRule rule id d (World db []) = (trigger_of (ad_registry db) rule id d, World db []).
Proof.
  unfold trigger_of, evaluateRule, registry, LatestMetrics.
  destruct (rl_RuleType rule); repeat case_match; run_unfold; simpl; destruct db; done.
Qed.

Definition has_active (dev rule : uuid) (db : alert_db) : Prop :=
  ∃ i a, ad_alerts db !! i = Some a ∧ active_for dev rule a = true.

(** What handling one pair does to the alert table. *)
Definition pair_effect (now : time) (rid : uuid) (rule : Rule) (id : uuid) (d : Device) (db : alert_db)
    : alert_db :=
  match trigger_of (ad_registry db) rule id d with
  | Err _ => db
  | Ok (Some t) =>
      match select_one (λ _ a, active_for id rid a) (ad_alerts db) with
      | Some _ => db
      | None =>
          if has_device id (ad_registry db) && negb (is_null (ad_rules db !! rid)) then
            on_alerts (λ tb, <[fresh (dom tb) := mkAlert id (Some rid) (tr_critical t) AlertOpen now
                                  None (render t)]> tb) db
          else db
      end
  | Ok None => on_alerts (update_where (λ _ a, active_for id rid a) (resolve now)) db
  end.

Lemma evaluate_pair_exec now rid rule id d db :
  evaluate_pair now rid rule id d (World db []) = (Ok tt, World (pair_effect now rid rule id d db) []).
Proof.
  unfold evaluate_pair. unfold mbind at 1, M_bind at 1, mtry at 1. rewrite evaluateRule_exec.
  unfold pair_effect. destruct (trigger_of _ _ _ _) as [[t|]|e]; [|done..].
  unfold OpenIfNotExists. run_unfold. simpl. destruct (select_one _ _); [done|].
  simpl. by destruct (_ && _).
Qed.

Lemma pair_effect_frame now rid rule id d db :
  ad_rules (pair_effect now rid rule id d db) = ad_rules db ∧
  ad_registry (pair_effect now rid rule id d db) = ad_registry db.
Proof. unfold pair_effect. repeat case_match; done. Qed.

Lemma mfor_exec {A S E} (l : list A) (f : A → M S E unit) (g : A → S → S) db :
  (∀ x db, f x (World db []) = (Ok tt, World (g x db) [])) →
  mfor l f (World db []) = (Ok tt, World (fold_left (λ db x, g x db) l db) []).
Proof.
  intros Hf. revert db. induction l as [|x l IH]; intros db; cbn [mfor fold_left]; [done|].
  unfold mbind, M_bind. by rewrite Hf, IH.
Qed.

(** The pairs an evaluation visits, in order. *)
Definition visited (devs : list (uuid * Device)) (rules : list (uuid * Rule))
    : list ((uuid * Rule) * (uuid * Device)) :=
  flat_map (λ r, if negb (rl_Enabled r.2) then [] else map (λ d, (r, d)) (scopedDevices devs r.2)) rules.
Definition visit (now : time) (db : alert_db) (p : (uuid * Rule) * (uuid * Device)) : alert_db :=
  pair_effect now p.1.1 p.1.2 p.2.1 p.2.2 db.

Lemma EvaluateAlerts_exec now db :
  let devs := order_by (by_name collate_le)
    (select_where (λ _ x, negb (bool_decide (dv_Status x = StatusRevoked))) (devices (ad_registry db))) in
  let rules := order_by rule_le (map_to_list (ad_rules db)) in
  EvaluateAlerts now (World db []) =
    (Ok tt, World (fold_left (visit now) (visited devs rules) db) []).
Proof.
  intros devs rules. unfold EvaluateAlerts, ListRules, registry, ListAll.
  unfold mbind at 1, M_bind at 1, mquery at 1, mstmt at 1. cbn [pop_fault w_faults w_db]. fold rules.
  unfold mbind at 1, M_bind at 1, mwrap, mzoom, mquery, mstmt. cbn [pop_fault w_faults w_db].
  fold devs. replace (mkAlertDB (ad_rules db) (ad_alerts db) (ad_registry db)) with db by by destruct db.
  rewrite (mfor_exec rules _ (λ r db, fold_left (visit now)
    (if negb (rl_Enabled r.2) then [] else map (λ d, (r, d)) (scopedDevices devs r.2)) db)).
  - f_equal. f_equal. clearbody devs rules. revert db.
    induction rules as [|r rules IH]; intros db; [done|]. simpl. rewrite fold_left_app. apply IH.
  - intros [rid rule] db'. cbn [fst snd]. destruct (negb _); [done|].
    rewrite (mfor_exec _ _ (λ p db, visit now db ((rid, rule), p))).
    + f_equal. f_equal. generalize (scopedDevices devs rule) as l. intros l. revert db'.
      induction l as [|x l IH]; intros db'; simpl; auto.
    + intros [id d] db2. apply evaluate_pair_exec.
Qed.

Lemma visit_active now db p dev rid :
  let '((r, rule), (id, d)) := p in
  has_device id (ad_registry db) = true → is_null (ad_rules db !! r) = false →
  has_active dev rid (visit now db p) ↔
    if bool_decide (dev = id ∧ rid = r) then
      match trigger_of (ad_registry db) rule id d with
      | Ok (Some _) => True
      | Ok None => False
      | Err _ => has_active dev rid db
      end
    else has_active dev rid db.
Proof.
  destruct p as [[r rule] [id d]]. intros Hdev Hrule. unfold visit, pair_effect. cbn [fst snd].
  destruct (trigger_of _ _ _ _) as [[t|]|e] eqn:Et; [| |by case_bool_decide].
  - destruct (select_one _ _) as [[i a]|] eqn:Es.
    + case_bool_decide as Hk; [|done]. destruct Hk as [-> ->]. split; [done|]. intros _.
      apply select_one_Some in Es as [Hi Ha]. by exists i, a.
    + rewrite Hdev, Hrule. simpl. split.
      * intros (i & a & Hi & Ha). simpl in Hi. rewrite lookup_insert in Hi. case_decide.
        -- injection Hi as <-. unfold active_for in Ha. simpl in Ha. reflect_bools.
           rewrite bool_decide_eq_true_2; [done|]. by simplify_eq.
        -- case_bool_decide; [done|]. by exists i, a.
      * case_bool_decide as Hk.
        -- destruct Hk as [-> ->]. intros _. eexists _, _. simpl. rewrite lookup_insert_eq.
           split; [done|]. unfold active_for. simpl. rewrite N.eqb_refl. by rewrite bool_decide_eq_true_2.
        -- intros (i & a & Hi & Ha). exists i, a. simpl. rewrite lookup_insert_ne; [done|].
           intros <-. apply (is_fresh (dom (ad_alerts db))). by apply elem_of_dom_2 in Hi.
  - split.
    + intros (i & a & Hi & Ha). simpl in Hi. rewrite lookup_update_where in Hi.
      destruct (ad_alerts db !! i) as [a0|] eqn:Ei; [|done]. simpl in Hi. injection Hi as <-.
      destruct (active_for id r a0) eqn:Eact; [by rewrite resolve_inactive in Ha|].
      case_bool_decide as Hk; [destruct Hk as [-> ->]; congruence|]. by exists i, a0.
    + case_bool_decide as Hk; [done|]. intros (i & a & Hi & Ha). exists i. eexists. simpl.
      rewrite lookup_update_where, Hi. simpl. split; [done|].
      destruct (active_for id r a) eqn:Eact; [|done]. destruct Hk.
      unfold active_for in Ha, Eact. reflect_bools. split; congruence.
Qed.

Definition in_scope (rule : Rule) (id : uuid) (d : Device) : Prop :=
  match rl_ScopeType rule with
  | RScopeGlobal => True
  | RScopeCustomer => ∃ c, rl_ScopeID rule = Some c ∧ dv_CustomerID d = Some c
  | RScopeGroup => ∃ g, rl_ScopeID rule = Some g ∧ dv_GroupID d = Some g
  | RScopeDevice => rl_ScopeID rule = Some id
  end.

Lemma scopedDevices_spec all rule id d :
  (∀ x y, x ∈ all → y ∈ all → x.1 = y.1 → x = y) →
  (id, d) ∈ scopedDevices all rule ↔ (id, d) ∈ all ∧ in_scope rule id d.
Proof.
  intros Hkey. unfold scopedDevices, in_scope. destruct (rl_ScopeType rule), (rl_ScopeID rule) as [i|];
    rewrite ?list_elem_of_filter; simpl; rewrite ?elem_of_nil; try naive_solver.
  destruct (filter (λ d0 : uuid * Device, d0.1 = i) all) as [|x l] eqn:E.
  - rewrite elem_of_nil. split; [done|]. intros [Hin [= ->]].
    by apply (filter_nil_not_elem_of _ _ (id, d)) in E.
  - assert (x ∈ all ∧ x.1 = i) as [Hx Hi].
    { assert (x ∈ filter (λ d0 : uuid * Device, d0.1 = i) all) as Hf by (rewrite E; left).
      apply list_elem_of_filter in Hf. tauto. }
    rewrite list_elem_of_singleton. split.
    + intros <-. simpl in Hi. by subst.
    + intros [Hin [= ->]]. by apply Hkey.
Qed.

Definition same_frame (db db' : alert_db) : Prop :=
  ad_rules db' = ad_rules db ∧ ad_registry db' = ad_registry db.

(** A list of pairs as the tables have them. *)
Definition from_tables (db : alert_db) (l : list ((uuid * Rule) * (uuid * Device))) : Prop :=
  ∀ r rule id d, ((r, rule), (id, d)) ∈ l →
    ad_rules db !! r = Some rule ∧ devices (ad_registry db) !! id = Some d.

Definition pair_keys (l : list ((uuid * Rule) * (uuid * Device))) : list (uuid * uuid) :=
  map (λ p, (p.1.1, p.2.1)) l.

Lemma visits_active now l db id rid rule d :
  from_tables db l → ad_rules db !! rid = Some rule → devices (ad_registry db) !! id = Some d →
  let db' := fold_left (visit now) l db in
  same_frame db db' ∧
  (has_active id rid db' ↔
    if bool_decide ((rid, id) ∈ pair_keys l) then
      match trigger_of (ad_registry db) rule id d with
      | Ok (Some _) => True
      | Ok None => False
      | Err _ => has_active id rid db
      end
    else has_active id rid db).
Proof.
  intros Hl Hrule Hdev. revert db Hl Hrule Hdev.
  induction l as [|p l IH]; intros db Hl Hrule Hdev; cbn [fold_left].
  { split; [done|]. by rewrite bool_decide_eq_false_2 by apply not_elem_of_nil. }
  destruct p as [[r ru] [i dd]]. destruct (Hl r ru i dd) as [Hr Hi]; [left|].
  pose proof (pair_effect_frame now r ru i dd db) as [F1 F2].
  destruct (IH (visit now db (r, ru, (i, dd)))) as [[G1 G2] Hact].
  { intros r' ru' i' d' Hin. unfold visit. cbn [fst snd]. rewrite F1, F2. apply Hl. by right. }
  { unfold visit. cbn [fst snd]. by rewrite F1. }
  { unfold visit. cbn [fst snd]. by rewrite F2. }
  assert (ad_registry (visit now db (r, ru, (i, dd))) = ad_registry db) as F2' by exact F2.
  rewrite F2' in G2, Hact. assert (ad_rules (visit now db (r, ru, (i, dd))) = ad_rules db) as F1' by exact F1.
  rewrite F1' in G1.
  split; [done|]. rewrite Hact.
  pose proof (visit_active now db (r, ru, (i, dd)) id rid) as Hv. cbv beta iota in Hv.
  unfold has_device in Hv. rewrite Hi, Hr in Hv. specialize (Hv eq_refl eq_refl).
  destruct (decide (id = i ∧ rid = r)) as [[-> ->]|Hne].
  - rewrite bool_decide_eq_true_2 in Hv by done.
    assert (ru = rule) as -> by congruence. assert (dd = d) as -> by congruence.
    rewrite (bool_decide_eq_true_2 (_ ∈ pair_keys (_ :: l))) by left. destruct (trigger_of _ _ _ _) as [[t|]|e];
      case_bool_decide; tauto.
  - rewrite bool_decide_eq_false_2 in Hv by done.
    rewrite (bool_decide_ext ((rid, id) ∈ pair_keys ((r, ru, (i, dd)) :: l)) ((rid, id) ∈ pair_keys l)).
    2:{ cbn [pair_keys map fst snd]. rewrite elem_of_cons. split; [|by right].
        intros [[= ? ?]|]; [naive_solver|done]. }
    destruct (trigger_of _ _ _ _) as [[t|]|e]; case_bool_decide; tauto.
Qed.

Lemma evaluation_follows now db db' rid rule id d :
  run (EvaluateAlerts now) db = (Ok tt, db') →
  ad_rules db !! rid = Some rule → rl_Enabled rule = true →
  devices (ad_registry db) !! id = Some d → dv_Status d ≠ StatusRevoked → in_scope rule id d →
  match trigger_of (ad_registry db) rule id d with
  | Ok (Some _) => has_active id rid db'
  | Ok None => ¬ has_active id rid db'
  | Err _ => has_active id rid db' ↔ has_active id rid db
  end.
Proof.
  intros Hrun Hrule Hen Hdev Hrev Hsc. unfold run in Hrun. rewrite EvaluateAlerts_exec in Hrun.
  cbv beta iota zeta in Hrun. cbn [w_db] in Hrun. injection Hrun as <-.
  set (devs := order_by _ (select_where _ _)). set (rules := order_by rule_le _).
  assert (∀ x, x ∈ devs ↔ devices (ad_registry db) !! x.1 = Some x.2 ∧ dv_Status x.2 ≠ StatusRevoked) as Hdevs.
  { intros [i x]. unfold devs. rewrite elem_of_order_by, elem_of_select_where, negb_true_iff,
      bool_decide_eq_false. done. }
  assert (∀ x y, x ∈ devs → y ∈ devs → x.1 = y.1 → x = y) as Hkey.
  { intros [i x] [j y] Hx Hy E. simpl in E. subst. apply Hdevs in Hx as [Hx _], Hy as [Hy _].
    simpl in *. congruence. }
  assert (∀ r ru i x, ((r, ru), (i, x)) ∈ visited devs rules ↔
    ad_rules db !! r = Some ru ∧ rl_Enabled ru = true ∧ (i, x) ∈ devs ∧ in_scope ru i x) as Hvis.
  { intros r ru i x. unfold visited. rewrite list_elem_of_In, in_flat_map.
    setoid_rewrite <-list_elem_of_In. split.
    - intros ([r' ru'] & Hin & Hp). apply elem_of_order_by, elem_of_map_to_list in Hin. cbn [snd] in Hp.
      destruct (rl_Enabled ru') eqn:Een; cbn [negb] in Hp; [|by apply elem_of_nil in Hp].
      apply list_elem_of_fmap in Hp as (y & [= -> -> <-] & Hp). by rewrite scopedDevices_spec in Hp.
    - intros (Hr & Her & Hin). exists (r, ru). split; [by apply elem_of_order_by, elem_of_map_to_list|].
      cbn [snd]. rewrite Her. apply list_elem_of_fmap. exists (i, x). by rewrite scopedDevices_spec. }
  destruct (visits_active now (visited devs rules) db id rid rule d) as [_ Hact]; [|done..|].
  { intros r ru i x Hin. apply Hvis in Hin as (Hr & _ & Hin & _). apply Hdevs in Hin as [Hin _]. done. }
  rewrite bool_decide_eq_true_2 in Hact.
  2:{ apply list_elem_of_fmap. exists ((rid, rule), (id, d)). split; [done|]. apply Hvis.
      split_and!; [done..| |done]. by apply Hdevs. }
  destruct (trigger_of _ _ _ _) as [[t|]|e]; tauto.
Qed.

(** Alerts mirror the conditions they watch: after an undisturbed
    evaluation, for every enabled rule and every non-revoked device in its
    scope there is an active alert exactly when the rule's condition holds;
    where the condition could not be determined the alert is as before. *)
Theorem alerts_follow_conditions now db db' rid rule id d :
  run (EvaluateAlerts now) db = (Ok tt, db') →
  ad_rules db !! rid = Some rule → rl_Enabled rule = true →
  devices (ad_registry db) !! id = Some d → dv_Status d ≠ StatusRevoked → in_scope rule id d →
  match trigger_of (ad_registry db) rule id d with
  | Ok (Some _) => has_active id rid db'
  | Ok None => ¬ has_active id rid db'
  | Err _ => has_active id rid db' ↔ has_active id rid db
  end.
Proof. apply evaluation_follows. Qed.

(** Service alerts flap with connectivity: when the agent of a device is
    not connected, evaluating an enabled service rule resolves the open alert
    of that device although nothing is known about the service. *)
Theorem service_alert_resolved_offline now db db' rid rule id d name :
  run (EvaluateAlerts now) db = (Ok tt, db') →
  ad_rules db !! rid = Some rule → rl_Enabled rule = true → rl_RuleType rule = RuleService →
  cfg_service (rl_Config rule) = Some name → fl_online fl id = false →
  devices (ad_registry db) !! id = Some d → dv_Status d ≠ StatusRevoked → in_scope rule id d →
  ¬ has_active id rid db'.
Proof.
  intros Hrun Hrule Hen Hty Hcfg Hoff Hdev Hrev Hsc.
  assert (trigger_of (ad_registry db) rule id d = Ok None) as Ht.
  { unfold trigger_of, evaluateRule. rewrite Hty, Hcfg, Hoff. by rewrite orb_true_r. }
  pose proof (evaluation_follows now db db' rid rule id d Hrun Hrule Hen Hdev Hrev Hsc) as Hm.
  by rewrite Ht in Hm.
Qed.

(** A removable drive can raise a disk alert but never a health warning:
    the disk rule of the alert engine does not skip removable filesystems,
    the health evaluation does. *)
Theorem disk_rule_counts_removable th f threshold :
  fs_Removable f = true → fs_TotalBytes f ≠ 0%Z →
  f64_ge (percent (fs_UsedBytes f) (fs_TotalBytes f)) threshold = true →
  disk_reasons th [f] = [] ∧
  disk_trigger threshold [f] =
    Some (TrDisk (fs_Path f) (percent (fs_UsedBytes f) (fs_TotalBytes f)) threshold).
Proof.
  intros Hr Ht Hge. unfold disk_reasons, disk_trigger. simpl. rewrite Hr, orb_true_r.
  apply Z.eqb_neq in Ht. rewrite Ht, Hge. done.
Qed.
End engine.

(** ** A concrete fleet *)

Definition demo_config : RuleConfig :=
  {| cfg_threshold _ := Some (f64_of_Z 90); cfg_version _ := Some "0.1.0"%string;
     cfg_service _ := Some "sshd"%string |}.
Definition demo_device (st : Status) : Device :=
  mkDevice 1 None None "pc" "pc" "" "" "" "" "0.2.0" st HealthUnknown [] [] "" (Some 0%Z) "" None
    CredActive None 0.
Definition demo_rule (t : RuleType) : Rule := mkRule RScopeGlobal None t [] true.
Definition demo_alerts (t : RuleType) (st : Status) : alert_db :=
  mkAlertDB {[3%N := demo_rule t]}
    {[9%N := mkAlert 7 (Some 3%N) true AlertAcknowledged 0 None "service sshd is stopped"]}
    (on_devices (<[7%N := demo_device st]>) empty_dev_db).
Definition demo_fleet : fleet := mkFleet (λ _, false) (λ _, None).
Definition demo_evaluate (now : time) : AlertM unit :=
  @EvaluateAlerts demo_config (λ _, ""%string) demo_fleet (λ _ _, true) (λ _ _, true) now.

Lemma demo_alerts_unique t st : alerts_unique (demo_alerts t st).
Proof.
  intros i j a b dev rule Ha Hb _ _. simpl in Ha, Hb.
  apply lookup_singleton_Some in Ha as [<- _], Hb as [<- _]. done.
Qed.
Lemma alerts_never_duplicate_witness :
  alerts_unique (run (demo_evaluate 5) (demo_alerts RuleOffline StatusOffline)).2.
Proof.
  apply (@alerts_never_duplicate demo_config (λ _, ""%string) demo_fleet (λ _ _, true) (λ _ _, true)
    (demo_alerts RuleOffline StatusOffline)); [apply demo_alerts_unique|].
  eapply reach_step; [by apply reach_init|]. eapply as_evaluate, effect_run.
Defined.

Lemma alerts_follow_conditions_witness :
  has_active 7 3 (run (demo_evaluate 5) (demo_alerts RuleOffline StatusOffline)).2 ∧
  ¬ has_active 7 3 (run (demo_evaluate 5) (demo_alerts RuleOffline StatusOnline)).2.
Proof.
  split.
  - apply (@alerts_follow_conditions demo_config (λ _, ""%string) demo_fleet (λ _ _, true) (λ _ _, true)
      5 (demo_alerts RuleOffline StatusOffline) _ 3 (demo_rule RuleOffline) 7 (demo_device StatusOffline));
      [vm_compute; reflexivity|apply lookup_singleton_eq|done|apply lookup_insert_eq|done|done].
  - apply (@alerts_follow_conditions demo_config (λ _, ""%string) demo_fleet (λ _ _, true) (λ _ _, true)
      5 (demo_alerts RuleOffline StatusOnline) _ 3 (demo_rule RuleOffline) 7 (demo_device StatusOnline));
      [vm_compute; reflexivity|apply lookup_singleton_eq|done|apply lookup_insert_eq|done|done].
Defined.

Lemma service_alert_resolved_offline_witness :
  has_active 7 3 (demo_alerts RuleService StatusConnectionLost) ∧
  ¬ has_active 7 3 (run (demo_evaluate 5) (demo_alerts RuleService StatusConnectionLost)).2.
Proof.
  split.
  - eexists 9%N, _. split; [apply lookup_singleton_eq|reflexivity].
  - apply (@service_alert_resolved_offline demo_config (λ _, ""%string) demo_fleet (λ _ _, true)
      (λ _ _, true) 5 (demo_alerts RuleService StatusConnectionLost) _ 3 (demo_rule RuleService) 7
      (demo_device StatusConnectionLost) "sshd");
      [vm_compute; reflexivity|apply lookup_singleton_eq|done|done|done|done|apply lookup_insert_eq|done|done].
Defined.

Lemma disk_rule_counts_removable_witness :
  disk_reasons DefaultThresholds [mkFilesystem "/media/usb" 99 100 true] = [] ∧
  disk_trigger (f64_of_Z 90) [mkFilesystem "/media/usb" 99 100 true] ≠ None.
Proof.
  destruct (disk_rule_counts_removable DefaultThresholds (mkFilesystem "/media/usb" 99 100 true)
    (f64_of_Z 90)) as [E1 E2]; [done|done|vm_compute; reflexivity|].
  split; [exact E1|]. by rewrite E2.
Defined.
