(* ===== verification/Messages.v ===== *)
(** The payloads of the control channel ([internal/protocol/protocol.go],
    [session.go], [commands.go]) with their fields. *)
From S2P Require Import Prelude Protocol Device Metrics.

(** ** Handshake *)

(* internal/protocol/protocol.go:92-95 ControlChallengePayload *)
Record ControlChallengePayload : Type := mkChallenge {
  cc_Nonce : string;
  cc_ExpiresAt : time }.

(* internal/protocol/protocol.go:98-114 HelloPayload *)
Record HelloPayload : Type := mkHello {
  he_DeviceID : string;
  he_InstallID : string;
  he_AgentVersion : string;
  he_OS : string;
  he_Arch : string;
  he_Capabilities : list string;
  he_BootID : string;
  he_Nonce : string;
  he_Signature : string;
  he_Secure : bool }.

(* internal/protocol/protocol.go:117-132 HelloAckPayload *)
Record HelloAckPayload : Type := mkHelloAck {
  ha_ConnectionID : string;
  ha_ServerTime : time;
  ha_HeartbeatIntervalSeconds : Z;
  ha_StatusIntervalSeconds : Z;
  ha_MaxMessageBytes : Z;
  ha_MinimumAgentVersion : string;
  ha_NetworkUploadIntervalSeconds : Z }.

(** ** Reports of the agent *)

(* internal/protocol/protocol.go:135-138 HeartbeatPayload *)
Record HeartbeatPayload : Type := mkHeartbeat {
  hbt_UptimeSeconds : Z;
  hbt_Sequence : Z }.

(* internal/protocol/protocol.go:141-143 InventoryRequestPayload *)
Record InventoryRequestPayload : Type := mkInventoryRequest { ir_Full : bool }.

(* internal/protocol/protocol.go:146-151 OSInfo *)
Record OSInfo : Type := mkOSInfo {
  os_Family : string;
  os_Distribution : string;
  os_Version : string;
  os_Kernel : string }.

(* internal/protocol/protocol.go:154-158 CPUInfo *)
Record CPUInfo : Type := mkCPUInfo {
  cpu_Model : string;
  cpu_Cores : Z;
  cpu_Threads : Z }.

(* internal/protocol/protocol.go:161-172 DiskInfo *)
Record DiskInfo : Type := mkDiskInfo {
  di_Path : string;
  di_Filesystem : string;
  di_UsedBytes : Z;
  di_TotalBytes : Z;
  di_Removable : bool }.

(* internal/protocol/protocol.go:175-180 InterfaceInfo *)
Record InterfaceInfo : Type := mkInterface {
  if_Name : string;
  if_MACAddress : string;
  if_IPv4 : list string;
  if_IPv6 : list string }.

(* internal/protocol/protocol.go:183-193 InventoryResponsePayload *)
Record InventoryResponsePayload : Type := mkInventory {
  in_Hostname : string;
  in_OS : OSInfo;
  in_CPU : CPUInfo;
  in_MemoryBytes : Z;
  in_Disks : list DiskInfo;
  in_Interfaces : list InterfaceInfo;
  in_AgentVersion : string;
  in_BootTime : option time;
  in_UptimeSeconds : Z }.

(* internal/protocol/protocol.go:196-199 MemoryUsage *)
Record MemoryUsage : Type := mkMemory {
  mu_UsedBytes : Z;
  mu_TotalBytes : Z }.

(* internal/protocol/protocol.go:211-216 MetricsReportPayload *)
Record MetricsReportPayload : Type := mkMetricsReport {
  mr_CPUPercent : float;
  mr_Memory : MemoryUsage;
  mr_Filesystems : list FilesystemUsage;
  mr_UptimeSeconds : Z }.

(* internal/protocol/protocol.go:224-227 SupportCredentialReportPayload *)
Record SupportCredentialReportPayload : Type := mkSupportCredential {
  sc_Username : string;
  sc_Password : string }.

(* internal/protocol/protocol.go:249-251 NetworkMetricsBatchPayload *)
Record NetworkMetricsBatchPayload : Type := mkNetworkBatch { nb_Samples : list NetSample }.

(* internal/protocol/protocol.go:262-265 ProtocolErrorPayload *)
Record ProtocolErrorPayload : Type := mkProtocolError {
  pe_Code : string;
  pe_Message : string }.

(** ** Remote sessions and commands *)

(* internal/protocol/session.go:16-21 SessionOpenResultPayload *)
Record SessionOpenResultPayload : Type := mkOpenResult {
  or_SessionID : string;
  or_Status : string;
  or_Code : string;
  or_Message : string }.

(* internal/protocol/session.go:27-32 SessionPrivilegeUpdatePayload *)
Record SessionPrivilegeUpdatePayload : Type := mkPrivilegeUpdate {
  pu_SessionID : string;
  pu_Privileged : bool;
  pu_ValidUntil : time;
  pu_AuthorizationID : string }.

(* internal/protocol/session.go:35-38 SessionClosePayload *)
Record SessionClosePayload : Type := mkSessionClose {
  cl_SessionID : string;
  cl_Reason : string }.

(* internal/protocol/session.go:41-45 TerminalResizePayload *)
Record TerminalResizePayload : Type := mkResize {
  tr_SessionID : string;
  tr_Cols : Z;
  tr_Rows : Z }.

(* internal/protocol/session.go:58-62 DeviceCommandPayload *)
Record DeviceCommandPayload : Type := mkCommand {
  dc_CommandID : string;
  dc_CommandType : string;
  dc_Params : bytes }.

(* internal/protocol/session.go:7-13 SessionOpenPayload *)
Record SessionOpenPayload : Type := mkSessionOpen {
  so_SessionID : string;
  so_Kind : string;
  so_ExpiresAt : time;
  so_Privileged : bool;
  so_Options : bytes }.

(** [Data] is the JSON of the value, if there is one. *)
(* internal/protocol/protocol.go:254-259 CommandResultPayload *)
Record CommandResultPayload : Type := mkResult {
  rp_Status : string;
  rp_Code : string;
  rp_Message : string;
  rp_Data : option bytes }.

(* internal/protocol/commands.go:9-11 ServiceActionParams *)
Record ServiceActionParams : Type := mkServiceAction { sa_Name : string }.
(* internal/protocol/commands.go:13-16 ProcessTerminateParams *)
Record ProcessTerminateParams : Type := mkTerminate {
  pt_PID : Z;
  pt_StartTimeUnixMS : Z }.
(* internal/protocol/commands.go:18-20 FilesListParams *)
Record FilesListParams : Type := mkFilesList { fl_Path : string }.
(* internal/protocol/commands.go:22-24 FilesMkdirParams *)
Record FilesMkdirParams : Type := mkFilesMkdir { fm_Path : string }.
(* internal/protocol/commands.go:26-29 FilesRenameParams *)
Record FilesRenameParams : Type := mkFilesRename {
  fr_From : string;
  fr_To : string }.
(* internal/protocol/commands.go:31-33 FilesDeleteParams *)
Record FilesDeleteParams : Type := mkFilesDelete { fd_Path : string }.
(* internal/protocol/commands.go:38-41 FilesDownloadParams *)
Record FilesDownloadParams : Type := mkFilesDownload {
  dl_Path : string;
  dl_StreamID : string }.
(* internal/protocol/commands.go:48-51 FilesUploadParams *)
Record FilesUploadParams : Type := mkFilesUpload {
  ul_Path : string;
  ul_StreamID : string }.
(* internal/protocol/commands.go:54-60 LogsQueryParams *)
Record LogsQueryParams : Type := mkLogsQuery {
  lq_Query : string;
  lq_Since : option time;
  lq_Until : option time;
  lq_Level : string;
  lq_Limit : Z }.

(* internal/protocol/commands.go:68-73 AgentUpdateParams *)
Record AgentUpdateParams : Type := mkUpdateParams {
  up_Version : string;
  up_ArtifactURL : string;
  up_ArtifactSHA256Hex : string;
  up_SignatureBase64 : string }.
