(* ===== verification/Codec.v ===== *)
(** A concrete codec with the laws the development asks of [encoding/json]:
    self-delimiting encodings of strings, numbers, lists and pairs.  It shows
    that the laws can hold and lets the examples run; nothing depends on its
    wire format. *)
From S2P Require Import Prelude Protocol Messages.

Class Wire (T : Type) : Type := {
  wenc : T → bytes;
  wdec : bytes → option (T * bytes);
  wire_law x r : wdec (wenc x ++ r) = Some (x, r) }.

(** Lists: each element after a marker, a different marker at the end. *)
Section wire_list.
Context `{Wire T}.
Fixpoint enc_list (l : list T) : bytes :=
  match l with
  | [] => [byte_of 0]
  | x :: l' => byte_of 1 :: wenc x ++ enc_list l'
  end.
Fixpoint dec_list (fuel : nat) (b : bytes) : option (list T * bytes) :=
  match fuel, b with
  | S fuel', m :: b' =>
      if (byte_val m =? 0)%N then Some ([], b')
      else '(x, b1) ← wdec b'; '(l, b2) ← dec_list fuel' b1; Some (x :: l, b2)
  | _, _ => None
  end.
Lemma dec_enc_list l r fuel : length (enc_list l) ≤ fuel → dec_list fuel (enc_list l ++ r) = Some (l, r).
Proof.
  revert fuel. induction l as [|x l IH]; intros [|fuel] Hf; simpl in *; try lia; [done|].
  rewrite <-app_assoc, wire_law. simpl. rewrite IH; [done|]. rewrite length_app in Hf. lia.
Qed.
End wire_list.

#[export] Program Instance wire_byte : Wire byte := {|
  wenc b := [b];
  wdec b := match b with x :: r => Some (x, r) | [] => None end |}.
Next Obligation. done. Qed.
#[export] Program Instance wire_list `{Wire T} : Wire (list T) := {|
  wenc := enc_list;
  wdec b := dec_list (length b) b |}.
Next Obligation. intros T HT l r. apply dec_enc_list. rewrite length_app. lia. Qed.
#[export] Program Instance wire_prod `{Wire A, Wire B} : Wire (A * B) := {|
  wenc p := wenc p.1 ++ wenc p.2;
  wdec b := '(x, b1) ← wdec b; '(y, b2) ← wdec b1; Some ((x, y), b2) |}.
Next Obligation. intros A HA B HB [x y] r. simpl. by rewrite <-app_assoc, wire_law; simpl; rewrite wire_law. Qed.

(** Any type that maps injectively into an encoded one. *)
Program Definition wire_iso {A B} `{Wire B} (f : A → B) (g : B → A) (fg : ∀ x, g (f x) = x) : Wire A := {|
  wenc x := wenc (f x);
  wdec b := '(y, r) ← wdec b; Some (g y, r) |}.
Next Obligation. intros A B HB f g fg x r. simpl. by rewrite wire_law; simpl; rewrite fg. Qed.

#[export] Instance wire_string : Wire string := wire_iso str_bytes bytes_str str_bytes_str.
#[export] Instance wire_option `{Wire T} : Wire (option T).
Proof. refine (wire_iso option_list head _). by intros []. Defined.
Definition bit_byte (b : bool) : byte := byte_of (if b then 1 else 0).
Definition byte_bit (b : byte) : bool := (byte_val b =? 1)%N.
#[export] Instance wire_bool : Wire bool.
Proof. refine (wire_iso bit_byte byte_bit _). by intros []. Defined.
#[export] Instance wire_Z : Wire Z.
Proof.
  refine (wire_iso (λ z, pos_bits (encode z)) (λ b, default 0%Z (decode (bits_pos b))) _).
  intros z. by rewrite bits_pos_bits, decode_encode.
Defined.

(** A codec as the JSON of a type. *)
Definition wire_json (T : Type) `{Wire T} : Json T := {|
  json_marshal x := Some (byte_of 0 :: wenc x);
  json_unmarshal b := match b with _ :: r => fst <$> wdec r | [] => None end;
  json_faithful _ := True |}.
Lemma wire_json_laws (T : Type) `{Wire T} : @JsonLaws T (wire_json T).
Proof.
  split; simpl; [intros x b _ [= <-]|by eauto|by intros x b [= <-]].
  by rewrite <-(app_nil_r (wenc x)), wire_law.
Qed.

(** A type without a text form. *)
Definition no_json (T : Type) : Json T := {|
  json_marshal _ := None; json_unmarshal _ := None; json_faithful _ := False |}.

#[export] Instance wire_envelope : Wire Envelope.
Proof.
  refine (wire_iso (λ e, (env_Protocol e, env_Type e, env_MessageID e, env_RequestID e, env_Timestamp e,
                          env_Payload e))
                   (λ '(p, t, m, r, ts, b), mkEnvelope p t m r ts b) _). by intros [].
Defined.
#[export] Instance wire_challenge : Wire ControlChallengePayload.
Proof. refine (wire_iso (λ c, (cc_Nonce c, cc_ExpiresAt c)) (λ '(n, e), mkChallenge n e) _). by intros []. Defined.
#[export] Instance wire_hello : Wire HelloPayload.
Proof.
  refine (wire_iso (λ h, (he_DeviceID h, he_InstallID h, he_AgentVersion h, he_OS h, he_Arch h,
                          he_Capabilities h, he_BootID h, he_Nonce h, he_Signature h, he_Secure h))
                   (λ '(a, b, c, d, e, f, g, h, i, j), mkHello a b c d e f g h i j) _). by intros [].
Defined.
#[export] Instance wire_hello_ack : Wire HelloAckPayload.
Proof.
  refine (wire_iso (λ h, (ha_ConnectionID h, ha_ServerTime h, ha_HeartbeatIntervalSeconds h,
                          ha_StatusIntervalSeconds h, ha_MaxMessageBytes h, ha_MinimumAgentVersion h,
                          ha_NetworkUploadIntervalSeconds h))
                   (λ '(a, b, c, d, e, f, g), mkHelloAck a b c d e f g) _). by intros [].
Defined.

(** Identifiers as their sixteen bytes. *)
Definition demo_uuid_text : UuidText :=
  {| uuid_string u := bytes_str (uuid_bytes u); uuid_parse s := uuid_from_bytes (str_bytes s) |}.
Lemma demo_uuid_law u : valid_uuid u = true →
  @uuid_parse demo_uuid_text (@uuid_string demo_uuid_text u) = Some u.
Proof.
  intros Hu. unfold uuid_parse, uuid_string, demo_uuid_text. rewrite bytes_str_bytes.
  by apply uuid_from_bytes_bytes.
Qed.
