(* ===== verification/Hub.v ===== *)
(** The control hub ([internal/controlhub/hub.go]): the authenticated
    WebSocket channel of the agents.  Connection objects live at addresses
    and the hub's map points to them, as in the code, because a connection
    that was replaced keeps running its own read loop; requests waiting for
    an answer are one-slot channels.  The goroutines interleave as the steps
    of [hub_step]. *)
From S2P Require Import Prelude Protocol Messages Codec Base64 Device Metrics Monitoring.

(** ** State *)

(* internal/controlhub/hub.go:29-35 Timing *)
Record Timing : Type := mkTiming {
  tm_HeartbeatInterval : duration;
  tm_ConnectionLostAfter : duration;
  tm_OfflineAfter : duration;
  tm_StatusInterval : duration;
  tm_NetworkUploadInterval : duration }.

(** [cn_cancelled] tells that the connection's context was cancelled,
    [cn_serving] that its [ServeAgentWS] has not returned. *)
(* internal/controlhub/hub.go:147-158 connection *)
Record connection : Type := mkConn {
  cn_deviceID : uuid;
  cn_installID : uuid;
  cn_remoteIP : string;
  cn_pending : gmap string nat;
  cn_cancelled : bool;
  cn_serving : bool }.

(** A goroutine blocked in [sendAndWait] or [waitForID]: the connection and
    the id it waits under, and the slot of its channel. *)
Record waiter : Type := mkWaiter {
  wt_conn : nat;
  wt_id : string;
  wt_slot : option Envelope }.

Inductive ws_message : Type :=
| Text (raw : bytes)
| Binary (raw : bytes).
Definition message_data (m : ws_message) : bytes := match m with Text raw | Binary raw => raw end.

(** Calls that leave the hub: audit records and the registered handlers. *)
Inductive hub_call : Type :=
| AuditConnected (dev : uuid) (ip : string)
| AuditDisconnected (dev : uuid)
| AuditProtocolError (dev : uuid) (type_ : string)
| OnBinaryFrame (dev : uuid) (kind : byte) (stream : uuid) (payload : bytes)
| OnSessionClose (dev : uuid) (sessionID reason : string)
| OnDisconnect (dev : uuid)
| OnSupportCredential (dev : uuid) (username password : string).

(* internal/controlhub/hub.go:67-91 Hub *)
Record hub : Type := mkHub {
  hb_registry : dev_db;
  hb_conns : gmap uuid nat;
  hb_objects : gmap nat connection;
  hb_waiters : gmap nat waiter;
  hb_sent : list (nat * ws_message);
  hb_calls : list hub_call }.

(* internal/controlhub/hub.go:93-102 NewHub *)
Definition NewHub (reg : dev_db) : hub := mkHub reg ∅ ∅ ∅ [] [].

Inductive hub_error : Type :=
| HubNotConnected
| HubCodec (e : codec_error)
| HubSend
| HubRead
| HubTimeout
| HubRejected
| HubRegistry (e : device_error).

Abbreviation HubM := (M hub hub_error).

Definition on_registry (f : dev_db → dev_db) (h : hub) : hub :=
  mkHub (f (hb_registry h)) (hb_conns h) (hb_objects h) (hb_waiters h) (hb_sent h) (hb_calls h).
Definition on_conns (f : gmap uuid nat → gmap uuid nat) (h : hub) : hub :=
  mkHub (hb_registry h) (f (hb_conns h)) (hb_objects h) (hb_waiters h) (hb_sent h) (hb_calls h).
Definition on_objects (f : gmap nat connection → gmap nat connection) (h : hub) : hub :=
  mkHub (hb_registry h) (hb_conns h) (f (hb_objects h)) (hb_waiters h) (hb_sent h) (hb_calls h).
Definition on_waiters (f : gmap nat waiter → gmap nat waiter) (h : hub) : hub :=
  mkHub (hb_registry h) (hb_conns h) (hb_objects h) (f (hb_waiters h)) (hb_sent h) (hb_calls h).
Definition on_sent (f : list (nat * ws_message) → list (nat * ws_message)) (h : hub) : hub :=
  mkHub (hb_registry h) (hb_conns h) (hb_objects h) (hb_waiters h) (f (hb_sent h)) (hb_calls h).
Definition on_calls (f : list hub_call → list hub_call) (h : hub) : hub :=
  mkHub (hb_registry h) (hb_conns h) (hb_objects h) (hb_waiters h) (hb_sent h) (f (hb_calls h)).

Definition set_cancelled (c : connection) : connection :=
  mkConn (cn_deviceID c) (cn_installID c) (cn_remoteIP c) (cn_pending c) true (cn_serving c).
Definition set_done (c : connection) : connection :=
  mkConn (cn_deviceID c) (cn_installID c) (cn_remoteIP c) (cn_pending c) true false.
Definition set_pending (f : gmap string nat → gmap string nat) (c : connection) : connection :=
  mkConn (cn_deviceID c) (cn_installID c) (cn_remoteIP c) (f (cn_pending c)) (cn_cancelled c)
    (cn_serving c).

(** A registry operation, its error passed on or dropped. *)
Definition registry {A} (m : DevM A) : HubM A :=
  mwrap HubRegistry (mzoom hb_registry (λ t, on_registry (λ _, t)) m).

Definition do_ (f : hub → hub) : HubM unit := mstate (λ s, (tt, f s)).
Definition call (c : hub_call) : HubM unit := do_ (on_calls (λ l, l ++ [c])).

(** A write may fail at any time (closed socket, expired context). *)
(* internal/controlhub/hub.go:160-164 write *)
Definition write (ws : nat) (m : ws_message) : HubM unit :=
  mexec HubSend (on_sent (λ l, l ++ [(ws, m)])).

(** ** Looking up and closing *)

(** Under [h.mu]: the connection is taken out of the map. *)
(* internal/controlhub/hub.go:318-323 closeConn *)
Definition close_take (id : uuid) : HubM (option nat) :=
  mstate (λ s, (hb_conns s !! id, on_conns (delete id) s)).
(** After the lock was released. *)
(* internal/controlhub/hub.go:324-327 closeConn *)
Definition close_cancel (ws : nat) : HubM unit := do_ (on_objects (alter set_cancelled ws)).
(* internal/controlhub/hub.go:317-328 closeConn *)
Definition closeConn (id : uuid) : HubM unit :=
  o ← close_take id;
  match o with Some ws => close_cancel ws | None => mret tt end.

(* internal/controlhub/hub.go:331-336 IsOnline *)
Definition IsOnline (id : uuid) (s : hub) : bool := negb (is_null (hb_conns s !! id)).

(* internal/controlhub/hub.go:338-343 getConn *)
Definition getConn (id : uuid) : HubM nat :=
  r ← mstate (λ s, (hb_conns s !! id, s));
  match r with Some ws => mret ws | None => mfail HubNotConnected end.

(** ** Waiting for an answer *)

(** Registering a channel under an id; a second registration under the same
    id replaces the first. *)
Definition register_waiter (ws : nat) (id : string) : HubM nat :=
  mstate (λ s,
    let ch := fresh (dom (hb_waiters s)) in
    (ch, on_objects (alter (set_pending (insert id ch)) ws)
           (on_waiters (insert ch (mkWaiter ws id None)) s))).

(** The deferred clean-up; the goroutine is gone afterwards. *)
Definition release_waiter (ws : nat) (id : string) (ch : nat) : HubM unit :=
  do_ (λ s, on_objects (alter (set_pending (delete id)) ws) (on_waiters (delete ch) s)).

(** The select: an answer in the channel may be taken, and the deadline may
    have passed. *)
Definition await (ch : nat) (deadline : bool) : HubM Envelope :=
  s ← mstate (λ s, (s, s));
  if deadline then mfail HubTimeout else
  match w ← hb_waiters s !! ch; wt_slot w with
  | Some env => mret env
  | None => mfail HubTimeout
  end.

(* internal/controlhub/hub.go:234-255 tryDeliver *)
Definition tryDeliver (ws : nat) (env : Envelope) : HubM bool :=
  mstate (λ s,
    match env_RequestID env with
    | None => (false, s)
    | Some id =>
        match c ← hb_objects s !! ws; cn_pending c !! id with
        | None => (false, s)
        | Some ch =>
            (true,
             on_waiters (alter (λ w,
                match wt_slot w with
                | None => mkWaiter (wt_conn w) (wt_id w) (Some env)
                | Some _ => w
                end) ch)
               (on_objects (alter (set_pending (delete id)) ws) s))
        end
    end).

(** ** The hub's configuration *)

(** Whether each handler was registered, and the version check
    ([agentrelease.Repo.IsBlocked], when registered). *)
Record hub_config : Type := mkHubConfig {
  hc_timing : Timing;
  hc_binaryHandler : bool;
  hc_sessionCloseHandler : bool;
  hc_disconnectHandler : bool;
  hc_supportCredentialHandler : bool;
  hc_versionBlocked : option (string → string → string → res unit bool) }.

(* internal/controlhub/hub.go:27-27 minAgentVersion *)
Definition minAgentVersion : string := "0.1.0".

(* internal/controlhub/hub.go:578-583 osFamilyOf *)
Definition osFamilyOf (os : string) : string := if String.eqb os "" then "unknown" else os.

(** [int(d.Seconds())]. *)
Definition whole_seconds (d : duration) : Z := (d ÷ Second)%Z.

Section hub.
Context `{!UuidText, !Json Envelope, !Json ControlChallengePayload, !Json HelloPayload,
  !Json HelloAckPayload, !Json HeartbeatPayload, !Json InventoryRequestPayload,
  !Json InventoryResponsePayload, !Json MetricsReportPayload, !Json NetworkMetricsBatchPayload,
  !Json SupportCredentialReportPayload, !Json SessionClosePayload, !Json ProtocolErrorPayload}.
(** [ed25519.Verify], and the health engine's rendering and thresholds. *)
Context (ed25519_verify : bytes → bytes → bytes → bool).
Context (render : reason → string) (th : Thresholds) (cfg : hub_config).

Definition encode {P} `{!Json P} (ty : string) (req : option string) (p : P) (mid : string)
    (now : time) : HubM bytes :=
  mwrap HubCodec (mlift (Encode ty req p mid now)).

(** The message and its id: an [Encode] without a request id. *)
(* internal/controlhub/hub.go:257-274 encodeWithID *)
Definition encodeWithID {P} `{!Json P} (msgType : string) (payload : P) (mid : string) (now : time)
    : HubM (bytes * string) :=
  raw ← encode msgType None payload mid now;
  mret (raw, mid).

(** [sendAndWait] up to its select, and from it on; other goroutines run in
    between. *)
(* internal/controlhub/hub.go:169-192 sendAndWait *)
Definition sendAndWait_start {P} `{!Json P} (ws : nat) (msgType : string) (payload : P)
    (mid : string) (now : time) : HubM nat :=
  '(raw, msgID) ← encodeWithID msgType payload mid now;
  ch ← register_waiter ws msgID;
  r ← mtry (E := hub_error) (write ws (Text raw));
  match r with
  | Err e => release_waiter ws msgID ch;; mfail e
  | Ok _ => mret ch
  end.
(* internal/controlhub/hub.go:194-202 sendAndWait *)
Definition sendAndWait_finish (ws : nat) (msgID : string) (ch : nat) (deadline : bool) : HubM Envelope :=
  r ← mtry (E := hub_error) (await ch deadline);
  release_waiter ws msgID ch;;
  mlift r.

(* internal/controlhub/hub.go:210-232 waitForID *)
Definition waitForID_start (ws : nat) (id : string) : HubM nat := register_waiter ws id.

(* internal/controlhub/hub.go:347-357 RequestInventory *)
Definition RequestInventory (id : uuid) (mid : string) (now : time) : HubM unit :=
  ws ← getConn id;
  raw ← encode TypeInventoryRequest None (mkInventoryRequest true) mid now;
  write ws (Text raw).

(* internal/controlhub/hub.go:362-368 SendAndWait *)
Definition SendAndWait_start {P} `{!Json P} (deviceID : uuid) (msgType : string) (payload : P)
    (mid : string) (now : time) : HubM nat :=
  ws ← getConn deviceID;
  sendAndWait_start ws msgType payload mid now.

(* internal/controlhub/hub.go:372-378 WaitForCorrelation *)
Definition WaitForCorrelation_start (deviceID : uuid) (correlationID : string) : HubM nat :=
  ws ← getConn deviceID;
  waitForID_start ws correlationID.

(* internal/controlhub/hub.go:382-394 SendMessage *)
Definition SendMessage {P} `{!Json P} (deviceID : uuid) (msgType : string) (payload : P)
    (mid : string) (now : time) : HubM unit :=
  ws ← getConn deviceID;
  raw ← encode msgType None payload mid now;
  write ws (Text raw).

(* internal/controlhub/hub.go:398-407 SendBinaryFrame *)
Definition SendBinaryFrame (deviceID : uuid) (kind : byte) (streamID : uuid) (payload : bytes) : HubM unit :=
  ws ← getConn deviceID;
  write ws (Binary (EncodeStreamFrame kind streamID payload)).

(** ** The sweeper *)

Definition sweep_one (now : time) (id : uuid) : HubM unit :=
  r ← mtry (E := hub_error) (registry (GetByID id));
  match r with
  | Err _ => mret tt
  | Ok (_, d) =>
      match dv_LastSeenAt d with
      | None => mret tt
      | Some seen =>
          let since := (now - seen)%Z in
          if (tm_OfflineAfter (hc_timing cfg) <=? since)%Z &&
             negb (bool_decide (dv_Status d = StatusOffline)) then
            mignore (E := hub_error) (registry (UpdateStatusOnly id StatusOffline));;
            closeConn id;;
            mignore (E := hub_error) (registry (Evaluate render th id now))
          else if (tm_ConnectionLostAfter (hc_timing cfg) <=? since)%Z &&
                  bool_decide (dv_Status d = StatusOnline) then
            mignore (E := hub_error) (registry (UpdateStatusOnly id StatusConnectionLost))
          else mret tt
      end
  end.

Fixpoint sweep_ids (now : time) (ids : list uuid) : HubM unit :=
  match ids with
  | [] => mret tt
  | id :: rest => sweep_one now id;; sweep_ids now rest
  end.

(** [order] is the order in which the map is ranged over. *)
(* internal/controlhub/hub.go:292-315 sweep *)
Definition sweep (order : list uuid → list uuid) (now : time) : HubM unit :=
  ids ← mstate (λ s, (order (map_to_list (hb_conns s)).*1, s));
  sweep_ids now ids.

(** ** Accepting an agent *)

(** What the hello reports is stored, errors ignored. *)
(* internal/controlhub/hub.go:569-573 handshake *)
Definition record_hello (devID : uuid) (d : Device) (hello : HelloPayload) : HubM unit :=
  match he_Capabilities hello with
  | [] => mret tt
  | caps => mignore (E := hub_error) (registry (SetCapabilities devID caps))
  end;;
  mignore (E := hub_error) (registry (ApplyInventory devID (dv_Hostname d)
    (osFamilyOf (he_OS hello)) (dv_OSName d) (dv_OSVersion d) (he_Arch hello) (he_AgentVersion hello)));;
  mignore (E := hub_error) (registry (UpdateTransportSecurity devID (he_Secure hello))).

(** The nonce is [None] when the random source fails, the reply [None] when
    the read fails or times out; [now] and [later] are the clock at the
    challenge and after the reply. *)
(* internal/controlhub/hub.go:478-576 handshake *)
Definition handshake (ws : nat) (nonce reply : option bytes) (mid1 mid2 connID : string)
    (now later : time) : HubM (uuid * uuid) :=
  match nonce with
  | None => mfail HubRejected
  | Some nonce =>
    challengeRaw ← encode TypeControlChallenge None
      (mkChallenge (std_encode nonce) (now + 30 * Second)%Z) mid1 now;
    write ws (Text challengeRaw);;
    match reply with
    | None => mfail HubRejected
    | Some raw =>
      match Decode raw with
      | Err _ => mfail HubRejected
      | Ok env =>
        if negb (String.eqb (env_Type env) TypeHello) || negb (env_Protocol env =? Version)%Z
        then mfail HubRejected else
        match DecodePayload env with
        | Err _ => mfail HubRejected
        | Ok hello =>
          if negb (String.eqb (he_Nonce hello) (std_encode nonce)) then mfail HubRejected else
          match uuid_parse (he_DeviceID hello), uuid_parse (he_InstallID hello) with
          | Some devID, Some instID =>
            '(_, d) ← registry (GetByID devID);
            if negb (dv_InstallID d =? instID)%N || bool_decide (dv_Status d = StatusRevoked) ||
               negb (bool_decide (dv_CredentialStatus d = CredActive))
            then mfail HubRejected else
            if match hc_versionBlocked cfg with
               | Some checker =>
                   match checker (osFamilyOf (he_OS hello)) (he_Arch hello) (he_AgentVersion hello) with
                   | Ok blocked => blocked
                   | Err _ => false
                   end
               | None => false
               end
            then mfail HubRejected else
            pubKey ← registry (ActiveCredentialPublicKey devID later);
            if negb (length pubKey =? 32) then mfail HubRejected else
            match std_decode (he_Signature hello) with
            | None => mfail HubRejected
            | Some sig =>
              if negb (ed25519_verify pubKey nonce sig) then mfail HubRejected else
              ackRaw ← encode TypeHelloAck (Some (env_MessageID env))
                (mkHelloAck connID later
                  (whole_seconds (tm_HeartbeatInterval (hc_timing cfg)))
                  (whole_seconds (tm_StatusInterval (hc_timing cfg)))
                  MaxInventoryBytes minAgentVersion
                  (whole_seconds (tm_NetworkUploadInterval (hc_timing cfg)))) mid2 later;
              write ws (Text ackRaw);;
              record_hello devID d hello;;
              mret (devID, instID)
            end
          | _, _ => mfail HubRejected
          end
        end
      end
    end
  end.

(** Under [h.mu]: a previous connection of the device is cancelled and
    replaced. *)
Definition register (ws : nat) (devID instID : uuid) (ip : string) : HubM unit :=
  do_ (λ s,
    let s1 := match hb_conns s !! devID with
              | Some old => on_objects (alter set_cancelled old) (on_conns (delete devID) s)
              | None => s
              end in
    on_conns (insert devID ws)
      (on_objects (insert ws (mkConn devID instID ip ∅ false true)) s1)).

(** [ServeAgentWS] up to its read loop: [ws] is the accepted socket and the
    address of the connection object made for it. *)
(* internal/controlhub/hub.go:412-453 ServeAgentWS *)
Definition connect (ws : nat) (ip : string) (nonce reply : option bytes) (mid1 mid2 connID : string)
    (now later : time) : HubM unit :=
  '(devID, instID) ← handshake ws nonce reply mid1 mid2 connID now later;
  register ws devID instID ip;;
  mignore (E := hub_error) (registry (UpdateConnectivity devID StatusOnline ip later));;
  mignore (E := hub_error) (registry (Evaluate render th devID later));;
  call (AuditConnected devID ip).

(** Under [h.mu], after the read loop: the connection leaves the map if it is
    still the one there. *)
(* internal/controlhub/hub.go:455-459 ServeAgentWS *)
Definition leave (ws : nat) (devID : uuid) : HubM unit :=
  do_ (λ s, if bool_decide (hb_conns s !! devID = Some ws) then on_conns (delete devID) s else s).
(** The deferred [cancel], and the return. *)
(* internal/controlhub/hub.go:424-424 ServeAgentWS *)
Definition return_ (ws : nat) : HubM unit := do_ (on_objects (alter set_done ws)).

(** [ServeAgentWS] after its read loop. *)
(* internal/controlhub/hub.go:455-476 ServeAgentWS *)
Definition disconnect (ws : nat) : HubM unit :=
  r ← mstate (λ s, (hb_objects s !! ws, s));
  match r with
  | None => mret tt
  | Some c =>
      let devID := cn_deviceID c in
      leave ws devID;;
      mignore (E := hub_error) (registry (UpdateStatusOnly devID StatusConnectionLost));;
      call (AuditDisconnected devID);;
      (if hc_disconnectHandler cfg then call (OnDisconnect devID) else mret tt);;
      return_ ws
  end.

(** ** Messages of an agent *)

(* internal/controlhub/hub.go:731-739 protocolError *)
Definition protocolError (ws : nat) (code message : string) (mid : string) (now : time) : HubM unit :=
  r ← mtry (E := hub_error) (encode TypeProtocolError None (mkProtocolError code message) mid now);
  match r with
  | Err _ => mret tt
  | Ok raw => mignore (E := hub_error) (write ws (Text raw))
  end.

(* internal/controlhub/hub.go:619-630 handleBinaryFrame *)
Definition handleBinaryFrame (c : connection) (raw : bytes) : HubM unit :=
  match DecodeStreamFrame raw with
  | Err _ => mret tt
  | Ok (kind, streamID, payload) =>
      if hc_binaryHandler cfg then call (OnBinaryFrame (cn_deviceID c) kind streamID payload)
      else mret tt
  end.

Definition ty_is (env : Envelope) (ty : string) : bool := String.eqb (env_Type env) ty.

(* internal/controlhub/hub.go:632-729 handleMessage *)
Definition handleMessage (ws : nat) (c : connection) (env : Envelope) (mid : string) (now : time)
    : HubM unit :=
  let dev := cn_deviceID c in
  if ty_is env TypeHeartbeat then
    match DecodePayload (P := HeartbeatPayload) env with
    | Err _ => protocolError ws CodeInvalidRequest "malformed heartbeat" mid now
    | Ok _ => mignore (E := hub_error) (registry (UpdateConnectivity dev StatusOnline (cn_remoteIP c) now))
    end
  else if ty_is env TypeInventoryResponse then
    if too_long (env_Payload env) MaxInventoryBytes
    then protocolError ws CodeMessageTooLarge "inventory too large" mid now
    else match DecodePayload (P := InventoryResponsePayload) env with
    | Err _ => protocolError ws CodeInvalidRequest "malformed inventory" mid now
    | Ok inv =>
        mignore (E := hub_error) (registry (ApplyInventory dev (in_Hostname inv) (os_Family (in_OS inv))
          (os_Distribution (in_OS inv)) (os_Version (in_OS inv)) "" (in_AgentVersion inv)));;
        mignore (E := hub_error) (registry (RecordNetwork dev (cn_remoteIP c) now));;
        mignore (E := hub_error) (registry (Evaluate render th dev now))
    end
  else if ty_is env TypeMetricsReport then
    if too_long (env_Payload env) MaxEventBatchBytes
    then protocolError ws CodeMessageTooLarge "metrics report too large" mid now
    else match DecodePayload (P := MetricsReportPayload) env with
    | Err _ => protocolError ws CodeInvalidRequest "malformed metrics report" mid now
    | Ok m =>
        mignore (E := hub_error) (registry (RecordMetrics dev (mr_CPUPercent m)
          (mu_UsedBytes (mr_Memory m)) (mu_TotalBytes (mr_Memory m)) (mr_Filesystems m)
          (mr_UptimeSeconds m) now));;
        mignore (E := hub_error) (registry (Evaluate render th dev now))
    end
  else if ty_is env TypeNetworkMetricsBatch then
    if too_long (env_Payload env) MaxEventBatchBytes
    then protocolError ws CodeMessageTooLarge "network metrics batch too large" mid now
    else match DecodePayload (P := NetworkMetricsBatchPayload) env with
    | Err _ => protocolError ws CodeInvalidRequest "malformed network metrics batch" mid now
    | Ok nb => mignore (E := hub_error) (registry (RecordNetworkMetricsBatch dev (nb_Samples nb)))
    end
  else if ty_is env TypeSupportCredentialReport then
    match DecodePayload (P := SupportCredentialReportPayload) env with
    | Err _ => protocolError ws CodeInvalidRequest "malformed support credential report" mid now
    | Ok sc => if hc_supportCredentialHandler cfg
               then call (OnSupportCredential dev (sc_Username sc) (sc_Password sc)) else mret tt
    end
  else if ty_is env TypeCommandResult || ty_is env TypeSessionOpenResult then mret tt
  else if ty_is env TypeSessionClose then
    match DecodePayload (P := SessionClosePayload) env with
    | Err _ => mret tt
    | Ok sc => if hc_sessionCloseHandler cfg
               then call (OnSessionClose dev (cl_SessionID sc) (cl_Reason sc)) else mret tt
    end
  else
    (** [%q] of the type is left out of the message text. *)
    protocolError ws CodeInvalidRequest "unsupported message type" mid now;;
    call (AuditProtocolError dev (env_Type env)).

(** One turn of the loop, for the message [m] the agent sent: a message over
    the limit set on the socket makes the read fail, which ends the loop. *)
(* internal/controlhub/hub.go:591-617 readLoop *)
Definition readLoop_turn (ws : nat) (m : ws_message) (mid : string) (now : time) : HubM unit :=
  r ← mstate (λ s, (hb_objects s !! ws, s));
  match r with
  | None => mret tt
  | Some c =>
      if too_long (message_data m) MaxInventoryBytes then mfail HubRead else
      match m with
      | Binary raw => handleBinaryFrame c raw
      | Text raw =>
          if too_long raw MaxInventoryBytes
          then protocolError ws CodeMessageTooLarge "message exceeds maximum size" mid now
          else match Decode raw with
          | Err _ => protocolError ws CodeInvalidRequest "malformed envelope" mid now
          | Ok env =>
              delivered ← tryDeliver ws env;
              if (delivered : bool) then mret tt else handleMessage ws c env mid now
          end
      end
  end.

(** ** The interleaving of the goroutines

    Every socket runs its own [ServeAgentWS]; requests come in from the HTTP
    handlers; the sweeper ticks; other components change the registry.  A
    goroutine can be overtaken wherever it does not hold [h.mu]: [hr_accepted]
    are the sockets whose handshake succeeded and that are not registered yet,
    [hr_closing] the connections a [closeConn] has taken out of the map and not
    cancelled yet, [hr_leaving] those whose [ServeAgentWS] is past its read
    loop and has not returned yet.  The statements in between are changes of
    the registry and calls, by anyone at any time. *)

Record hub_run : Type := mkRun {
  hr_hub : hub;
  hr_accepted : list (nat * (uuid * uuid));
  hr_closing : list nat;
  hr_leaving : list nat }.
Definition start_run (reg : dev_db) : hub_run := mkRun (NewHub reg) [] [] [].
(** The connections that are out of the map and about to end. *)
Definition ending (x : hub_run) : list nat := hr_closing x ++ hr_leaving x.
Definition forget (ws : nat) (l : list nat) : list nat := filter (λ n, n ≠ ws) l.

Inductive hub_step : hub_run → hub_run → Prop :=
| step_accept ws nonce reply mid1 mid2 connID now later dev inst fs fs' s s' a c l :
    hb_objects s !! ws = None →
    handshake ws nonce reply mid1 mid2 connID now later (World s fs) = (Ok (dev, inst), World s' fs') →
    hub_step (mkRun s a c l) (mkRun s' ((ws, (dev, inst)) :: a) c l)
| step_refuse ws nonce reply mid1 mid2 connID now later s s' a c l :
    effect (handshake ws nonce reply mid1 mid2 connID now later) s s' → hub_step (mkRun s a c l) (mkRun s' a c l)
| step_register ws dev inst ip s s' a c l :
    (ws, (dev, inst)) ∈ a → hb_objects s !! ws = None →
    effect (register ws dev inst ip) s s' → hub_step (mkRun s a c l) (mkRun s' a c l)
| step_read ws o m mid now s s' a c l :
    hb_objects s !! ws = Some o → cn_serving o = true → ws ∉ l →
    effect (readLoop_turn ws m mid now) s s' → hub_step (mkRun s a c l) (mkRun s' a c l)
| step_leave ws o s s' a c l :
    hb_objects s !! ws = Some o → cn_serving o = true → ws ∉ l →
    effect (leave ws (cn_deviceID o)) s s' → hub_step (mkRun s a c l) (mkRun s' a c (ws :: l))
| step_return ws s s' a c l :
    ws ∈ l → effect (return_ ws) s s' → hub_step (mkRun s a c l) (mkRun s' a c (forget ws l))
| step_take id o fs fs' s s' a c l :
    close_take id (World s fs) = (Ok o, World s' fs') →
    hub_step (mkRun s a c l) (mkRun s' a (match o with Some ws => ws :: c | None => c end) l)
| step_cancel ws s s' a c l :
    ws ∈ c → effect (close_cancel ws) s s' → hub_step (mkRun s a c l) (mkRun s' a (forget ws c) l)
| step_request P (jp : Json P) ws ty (p : P) mid now s s' a c l :
    is_Some (hb_objects s !! ws) → effect (sendAndWait_start ws ty p mid now) s s' →
    hub_step (mkRun s a c l) (mkRun s' a c l)
| step_correlate ws id s s' a c l :
    is_Some (hb_objects s !! ws) → effect (waitForID_start ws id) s s' → hub_step (mkRun s a c l) (mkRun s' a c l)
| step_finish ch w deadline s s' a c l :
    hb_waiters s !! ch = Some w →
    effect (sendAndWait_finish (wt_conn w) (wt_id w) ch deadline) s s' → hub_step (mkRun s a c l) (mkRun s' a c l)
| step_write ws m s s' a c l : effect (write ws m) s s' → hub_step (mkRun s a c l) (mkRun s' a c l)
| step_call k s a c l : hub_step (mkRun s a c l) (mkRun (on_calls (λ x, x ++ [k]) s) a c l)
| step_registry f s a c l : hub_step (mkRun s a c l) (mkRun (on_registry f s) a c l).

(** ** What most operations leave alone *)

Lemma ignore_then (R : hub → hub → Prop) {A B} (m : HubM A) (k : unit → HubM B) Q s :
  preserves R m → (∀ s', R s s' → always (k tt) Q s') →
  always (mignore (F := hub_error) m ≫= k) Q s.
Proof.
  intros Hm Hk. apply always_mbind, always_mignore. eapply always_mono; [apply Hm|].
  intros r s' Hs. by apply Hk.
Qed.

Definition same_wiring (s s' : hub) : Prop :=
  hb_conns s' = hb_conns s ∧ hb_objects s' = hb_objects s ∧ hb_waiters s' = hb_waiters s.
#[local] Instance same_wiring_preorder : PreOrder same_wiring.
Proof. split; unfold same_wiring; [done|]. intros ??? (?&?&?) (?&?&?). split_and!; congruence. Qed.

Lemma registry_wiring {A} (m : DevM A) : preserves same_wiring (registry m).
Proof.
  apply preserves_mwrap, (preserves_mzoom _ _ _ (λ _ _, True)); [|done].
  intros t. by apply always_any.
Qed.
Lemma write_wiring ws m : preserves same_wiring (write ws m).
Proof. by apply preserves_mexec; [apply _|]. Qed.
Lemma call_wiring c : preserves same_wiring (call c).
Proof. by apply preserves_mstate. Qed.
Lemma read_wiring {A} (f : hub → A) : preserves same_wiring (E := hub_error) (mstate (λ s, (f s, s))).
Proof. by apply preserves_mstate. Qed.
Lemma encode_wiring {P} `{!Json P} ty req (p : P) mid now : preserves same_wiring (encode ty req p mid now).
Proof. apply preserves_mwrap, preserves_mlift. apply _. Qed.
#[local] Hint Resolve registry_wiring write_wiring call_wiring read_wiring encode_wiring : preserve.

Lemma encodeWithID_wiring {P} `{!Json P} ty (p : P) mid now :
  preserves same_wiring (encodeWithID ty p mid now).
Proof. unfold encodeWithID. preserve_steps. Qed.
Lemma await_wiring ch deadline : preserves same_wiring (await ch deadline).
Proof. unfold await. preserve_steps. Qed.
Lemma getConn_wiring id : preserves same_wiring (getConn id).
Proof. unfold getConn. preserve_steps. Qed.
#[local] Hint Resolve encodeWithID_wiring await_wiring getConn_wiring : preserve.
Lemma protocolError_wiring ws code msg mid now : preserves same_wiring (protocolError ws code msg mid now).
Proof. unfold protocolError. preserve_steps. Qed.
Lemma handleBinaryFrame_wiring c raw : preserves same_wiring (handleBinaryFrame c raw).
Proof. unfold handleBinaryFrame. preserve_steps. Qed.
#[local] Hint Resolve protocolError_wiring handleBinaryFrame_wiring : preserve.
Lemma handleMessage_wiring ws c env mid now : preserves same_wiring (handleMessage ws c env mid now).
Proof. unfold handleMessage. preserve_steps. Qed.
Lemma handshake_wiring ws nonce reply mid1 mid2 connID now later :
  preserves same_wiring (handshake ws nonce reply mid1 mid2 connID now later).
Proof. unfold handshake, record_hello. preserve_steps. Qed.
#[local] Hint Resolve handleMessage_wiring handshake_wiring : preserve.

(** ** The invariant *)

Section invariant.
(** The connections that are about to end. *)
Context (gone : list nat).

(** The connections in the map are served, not cancelled and not about to end,
    and a served, uncancelled connection is in the map or about to end; a
    registered channel is empty and belongs to its connection and id; what a
    channel holds answers the id it waits for. *)
Record hub_inv (s : hub) : Prop := {
  inv_conns dev ws : hb_conns s !! dev = Some ws →
    (∃ c, hb_objects s !! ws = Some c ∧ cn_deviceID c = dev ∧ cn_serving c = true ∧
      cn_cancelled c = false) ∧ ws ∉ gone;
  inv_live ws c : hb_objects s !! ws = Some c → cn_serving c = true → cn_cancelled c = false →
    hb_conns s !! cn_deviceID c = Some ws ∨ ws ∈ gone;
  inv_gone ws : ws ∈ gone → is_Some (hb_objects s !! ws);
  inv_pending ws c id ch : hb_objects s !! ws = Some c → cn_pending c !! id = Some ch →
    hb_waiters s !! ch = Some (mkWaiter ws id None);
  inv_slot ch w env : hb_waiters s !! ch = Some w → wt_slot w = Some env →
    env_RequestID env = Some (wt_id w) }.

Definition keeps_inv (s s' : hub) : Prop := hub_inv s → hub_inv s'.
#[local] Instance keeps_inv_preorder : PreOrder keeps_inv.
Proof. split; unfold keeps_inv; [by auto|by eauto]. Qed.

Lemma inv_same_wiring s s' : same_wiring s s' → keeps_inv s s'.
Proof. intros (Hc & Ho & Hw) [?????]. split; rewrite ?Hc, ?Ho, ?Hw; done. Qed.

Lemma wiring_keeps_inv {A} (m : HubM A) : preserves same_wiring m → preserves keeps_inv m.
Proof. intros Hm s. eapply always_mono; [apply Hm|]. intros r s'. apply inv_same_wiring. Qed.
#[local] Hint Resolve wiring_keeps_inv : preserve.

(** An update of one connection object, seen through lookups. *)
Lemma alter_object_inv f s ws ws' c' :
  hb_objects (on_objects (alter f ws) s) !! ws' = Some c' →
  ∃ c, hb_objects s !! ws' = Some c ∧ ((ws' ≠ ws ∧ c' = c) ∨ (ws' = ws ∧ c' = f c)).
Proof.
  simpl. rewrite lookup_alter. case_decide; [subst|by eauto 10].
  rewrite fmap_Some. intros (c & ? & ->). eauto 10.
Qed.

(** An update that leaves a connection's device, state and marks alone. *)
Lemma is_Some_alter f s ws ws' :
  is_Some (hb_objects s !! ws') → is_Some (hb_objects (on_objects (alter f ws) s) !! ws').
Proof. simpl. rewrite lookup_alter. case_decide; [subst|done]. by rewrite fmap_is_Some. Qed.

(** A connection that is out of the map ends: by cancellation, or because its
    goroutine returned. *)
Lemma end_inv f dev ws s :
  (∀ c, cn_cancelled (f c) = true ∧ cn_pending (f c) = cn_pending c) →
  hb_conns s !! dev = Some ws → hub_inv s → hub_inv (on_objects (alter f ws) (on_conns (delete dev) s)).
Proof.
  intros Hf Hd [Hc Hl Hg Hp Hs]. split.
  - intros dev' ws'. simpl. rewrite lookup_delete_Some. intros [Hne Hd'].
    destruct (Hc _ _ Hd') as [(c & Ho & Hdev & Hsv & Hcn) Hng]. split; [|done]. exists c. split_and!; [|done..].
    rewrite lookup_alter_ne; [done|]. intros ->. destruct (Hc _ _ Hd) as [(c0 & Ho0 & ? & _) _].
    rewrite Ho in Ho0. congruence.
  - intros ws' c' (c & Ho & [[Hne ->]|[-> ->]])%alter_object_inv Hsv Hcn; [|by destruct (Hf c); congruence].
    simpl. destruct (Hl _ _ Ho Hsv Hcn) as [Hw|]; [left|by right]. apply lookup_delete_Some. split; [|done].
    intros ->. rewrite Hd in Hw. congruence.
  - intros ws' Hws. apply is_Some_alter. by apply Hg.
  - intros ws' c' id ch (c & Ho & [[Hne ->]|[-> ->]])%alter_object_inv; simpl; [by eauto|].
    destruct (Hf c) as [_ ->]. by eauto.
  - done.
Qed.

Lemma set_pending_inv f ws s :
  (∀ c, hb_objects s !! ws = Some c → ∀ id ch, f (cn_pending c) !! id = Some ch →
     hb_waiters s !! ch = Some (mkWaiter ws id None)) →
  hub_inv s → hub_inv (on_objects (alter (set_pending f) ws) s).
Proof.
  intros Hf [Hc Hl Hg Hp Hs]. split.
  - intros dev ws' Hd. destruct (Hc _ _ Hd) as [(c & Ho & Hdev & Hsv & Hcn) Hng]. split; [|done]. simpl.
    rewrite lookup_alter. case_decide; [subst|by eauto 10]. rewrite Ho. eexists. by split.
  - intros ws' c' (c & Ho & [[Hne ->]|[-> ->]])%alter_object_inv; simpl; by eauto.
  - intros ws' Hws. apply is_Some_alter. by apply Hg.
  - intros ws' c' id ch (c & Ho & [[Hne ->]|[-> ->]])%alter_object_inv; simpl; by eauto.
  - done.
Qed.

Lemma register_waiter_inv ws id : preserves keeps_inv (register_waiter ws id).
Proof.
  apply preserves_mstate. intros s Hi. simpl. set (ch := fresh _).
  assert (hb_waiters s !! ch = None) as Hf by (apply not_elem_of_dom, is_fresh).
  apply set_pending_inv.
  - intros c Ho id' ch'. simpl in *. rewrite lookup_insert_Some. intros [[<- <-]|[Hne Hp]].
    + by rewrite lookup_insert_eq.
    + pose proof (inv_pending s Hi _ _ _ _ Ho Hp) as Hw. rewrite lookup_insert_ne; [done|congruence].
  - destruct Hi as [Hc Hl Hg Hp Hs]. split; simpl; [done..| |].
    + intros ws' c id' ch' Ho Hc'. pose proof (Hp _ _ _ _ Ho Hc') as Hw.
      rewrite lookup_insert_ne; [done|congruence].
    + intros ch' w env. rewrite lookup_insert_Some. intros [[<- <-]|[_ Hw]]; [done|by eauto].
Qed.

Lemma release_waiter_inv ws id ch s w :
  hb_waiters s !! ch = Some w → wt_conn w = ws → wt_id w = id → hub_inv s →
  hub_inv (on_objects (alter (set_pending (delete id)) ws) (on_waiters (delete ch) s)).
Proof.
  intros Hw <- <- Hi. pose proof Hi as [Hc Hl Hg Hp Hs].
  (** the channel's own entry is the only one that points to it *)
  assert (∀ ws' c' id' ch', hb_objects s !! ws' = Some c' → cn_pending c' !! id' = Some ch' →
    ws' ≠ wt_conn w ∨ id' ≠ wt_id w → ch' ≠ ch) as Hne.
  { intros ws' c' id' ch' Ho Hp' Hor ->. pose proof (Hp _ _ _ _ Ho Hp'). simplify_eq. naive_solver. }
  split.
  - intros dev ws' Hd. destruct (Hc _ _ Hd) as [(c & Ho & Hdev & Hsv & Hcn) Hng]. split; [|done]. simpl.
    rewrite lookup_alter. case_decide; [subst|by eauto 10]. rewrite Ho. eexists. by split.
  - intros ws' c' (c & Ho & [[? ->]|[-> ->]])%alter_object_inv; simpl; by eauto.
  - intros ws' Hws. apply is_Some_alter. by apply Hg.
  - intros ws' c' id' ch' (c & Ho & [[? ->]|[-> ->]])%alter_object_inv; simpl.
    + intros Hp'. rewrite lookup_delete_ne; [by eauto|]. symmetry. by eauto.
    + rewrite lookup_delete_Some. intros [Hid Hp']. rewrite lookup_delete_ne; [by eauto|].
      symmetry. eapply Hne; eauto.
  - intros ch' w' env. simpl. rewrite lookup_delete_Some. intros [_ Hw']. by eauto.
Qed.

(** Delivery to a registered channel: it is emptied from the map and its
    slot filled. *)
Definition delivered_state (ws : nat) (id : string) (ch : nat) (env : Envelope) (s : hub) : hub :=
  on_waiters (insert ch (mkWaiter ws id (Some env)))
    (on_objects (alter (set_pending (delete id)) ws) s).

Lemma tryDeliver_state ws env s :
  hub_inv s →
  (∃ c id ch, env_RequestID env = Some id ∧ hb_objects s !! ws = Some c ∧ cn_pending c !! id = Some ch ∧
     ∀ fs, tryDeliver ws env (World s fs) = (Ok true, World (delivered_state ws id ch env s) fs)) ∨
  ((∀ c id, env_RequestID env = Some id → hb_objects s !! ws = Some c → cn_pending c !! id = None) ∧
     ∀ fs, tryDeliver ws env (World s fs) = (Ok false, World s fs)).
Proof.
  intros Hi. unfold tryDeliver, mstate. simpl.
  destruct (env_RequestID env) as [id|] eqn:Er; [|by right].
  destruct (hb_objects s !! ws) as [c|] eqn:Ho; simpl; [|by right].
  destruct (cn_pending c !! id) as [ch|] eqn:Hp; [left|right].
  - exists c, id, ch. split_and!; [done..|]. intros fs. unfold delivered_state. do 2 f_equal.
    unfold on_waiters. simpl. f_equal. apply map_eq. intros j. rewrite lookup_alter, lookup_insert.
    case_decide; [subst|done]. by rewrite (inv_pending s Hi _ _ _ _ Ho Hp).
  - split; [|done]. intros c' id' [= <-] [= <-]. done.
Qed.

Lemma delivered_inv ws c id ch env s :
  hb_objects s !! ws = Some c → cn_pending c !! id = Some ch → env_RequestID env = Some id →
  hub_inv s → hub_inv (delivered_state ws id ch env s).
Proof.
  intros Ho Hpd Er Hi. pose proof Hi as [Hc Hl Hg Hp Hs].
  pose proof (Hp _ _ _ _ Ho Hpd) as Hch. split.
  - intros dev ws' Hd. destruct (Hc _ _ Hd) as [(c0 & Ho0 & Hdev & Hsv & Hcn) Hng]. split; [|done]. simpl.
    rewrite lookup_alter. case_decide; [subst|by eauto 10]. rewrite Ho0. eexists. by split.
  - intros ws' c' (c0 & Ho0 & [[? ->]|[-> ->]])%alter_object_inv; simpl; by eauto.
  - intros ws' Hws. apply is_Some_alter. by apply Hg.
  - intros ws' c' id' ch' (c0 & Ho0 & [[? ->]|[-> ->]])%alter_object_inv; simpl.
    + intros Hp'. pose proof (Hp _ _ _ _ Ho0 Hp'). rewrite lookup_insert_ne; [done|]. intros ->. congruence.
    + rewrite lookup_delete_Some. intros [Hne Hp']. pose proof (Hp _ _ _ _ Ho0 Hp').
      rewrite lookup_insert_ne; [done|]. intros ->. congruence.
  - intros ch' w env'. simpl. rewrite lookup_insert_Some.
    intros [[<- <-]|[_ Hw]]; simpl; [congruence|by eauto].
Qed.

Lemma tryDeliver_inv ws env : preserves keeps_inv (tryDeliver ws env).
Proof.
  intros s fs. destruct (tryDeliver ws env (World s fs)) as [r [s' fs']] eqn:E. intros Hi.
  destruct (tryDeliver_state ws env s Hi) as [(c & id & ch & Er & Ho & Hp & Et)|[_ Et]];
    rewrite Et in E; simplify_eq/=; [|done]. by eapply delivered_inv.
Qed.
#[local] Hint Resolve register_waiter_inv tryDeliver_inv : preserve.

(** A new connection of a device that has none. *)
Lemma insert_inv ws c s :
  hb_objects s !! ws = None → hb_conns s !! cn_deviceID c = None → cn_pending c = ∅ →
  cn_serving c = true → cn_cancelled c = false → hub_inv s →
  hub_inv (on_conns (insert (cn_deviceID c) ws) (on_objects (insert ws c) s)).
Proof.
  intros Hn Hd Hpd Hsv Hcn [Hc Hl Hg Hp Hs]. split; simpl.
  - intros dev' ws'. rewrite lookup_insert_Some. intros [[<- <-]|[Hne Hd']].
    { rewrite lookup_insert_eq. split; [by exists c|]. intros Hin. destruct (Hg _ Hin). congruence. }
    destruct (Hc _ _ Hd') as [(c' & Ho & ?) Hng]. rewrite lookup_insert_ne by congruence. split; [by exists c'|done].
  - intros ws' c'. rewrite lookup_insert_Some. intros [[<- <-]|[Hne Ho]]; [by rewrite lookup_insert_eq; left|].
    intros Hsv' Hcn'. destruct (Hl _ _ Ho Hsv' Hcn'); [left|by right]. rewrite lookup_insert_ne; [done|]. congruence.
  - intros ws' Hws. rewrite lookup_insert. case_decide; [done|by apply Hg].
  - intros ws' c' id ch. rewrite lookup_insert_Some. intros [[<- <-]|[Hne Ho]]; [by rewrite Hpd|by eauto].
  - done.
Qed.

Lemma register_inv ws dev inst ip s :
  hb_objects s !! ws = None → hub_inv s → always (register ws dev inst ip) (λ _, hub_inv) s.
Proof.
  intros Hn Hi. apply always_mstate. simpl.
  apply (insert_inv ws (mkConn dev inst ip ∅ false true)); [..|done|done|done|]; simpl;
    destruct (hb_conns s !! dev) as [old|] eqn:E; simpl; try done.
  - by rewrite lookup_alter_None.
  - apply lookup_delete_eq.
  - by apply end_inv.
Qed.

Lemma sendAndWait_start_inv {P} `{!Json P} ws ty (p : P) mid now :
  preserves keeps_inv (sendAndWait_start ws ty p mid now).
Proof.
  intros s. unfold sendAndWait_start. apply always_mbind.
  eapply always_mono; [apply encodeWithID_wiring|].
  intros [[raw id]|e] s1 H1; [|by apply inv_same_wiring].
  apply always_mbind, always_mstate. cbn [fst snd]. set (ch := fresh _). set (s2 := on_objects _ _).
  assert (keeps_inv s s2) as H2.
  { etrans; [by apply inv_same_wiring|]. pose proof (register_waiter_inv ws id s1 []) as H2. exact H2. }
  assert (hb_waiters s2 !! ch = Some (mkWaiter ws id None)) as Hch by (subst s2; simpl; by rewrite lookup_insert_eq).
  clearbody s2. apply always_mbind, always_mtry. eapply always_mono; [apply write_wiring|].
  intros [[]|e] s3 H3.
  - apply always_mret. etrans; [done|by apply inv_same_wiring].
  - apply always_mbind, always_mstate, always_mfail. simpl. intros Hi.
    eapply release_waiter_inv; [destruct H3 as (_ & _ & E); rewrite E; exact Hch|done..|].
    exact (inv_same_wiring _ _ H3 (H2 Hi)).
Qed.

Lemma sendAndWait_finish_inv ch w deadline s :
  hb_waiters s !! ch = Some w → hub_inv s →
  always (sendAndWait_finish (wt_conn w) (wt_id w) ch deadline) (λ _, hub_inv) s.
Proof.
  intros Hw Hi. unfold sendAndWait_finish. apply always_mbind, always_mtry.
  eapply always_mono; [apply await_wiring|]. intros r s1 H1. apply always_mbind, always_mstate, always_mlift. simpl.
  eapply release_waiter_inv; [destruct H1 as (_ & _ & E); rewrite E; exact Hw|done..|].
  exact (inv_same_wiring _ _ H1 Hi).
Qed.

Lemma readLoop_turn_inv ws m mid now : preserves keeps_inv (readLoop_turn ws m mid now).
Proof. unfold readLoop_turn. preserve_steps. Qed.

Lemma keeps_effect {A} (m : HubM A) s s' : preserves keeps_inv m → hub_inv s → effect m s s' → hub_inv s'.
Proof. intros Hm Hi. apply effect_always. eapply always_mono; [apply Hm|]. by auto. Qed.

End invariant.

(** Taking a connection out of the map, with more of them about to end. *)
Lemma take_inv gone gone' dev ws s :
  hb_conns s !! dev = Some ws → gone' ≡ₚ ws :: gone → hub_inv gone s → hub_inv gone' (on_conns (delete dev) s).
Proof.
  intros Hd Hg' [Hc Hl Hg Hp Hs]. split; simpl; [..|done|done].
  - intros dev' ws'. rewrite lookup_delete_Some. intros [Hne Hd']. destruct (Hc _ _ Hd') as [Hx Hng]. split; [done|].
    rewrite Hg', not_elem_of_cons. split; [|done]. intros ->.
    destruct (Hc _ _ Hd) as [(c0 & Ho0 & ? & _) _], Hx as (c & Ho & ? & _). congruence.
  - intros ws' c Ho Hsv Hcn. rewrite Hg'. destruct (Hl _ _ Ho Hsv Hcn) as [Hw|]; [|right; by right].
    destruct (decide (ws' = ws)) as [->|]; [right; left|left]. apply lookup_delete_Some. split; [|done]. congruence.
  - intros ws'. rewrite Hg'. intros [->|Hin]%elem_of_cons; [|by apply Hg]. destruct (Hc _ _ Hd) as [(c & -> & _) _]. by eexists.
Qed.
(** A connection that is not in the map begins to end. *)
Lemma more_inv gone gone' ws o s :
  hb_objects s !! ws = Some o → hb_conns s !! cn_deviceID o ≠ Some ws → gone' ≡ₚ ws :: gone → hub_inv gone s → hub_inv gone' s.
Proof.
  intros Ho Hn Hg' [Hc Hl Hg Hp Hs]. split; [..|done|done].
  - intros dev ws' Hd. destruct (Hc _ _ Hd) as [Hx Hng]. split; [done|]. rewrite Hg', not_elem_of_cons. split; [|done].
    intros ->. destruct Hx as (c & Ho' & <- & _). rewrite Ho in Ho'. congruence.
  - intros ws' c Ho' Hsv Hcn. rewrite Hg'. destruct (Hl _ _ Ho' Hsv Hcn); [by left|right; by right].
  - intros ws'. rewrite Hg'. intros [->|Hin]%elem_of_cons; [by eexists|by apply Hg].
Qed.
(** One that was about to end has ended. *)
Lemma less_inv f gone gone' ws s :
  (∀ c, cn_deviceID (f c) = cn_deviceID c ∧ cn_cancelled (f c) = true ∧ cn_pending (f c) = cn_pending c) →
  ws ∈ gone → (∀ n, n ∈ gone' → n ∈ gone) → (∀ n, n ∈ gone → n = ws ∨ n ∈ gone') →
  hub_inv gone s → hub_inv gone' (on_objects (alter f ws) s).
Proof.
  intros Hf Hws Hsub Hsup [Hc Hl Hg Hp Hs]. split.
  - intros dev ws' Hd. destruct (Hc _ _ Hd) as [(c & Ho & ?) Hng]. split; [|by auto]. exists c. split; [|done].
    simpl. rewrite lookup_alter_ne; [done|]. intros ->. by apply Hng.
  - intros ws' c' (c & Ho & [[Hne ->]|[-> ->]])%alter_object_inv Hsv Hcn; [|destruct (Hf c) as (_ & ? & _); congruence].
    destruct (Hl _ _ Ho Hsv Hcn) as [|Hin]; [by left|right]. by destruct (Hsup _ Hin).
  - intros ws' Hin. apply is_Some_alter. by apply Hg, Hsub.
  - intros ws' c' id ch (c & Ho & [[Hne ->]|[-> ->]])%alter_object_inv; simpl; [by eauto|].
    destruct (Hf c) as (_ & _ & ->). by eauto.
  - done.
Qed.
Lemma elem_of_forget n ws l : n ∈ forget ws l ↔ n ≠ ws ∧ n ∈ l.
Proof. unfold forget. by rewrite list_elem_of_filter. Qed.

(** The connection leaves the map, if it is still there, and its serving
    goroutine ends. *)
Definition disconnected (ws : nat) (dev : uuid) (s s' : hub) : Prop :=
  hb_conns s' = (if bool_decide (hb_conns s !! dev = Some ws) then delete dev (hb_conns s)
                 else hb_conns s) ∧
  hb_objects s' = alter set_done ws (hb_objects s) ∧ hb_waiters s' = hb_waiters s.

Lemma disconnect_always ws c s :
  hb_objects s !! ws = Some c → always (disconnect ws) (λ _, disconnected ws (cn_deviceID c) s) s.
Proof.
  intros Ho. unfold disconnect, leave, return_. apply always_mbind, always_mstate. simpl. rewrite Ho.
  apply always_mbind, always_mstate. cbn [fst snd]. set (s1 := if bool_decide _ then _ else _).
  assert (hb_conns s1 = (if bool_decide (hb_conns s !! cn_deviceID c = Some ws)
    then delete (cn_deviceID c) (hb_conns s) else hb_conns s) ∧ hb_objects s1 = hb_objects s ∧
    hb_waiters s1 = hb_waiters s) as Hs1 by (subst s1; by case_bool_decide).
  clearbody s1. unfold disconnected. destruct Hs1 as (<- & <- & <-). clear.
  apply (ignore_then same_wiring); [apply registry_wiring|]. intros s2 Hw2.
  apply always_mbind, always_mstate, always_mbind. cbn [fst snd].
  destruct (hc_disconnectHandler cfg); [apply always_mstate|apply always_mret];
    apply always_mstate; simpl; destruct Hw2 as (-> & -> & ->); done.
Qed.

Definition run_inv (x : hub_run) : Prop := hub_inv (ending x) (hr_hub x).

Lemma hub_step_inv x x' : hub_step x x' → run_inv x → run_inv x'.
Proof.
  unfold run_inv, ending. intros Hst Hi.
  destruct Hst as [ws nonce reply mid1 mid2 connID now later dev inst fs fs' s s' a c l Hn E
    |ws nonce reply mid1 mid2 connID now later s s' a c l E|ws dev inst ip s s' a c l Hin Hn E
    |ws o m mid now s s' a c l Ho Hsv Hl E|ws o s s' a c l Ho Hsv Hl E|ws s s' a c l Hin E
    |id o fs fs' s s' a c l E|ws s s' a c l Hin E|P jp ws ty p mid now s s' a c l Ho E|ws id s s' a c l Ho E
    |ch w deadline s s' a c l Hw E|ws m s s' a c l E|k s a c l|f s a c l]; cbn [hr_hub hr_closing hr_leaving] in *.
  - pose proof (handshake_wiring ws nonce reply mid1 mid2 connID now later s fs) as Hw. rewrite E in Hw. by eapply inv_same_wiring.
  - revert E. apply keeps_effect; [|exact Hi]. apply wiring_keeps_inv, handshake_wiring.
  - revert E. apply effect_always. by apply register_inv.
  - revert E. apply keeps_effect; [|exact Hi]. apply readLoop_turn_inv.
  - revert E. apply effect_always, always_mstate. cbn [fst snd].
    assert (c ++ ws :: l ≡ₚ ws :: c ++ l) as Hg by (symmetry; apply Permutation_middle).
    case_bool_decide; [by apply (take_inv (c ++ l) _ _ ws)|by apply (more_inv (c ++ l) _ ws o)].
  - revert E. apply effect_always, always_mstate. cbn [fst snd].
    apply (less_inv _ (c ++ l)); [done|apply elem_of_app; by right|..|done]; intros n; rewrite !elem_of_app, elem_of_forget; [tauto|].
    destruct (decide (n = ws)); tauto.
  - unfold close_take, mstate in E. cbn in E. injection E as <- <- _. destruct (hb_conns s !! id) as [ws|] eqn:Hd; [by apply (take_inv (c ++ l) _ _ ws)|].
    eapply inv_same_wiring; [|exact Hi]. split_and!; [|done..]. simpl. by apply delete_id.
  - revert E. apply effect_always, always_mstate. cbn [fst snd].
    apply (less_inv _ (c ++ l)); [done|apply elem_of_app; by left|..|done]; intros n; rewrite !elem_of_app, elem_of_forget; [tauto|].
    destruct (decide (n = ws)); tauto.
  - revert E. apply keeps_effect; [|exact Hi]. apply sendAndWait_start_inv.
  - revert E. apply keeps_effect; [|exact Hi]. apply register_waiter_inv.
  - revert E. apply effect_always. by apply sendAndWait_finish_inv.
  - revert E. apply keeps_effect; [|exact Hi]. apply wiring_keeps_inv, write_wiring.
  - by apply (inv_same_wiring _ s).
  - by apply (inv_same_wiring _ s).
Qed.

Lemma hub_reachable_inv reg x : reachable (eq (start_run reg)) hub_step x → run_inv x.
Proof.
  apply invariant_reachable; [|by intros x0 x1 Hi Hst; eapply hub_step_inv]. intros ? <-. split; try done. by intros ??%elem_of_nil.
Qed.

Definition live (s : hub) (ws : nat) (dev : uuid) : Prop :=
  ∃ c, hb_objects s !! ws = Some c ∧ cn_deviceID c = dev ∧ cn_serving c = true ∧ cn_cancelled c = false.

(** C22: one control connection per device: whatever way handshakes,
    registrations, sweeps, requests and teardowns interleave between the
    sections the hub's mutex protects, and whatever fails, a connection that
    is served and not cancelled is the only such one of its device, apart from
    connections that are already out of the map and whose cancellation or
    return is under way; [IsOnline] reports exactly the devices that have one,
    and requests are only ever handed that one. *)
Theorem one_connection_per_device reg x dev :
  reachable (eq (start_run reg)) hub_step x →
  let s := hr_hub x in
  (∀ ws1 ws2, live s ws1 dev → live s ws2 dev → ws1 ∉ ending x → ws2 ∉ ending x → ws1 = ws2) ∧
  (IsOnline dev s = true ↔ ∃ ws, live s ws dev ∧ ws ∉ ending x) ∧
  (∀ ws, (run (getConn dev) s).1 = Ok ws → live s ws dev ∧ ws ∉ ending x).
Proof.
  intros Hi%hub_reachable_inv. unfold run_inv in Hi. revert Hi. generalize (hr_hub x). intros s [Hc Hl _ _ _]. cbv zeta. split_and!.
  - intros ws1 ws2 (c1 & Ho1 & <- & ? & ?) (c2 & Ho2 & E & ? & ?) Hn1 Hn2.
    destruct (Hl _ _ Ho1), (Hl _ _ Ho2); try done. rewrite E in *. congruence.
  - unfold IsOnline. destruct (hb_conns s !! dev) as [ws|] eqn:E; simpl; split; try done.
    + intros _. exists ws. by apply Hc.
    + intros (ws & (c & Ho & <- & Hs & Hcn) & Hn). destruct (Hl _ _ Ho Hs Hcn) as [Hw|]; [|done]. by rewrite Hw in E.
  - intros ws. unfold getConn. run_unfold. simpl. destruct (hb_conns s !! dev) as [ws'|] eqn:E; [|done]. intros [= <-]. by apply Hc.
Qed.

(** [ServeAgentWS], left alone, is a sequence of these steps. *)
Lemma connect_steps I ws ip nonce reply mid1 mid2 connID now later s s1 dev inst a c l :
  hb_objects s !! ws = None →
  handshake ws nonce reply mid1 mid2 connID now later (World s []) = (Ok (dev, inst), World s1 []) →
  reachable I hub_step (mkRun s a c l) →
  reachable I hub_step (mkRun (run (connect ws ip nonce reply mid1 mid2 connID now later) s).2 ((ws, (dev, inst)) :: a) c l).
Proof.
  intros Hn Hh Hr. unfold run, connect. unfold mbind, M_bind at 1. rewrite Hh.
  pose proof (handshake_wiring ws nonce reply mid1 mid2 connID now later s []) as Hw. rewrite Hh in Hw. destruct Hw as (_ & Ho & _).
  set (s2 := (run (register ws dev inst ip) s1).2).
  assert (reachable I hub_step (mkRun s2 ((ws, (dev, inst)) :: a) c l)) as Hr2.
  { eapply reach_step; [eapply reach_step; [exact Hr|by eapply step_accept]|].
    apply (step_register ws dev inst ip); [left|cbn in Ho; by rewrite Ho|apply effect_run]. }
  assert (register ws dev inst ip (World s1 []) = (Ok tt, World s2 [])) as Hs2 by done.
  unfold mbind, M_bind at 1. rewrite Hs2. clearbody s2.
  unfold registry. run_unfold. cbn -[UpdateConnectivity Evaluate].
  destruct (UpdateConnectivity _ _ _ _ _) as [r1 [d1 fs1]]. set (s3 := on_registry (λ _, d1) s2).
  assert (reachable I hub_step (mkRun s3 ((ws, (dev, inst)) :: a) c l)) as Hr3 by (eapply reach_step; [exact Hr2|apply step_registry]).
  destruct r1; cbn -[UpdateConnectivity Evaluate]; fold s3;
    destruct (Evaluate _ _ _ _ _) as [[r2|e2] [d2 fs2]]; cbn; (eapply reach_step; [eapply reach_step; [exact Hr3|apply step_registry]|apply step_call]).
Qed.

(** A message over the read limit is not read at all: the read loop ends, which
    takes the connection down, and the agent is not told why. *)
Theorem oversized_message_unread ws c m mid now s :
  hb_objects s !! ws = Some c → too_long (message_data m) MaxInventoryBytes = true →
  run (readLoop_turn ws m mid now) s = (Err HubRead, s).
Proof. intros Ho Hl. unfold readLoop_turn. run_unfold. run_simpl. by rewrite Ho, Hl. Qed.

(** An answer reaches the request it answers and nothing else: when a
    message on connection [ws] names the id a request is registered under,
    the request's channel receives it, no other channel changes, the message
    has no other effect, and the request then returns it. *)
Theorem response_delivery reg x ws c id ch raw env mid now :
  reachable (eq (start_run reg)) hub_step x → let s := hr_hub x in
  hb_objects s !! ws = Some c → cn_pending c !! id = Some ch →
  too_long raw MaxInventoryBytes = false → Decode raw = Ok env → env_RequestID env = Some id →
  ∃ s', run (readLoop_turn ws (Text raw) mid now) s = (Ok tt, s') ∧
    hb_waiters s' = <[ch := mkWaiter ws id (Some env)]> (hb_waiters s) ∧
    hb_registry s' = hb_registry s ∧ hb_sent s' = hb_sent s ∧ hb_calls s' = hb_calls s ∧
    (run (sendAndWait_finish ws id ch false) s').1 = Ok env.
Proof.
  intros Hi%hub_reachable_inv s Ho Hp Hlen Hd Er.
  destruct (tryDeliver_state (ending x) ws env s Hi) as [(c' & id' & ch' & Er' & Ho' & Hp' & Et)|[Hn _]];
    [|by rewrite (Hn c id Er Ho) in Hp].
  simplify_eq. exists (delivered_state ws id ch env s). split_and!; [|done..|].
  - unfold readLoop_turn, run. unfold mbind, M_bind at 1. unfold mstate at 1. simpl. rewrite Ho. cbn [message_data]. rewrite Hlen, Hd.
    unfold mbind, M_bind. by rewrite Et.
  - unfold sendAndWait_finish, await, release_waiter, do_. run_unfold. simpl. by rewrite lookup_insert_eq.
Qed.

(** A request never returns somebody else's answer: in every reachable
    state, what a waiting request returns is a timeout or a message whose
    request id is its own. *)
Theorem response_correlated reg x ch w deadline :
  reachable (eq (start_run reg)) hub_step x → let s := hr_hub x in hb_waiters s !! ch = Some w →
  always (sendAndWait_finish (wt_conn w) (wt_id w) ch deadline) (λ r _,
    match r with
    | Ok env => deadline = false ∧ env_RequestID env = Some (wt_id w)
    | Err e => e = HubTimeout
    end) s.
Proof.
  intros Hi%hub_reachable_inv s Hw. unfold sendAndWait_finish, await, release_waiter, do_.
  apply always_mbind, always_mtry, always_mbind, always_mstate. simpl. rewrite Hw. simpl.
  destruct deadline; [by always_steps|].
  destruct (wt_slot w) as [env|] eqn:Es; always_steps; [|done]. split; [done|]. by eapply inv_slot.
Qed.

(** ** Authentication *)

(** What the handshake has checked when it accepts: the peer answered this
    connection's nonce with a signature that verifies under the newest usable
    credential of an enrolled, unrevoked device with that install id. *)
Definition authenticated (reg : dev_db) (nonce reply : option bytes) (later : time) (devID instID : uuid)
    : Prop :=
  ∃ n raw env hello d cr sig,
    nonce = Some n ∧ reply = Some raw ∧ Decode raw = Ok env ∧ env_Type env = TypeHello ∧
    env_Protocol env = Version ∧ DecodePayload env = Ok hello ∧ he_Nonce hello = std_encode n ∧
    uuid_parse (he_DeviceID hello) = Some devID ∧ uuid_parse (he_InstallID hello) = Some instID ∧
    devices reg !! devID = Some d ∧ dv_InstallID d = instID ∧ dv_Status d ≠ StatusRevoked ∧
    dv_CredentialStatus d = CredActive ∧
    cr ∈ credentials reg ∧ usable devID later cr = true ∧
    (∀ cr', cr' ∈ credentials reg → usable devID later cr' = true →
       (cr_KeyVersion cr' ≤ cr_KeyVersion cr)%Z) ∧
    length (cr_PublicKey cr) = 32 ∧ std_decode (he_Signature hello) = Some sig ∧
    ed25519_verify (cr_PublicKey cr) n sig = true ∧
    (∀ checker, hc_versionBlocked cfg = Some checker →
       checker (osFamilyOf (he_OS hello)) (he_Arch hello) (he_AgentVersion hello) ≠ Ok true).

Lemma write_then ws m {B} (k : unit → HubM B) Q s :
  (∀ e, Q (Err e) s) → always (k tt) Q (on_sent (λ l, l ++ [(ws, m)]) s) →
  always (write ws m ≫= k) Q s.
Proof. intros He Hk. apply always_mbind, always_mexec; [apply He|apply Hk]. Qed.

Lemma registry_then {A B} (m : DevM A) (k : A → HubM B) Q s :
  (∀ e d, Q (Err e) (on_registry (λ _, d) s)) →
  always m (λ r d, match r with Ok a => always (k a) Q (on_registry (λ _, d) s) | Err _ => True end)
    (hb_registry s) →
  always (registry m ≫= k) Q s.
Proof.
  intros He Hm. apply always_mbind. unfold registry. apply always_mwrap, always_mzoom.
  eapply always_mono; [exact Hm|]. by intros [a|e] d.
Qed.

Lemma encode_then {P B} `{!Json P} ty req (p : P) mid now (k : bytes → HubM B) Q s :
  (∀ e, Q (Err e) s) → (∀ raw, Encode ty req p mid now = Ok raw → always (k raw) Q s) →
  always (encode ty req p mid now ≫= k) Q s.
Proof.
  intros He Hk. apply always_mbind, always_mwrap, always_mlift. destruct (Encode _ _ _ _ _); auto.
Qed.

(** Recording the hello cannot fail, writes nothing and wires nothing. *)
Lemma record_hello_always devID d hello s :
  always (record_hello devID d hello) (λ r s', r = Ok tt ∧ hb_sent s' = hb_sent s ∧ same_wiring s s') s.
Proof.
  assert (∀ (m : DevM unit) s0 s1, hb_sent s1 = hb_sent s0 ∧ same_wiring s0 s1 →
    always (mignore (E := hub_error) (F := hub_error) (registry m))
      (λ r s', r = Ok tt ∧ hb_sent s' = hb_sent s0 ∧ same_wiring s0 s') s1) as Hm.
  { intros m s0 s1 [Hs Hw]. unfold registry. apply always_mignore, always_mwrap, always_mzoom.
    by apply always_any; intros [] d'. }
  unfold record_hello. apply always_mbind.
  eapply (always_mono _ (λ r s', r = Ok tt ∧ hb_sent s' = hb_sent s ∧ same_wiring s s')).
  { destruct (he_Capabilities hello); [by apply always_mret|by apply Hm]. }
  intros r s1 (-> & Hs1). apply always_mbind. eapply always_mono; [by apply (Hm _ s)|].
  intros r s2 (-> & Hs2). by apply Hm.
Qed.

Lemma newest_credential devID later reg :
  always (ActiveCredentialPublicKey devID later) (λ r d, d = reg ∧ match r with
    | Ok key => ∃ cr, cr ∈ credentials reg ∧ usable devID later cr = true ∧ cr_PublicKey cr = key ∧
        ∀ cr', cr' ∈ credentials reg → usable devID later cr' = true → (cr_KeyVersion cr' ≤ cr_KeyVersion cr)%Z
    | Err _ => True
    end) reg.
Proof.
  unfold ActiveCredentialPublicKey. apply always_mbind, always_mquery; [done|].
  destruct (head _) as [cr|] eqn:E; [|by apply always_mfail]. apply always_mret. split; [done|].
  apply order_by_head in E as [Hin Hle];
    [|intros a b; rewrite !Z.leb_le; lia|intros a b c; rewrite !Z.leb_le; lia].
  apply list_elem_of_filter in Hin as [Hu Hin]. exists cr. split_and!; [done..|].
  intros cr' Hin' Hu'. apply Z.leb_le, Hle, list_elem_of_filter. done.
Qed.

Lemma handshake_always ws nonce reply mid1 mid2 connID now later s :
  always (handshake ws nonce reply mid1 mid2 connID now later) (λ r _,
    match r with
    | Ok (devID, instID) => authenticated (hb_registry s) nonce reply later devID instID
    | Err _ => True
    end) s.
Proof.
  unfold handshake. destruct nonce as [n|]; [|by apply always_mfail].
  apply encode_then; [done|]. intros raw1 _. apply write_then; [done|].
  destruct reply as [raw|]; [|by apply always_mfail].
  destruct (Decode raw) as [env|] eqn:Hd; [|by apply always_mfail].
  destruct (negb (String.eqb (env_Type env) _) || _) eqn:Ht; [by apply always_mfail|].
  destruct (DecodePayload env) as [hello|] eqn:Hp; [|by apply always_mfail].
  destruct (negb (String.eqb (he_Nonce hello) _)) eqn:Hn; [by apply always_mfail|].
  destruct (uuid_parse (he_DeviceID hello)) as [dev|] eqn:Hdev; [|by apply always_mfail].
  destruct (uuid_parse (he_InstallID hello)) as [inst|] eqn:Hinst; [|by apply always_mfail].
  apply registry_then; [done|]. simpl. unfold GetByID.
  apply always_mbind, always_mquery; [done|].
  destruct (devices (hb_registry s) !! dev) as [d|] eqn:Hdv; [|by apply always_mfail].
  apply always_mret. cbn [fst snd].
  destruct (negb (dv_InstallID d =? inst)%N || _ || _) eqn:Hchk; [by apply always_mfail|].
  destruct (match hc_versionBlocked cfg with Some _ => _ | None => false end) eqn:Hblk; [by apply always_mfail|].
  apply registry_then; [done|]. eapply always_mono; [by apply (newest_credential dev later)|].
  intros [key|e] reg' [-> Hk]; [|done]. destruct Hk as (cr & Hin & Hu & <- & Hmax).
  destruct (negb (length _ =? 32)) eqn:Hl; [by apply always_mfail|].
  destruct (std_decode (he_Signature hello)) as [sig|] eqn:Hs; [|by apply always_mfail].
  destruct (negb (ed25519_verify _ _ _)) eqn:Hv; [by apply always_mfail|].
  apply encode_then; [done|]. intros raw2 _. apply write_then; [done|].
  apply always_mbind. eapply always_mono; [apply record_hello_always|].
  intros r s' [-> _]. apply always_mret. exists n, raw, env, hello, d, cr, sig.
  apply orb_false_iff in Ht as [Ht1 Ht2], Hchk as [[Hc1 Hc2]%orb_false_iff Hc3].
  apply negb_false_iff in Ht1, Ht2, Hn, Hc1, Hc3, Hl, Hv.
  apply String.eqb_eq in Ht1, Hn. apply Z.eqb_eq in Ht2. apply N.eqb_eq in Hc1.
  apply bool_decide_eq_false in Hc2. apply bool_decide_eq_true in Hc3. apply Nat.eqb_eq in Hl.
  split_and!; try done. intros ck Eck Hck. by rewrite Eck, Hck in Hblk.
Qed.

Lemma connect_sound ws ip nonce reply mid1 mid2 connID now later s s' :
  hb_objects s !! ws = None →
  effect (connect ws ip nonce reply mid1 mid2 connID now later) s s' →
  match hb_objects s' !! ws with
  | Some c => authenticated (hb_registry s) nonce reply later (cn_deviceID c) (cn_installID c) ∧
              hb_conns s' !! cn_deviceID c = Some ws
  | None => same_wiring s s'
  end.
Proof.
  intros Hn He. pattern s'. revert He. apply effect_always. unfold connect. apply always_mbind.
  eapply always_mono; [apply always_and; [apply handshake_wiring|apply handshake_always]|].
  intros [[dev inst]|e] s1 [Hw Ha]; cbv beta.
  - apply always_mbind, always_mstate. cbn [fst snd]. set (s2 := on_conns _ _).
    assert (hb_conns s2 !! dev = Some ws ∧ hb_objects s2 !! ws = Some (mkConn dev inst ip ∅ false true)) as [Hc Ho].
    { subst s2. simpl. by rewrite !lookup_insert_eq. }
    clearbody s2. eapply (always_mono _ (λ _, same_wiring s2)).
    + assert (preserves same_wiring (
        mignore (E := hub_error) (F := hub_error) (registry (UpdateConnectivity dev StatusOnline ip later));;
        mignore (E := hub_error) (registry (Evaluate render th dev later));;
        call (AuditConnected dev ip))) as Hp by preserve_steps. apply Hp.
    + intros _ s3 (E1 & E2 & _). by rewrite E1, E2, Ho.
  - destruct Hw as (E1 & E2 & E3). rewrite E2, Hn. by split.
Qed.

(** C3: no connection without proof of possession: if accepting a socket
    leaves it among the hub's connections, then the peer signed this
    connection's nonce with the private half of the newest usable credential
    of that device, the device was enrolled under that install id, not
    revoked and its credential active, and its agent version is not blocked.
    A refused handshake changes neither
    the connections nor the waiting requests. *)
Theorem handshake_sound ws ip nonce reply mid1 mid2 connID now later s s' :
  hb_objects s !! ws = None →
  effect (connect ws ip nonce reply mid1 mid2 connID now later) s s' →
  match hb_objects s' !! ws with
  | Some c => authenticated (hb_registry s) nonce reply later (cn_deviceID c) (cn_installID c) ∧
              hb_conns s' !! cn_deviceID c = Some ws
  | None => same_wiring s s'
  end.
Proof. apply connect_sound. Qed.

(** ** The connectivity state machine *)

Definition other_device (dev : uuid) (d d' : dev_db) : Prop := devices d' !! dev = devices d !! dev.
#[local] Instance other_device_preorder dev : PreOrder (other_device dev).
Proof. split; unfold other_device; [done|]. intros ???. congruence. Qed.
Definition dev_frame (dev : uuid) (s s' : hub) : Prop :=
  devices (hb_registry s') !! dev = devices (hb_registry s) !! dev ∧
  hb_conns s' !! dev = hb_conns s !! dev.
#[local] Instance dev_frame_preorder dev : PreOrder (dev_frame dev).
Proof. split; unfold dev_frame; [done|]. intros ???. intuition congruence. Qed.

Lemma update_other dev id f : dev ≠ id → preserves (other_device dev) (mexec DevDB (on_devices (update_id id f))).
Proof.
  intros Hne. apply preserves_mexec; [apply _|]. intros d. unfold other_device. simpl.
  by rewrite lookup_update_id, decide_False.
Qed.
Lemma GetByID_other dev id : preserves (other_device dev) (GetByID id).
Proof. unfold GetByID. preserve_steps. Qed.
#[local] Hint Resolve update_other GetByID_other : preserve.
Lemma Evaluate_other dev id now : dev ≠ id → preserves (other_device dev) (Evaluate render th id now).
Proof.
  intros Hne. unfold Evaluate, LatestMetrics, RecentMetrics, UpdateHealth. preserve_steps.
Qed.
Lemma registry_frame {A} dev (m : DevM A) :
  preserves (other_device dev) m → preserves (dev_frame dev) (registry m).
Proof.
  intros Hm. apply preserves_mwrap, (preserves_mzoom _ _ _ (other_device dev)); [exact Hm|].
  intros s t Ht. by split.
Qed.
Lemma closeConn_frame dev id : dev ≠ id → preserves (dev_frame dev) (closeConn id).
Proof.
  intros Hne. unfold closeConn, close_take, close_cancel, do_. preserve_steps; apply preserves_mstate; intros s; [|done].
  split; [done|]. simpl. by rewrite lookup_delete_ne.
Qed.

Lemma sweep_one_frame dev id now : dev ≠ id → preserves (dev_frame dev) (sweep_one now id).
Proof.
  intros Hne. unfold sweep_one. preserve_steps;
    try (by apply closeConn_frame); apply registry_frame; [apply GetByID_other| | |].
  - by apply update_other.
  - by apply Evaluate_other.
  - by apply update_other.
Qed.

Lemma sweep_ids_frame dev now ids : dev ∉ ids → preserves (dev_frame dev) (sweep_ids now ids).
Proof.
  induction ids as [|id ids IH]; intros Hn; simpl; [apply preserves_mret; apply _|].
  apply not_elem_of_cons in Hn as [Hne Hn]. apply preserves_mbind; [apply _|by apply sweep_one_frame|].
  intros _. by apply IH.
Qed.

(** Ticks of the sweeper, in any map order and with any faults. *)
Definition sweep_tick (s s' : hub) : Prop :=
  ∃ order now, (∀ l, order l ≡ₚ l) ∧ effect (sweep order now) s s'.

Lemma sweep_disconnected dev order now s :
  (∀ l, order l ≡ₚ l) → hb_conns s !! dev = None →
  always (sweep order now) (λ _, dev_frame dev s) s.
Proof.
  intros Hord Hn. unfold sweep. apply always_mbind, always_mstate. cbn [fst snd].
  apply sweep_ids_frame. rewrite Hord. intros ([dev' ws] & -> & Hin)%list_elem_of_fmap.
  apply elem_of_map_to_list in Hin. simpl in Hn. congruence.
Qed.

Lemma disconnect_status ws c s d :
  hb_objects s !! ws = Some c → devices (hb_registry s) !! cn_deviceID c = Some d →
  ∃ s', run (disconnect ws) s = (Ok tt, s') ∧
    devices (hb_registry s') !! cn_deviceID c =
      Some (set_connectivity StatusConnectionLost (dv_LastSeenAt d) (dv_LastPublicIP d) d) ∧
    (hc_disconnectHandler cfg = true → OnDisconnect (cn_deviceID c) ∈ hb_calls s').
Proof.
  intros Ho Hd. unfold disconnect, leave, return_, do_, call, registry, UpdateStatusOnly. run_unfold. simpl.
  rewrite Ho. set (s1 := if bool_decide _ then _ else _).
  assert (hb_registry s1 = hb_registry s) as Hr by (subst s1; by case_bool_decide). clearbody s1.
  destruct (hc_disconnectHandler cfg); eexists; (split; [reflexivity|]); simpl;
    rewrite Hr, (update_id_Some _ _ _ _ Hd), lookup_insert_eq; (split; [done|]); [|done].
  intros _. apply elem_of_app. right. by apply list_elem_of_singleton.
Qed.

(** A lost device stays lost: once the hub has removed a connection and
    marked the device CONNECTION_LOST, no number of sweeps ever moves it on to
    OFFLINE, because the sweeper only looks at devices that have a
    connection. *)
Theorem lost_device_never_offline ws c d s s1 s2 :
  hb_objects s !! ws = Some c → hb_conns s !! cn_deviceID c = Some ws →
  devices (hb_registry s) !! cn_deviceID c = Some d →
  run (disconnect ws) s = (Ok tt, s1) → reachable (eq s1) sweep_tick s2 →
  ∃ d', devices (hb_registry s2) !! cn_deviceID c = Some d' ∧ dv_Status d' = StatusConnectionLost ∧
    dv_LastSeenAt d' = dv_LastSeenAt d.
Proof.
  intros Ho Hc Hd Hrun Hr. destruct (disconnect_status _ _ _ _ Ho Hd) as (s1' & Hrun' & Hd1 & _).
  assert (s1' = s1) as -> by congruence.
  assert (hb_conns s1 !! cn_deviceID c = None) as Hn.
  { pose proof (always_run _ _ _ (disconnect_always _ _ _ Ho)) as Hx. rewrite Hrun in Hx.
    destruct Hx as (-> & _). rewrite bool_decide_eq_true_2 by done. apply lookup_delete_eq. }
  enough (dev_frame (cn_deviceID c) s1 s2) as [E _] by (rewrite E, Hd1; by eexists).
  revert s2 Hr. apply invariant_reachable; [by intros ? <-|].
  intros s2 s3 Hf (order & now & Hord & He). revert He. apply effect_always.
  eapply always_mono; [apply (sweep_disconnected (cn_deviceID c)); [done|]|].
  - destruct Hf as [_ ->]. done.
  - intros r s4 Hf'. by etrans.
Qed.

(** The end of a replaced connection takes the live one's device down: when
    a connection that another one of the same device has superseded ends its
    read loop, the device is marked CONNECTION_LOST and its remote sessions
    are interrupted although the device is still connected. *)
Theorem superseded_disconnect_marks_lost ws ws' c d s s1 :
  hb_objects s !! ws = Some c → hb_conns s !! cn_deviceID c = Some ws' → ws' ≠ ws →
  devices (hb_registry s) !! cn_deviceID c = Some d → hc_disconnectHandler cfg = true →
  run (disconnect ws) s = (Ok tt, s1) →
  IsOnline (cn_deviceID c) s1 = true ∧
  (dv_Status <$> devices (hb_registry s1) !! cn_deviceID c) = Some StatusConnectionLost ∧
  OnDisconnect (cn_deviceID c) ∈ hb_calls s1.
Proof.
  intros Ho Hc Hne Hd Hh Hrun. destruct (disconnect_status _ _ _ _ Ho Hd) as (s1' & Hrun' & Hd1 & Hcall).
  assert (s1' = s1) as -> by congruence. split_and!; [|by rewrite Hd1|by auto].
  pose proof (always_run _ _ _ (disconnect_always _ _ _ Ho)) as Hx. rewrite Hrun in Hx.
  destruct Hx as (Ec & _). unfold IsOnline. rewrite Ec, bool_decide_eq_false_2, Hc; [done|]. congruence.
Qed.

(** What one tick does to a connected device. *)
Definition swept (now : time) (dev : uuid) (s s' : hub) : Prop :=
  match devices (hb_registry s) !! dev with
  | Some d =>
      match dv_LastSeenAt d with
      | Some seen =>
          if (tm_OfflineAfter (hc_timing cfg) <=? now - seen)%Z &&
             negb (bool_decide (dv_Status d = StatusOffline)) then
            hb_conns s' !! dev = None ∧
            ∃ d', devices (hb_registry s') !! dev = Some d' ∧ dv_Status d' = StatusOffline ∧
              dv_Health d' = HealthOffline ∧ dv_LastSeenAt d' = Some seen
          else if (tm_ConnectionLostAfter (hc_timing cfg) <=? now - seen)%Z &&
                  bool_decide (dv_Status d = StatusOnline) then
            hb_conns s' !! dev = hb_conns s !! dev ∧
            ∃ d', devices (hb_registry s') !! dev = Some d' ∧ dv_Status d' = StatusConnectionLost ∧
              dv_Health d' = dv_Health d ∧ dv_LastSeenAt d' = Some seen
          else dev_frame dev s s'
      | None => dev_frame dev s s'
      end
  | None => dev_frame dev s s'
  end.

Lemma sweep_one_exec now dev s :
  ∃ s', sweep_one now dev (World s []) = (Ok tt, World s' []) ∧ swept now dev s s'.
Proof.
  unfold sweep_one, swept, registry, GetByID, closeConn, close_take, close_cancel, do_, UpdateStatusOnly, Evaluate, UpdateHealth.
  run_unfold. simpl.
  destruct (devices (hb_registry s) !! dev) as [d|] eqn:Hd; simpl; [|by eexists].
  destruct (dv_LastSeenAt d) as [seen|] eqn:Hs; simpl; [|by eexists].
  destruct ((tm_OfflineAfter _ <=? _)%Z && _) eqn:E1.
  - simpl. unfold GetByID. run_unfold. simpl.
    pose proof (update_id_Some dev (λ x, set_connectivity StatusOffline (dv_LastSeenAt x)
      (dv_LastPublicIP x) x) _ _ Hd) as Hup.
    destruct (hb_conns s !! dev) as [ws|] eqn:Hc; simpl; rewrite Hup, lookup_insert_eq; simpl;
      eexists; (split; [reflexivity|]); simpl;
      rewrite ?Hup; erewrite update_id_Some, lookup_insert_eq by apply lookup_insert_eq;
      rewrite ?lookup_delete_eq;
      (split; [done|]); eexists; split_and!; done.
  - destruct ((tm_ConnectionLostAfter _ <=? _)%Z && _) eqn:E2; simpl; eexists; (split; [done|]); [|done].
    simpl. split; [done|]. rewrite (update_id_Some _ _ _ _ Hd), lookup_insert_eq. eexists; by split_and!.
Qed.

Lemma swept_frame_l now dev s s1 s2 : dev_frame dev s s1 → swept now dev s1 s2 → swept now dev s s2.
Proof.
  intros [E1 E2]. unfold swept, dev_frame. by rewrite E1, E2.
Qed.
Lemma swept_frame_r now dev s s1 s2 : swept now dev s s1 → dev_frame dev s1 s2 → swept now dev s s2.
Proof.
  intros Hs [E1 E2]. revert Hs. unfold swept, dev_frame. by rewrite E1, E2.
Qed.

Lemma sweep_ids_exec now ids s :
  NoDup ids → ∃ s', sweep_ids now ids (World s []) = (Ok tt, World s' []) ∧
    ∀ dev, dev ∈ ids → swept now dev s s'.
Proof.
  revert s. induction ids as [|id ids IH]; intros s Hnd.
  { exists s. split; [done|]. intros dev Hin. by apply elem_of_nil in Hin. }
  apply list.NoDup_cons in Hnd as [Hid Hnd]. destruct (sweep_one_exec now id s) as (s1 & E1 & Hs1).
  destruct (IH s1 Hnd) as (s2 & E2 & Hs2). exists s2. split.
  { simpl. unfold mbind, M_bind. by rewrite E1. }
  intros dev [->|Hin]%elem_of_cons.
  - eapply swept_frame_r; [done|]. pose proof (sweep_ids_frame id now ids Hid s1 []) as Hf.
    by rewrite E2 in Hf.
  - eapply swept_frame_l; [|by apply Hs2].
    assert (dev ≠ id) as Hne by congruence.
    pose proof (sweep_one_frame dev id now Hne s []) as Hf. by rewrite E1 in Hf.
Qed.

(** The sweeper enforces the time-outs: a tick always completes, and takes
    every connected device that was silent for [OfflineAfter] to OFFLINE with
    health OFFLINE and closes its connection, every ONLINE one silent for
    [ConnectionLostAfter] to CONNECTION_LOST, and leaves every other device
    and connection as it was. *)
Theorem sweep_enforces_timeouts order now s :
  (∀ l, order l ≡ₚ l) →
  ∃ s', run (sweep order now) s = (Ok tt, s') ∧
    ∀ dev, if IsOnline dev s then swept now dev s s' else dev_frame dev s s'.
Proof.
  intros Hord. destruct (sweep_ids_exec now (order (map_to_list (hb_conns s)).*1) s) as (s' & E & Hs).
  { rewrite Hord. apply NoDup_fst_map_to_list. }
  assert (run (sweep order now) s = (Ok tt, s')) as Hrun.
  { unfold sweep, run. unfold mbind, M_bind at 1. unfold mstate at 1. simpl. by rewrite E. }
  exists s'. split; [done|]. intros dev. unfold IsOnline.
  destruct (hb_conns s !! dev) as [ws|] eqn:Hc; simpl.
  - apply Hs. rewrite Hord. apply list_elem_of_fmap. exists (dev, ws). by rewrite elem_of_map_to_list.
  - pose proof (always_run _ _ _ (sweep_disconnected dev order now s Hord Hc)) as Hf. by rewrite Hrun in Hf.
Qed.

(** ** A handshake that goes through *)

Definition challenge_of (nonce : bytes) (now : time) : ControlChallengePayload :=
  mkChallenge (std_encode nonce) (now + 30 * Second)%Z.
Definition ack_of (connID : string) (later : time) : HelloAckPayload :=
  mkHelloAck connID later (whole_seconds (tm_HeartbeatInterval (hc_timing cfg)))
    (whole_seconds (tm_StatusInterval (hc_timing cfg))) MaxInventoryBytes minAgentVersion
    (whole_seconds (tm_NetworkUploadInterval (hc_timing cfg))).
Definition version_ok (hello : HelloPayload) : Prop :=
  ∀ checker, hc_versionBlocked cfg = Some checker →
    checker (osFamilyOf (he_OS hello)) (he_Arch hello) (he_AgentVersion hello) ≠ Ok true.

Lemma bind_ok {A B} (m : HubM A) (k : A → HubM B) w a w' : m w = (Ok a, w') → (m ≫= k) w = k a w'.
Proof. intros E. unfold mbind, M_bind. by rewrite E. Qed.
Lemma encode_exec {P} `{!Json P} ty req (p : P) mid now raw w :
  Encode ty req p mid now = Ok raw → encode ty req p mid now w = (Ok raw, w).
Proof. intros E. unfold encode, mwrap. by rewrite E. Qed.
Lemma write_exec ws m s : write ws m (World s []) = (Ok tt, World (on_sent (λ l, l ++ [(ws, m)]) s) []).
Proof. done. Qed.
Lemma registry_exec {A} (m : DevM A) s fs a d fs' :
  m (World (hb_registry s) fs) = (Ok a, World d fs') →
  registry m (World s fs) = (Ok a, World (on_registry (λ _, d) s) fs').
Proof. intros E. unfold registry, mwrap, mzoom. simpl. by rewrite E. Qed.

Lemma handshake_run ws n raw env hello dev inst d key sig mid1 mid2 connID now later raw1 raw2 s :
  Encode TypeControlChallenge None (challenge_of n now) mid1 now = Ok raw1 →
  Decode raw = Ok env → env_Type env = TypeHello → env_Protocol env = Version →
  DecodePayload env = Ok hello → he_Nonce hello = std_encode n →
  uuid_parse (he_DeviceID hello) = Some dev → uuid_parse (he_InstallID hello) = Some inst →
  devices (hb_registry s) !! dev = Some d → dv_InstallID d = inst → dv_Status d ≠ StatusRevoked →
  dv_CredentialStatus d = CredActive → version_ok hello →
  ActiveCredentialPublicKey dev later (World (hb_registry s) []) = (Ok key, World (hb_registry s) []) →
  length key = 32 → std_decode (he_Signature hello) = Some sig → ed25519_verify key n sig = true →
  Encode TypeHelloAck (Some (env_MessageID env)) (ack_of connID later) mid2 later = Ok raw2 →
  ∃ s', run (handshake ws (Some n) (Some raw) mid1 mid2 connID now later) s = (Ok (dev, inst), s') ∧
    hb_sent s' = hb_sent s ++ [(ws, Text raw1); (ws, Text raw2)].
Proof.
  intros He1 Hd Ht Hv Hp Hn Hdev Hinst Hdv Hi Hr Hc Hver Hk Hl Hs Hsig He2.
  assert (∀ s1, registry (GetByID dev) (World (on_sent s1 s) []) = (Ok (dev, d), World (on_sent s1 s) [])) as Hget.
  { intros s1. apply (registry_exec (GetByID dev) (on_sent s1 s) [] _ (hb_registry s) []). unfold GetByID. run_unfold. simpl. by rewrite Hdv. }
  unfold run, handshake. fold (challenge_of n now) (ack_of connID later).
  rewrite (bind_ok _ _ _ _ _ (encode_exec _ _ _ _ _ _ _ He1)), (bind_ok _ _ _ _ _ (write_exec _ _ _)).
  rewrite Hd, Ht, Hv. simpl. rewrite Hp, Hn, String.eqb_refl. simpl. rewrite Hdev, Hinst.
  rewrite (bind_ok _ _ _ _ _ (Hget _)), Hi, N.eqb_refl, bool_decide_eq_false_2 by done.
  rewrite bool_decide_eq_true_2 by done. simpl.
  destruct (match hc_versionBlocked cfg with Some _ => _ | None => false end) eqn:Hb.
  { exfalso. destruct (hc_versionBlocked cfg) as [ck|] eqn:E; [|done]. specialize (Hver ck E).
    by destruct (ck _ _ _) as [[]|]. }
  rewrite (bind_ok _ _ _ _ _ (registry_exec (ActiveCredentialPublicKey dev later) (on_sent _ s) _ _ _ _ Hk)).
  rewrite Hl. simpl. rewrite Hs, Hsig. simpl.
  rewrite (bind_ok _ _ _ _ _ (encode_exec _ _ _ _ _ _ _ He2)), (bind_ok _ _ _ _ _ (write_exec _ _ _)).
  set (s1 := on_sent _ (on_registry _ _)).
  pose proof (record_hello_always dev d hello s1 []) as Hrec. unfold mbind, M_bind.
  destruct (record_hello dev d hello (World s1 [])) as [r w]. destruct Hrec as (-> & Hsent & _).
  eexists. split; [reflexivity|]. simpl. rewrite Hsent. subst s1. simpl. by rewrite <-app_assoc.
Qed.
End hub.

(** ** A concrete hub *)

Section demo.
#[local] Existing Instance demo_uuid_text.
#[local] Instance demo_j0 : Json Envelope := wire_json Envelope.
#[local] Instance demo_j1 : Json ControlChallengePayload := wire_json _.
#[local] Instance demo_j2 : Json HelloPayload := wire_json _.
#[local] Instance demo_j3 : Json HelloAckPayload := wire_json _.
#[local] Instance demo_j4 : Json HeartbeatPayload := no_json _.
#[local] Instance demo_j5 : Json InventoryRequestPayload := no_json _.
#[local] Instance demo_j6 : Json InventoryResponsePayload := no_json _.
#[local] Instance demo_j7 : Json MetricsReportPayload := no_json _.
#[local] Instance demo_j8 : Json NetworkMetricsBatchPayload := no_json _.
#[local] Instance demo_j9 : Json SupportCredentialReportPayload := no_json _.
#[local] Instance demo_j10 : Json SessionClosePayload := no_json _.
#[local] Instance demo_j11 : Json ProtocolErrorPayload := no_json _.
#[local] Instance demo_j12 : Json Z := wire_json Z.

Definition demo_config : hub_config :=
  mkHubConfig (mkTiming (45 * Second) (90 * Second) (10 * Minute) (5 * Minute) (5 * Minute))
    true true true true None.
(** A toy signature: the message itself. *)
Definition demo_verify (key m sig : bytes) : bool := bool_decide (sig = m).
Definition demo_render (r : reason) : string := "".
Definition demo_row : Device :=
  mkDevice 8 None None "pc" "pc" "linux" "Debian" "12" "amd64" "0.2.0" StatusUnknown HealthUnknown [] []
    "" None "" None CredActive None 0.
Definition demo_key : bytes := replicate 32 (byte_of 1).
Definition demo_registry : dev_db :=
  on_credentials (λ _, [mkCredential 7 demo_key None None 1])
    (on_devices (insert 7%N demo_row) empty_dev_db).

Definition demo_nonce : bytes := str_bytes "nonce".
Definition demo_reply : bytes :=
  match Encode TypeHello None
    (mkHello (uuid_string 7) (uuid_string 8) "0.2.0" "linux" "amd64" [] "boot" (std_encode demo_nonce)
       (std_encode demo_nonce) true) "h1" 0 with Ok raw => raw | Err _ => [] end.

Abbreviation demo_connect ws mid1 mid2 t :=
  (connect demo_verify demo_render DefaultThresholds demo_config ws "10.0.0.1" (Some demo_nonce)
     (Some demo_reply) mid1 mid2 "c" t t).
Abbreviation demo_step := (hub_step demo_verify demo_render DefaultThresholds demo_config).

(** Connected once; with a request under way; connected a second time. *)
Definition demo_online : hub := (run (demo_connect 1 "m1" "m2" 0%Z) (NewHub demo_registry)).2.
Definition demo_asking : hub := (run (SendAndWait_start 7 TypeDeviceCommand 5%Z "q1" 0) demo_online).2.
Definition demo_again : hub := (run (demo_connect 2 "m3" "m4" 0%Z) demo_online).2.

Definition demo_run (s : hub) (accepted : list nat) : hub_run := mkRun s (map (λ ws, (ws, (7, 8)%N)) accepted) [] [].
Lemma demo_online_reachable : reachable (eq (start_run demo_registry)) demo_step (demo_run demo_online [1]).
Proof.
  eapply (connect_steps _ _ _ _ _ 1 "10.0.0.1" (Some demo_nonce) (Some demo_reply) "m1" "m2" "c" 0 0);
    [reflexivity|vm_compute; reflexivity|by apply reach_init].
Qed.
Lemma demo_asking_reachable : reachable (eq (start_run demo_registry)) demo_step (demo_run demo_asking [1]).
Proof.
  eapply reach_step; [apply demo_online_reachable|]. unfold demo_run.
  apply (step_request _ _ _ _ Z demo_j12 1 TypeDeviceCommand 5%Z "q1" 0 demo_online demo_asking); [by vm_compute; eexists|].
  replace demo_asking with (run (sendAndWait_start 1 TypeDeviceCommand 5%Z "q1" 0) demo_online).2 by (vm_compute; reflexivity).
  apply effect_run.
Qed.
Lemma demo_again_reachable : reachable (eq (start_run demo_registry)) demo_step (demo_run demo_again [2; 1]).
Proof.
  eapply (connect_steps _ _ _ _ _ 2 "10.0.0.1" (Some demo_nonce) (Some demo_reply) "m3" "m4" "c" 0 0);
    [vm_compute; reflexivity|vm_compute; reflexivity|apply demo_online_reachable].
Qed.
(** The sweeper has taken the connection out of the map; before it is cancelled
    the device connects again. *)
Definition demo_taken : hub := on_conns (delete 7%N) demo_online.
Definition demo_both : hub := (run (demo_connect 2 "m3" "m4" 0%Z) demo_taken).2.
Lemma demo_both_reachable :
  reachable (eq (start_run demo_registry)) demo_step (mkRun demo_both [(2, (7, 8)%N); (1, (7, 8)%N)] [1] []).
Proof.
  eapply (connect_steps _ _ _ _ _ 2 "10.0.0.1" (Some demo_nonce) (Some demo_reply) "m3" "m4" "c" 0 0);
    [vm_compute; reflexivity|vm_compute; reflexivity|].
  eapply reach_step; [apply demo_online_reachable|]. unfold demo_run.
  apply (step_take _ _ _ _ 7 (Some 1) [] [] demo_online demo_taken). vm_compute. reflexivity.
Qed.

Definition demo_conn (ws : nat) (s : hub) : connection :=
  default (mkConn 0 0 "" ∅ false false) (hb_objects s !! ws).

Lemma one_connection_per_device_witness :
  live demo_both 1 7 ∧ live demo_both 2 7 ∧ IsOnline 7 demo_both = true ∧ ∀ ws, live demo_both ws 7 → ws ≠ 1 → ws = 2.
Proof.
  destruct (one_connection_per_device demo_verify demo_render DefaultThresholds demo_config
    demo_registry _ 7 demo_both_reachable) as (Hu & Hon & _). cbn [hr_hub] in Hu, Hon.
  assert (live demo_both 1 7) as Hl1 by (exists (demo_conn 1 demo_both); vm_compute; repeat split; reflexivity).
  assert (live demo_both 2 7) as Hl by (exists (demo_conn 2 demo_both); vm_compute; repeat split; reflexivity).
  assert (∀ n, n ≠ 1 → n ∉ [1] ++ []) as Hn by (intros n Hn Hin; apply Hn; by apply list_elem_of_singleton in Hin).
  split; [exact Hl1|]. split; [exact Hl|]. split; [apply Hon; exists 2; split; [exact Hl|by apply Hn]|].
  intros ws Hws Hne. apply Hu; [exact Hws|exact Hl|by apply Hn|by apply Hn].
Defined.

Definition demo_answer : bytes :=
  match Encode TypeCommandResult (Some "q1"%string) 6%Z "a1" 0 with Ok raw => raw | Err _ => [] end.
Definition demo_answer_env : Envelope :=
  match Decode demo_answer with Ok e => e | Err _ => mkEnvelope 0 "" "" None 0 [] end.
Definition demo_chan : nat :=
  default 0 (cn_pending (demo_conn 1 demo_asking) !! "q1"%string).

Lemma response_delivery_witness :
  ∃ s', run (readLoop_turn demo_render DefaultThresholds demo_config 1 (Text demo_answer) "e1" 0) demo_asking =
    (Ok tt, s') ∧ (run (sendAndWait_finish 1 "q1" demo_chan false) s').1 = Ok demo_answer_env.
Proof.
  destruct (response_delivery demo_verify demo_render DefaultThresholds demo_config demo_registry
    _ 1 (demo_conn 1 demo_asking) "q1" demo_chan demo_answer demo_answer_env "e1" 0
    demo_asking_reachable) as (s' & Hrun & _ & _ & _ & _ & Hfin); [vm_compute; reflexivity..|].
  exists s'. split; [exact Hrun|exact Hfin].
Defined.

Lemma response_correlated_witness :
  (run (sendAndWait_finish 1 "q1" demo_chan true) demo_asking).1 = Err HubTimeout.
Proof.
  assert (hb_waiters demo_asking !! demo_chan = Some (mkWaiter 1 "q1" None)) as Hw by (vm_compute; reflexivity).
  pose proof (always_run _ _ _ (response_correlated demo_verify demo_render DefaultThresholds demo_config
    demo_registry _ demo_chan _ true demo_asking_reachable Hw)) as Hr.
  simpl wt_conn in Hr. simpl wt_id in Hr. change (hr_hub (demo_run demo_asking [1])) with demo_asking in Hr.
  destruct (run (sendAndWait_finish 1 "q1" demo_chan true) demo_asking) as [[env|e] s']; [by destruct Hr|].
  simpl. by rewrite Hr.
Defined.

Lemma handshake_sound_witness :
  @authenticated demo_uuid_text demo_j0 demo_j2 demo_verify demo_config demo_registry (Some demo_nonce) (Some demo_reply) 0 7 8.
Proof.
  assert (hb_objects demo_online !! 1 = Some (demo_conn 1 demo_online)) as Ho by (vm_compute; reflexivity).
  pose proof (handshake_sound demo_verify demo_render DefaultThresholds demo_config 1 "10.0.0.1"
    (Some demo_nonce) (Some demo_reply) "m1" "m2" "c" 0 0 (NewHub demo_registry) demo_online
    ltac:(reflexivity) (effect_run _ _)) as Hs.
  rewrite Ho in Hs. exact (proj1 Hs).
Defined.

Definition demo_lost : hub := (run (disconnect demo_config 1) demo_online).2.
Lemma lost_device_never_offline_witness :
  ∃ d', devices (hb_registry demo_lost) !! 7%N = Some d' ∧ dv_Status d' = StatusConnectionLost.
Proof.
  destruct (lost_device_never_offline demo_render DefaultThresholds demo_config 1 (demo_conn 1 demo_online)
    (default demo_row (devices (hb_registry demo_online) !! 7%N)) demo_online demo_lost demo_lost)
    as (d' & Hd & Hs & _); [vm_compute; reflexivity..|by apply reach_init|].
  exists d'. split; [exact Hd|exact Hs].
Defined.

Lemma superseded_disconnect_marks_lost_witness :
  let s := (run (disconnect demo_config 1) demo_again).2 in
  IsOnline 7 s = true ∧ (dv_Status <$> devices (hb_registry s) !! 7%N) = Some StatusConnectionLost.
Proof.
  destruct (superseded_disconnect_marks_lost demo_config 1 2 (demo_conn 1 demo_again)
    (default demo_row (devices (hb_registry demo_again) !! 7%N)) demo_again
    (run (disconnect demo_config 1) demo_again).2) as (Hon & Hst & _);
    [vm_compute; reflexivity|vm_compute; reflexivity|done|vm_compute; reflexivity..|].
  split; [exact Hon|exact Hst].
Defined.

Lemma sweep_enforces_timeouts_witness :
  ∃ s', run (sweep demo_render DefaultThresholds demo_config (λ l, l) (11 * Minute)%Z) demo_online = (Ok tt, s') ∧
    hb_conns s' !! 7%N = None.
Proof.
  destruct (sweep_enforces_timeouts demo_render DefaultThresholds demo_config (λ l, l) (11 * Minute)%Z
    demo_online (λ l, reflexivity l)) as (s' & Hrun & Hs).
  exists s'. split; [exact Hrun|]. specialize (Hs 7%N).
  assert (IsOnline 7 demo_online = true) as Hon by (vm_compute; reflexivity). rewrite Hon in Hs.
  assert (devices (hb_registry demo_online) !! 7%N =
    Some (default demo_row (devices (hb_registry demo_online) !! 7%N))) as Hd by (vm_compute; reflexivity).
  unfold swept in Hs. rewrite Hd in Hs. exact (proj1 Hs).
Defined.
End demo.
