(* ===== verification/AgentSession.v ===== *)
(** The agent's side of the control channel: its identity
    ([internal/agentcore/identity.go]) and the challenge-response handshake
    ([internal/agentcore/session.go]), and that it meets the hub's. *)
From S2P Require Import Prelude Protocol Messages Codec Base64 Device Metrics Monitoring Hub.

(** ** Identity *)

(* internal/agentcore/identity.go:15-20 Identity *)
Record Identity : Type := mkIdentity {
  id_DeviceID : uuid;
  id_InstallID : uuid;
  id_PublicKey : bytes;
  id_PrivateKey : bytes }.

(* internal/agentcore/identity.go:22-26 storedIdentity *)
Record storedIdentity : Type := mkStored {
  si_DeviceID : string;
  si_InstallID : string;
  si_PrivateKey : bytes }.

Inductive agent_error : Type :=
| AgMarshal
| AgStore
| AgBadIdentity
| AgRead
| AgUnexpected
| AgCodec (e : codec_error)
| AgBadNonce
| AgSend
| AgRejected.

(** The credential store: one saved blob, or none. *)
Abbreviation StoreM := (M (option bytes) agent_error).

(** [google/uuid] parses what it prints. *)
Class UuidLaws `{UuidText} : Prop := {
  uuid_parse_string u : valid_uuid u = true → uuid_parse (uuid_string u) = Some u }.

Section agent.
Context `{!UuidText, !Json Envelope, !Json ControlChallengePayload, !Json HelloPayload,
  !Json HelloAckPayload, !Json storedIdentity}.
(** [ed25519.Sign]; [priv.Public()] is the second half of the private key. *)
Context (ed25519_sign : bytes → bytes → bytes).
Definition ed25519_public (priv : bytes) : bytes := drop 32 priv.

(* internal/agentcore/identity.go:45-58 Persist *)
Definition Persist (id : Identity) : StoreM unit :=
  match json_marshal (mkStored (uuid_string (id_DeviceID id)) (uuid_string (id_InstallID id))
                        (id_PrivateKey id)) with
  | None => mfail AgMarshal
  | Some body => mexec AgStore (λ _, Some body)
  end.

(* internal/agentcore/identity.go:61-84 Load *)
Definition Load : StoreM Identity :=
  r ← mquery AgStore (λ s, s);
  match r with
  | None => mfail AgStore
  | Some body =>
      match json_unmarshal body with
      | None => mfail AgBadIdentity
      | Some s =>
          match uuid_parse (si_DeviceID s), uuid_parse (si_InstallID s) with
          | Some dev, Some inst =>
              if negb (length (si_PrivateKey s) =? 64) then mfail AgBadIdentity
              else mret (mkIdentity dev inst (ed25519_public (si_PrivateKey s)) (si_PrivateKey s))
          | _, _ => mfail AgBadIdentity
          end
      end
  end.

(* internal/agentcore/identity.go:88-90 Sign *)
Definition Sign (id : Identity) (message : bytes) : bytes := ed25519_sign (id_PrivateKey id) message.

(** ** The handshake *)

(** What the agent reports about itself. *)
Record agent_info : Type := mkAgentInfo {
  ai_Version : string;
  ai_GOOS : string;
  ai_GOARCH : string;
  ai_Capabilities : list string;
  ai_Secure : bool }.

Definition lift_codec {A} (r : res codec_error A) : res agent_error A :=
  match r with Ok a => Ok a | Err e => Err (AgCodec e) end.

(* internal/agentcore/session.go:269-280 handshake *)
Definition hello_payload (info : agent_info) (id : Identity) (bootID nonceText : string) (nonce : bytes)
    : HelloPayload :=
  mkHello (uuid_string (id_DeviceID id)) (uuid_string (id_InstallID id)) (ai_Version info)
    (ai_GOOS info) (ai_GOARCH info) (ai_Capabilities info) bootID nonceText
    (std_encode (Sign id nonce)) (ai_Secure info).

(** Up to the hello it sends. *)
(* internal/agentcore/session.go:246-283 handshake *)
Definition hello_for (info : agent_info) (id : Identity) (challengeRaw : option bytes)
    (bootID mid : string) (now : time) : res agent_error bytes :=
  match challengeRaw with
  | None => Err AgRead
  | Some raw =>
      match Decode raw with
      | Err _ => Err AgUnexpected
      | Ok env =>
          if negb (String.eqb (env_Type env) TypeControlChallenge) then Err AgUnexpected else
          match DecodePayload (P := ControlChallengePayload) env with
          | Err e => Err (AgCodec e)
          | Ok challenge =>
              match std_decode (cc_Nonce challenge) with
              | None => Err AgBadNonce
              | Some nonce =>
                  lift_codec (Encode TypeHello None
                    (hello_payload info id bootID (cc_Nonce challenge) nonce) mid now)
              end
          end
      end
  end.

(** A number of seconds as a duration, with a default for none. *)
Definition interval (seconds : Z) (def : duration) : duration :=
  let d := wrap64 (wrap64 seconds * Second) in if (d <=? 0)%Z then def else d.

(** From the server's answer on. *)
(* internal/agentcore/session.go:288-314 handshake *)
Definition intervals_from (ackRaw : option bytes) : res agent_error (duration * duration * duration) :=
  match ackRaw with
  | None => Err AgRead
  | Some raw =>
      match Decode raw with
      | Err _ => Err AgRejected
      | Ok env =>
          if negb (String.eqb (env_Type env) TypeHelloAck) then Err AgRejected else
          match DecodePayload (P := HelloAckPayload) env with
          | Err e => Err (AgCodec e)
          | Ok ack => Ok (interval (ha_HeartbeatIntervalSeconds ack) (45 * Second),
                          interval (ha_StatusIntervalSeconds ack) (5 * Minute),
                          interval (ha_NetworkUploadIntervalSeconds ack) (5 * Minute))
          end
      end
  end.

(** An agent that saved its identity finds the same identity after a
    restart. *)
Theorem identity_survives_restart `{!UuidLaws, !JsonLaws storedIdentity} id s :
  valid_uuid (id_DeviceID id) = true → valid_uuid (id_InstallID id) = true →
  length (id_PrivateKey id) = 64 → id_PublicKey id = ed25519_public (id_PrivateKey id) →
  json_faithful (mkStored (uuid_string (id_DeviceID id)) (uuid_string (id_InstallID id)) (id_PrivateKey id)) →
  (run (Persist id;; Load) s).1 = Ok id.
Proof.
  intros Hd Hi Hl Hp Hf. destruct (json_total _ Hf) as [body Hb].
  unfold Persist. rewrite Hb. apply json_roundtrip in Hb; [|done].
  unfold Load. run_unfold. simpl. rewrite Hb. simpl.
  rewrite !uuid_parse_string by done. rewrite Hl. simpl. rewrite <-Hp. by destruct id.
Qed.

(** ** The two handshakes meet *)

Section interop.
Context `{!Json HeartbeatPayload, !Json InventoryRequestPayload, !Json InventoryResponsePayload,
  !Json MetricsReportPayload, !Json NetworkMetricsBatchPayload, !Json SupportCredentialReportPayload,
  !Json SessionClosePayload, !Json ProtocolErrorPayload}.
Context `{!UuidLaws, !JsonLaws Envelope, !JsonLaws ControlChallengePayload, !JsonLaws HelloPayload,
  !JsonLaws HelloAckPayload}.
Context (ed25519_verify : bytes → bytes → bytes → bool) (cfg : hub_config).
(** [ed25519.Verify] accepts what [ed25519.Sign] made with the private half. *)
Hypothesis sign_verifies : ∀ priv m, length priv = 64 →
  ed25519_verify (ed25519_public priv) m (ed25519_sign priv m) = true.

(** A duration after a trip in whole seconds: rounded down, and the agent's
    default for less than a second. *)
Definition rounded (d def : duration) : duration := if (d <? Second)%Z then def else (d - d mod Second)%Z.

Lemma interval_seconds d def : (- 2 ^ 63 <= d < 2 ^ 63)%Z → interval (whole_seconds d) def = rounded d def.
Proof.
  intros Hd. unfold interval, whole_seconds, rounded, Second in *.
  destruct (Z.ltb_spec d 1000000000) as [Hs|Hs].
  - assert (- 2 ^ 63 <= Z.quot d 1000000000 * 1000000000 <= 0)%Z by (Z.to_euclidean_division_equations; lia).
    rewrite (wrap64_id (Z.quot _ _)) by (Z.to_euclidean_division_equations; lia). rewrite wrap64_id by lia.
    destruct (Z.leb_spec (Z.quot d 1000000000 * 1000000000) 0); [done|lia].
  - rewrite Z.quot_div_nonneg by lia. rewrite (Z.mod_eq d 1000000000) by done.
    assert (1000000000 <= d / 1000000000 * 1000000000 <= d)%Z by (Z.to_euclidean_division_equations; lia).
    rewrite (wrap64_id (d / _)) by lia. rewrite wrap64_id by lia.
    destruct (Z.leb_spec (d / 1000000000 * 1000000000) 0); lia.
Qed.

(** The genuine agent of a device: its key is the active one of the registry,
    and the device, registered for its installation, is not revoked. *)
Definition entitled (id : Identity) (now : time) (reg : dev_db) : Prop :=
  length (id_PrivateKey id) = 64 ∧ id_PublicKey id = ed25519_public (id_PrivateKey id) ∧
  valid_uuid (id_DeviceID id) = true ∧ valid_uuid (id_InstallID id) = true ∧
  (∃ d, devices reg !! id_DeviceID id = Some d ∧ dv_InstallID d = id_InstallID id ∧
     dv_Status d ≠ StatusRevoked ∧ dv_CredentialStatus d = CredActive) ∧
  ActiveCredentialPublicKey (id_DeviceID id) now (World reg []) = (Ok (id_PublicKey id), World reg []).

Lemma handshake_meets s ws nonce info id mid1 mid2 mid3 connID bootID now t later :
  entitled id later (hb_registry s) →
  version_ok cfg (hello_payload info id bootID (std_encode nonce) nonce) →
  sendable TypeControlChallenge None (challenge_of nonce now) mid1 now →
  sendable TypeHello None (hello_payload info id bootID (std_encode nonce) nonce) mid2 t →
  sendable TypeHelloAck (Some mid2) (ack_of cfg connID later) mid3 later →
  ∃ challengeRaw helloRaw ackRaw s',
    Encode TypeControlChallenge None (challenge_of nonce now) mid1 now = Ok challengeRaw ∧
    hello_for info id (Some challengeRaw) bootID mid2 t = Ok helloRaw ∧
    run (handshake ed25519_verify cfg ws (Some nonce) (Some helloRaw) mid1 mid3 connID now later) s =
      (Ok (id_DeviceID id, id_InstallID id), s') ∧
    hb_sent s' = hb_sent s ++ [(ws, Text challengeRaw); (ws, Text ackRaw)] ∧
    Encode TypeHelloAck (Some mid2) (ack_of cfg connID later) mid3 later = Ok ackRaw.
Proof.
  intros (Hpriv & Hpub & Hvd & Hvi & (d & Hd & Hinst & Hst & Hcr) & Hkey) Hver Hs1 Hs2 Hs3.
  set (hello := hello_payload info id bootID (std_encode nonce) nonce) in *.
  destruct (encode_decode _ _ _ _ _ Hs1) as (craw & cb & Hc & Hcd & Hcp).
  destruct (encode_decode _ _ _ _ _ Hs2) as (hraw & hb & Hh & Hhd & Hhp).
  destruct (encode_decode _ _ _ _ _ Hs3) as (araw & ab & Ha & Had & Hap).
  assert (∃ s', run (handshake ed25519_verify cfg ws (Some nonce) (Some hraw) mid1 mid3 connID now later) s =
    (Ok (id_DeviceID id, id_InstallID id), s') ∧
    hb_sent s' = hb_sent s ++ [(ws, Text craw); (ws, Text araw)]) as (s' & Hrun & Hsent).
  { eapply handshake_run; [exact Hc|exact Hhd|done|done|exact Hhp|done| | |exact Hd|done|done|done| |
      exact Hkey| | | |exact Ha]; simpl; [by apply uuid_parse_string..| | |apply std_decode_encode|].
    - exact Hver.
    - rewrite Hpub. unfold ed25519_public. rewrite length_drop. lia.
    - rewrite Hpub. by apply sign_verifies. }
  exists craw, hraw, araw, s'. split_and!; [done| |done|done|done].
  unfold hello_for. rewrite Hcd. simpl. rewrite Hcp. simpl. rewrite std_decode_encode. fold hello. by rewrite Hh.
Qed.

End interop.
End agent.

(** ** A concrete agent *)

Definition demo_identity : Identity :=
  mkIdentity 7 8 demo_key (replicate 32 (byte_of 9) ++ demo_key).
Definition demo_info : agent_info := mkAgentInfo "0.2.0" "linux" "amd64" [] true.
#[local] Existing Instance demo_uuid_text.
#[local] Instance demo_uuid_laws : UuidLaws := {| uuid_parse_string := demo_uuid_law |}.
#[local] Instance wire_stored : Wire storedIdentity.
Proof.
  refine (wire_iso (λ s, (si_DeviceID s, si_InstallID s, si_PrivateKey s))
                   (λ '(a, b, c), mkStored a b c) _). by intros [].
Defined.

Lemma identity_survives_restart_witness :
  (run (@Persist _ (wire_json storedIdentity) demo_identity;; @Load _ (wire_json storedIdentity)) None).1 =
    Ok demo_identity.
Proof.
  exact (@identity_survives_restart _ (wire_json storedIdentity) demo_uuid_laws (wire_json_laws storedIdentity)
    demo_identity None ltac:(vm_compute; reflexivity) ltac:(vm_compute; reflexivity)
    ltac:(vm_compute; reflexivity) ltac:(vm_compute; reflexivity) I).
Defined.

(** The toy signature is the message itself. *)
Lemma demo_sign_verifies priv m : length priv = 64 → demo_verify (ed25519_public priv) m m = true.
Proof. intros _. by apply bool_decide_eq_true_2. Qed.

Lemma demo_timing x :
  x ∈ [tm_HeartbeatInterval (hc_timing demo_config); tm_StatusInterval (hc_timing demo_config);
       tm_NetworkUploadInterval (hc_timing demo_config)] → (- 2 ^ 63 <= x < 2 ^ 63)%Z.
Proof.
  intros Hx. repeat (apply elem_of_cons in Hx as [->|Hx]; [done|]).
  by apply elem_of_nil in Hx.
Qed.

Lemma demo_entitled : entitled demo_identity 5 demo_registry.
Proof.
  split_and!; try (vm_compute; reflexivity). exists demo_row. split_and!; try (vm_compute; reflexivity). done.
Qed.
