(* ===== verification/NetMetrics.v ===== *)
(** The agent's network-traffic buffer: the on-disk store
    ([internal/netmetrics/store.go]), the sampler ([sampler.go]), the
    control-channel byte counter ([counter.go]) and the upload loop of
    [internal/agentcore/session.go]. *)
From stdpp Require Import sorting.
From S2P Require Import Prelude Device Metrics.

(** ** The store *)

(** [occurred_at] is stored as text with nanoseconds and read back as the
    same instant; the byte counts as 64-bit integers. *)
(* internal/netmetrics/store.go:32-42 Sample *)
Record Sample : Type := mkSample {
  sm_OccurredAt : time;
  sm_IntervalSeconds : float;
  sm_BytesSentTotal : Z;
  sm_BytesRecvTotal : Z;
  sm_BytesSentControl : Z;
  sm_BytesRecvControl : Z }.

(** Rows with their AUTOINCREMENT ids, in insertion order; the batches that
    were written to the control channel; the byte counter. *)
Record net_agent : Type := mkNetAgent {
  na_rows : list (Z * Sample);
  na_next : Z;
  na_wire : list (list NetSample);
  na_sent : Z;
  na_recv : Z }.

Inductive net_error : Type := NetDB | NetWrite | NetFuel.
Abbreviation NetM := (M net_agent net_error).

Definition on_rows (f : list (Z * Sample) → list (Z * Sample)) (d : net_agent) : net_agent :=
  mkNetAgent (f (na_rows d)) (na_next d) (na_wire d) (na_sent d) (na_recv d).

(** The [int64]/[uint64] conversions on the way in and out. *)
Definition stored_sample (x : Sample) : Sample :=
  mkSample (sm_OccurredAt x) (sm_IntervalSeconds x) (wrap64 (sm_BytesSentTotal x))
    (wrap64 (sm_BytesRecvTotal x)) (wrap64 (sm_BytesSentControl x)) (wrap64 (sm_BytesRecvControl x)).
Definition read_sample (x : Sample) : Sample :=
  mkSample (sm_OccurredAt x) (sm_IntervalSeconds x) (wrapu64 (sm_BytesSentTotal x))
    (wrapu64 (sm_BytesRecvTotal x)) (wrapu64 (sm_BytesSentControl x)) (wrapu64 (sm_BytesRecvControl x)).

(* internal/netmetrics/store.go:82-92 Insert *)
Definition Insert (x : Sample) : NetM unit :=
  mexec NetDB (λ d, mkNetAgent (na_rows d ++ [(na_next d, stored_sample x)]) (na_next d + 1)
                      (na_wire d) (na_sent d) (na_recv d)).

(* internal/netmetrics/store.go:95-119 Pending *)
Definition Pending (limit : nat) : NetM (list (Z * Sample)) :=
  mquery NetDB (λ d,
    map (λ r, (r.1, read_sample r.2)) (take limit (order_by (λ a b, (a.1 <=? b.1)%Z) (na_rows d)))).

(* internal/netmetrics/store.go:123-128 DeleteUpTo *)
Definition DeleteUpTo (maxID : Z) : NetM unit :=
  mexec NetDB (on_rows (filter (λ r, ¬ (r.1 ≤ maxID)%Z))).

(** ** The control-channel counter *)

(* internal/netmetrics/counter.go:21-25 AddSent *)
Definition AddSent (n : Z) (d : net_agent) : net_agent :=
  mkNetAgent (na_rows d) (na_next d) (na_wire d)
    (if (0 <? n)%Z then wrapu64 (na_sent d + n) else na_sent d) (na_recv d).
(* internal/netmetrics/counter.go:27-31 AddRecv *)
Definition AddRecv (n : Z) (d : net_agent) : net_agent :=
  mkNetAgent (na_rows d) (na_next d) (na_wire d) (na_sent d)
    (if (0 <? n)%Z then wrapu64 (na_recv d + n) else na_recv d).
(* internal/netmetrics/counter.go:35-37 SnapshotReset *)
Definition SnapshotReset : NetM (Z * Z) :=
  mstate (λ d, ((na_sent d, na_recv d), mkNetAgent (na_rows d) (na_next d) (na_wire d) 0 0)).

(** ** The sampler *)

(** Its local variables: the last totals, whether they were read, and when. *)
Record sampler : Type := mkSampler {
  sp_lastSent : Z;
  sp_lastRecv : Z;
  sp_ok : bool;
  sp_lastAt : time }.

(** The growth since the last totals, zero when unknown. *)
(* internal/netmetrics/sampler.go:45-56 RunSampler *)
Definition deltas (s : sampler) (totals : option (Z * Z)) : (Z * Z) * sampler :=
  match totals with
  | None => ((0, 0)%Z, s)
  | Some (sent, recv) =>
      ((if sp_ok s && (sp_lastSent s <=? sent)%Z && (sp_lastRecv s <=? recv)%Z
        then (sent - sp_lastSent s, recv - sp_lastRecv s)%Z else (0, 0)%Z),
       mkSampler sent recv true (sp_lastAt s))
  end.

Section sampler.
(** [time.Duration.Seconds]. *)
Context (seconds : duration → float).

(** One tick; [totals] is [None] when the counters cannot be read. *)
(* internal/netmetrics/sampler.go:41-69 RunSampler *)
Definition sampler_tick (s : sampler) (totals : option (Z * Z)) (now : time) : NetM sampler :=
  '(controlSent, controlRecv) ← SnapshotReset;
  let '((deltaSent, deltaRecv), s1) := deltas s totals in
  mignore (E := net_error) (Insert (mkSample now (seconds (now - sp_lastAt s)%Z) deltaSent deltaRecv
    controlSent controlRecv));;
  mret (mkSampler (sp_lastSent s1) (sp_lastRecv s1) (sp_ok s1) now).
End sampler.

(** ** Uploading *)

(* internal/agentcore/session.go:29-29 networkBatchSize *)
Definition networkBatchSize : nat := 500.

(* internal/agentcore/session.go:171-181 uploadNetworkMetrics *)
Definition wire_sample (x : Sample) : NetSample :=
  mkNetSample (sm_OccurredAt x) (sm_IntervalSeconds x) (sm_BytesSentTotal x) (sm_BytesRecvTotal x)
    (sm_BytesSentControl x) (sm_BytesRecvControl x).

Section upload.
(** The length of the encoded message, and the samples the sampler records
    while a turn of the loop is under way. *)
Context (message_size : list NetSample → Z) (meanwhile : nat → list Sample).

(** [writeEnvelope], which counts the bytes it sent. *)
(* internal/agentcore/session.go:47-68 write, writeEnvelope *)
Definition write_batch (batch : list NetSample) : NetM unit :=
  mexec NetWrite (λ d, AddSent (message_size batch)
    (mkNetAgent (na_rows d) (na_next d) (na_wire d ++ [batch]) (na_sent d) (na_recv d))).

Fixpoint record_samples (xs : list Sample) : NetM unit :=
  match xs with
  | [] => mret tt
  | x :: xs' => mignore (E := net_error) (Insert x);; record_samples xs'
  end.

(* internal/agentcore/session.go:157-194 uploadNetworkMetrics *)
Fixpoint uploadNetworkMetrics (fuel : nat) : NetM unit :=
  match fuel with
  | O => mfail NetFuel
  | S fuel' =>
      r ← mtry (E := net_error) (Pending networkBatchSize);
      match r with
      | Err _ => mret tt
      | Ok pending =>
          match list.last pending with
          | None => mret tt
          | Some newest =>
              record_samples (meanwhile fuel');;
              w ← mtry (E := net_error) (write_batch (map (λ r, wire_sample r.2) pending));
              match w with
              | Err _ => mret tt
              | Ok _ =>
                  d ← mtry (E := net_error) (DeleteUpTo newest.1);
                  match d with
                  | Err _ => mret tt
                  | Ok _ =>
                      if length pending <? networkBatchSize then mret tt
                      else uploadNetworkMetrics fuel'
                  end
              end
          end
      end
  end.

(** ** No sample is lost *)

Definition net_inv (d : net_agent) : Prop :=
  StronglySorted (λ a b, (a.1 < b.1)%Z) (na_rows d) ∧ Forall (λ r, (r.1 < na_next d)%Z) (na_rows d).

Lemma order_by_sorted l :
  StronglySorted (λ a b : Z * Sample, (a.1 < b.1)%Z) l → order_by (λ a b, (a.1 <=? b.1)%Z) l = l.
Proof.
  induction 1 as [|x l Hl IH Hx]; simpl; [done|]. rewrite IH.
  destruct l as [|y l]; simpl; [done|]. apply Forall_cons_iff in Hx as [Hx _].
  by rewrite (proj2 (Z.leb_le _ _)) by lia.
Qed.

Lemma sorted_snoc l id x :
  StronglySorted (λ a b : Z * Sample, (a.1 < b.1)%Z) l → Forall (λ r, (r.1 < id)%Z) l →
  StronglySorted (λ a b, (a.1 < b.1)%Z) (l ++ [(id, x)]).
Proof.
  induction 1 as [|y l Hl IH Hy]; simpl; [repeat constructor|].
  intros [Hid Hl']%Forall_cons_iff. constructor; [by apply IH|].
  apply Forall_app. split; [done|by repeat constructor].
Qed.

Lemma inserted_inv d x :
  net_inv d → net_inv (mkNetAgent (na_rows d ++ [(na_next d, x)]) (na_next d + 1) (na_wire d) (na_sent d) (na_recv d)).
Proof.
  intros [Hs Hn]. split; simpl; [by apply sorted_snoc|]. apply Forall_app. split; [|repeat constructor; simpl; lia].
  eapply Forall_impl; [|exact Hn]. simpl. intros; lia.
Qed.

Lemma record_samples_always xs d :
  net_inv d → always (record_samples xs) (λ r d', r = Ok tt ∧ net_inv d' ∧ na_wire d' = na_wire d ∧
    ∃ new, na_rows d' = na_rows d ++ new ∧ Forall (λ r, (na_next d ≤ r.1)%Z) new ∧ (na_next d ≤ na_next d')%Z) d.
Proof.
  revert d. induction xs as [|x xs IH]; intros d Hi; simpl.
  { apply always_mret. split_and!; [done..|]. exists []. rewrite app_nil_r. split_and!; [done..|lia]. }
  apply always_mbind, always_mignore. unfold Insert. apply always_mexec; [by apply IH|].
  set (d1 := mkNetAgent _ _ _ _ _). assert (net_inv d1) as Hi1 by by apply inserted_inv.
  eapply always_mono; [by apply IH|]. intros r d2 (-> & Hi2 & Hw & new & Hr & Hn & Hle).
  split_and!; [done|done|exact Hw|]. exists ((na_next d, stored_sample x) :: new). simpl in *. split_and!.
  - by rewrite Hr, <-app_assoc.
  - constructor; [simpl; lia|]. eapply Forall_impl; [|exact Hn]. simpl. intros; lia.
  - lia.
Qed.

Lemma filter_all {A} (P : A → Prop) `{∀ x, Decision (P x)} l : Forall P l → filter P l = l.
Proof. induction 1; [done|]. rewrite filter_cons_True by done. congruence. Qed.
Lemma filter_none {A} (P : A → Prop) `{∀ x, Decision (P x)} l : Forall (λ x, ¬ P x) l → filter P l = [].
Proof. induction 1; [done|]. by rewrite filter_cons_False. Qed.

(** Deleting up to the last row of a prefix deletes exactly the prefix. *)
Lemma filter_upto (p rest : list (Z * Sample)) m :
  StronglySorted (λ a b, (a.1 < b.1)%Z) (p ++ rest) → list.last p = Some m →
  filter (λ r, ¬ (r.1 ≤ m.1)%Z) (p ++ rest) = rest.
Proof.
  intros Hs Hl. apply last_Some in Hl as [p' ->]. rewrite <-app_assoc in Hs. simpl in Hs.
  assert (Forall (λ r, (r.1 ≤ m.1)%Z) (p' ++ [m])) as Hp.
  { clear -Hs. induction p' as [|a p' IH]; simpl in *; [repeat constructor; lia|].
    apply StronglySorted_inv in Hs as [Hs Ha]. constructor; [|by apply IH].
    apply Forall_app in Ha as [_ Ha]. apply Forall_cons_iff in Ha as [? _]. lia. }
  assert (Forall (λ r, ¬ (r.1 ≤ m.1)%Z) rest) as Hr.
  { clear -Hs. induction p' as [|a p' IH]; simpl in *.
    - apply StronglySorted_inv in Hs as [_ Hm]. eapply Forall_impl; [|exact Hm]. simpl. intros; lia.
    - apply IH. by apply StronglySorted_inv in Hs as [Hs _]. }
  rewrite list.filter_app, (filter_none _ (p' ++ [m])), filter_all; [done|done|].
  eapply Forall_impl; [|exact Hp]. simpl. intros; lia.
Qed.

(** What an operation of the uploader does to the buffer: whatever it removes
    was sent. *)
Definition kept (d d' : net_agent) : Prop :=
  net_inv d → net_inv d' ∧ ∃ sent, na_wire d' = na_wire d ++ sent ∧
    ∀ id x, (id, x) ∈ na_rows d →
      (id, x) ∈ na_rows d' ∨ wire_sample (read_sample x) ∈ concat sent.
#[local] Instance kept_preorder : PreOrder kept.
Proof.
  split.
  - intros d Hi. split; [done|]. exists []. rewrite app_nil_r. by auto.
  - intros d1 d2 d3 H12 H23 Hi. destruct (H12 Hi) as (Hi2 & s1 & E1 & H1).
    destruct (H23 Hi2) as (Hi3 & s2 & E2 & H2). split; [done|]. exists (s1 ++ s2).
    rewrite E2, E1, app_assoc. split; [done|]. intros id x Hin. rewrite concat_app, elem_of_app.
    destruct (H1 id x Hin) as [Hin2|]; [|by auto]. destruct (H2 id x Hin2); by auto.
Qed.

Lemma Insert_kept x : preserves kept (Insert x).
Proof.
  apply preserves_mexec; [apply _|]. intros d Hi. split; [by apply inserted_inv|].
  exists []. simpl. rewrite app_nil_r. split; [done|]. intros id y Hin. left. apply elem_of_app. by left.
Qed.

(** One turn of the loop, up to the state before the next. *)
Lemma turn_state d new newest :
  net_inv d → list.last (map (λ r, (r.1, read_sample r.2)) (take networkBatchSize (na_rows d))) = Some newest →
  StronglySorted (λ a b, (a.1 < b.1)%Z) (na_rows d ++ new) →
  filter (λ r, ¬ (r.1 ≤ newest.1)%Z) (na_rows d ++ new) = drop networkBatchSize (na_rows d) ++ new.
Proof.
  intros [Hs _] Hl Hsn.
  change (map ?f ?l) with (f <$> l) in Hl. rewrite fmap_last in Hl.
  apply fmap_Some in Hl as (m & Hm & ->). simpl.
  rewrite <-(take_drop networkBatchSize (na_rows d)), <-app_assoc in Hsn |- *.
  rewrite (take_drop networkBatchSize (na_rows d)). by apply filter_upto.
Qed.

(** One turn, whatever fails in it, given what follows a successful one. *)
Lemma turn_kept fuel d newest :
  net_inv d → preserves kept (uploadNetworkMetrics fuel) →
  let pending := map (λ r, (r.1, read_sample r.2)) (take networkBatchSize (na_rows d)) in
  list.last pending = Some newest →
  always (record_samples (meanwhile fuel);;
          w ← mtry (E := net_error) (write_batch (map (λ r, wire_sample r.2) pending));
          match w with
          | Err _ => mret tt
          | Ok _ =>
              x ← mtry (E := net_error) (DeleteUpTo newest.1);
              match x with
              | Err _ => mret tt
              | Ok _ => if length pending <? networkBatchSize then mret tt else uploadNetworkMetrics fuel
              end
          end) (λ _ d', kept d d') d.
Proof.
  intros Hi IH pending Hl. apply always_mbind. eapply always_mono; [by apply record_samples_always|].
  intros r d1 (-> & Hi1 & Hw & new & Hr & _).
  assert (kept d d1) as Hk1.
  { intros _. split; [done|]. exists []. rewrite app_nil_r. split; [done|]. intros id x Hin. left.
    rewrite Hr. apply elem_of_app. by left. }
  apply always_mbind, always_mtry. unfold write_batch. apply always_mexec; [by apply always_mret|].
  set (batch := map (λ r, wire_sample r.2) pending). set (d2 := AddSent _ _).
  assert (kept d d2) as Hk2.
  { intros _. split; [exact Hi1|]. exists [batch]. subst d2. simpl. rewrite Hw. split; [done|].
    intros id x Hin. left. rewrite Hr. apply elem_of_app. by left. }
  apply always_mbind, always_mtry. unfold DeleteUpTo. apply always_mexec; [by apply always_mret|].
  set (d3 := on_rows _ d2).
  assert (na_rows d3 = drop networkBatchSize (na_rows d) ++ new) as Hr3.
  { subst d3. unfold on_rows. cbn [na_rows]. change (na_rows d2) with (na_rows d1). rewrite Hr.
    apply turn_state; [done|exact Hl|]. rewrite <-Hr. apply Hi1. }
  assert (kept d d3) as Hk3.
  { intros _. split.
    - split; rewrite Hr3.
      + destruct Hi1 as [Hs _]. rewrite Hr, <-(take_drop networkBatchSize (na_rows d)), <-app_assoc in Hs.
        by eapply StronglySorted_app_1_r.
      + destruct Hi1 as [_ Hn]. rewrite Hr, Forall_app in Hn. destruct Hn as [Hn Hn'].
        apply Forall_app. split; [by apply Forall_drop|done].
    - exists [batch]. split; [subst d3 d2; simpl; by rewrite Hw|]. intros id x Hin. rewrite Hr3.
      rewrite <-(take_drop networkBatchSize (na_rows d)), elem_of_app in Hin.
      destruct Hin as [Hin|Hin]; [right|left; apply elem_of_app; by left].
      simpl. rewrite app_nil_r. subst batch pending. rewrite map_map. simpl.
      apply list_elem_of_fmap. by exists (id, x). }
  destruct (_ <? _); [by apply always_mret|]. eapply always_mono; [apply IH|].
  intros r d4 Hk4. by etrans.
Qed.

Lemma kept_from_inv {A} (m : NetM A) :
  (∀ d, net_inv d → always m (λ _ d', kept d d') d) → preserves kept m.
Proof.
  intros Hm d fs. destruct (m (World d fs)) as [r w] eqn:E. intros Hi.
  specialize (Hm d Hi fs). rewrite E in Hm. by apply Hm.
Qed.

Lemma upload_kept fuel : preserves kept (uploadNetworkMetrics fuel).
Proof.
  induction fuel as [|fuel IH]; cbn [uploadNetworkMetrics]; [apply preserves_mfail; apply _|].
  apply kept_from_inv. intros d Hi. apply always_mbind, always_mtry. unfold Pending.
  apply always_mquery; [by apply always_mret|]. rewrite order_by_sorted by apply Hi.
  destruct (list.last _) as [newest|] eqn:Hl; [by apply turn_kept|by apply always_mret].
Qed.
End upload.
#[local] Existing Instance kept_preorder.

(** The sampler and the uploader at work, with any faults and any samples
    recorded while an upload runs. *)
Inductive net_step (d d' : net_agent) : Prop :=
| step_insert x : effect (Insert x) d d' → net_step d d'
| step_tick seconds s totals now : effect (sampler_tick seconds s totals now) d d' → net_step d d'
| step_upload size meanwhile fuel : effect (uploadNetworkMetrics size meanwhile fuel) d d' → net_step d d'.

Lemma sampler_tick_kept seconds s totals now : preserves kept (sampler_tick seconds s totals now).
Proof.
  unfold sampler_tick, SnapshotReset. apply preserves_mbind; [apply _| |].
  - apply preserves_mstate. intros d Hi. split; [done|]. exists []. simpl. rewrite app_nil_r. by auto.
  - intros [a b]. destruct (deltas s totals) as [[x y] s1].
    apply preserves_mbind; [apply _|apply preserves_mignore, Insert_kept|].
    intros _. apply preserves_mret. apply _.
Qed.

Lemma net_step_kept d d' : net_step d d' → kept d d'.
Proof.
  destruct 1 as [? E|???? E|??? E]; revert E; apply effect_always.
  - apply Insert_kept.
  - apply sampler_tick_kept.
  - apply upload_kept.
Qed.

(** C23: no buffered traffic sample is lost: whatever writes and database
    statements fail and however sampling interleaves with uploads, a stored
    sample is later still stored or part of a batch that was written to the
    control channel. *)
Theorem samples_never_lost d d' id x :
  net_inv d → reachable (eq d) net_step d' → (id, x) ∈ na_rows d →
  ∃ sent, na_wire d' = na_wire d ++ sent ∧
    ((id, x) ∈ na_rows d' ∨ wire_sample (read_sample x) ∈ concat sent).
Proof.
  intros Hi Hr Hin. assert (kept d d') as Hk.
  { revert d' Hr. apply invariant_reachable; [by intros ? <-|].
    intros s s' Hs Hst. etrans; [exact Hs|by apply net_step_kept]. }
  destruct (Hk Hi) as (_ & sent & Hw & H). exists sent. split; [done|by apply H].
Qed.

(** ** An upload that nothing disturbs *)

Definition after_turn (size : list NetSample → Z) (d : net_agent) : net_agent :=
  let batch := map (λ r, wire_sample (read_sample r.2)) (take networkBatchSize (na_rows d)) in
  on_rows (λ _, drop networkBatchSize (na_rows d)) (AddSent (size batch)
    (mkNetAgent (na_rows d) (na_next d) (na_wire d ++ [batch]) (na_sent d) (na_recv d))).

Lemma turn_run size fuel d :
  net_inv d → na_rows d ≠ [] →
  uploadNetworkMetrics size (λ _, []) (S fuel) (World d []) =
    if length (take networkBatchSize (na_rows d)) <? networkBatchSize
    then (Ok tt, World (after_turn size d) [])
    else uploadNetworkMetrics size (λ _, []) fuel (World (after_turn size d) []).
Proof.
  intros Hi Hne. cbn [uploadNetworkMetrics record_samples]. unfold Pending, write_batch, DeleteUpTo.
  unfold mbind, M_bind, mtry, mquery, mexec, mstmt, pop_fault. simpl. rewrite order_by_sorted by apply Hi.
  set (pending := map _ (take networkBatchSize (na_rows d))).
  destruct (list.last pending) as [newest|] eqn:Hl.
  2:{ apply last_None, map_eq_nil in Hl. by destruct (na_rows d). }
  simpl. pose proof (turn_state d [] newest Hi Hl) as Hrest. rewrite !app_nil_r in Hrest.
  unfold on_rows at 1. simpl. rewrite Hrest by apply Hi.
  assert (map (λ r, wire_sample r.2) pending =
    map (λ r, wire_sample (read_sample r.2)) (take networkBatchSize (na_rows d))) as ->.
  { subst pending. by rewrite map_map. }
  assert (length pending = length (take networkBatchSize (na_rows d))) as -> by (subst pending; apply length_map).
  by destruct (_ <? _).
Qed.

Lemma after_turn_inv size d : net_inv d → net_inv (after_turn size d).
Proof.
  intros [Hs Hn]. split; simpl; [|by apply Forall_drop].
  rewrite <-(take_drop networkBatchSize (na_rows d)) in Hs. by eapply StronglySorted_app_1_r.
Qed.

(** C37: an undisturbed upload empties the buffer: with nothing failing and no
    new samples, the loop terminates within one turn per 500 rows plus one,
    sends every buffered sample exactly once and in order, in batches of 1 to
    500, and leaves the buffer empty. *)
Theorem upload_drains size fuel d :
  net_inv d → length (na_rows d) < networkBatchSize * fuel →
  ∃ d' batches, run (uploadNetworkMetrics size (λ _, []) fuel) d = (Ok tt, d') ∧
    na_rows d' = [] ∧ na_wire d' = na_wire d ++ batches ∧
    concat batches = map (λ r, wire_sample (read_sample r.2)) (na_rows d) ∧
    Forall (λ b, 0 < length b ≤ networkBatchSize) batches.
Proof.
  revert d. induction fuel as [|fuel IH]; intros d Hi Hlen; [lia|].
  destruct (decide (na_rows d = [])) as [Hn|Hn].
  { exists d, []. rewrite Hn, app_nil_r. unfold run. simpl.
    unfold Pending. run_unfold. simpl. rewrite Hn. by split_and!. }
  unfold run. rewrite turn_run by done.
  set (batch := map (λ r, wire_sample (read_sample r.2)) (take networkBatchSize (na_rows d))).
  assert (0 < length batch ≤ networkBatchSize) as Hb.
  { subst batch. rewrite length_map, length_take.
    assert (length (na_rows d) ≠ 0) by (by destruct (na_rows d)).
    assert (0 < networkBatchSize) by (unfold networkBatchSize; lia). lia. }
  destruct (Nat.ltb_spec (length (take networkBatchSize (na_rows d))) networkBatchSize) as [Hlt|Hge].
  - rewrite length_take in Hlt. exists (after_turn size d), [batch]. split_and!; [done|..].
    + simpl. rewrite drop_ge; [done|lia].
    + done.
    + simpl. rewrite app_nil_r. subst batch. by rewrite take_ge by lia.
    + by constructor.
  - rewrite length_take in Hge. destruct (IH (after_turn size d)) as (d' & bs & Hrun & Hr & Hw & Hc & Hbs).
    { by apply after_turn_inv. }
    { change (na_rows (after_turn size d)) with (drop networkBatchSize (na_rows d)).
      rewrite length_drop. rewrite Nat.mul_succ_r in Hlen. lia. }
    unfold run in Hrun. exists d', (batch :: bs). split_and!; [done|done|..].
    + rewrite Hw. simpl. by rewrite <-app_assoc.
    + simpl. rewrite Hc. simpl. subst batch. by rewrite <-map_app, take_drop.
    + by constructor.
Qed.

(** ** Sampling *)

(** The deltas recorded over a run of ticks, and the last totals read. *)
Fixpoint deltas_over (s : sampler) (reads : list (option (Z * Z))) : list (Z * Z) * sampler :=
  match reads with
  | [] => ([], s)
  | t :: rest =>
      let '(d, s1) := deltas s t in
      let '(ds, s2) := deltas_over s1 rest in (d :: ds, s2)
  end.
Definition total_of (ds : list (Z * Z)) : Z * Z :=
  (fold_right Z.add 0 (map fst ds), fold_right Z.add 0 (map snd ds))%Z.

(** Counters that never decrease between readings. *)
Fixpoint growing (sent recv : Z) (reads : list (option (Z * Z))) : Prop :=
  match reads with
  | [] => True
  | None :: rest => growing sent recv rest
  | Some (s, r) :: rest => (sent ≤ s)%Z ∧ (recv ≤ r)%Z ∧ growing s r rest
  end.

(** No traffic is counted twice or dropped: over any run of ticks whose
    counters never decrease, failed readings included, the recorded deltas add
    up to the growth of the counters between the first and the last
    successful reading. *)
Theorem sampled_deltas_exact s reads :
  sp_ok s = true → growing (sp_lastSent s) (sp_lastRecv s) reads →
  let '(ds, s') := deltas_over s reads in
  total_of ds = (sp_lastSent s' - sp_lastSent s, sp_lastRecv s' - sp_lastRecv s)%Z.
Proof.
  revert s. induction reads as [|[[x y]|] reads IH]; intros s Hok; simpl.
  - intros _. unfold total_of. simpl. f_equal; lia.
  - intros (Hx & Hy & Hg). rewrite Hok, (proj2 (Z.leb_le _ _) Hx), (proj2 (Z.leb_le _ _) Hy). simpl.
    specialize (IH (mkSampler x y true (sp_lastAt s)) eq_refl Hg).
    destruct (deltas_over _ reads) as [ds s2]. unfold total_of in *. simpl in *.
    injection IH as E1 E2. rewrite E1, E2. f_equal; lia.
  - intros Hg. specialize (IH s Hok Hg). destruct (deltas_over s reads) as [ds s2].
    unfold total_of in *. simpl in *. exact IH.
Qed.

(** ** A concrete buffer *)

Definition demo_net_sample (t : time) : Sample := mkSample t (S754_zero false) 10 20 1 2.
Definition demo_buffer : net_agent :=
  mkNetAgent [(1%Z, demo_net_sample 60); (2%Z, demo_net_sample 120)] 3 [] 0 0.
Lemma demo_buffer_inv : net_inv demo_buffer.
Proof. split; repeat constructor. Qed.
Definition demo_uploaded : net_agent :=
  (run (uploadNetworkMetrics (λ _, 100%Z) (λ _, []) 1) demo_buffer).2.

Lemma samples_never_lost_witness :
  ∃ sent, na_wire demo_uploaded = na_wire demo_buffer ++ sent ∧
    ((1%Z, demo_net_sample 60) ∈ na_rows demo_uploaded ∨
     wire_sample (read_sample (demo_net_sample 60)) ∈ concat sent).
Proof.
  apply samples_never_lost; [apply demo_buffer_inv| |left].
  eapply reach_step; [by apply reach_init|].
  exact (step_upload _ _ (λ _, 100%Z) (λ _, []) 1 (effect_run _ demo_buffer)).
Defined.

Lemma upload_drains_witness : na_rows demo_uploaded = [].
Proof.
  destruct (upload_drains (λ _, 100%Z) 1 demo_buffer demo_buffer_inv) as (d' & bs & Hrun & Hr & _).
  - vm_compute. lia.
  - unfold demo_uploaded. rewrite Hrun. exact Hr.
Defined.

Lemma sampled_deltas_exact_witness :
  total_of (deltas_over (mkSampler 100 200 true 0) [Some (110, 230); None; Some (150, 230)]%Z).1 = (50, 30)%Z.
Proof.
  pose proof (sampled_deltas_exact (mkSampler 100 200 true 0) [Some (110, 230); None; Some (150, 230)]%Z
    eq_refl ltac:(simpl; lia)) as Ht. exact Ht.
Defined.
