(* ===== verification/Relay.v ===== *)
(** The in-process relay ([internal/relay/broker.go]): streams keyed by
    session id, each a bounded channel towards the browser.  Streams live at
    addresses because a stream that was replaced or removed is still held by
    the goroutines that looked it up. *)
From S2P Require Import Prelude Protocol.

(** The channel of a stream: what is buffered, and whether it was closed. *)
(* internal/relay/broker.go:17-25 Stream *)
Record Stream : Type := mkStream {
  st_ID : uuid;
  st_DeviceID : uuid;
  st_Kind : byte;
  st_buffer : list bytes;
  st_closed : bool }.

(** [br_panicked]: a send on a closed channel, or a second close, crashes the
    process. *)
(* internal/relay/broker.go:38-43 Broker *)
Record Broker : Type := mkBroker {
  br_streams : gmap uuid nat;
  br_objects : gmap nat Stream;
  br_panicked : bool }.

Definition NewBroker : Broker := mkBroker ∅ ∅ false.
Definition chan_capacity : nat := 64.

(* internal/relay/broker.go:54-66 Register *)
Definition Register (streamID deviceID : uuid) (kind : byte) (b : Broker) : nat * Broker :=
  let a := fresh (dom (br_objects b)) in
  (a, mkBroker (<[streamID := a]> (br_streams b))
        (<[a := mkStream streamID deviceID kind [] false]> (br_objects b)) (br_panicked b)).

(* internal/relay/broker.go:69-74 Get *)
Definition Get (streamID : uuid) (b : Broker) : option nat := br_streams b !! streamID.

Definition set_buffer (f : list bytes → list bytes) (s : Stream) : Stream :=
  mkStream (st_ID s) (st_DeviceID s) (st_Kind s) (f (st_buffer s)) (st_closed s).

(** [close(ch)]. *)
Definition close (a : nat) (b : Broker) : Broker :=
  match br_objects b !! a with
  | Some s =>
      if st_closed s then mkBroker (br_streams b) (br_objects b) true
      else mkBroker (br_streams b)
             (<[a := mkStream (st_ID s) (st_DeviceID s) (st_Kind s) (st_buffer s) true]> (br_objects b))
             (br_panicked b)
  | None => b
  end.

(* internal/relay/broker.go:78-88 Unregister *)
Definition Unregister (streamID : uuid) (b : Broker) : Broker :=
  match br_streams b !! streamID with
  | Some a => close a (mkBroker (delete streamID (br_streams b)) (br_objects b) (br_panicked b))
  | None => b
  end.

(** Under the lock: the stream a frame may go to. *)
(* internal/relay/broker.go:91-96 handleInbound *)
Definition inbound_target (deviceID : uuid) (kind : byte) (streamID : uuid) (b : Broker) : option nat :=
  match a ← br_streams b !! streamID; s ← br_objects b !! a; Some (a, s) with
  | Some (a, s) =>
      if negb (st_DeviceID s =? deviceID)%N || negb (bool_decide (st_Kind s = kind)) then None else Some a
  | None => None
  end.

(** Outside it: the non-blocking send. *)
(* internal/relay/broker.go:99-102 handleInbound *)
Definition try_send (a : nat) (payload : bytes) (b : Broker) : Broker :=
  match br_objects b !! a with
  | Some s =>
      if st_closed s then mkBroker (br_streams b) (br_objects b) true
      else if length (st_buffer s) <? chan_capacity then
        mkBroker (br_streams b) (<[a := set_buffer (λ l, l ++ [payload]) s]> (br_objects b)) (br_panicked b)
      else b
  | None => b
  end.

(* internal/relay/broker.go:90-103 handleInbound *)
Definition handleInbound (deviceID : uuid) (kind : byte) (streamID : uuid) (payload : bytes) (b : Broker)
    : Broker :=
  match inbound_target deviceID kind streamID b with
  | Some a => try_send a payload b
  | None => b
  end.

(** ** Routing *)

Record frame : Type := mkFrame { fr_device : uuid; fr_kind : byte; fr_stream : uuid; fr_payload : bytes }.
Definition inbound (b : Broker) (f : frame) : Broker :=
  handleInbound (fr_device f) (fr_kind f) (fr_stream f) (fr_payload f) b.

(** The payloads of the frames meant for a stream. *)
Definition meant_for (s : Stream) (f : frame) : bool :=
  (fr_stream f =? st_ID s)%N && (st_DeviceID s =? fr_device f)%N && bool_decide (st_Kind s = fr_kind f).
Definition payloads_for (s : Stream) (fs : list frame) : list bytes :=
  omap (λ f, if meant_for s f then Some (fr_payload f) else None) fs.

(** A stream whose id is registered at its own address only. *)
Definition routed (b : Broker) (a : nat) (s : Stream) : Prop :=
  br_streams b !! st_ID s = Some a ∧ br_objects b !! a = Some s ∧ st_closed s = false ∧
  (∀ id, br_streams b !! id = Some a → id = st_ID s) ∧ length (st_buffer s) ≤ chan_capacity.

Definition with_buffer (buf : list bytes) (s : Stream) : Stream := set_buffer (λ _, buf) s.

Lemma routed_same b b' a s :
  routed b a s → br_streams b' = br_streams b → br_objects b' !! a = br_objects b !! a → routed b' a s.
Proof. intros (? & ? & ? & ? & ?) Es Eo. unfold routed. rewrite Es, Eo. by split_and!. Qed.

Lemma inbound_routed b f a s :
  routed b a s →
  routed (inbound b f) a (with_buffer (take chan_capacity (st_buffer s ++ payloads_for s [f])) s).
Proof.
  intros Hr. pose proof Hr as (Hid & Ha & Hc & Hu & Hlen).
  assert (with_buffer (take chan_capacity (st_buffer s ++ [])) s = s) as Hsame.
  { rewrite app_nil_r, take_ge by done. by destruct s. }
  assert (payloads_for s [f] = if meant_for s f then [fr_payload f] else []) as ->
    by (unfold payloads_for; simpl; by destruct (meant_for s f)).
  unfold inbound, handleInbound, inbound_target, meant_for.
  destruct (N.eqb_spec (fr_stream f) (st_ID s)) as [E|E]; simpl.
  - rewrite E, Hid. simpl. rewrite Ha. simpl.
    destruct (N.eqb_spec (st_DeviceID s) (fr_device f)); simpl; [|by rewrite Hsame].
    destruct (bool_decide (st_Kind s = fr_kind f)); simpl; [|by rewrite Hsame].
    unfold try_send. rewrite Ha, Hc. destruct (Nat.ltb_spec (length (st_buffer s)) chan_capacity).
    + rewrite take_ge by (rewrite length_app; simpl; lia).
      unfold routed. simpl. rewrite lookup_insert_eq. split_and!; [done|done|done|done|].
      rewrite length_app. simpl. lia.
    + rewrite take_app_le, take_ge by lia. by replace (with_buffer (st_buffer s) s) with s by (by destruct s).
  - rewrite Hsame. destruct (br_streams b !! fr_stream f) as [a'|] eqn:Ef; simpl; [|done].
    destruct (br_objects b !! a') as [s'|] eqn:Ea'; simpl; [|done].
    destruct (negb _ || _); [done|]. assert (a' ≠ a) by (intros ->; apply E; by apply Hu).
    unfold try_send. rewrite Ea'. destruct (st_closed s'); [by eapply routed_same|].
    destruct (_ <? _); [|done]. eapply routed_same; [done|done|]. simpl. by rewrite lookup_insert_ne.
Qed.

Lemma inbounds_routed fs b a s :
  routed b a s →
  routed (foldl inbound b fs) a (with_buffer (take chan_capacity (st_buffer s ++ payloads_for s fs)) s).
Proof.
  revert b s. induction fs as [|f fs IH]; intros b s Hr; cbn [foldl].
  { pose proof Hr as (_ & _ & _ & _ & Hlen). simpl. rewrite app_nil_r, take_ge by done. by destruct s. }
  specialize (IH _ _ (inbound_routed b f a s Hr)).
  assert (payloads_for s (f :: fs) = payloads_for s [f] ++ payloads_for s fs) as Hp.
  { unfold payloads_for. simpl. by destruct (meant_for s f). }
  rewrite Hp. cbn [with_buffer set_buffer st_buffer] in IH. replace (take chan_capacity (st_buffer s ++ payloads_for s [f] ++ payloads_for s fs)) with
    (take chan_capacity (take chan_capacity (st_buffer s ++ payloads_for s [f]) ++ payloads_for s fs)); [exact IH|].
  rewrite app_assoc. set (x := st_buffer s ++ payloads_for s [f]).
  destruct (Nat.le_gt_cases (length x) chan_capacity) as [Hle|Hgt]; [by rewrite (take_ge x)|].
  rewrite !take_app_le, take_take, Nat.min_id; [done|lia|]. rewrite length_take. lia.
Qed.

(** What happens to the relay while a stream is open at [a]: frames of agents
    arrive, its browser takes the next payload, other streams open and end. *)
Inductive relay_event : Type :=
| RvFrame (f : frame)
| RvTake
| RvOpen (id dev : uuid) (kind : byte)
| RvEnd (id : uuid).
Definition frames_of (evs : list relay_event) : list frame := omap (λ ev, match ev with RvFrame f => Some f | _ => None end) evs.
Definition others_only (id : uuid) (ev : relay_event) : Prop :=
  match ev with RvOpen i _ _ | RvEnd i => i ≠ id | _ => True end.

(** The broker, and what the browser has taken from the channel at [a]. *)
Definition play (a : nat) (x : Broker * list bytes) (ev : relay_event) : Broker * list bytes :=
  let '(b, got) := x in
  match ev with
  | RvFrame f => (inbound b f, got)
  | RvTake =>
      match br_objects b !! a with
      | Some s =>
          match st_buffer s with
          | [] => (b, got)
          | p :: rest => (mkBroker (br_streams b) (<[a := with_buffer rest s]> (br_objects b)) (br_panicked b), got ++ [p])
          end
      | None => (b, got)
      end
  | RvOpen id dev kind => ((Register id dev kind b).2, got)
  | RvEnd id => (Unregister id b, got)
  end.

(** With [n] payloads waiting, no frame for the stream finds the channel full. *)
Fixpoint never_full (s : Stream) (n : nat) (evs : list relay_event) : Prop :=
  match evs with
  | [] => True
  | RvFrame f :: rest => if meant_for s f then n < chan_capacity ∧ never_full s (S n) rest else never_full s n rest
  | RvTake :: rest => never_full s (pred n) rest
  | _ :: rest => never_full s n rest
  end.

Lemma Register_routed b a s id dev kind :
  id ≠ st_ID s → routed b a s → routed (Register id dev kind b).2 a s.
Proof.
  intros Hne (Hid & Ha & Hc & Hu & Hl). unfold routed. simpl.
  assert (fresh (dom (br_objects b)) ≠ a) as Hf.
  { intros E. apply (is_fresh (dom (br_objects b))). rewrite E. by apply elem_of_dom. }
  split_and!; [by rewrite lookup_insert_ne|by rewrite lookup_insert_ne|done| |done].
  intros i [[-> E]|[_ Hi]]%lookup_insert_Some; [done|by apply Hu].
Qed.
Lemma Unregister_routed b a s id : id ≠ st_ID s → routed b a s → routed (Unregister id b) a s.
Proof.
  intros Hne Hr. pose proof Hr as (Hid & Ha & Hc & Hu & Hl). unfold Unregister.
  destruct (br_streams b !! id) as [a'|] eqn:E; [|done].
  assert (a' ≠ a) as Hna by (intros ->; by apply Hne, Hu).
  assert (routed (mkBroker (delete id (br_streams b)) (br_objects b) (br_panicked b)) a s) as Hd.
  { split_and!; simpl; [by rewrite lookup_delete_ne|done|done| |done].
    intros i [_ Hi]%lookup_delete_Some. by apply Hu. }
  unfold close. cbn [br_objects]. destruct (br_objects b !! a') as [s'|]; [|done].
  destruct (st_closed s'); [by eapply routed_same|]. eapply routed_same; [exact Hd|done|]. simpl. by rewrite lookup_insert_ne.
Qed.

Lemma payloads_cons s f fs : payloads_for s (f :: fs) = (if meant_for s f then [fr_payload f] else []) ++ payloads_for s fs.
Proof. unfold payloads_for. simpl. by destruct (meant_for s f). Qed.
Lemma never_full_buffer s buf n evs : never_full s n evs → never_full (with_buffer buf s) n evs.
Proof.
  revert n. induction evs as [|[f| |id dev kind|id] evs IH]; intros n; cbn [never_full]; try done; try apply IH.
  change (meant_for (with_buffer buf s) f) with (meant_for s f). destruct (meant_for s f); [intros []; split; [done|]|]; by apply IH.
Qed.

Lemma play_routed a evs b got s :
  routed b a s → Forall (others_only (st_ID s)) evs →
  ∃ buf new, routed (foldl (play a) (b, got) evs).1 a (with_buffer buf s) ∧ (foldl (play a) (b, got) evs).2 = got ++ new ∧
    new ++ buf `sublist_of` st_buffer s ++ payloads_for s (frames_of evs) ∧
    (never_full s (length (st_buffer s)) evs → new ++ buf = st_buffer s ++ payloads_for s (frames_of evs)).
Proof.
  intros Hr Hev. revert b got s Hr Hev. induction evs as [|ev evs IH]; intros b got s Hr Hev.
  { exists (st_buffer s), []. simpl. rewrite !app_nil_r. replace (with_buffer (st_buffer s) s) with s by (by destruct s). done. }
  inversion_clear Hev as [|? ? Ho Hev']. cbn [foldl]. destruct ev as [f| |id dev kind|id].
  - pose proof (inbound_routed b f a s Hr) as Hr1. destruct (IH _ got _ Hr1 Hev') as (buf & new & H1 & H2 & H3 & H4).
    exists buf, new. split; [done|]. split; [done|]. change (frames_of (RvFrame f :: evs)) with (f :: frames_of evs).
    rewrite payloads_cons, app_assoc. cbn [never_full with_buffer set_buffer st_buffer] in H3, H4 |- *.
    assert (payloads_for s [f] = if meant_for s f then [fr_payload f] else []) as Hp by (rewrite payloads_cons; by rewrite app_nil_r).
    rewrite Hp in H3, H4. split.
    + etrans; [exact H3|]. apply sublist_app; [apply sublist_take|done].
    + destruct Hr as (_ & _ & _ & _ & Hlen). destruct (meant_for s f) eqn:Em.
      * intros [Hn Hf]. rewrite take_ge in H4 by (rewrite length_app; simpl; lia). apply H4, never_full_buffer.
        rewrite length_app. simpl. by rewrite Nat.add_1_r.
      * rewrite !app_nil_r in *. rewrite take_ge in H4 by done. intros Hf. by apply H4, never_full_buffer.
  - pose proof Hr as (Hid & Ha & Hc & Hu & Hl). cbn [play]. rewrite Ha. cbn [never_full].
    destruct (st_buffer s) as [|p rest] eqn:Eb.
    { destruct (IH b got s Hr Hev') as (buf & new & H1 & H2 & H3 & H4). rewrite Eb in H3, H4.
      exists buf, new. split; [exact H1|]. split; [exact H2|]. split; [exact H3|exact H4]. }
    assert (routed (mkBroker (br_streams b) (<[a := with_buffer rest s]> (br_objects b)) (br_panicked b)) a (with_buffer rest s)) as Hr1.
    { split_and!; simpl; [done|apply lookup_insert_eq|done|done|simpl in Hl; lia]. }
    destruct (IH _ (got ++ [p]) _ Hr1 Hev') as (buf & new & H1 & H2 & H3 & H4).
    exists buf, (p :: new). split; [done|]. split; [by rewrite H2, <-app_assoc|]. split; [by apply sublist_skip|].
    intros Hf. simpl. f_equal. by apply H4, never_full_buffer.
  - destruct (IH _ got s (Register_routed _ _ _ id dev kind Ho Hr) Hev') as (buf & new & H). by exists buf, new.
  - destruct (IH _ got s (Unregister_routed _ _ _ id Ho Hr) Hev') as (buf & new & H). by exists buf, new.
Qed.

(** C32: the relay keeps streams apart and in order: from the moment a stream is
    registered, while frames of any agents arrive one by one, other streams
    open and end and the browser takes payloads at its own pace, what the
    browser took followed by what waits for it is a subsequence, unchanged and
    in order, of the payloads of the frames that carry its stream id and its
    kind and come from its device, so nothing of another device, kind or stream
    ever gets in; it is all of them as long as no such frame finds 64 payloads
    waiting, and never more than 64 wait. *)
Theorem relay_routes_exactly b streamID deviceID kind evs :
  (∀ id a, br_streams b !! id = Some a → a ∈ dom (br_objects b)) → Forall (others_only streamID) evs →
  let '(a, b1) := Register streamID deviceID kind b in
  let '(b2, got) := foldl (play a) (b1, []) evs in
  let sent := omap (λ f, if (fr_stream f =? streamID)%N && (deviceID =? fr_device f)%N && bool_decide (kind = fr_kind f)
                         then Some (fr_payload f) else None) (frames_of evs) in
  ∃ s, br_objects b2 !! a = Some s ∧ st_closed s = false ∧ length (st_buffer s) ≤ 64 ∧
    got ++ st_buffer s `sublist_of` sent ∧
    (never_full (mkStream streamID deviceID kind [] false) 0 evs → got ++ st_buffer s = sent).
Proof.
  intros Hdom Hev. unfold Register. set (a := fresh _). set (b1 := mkBroker _ _ _).
  assert (routed b1 a (mkStream streamID deviceID kind [] false)) as Hr.
  { subst b1. split_and!; simpl; [by rewrite lookup_insert_eq..|done| |unfold chan_capacity; lia].
    intros id [[<- _]|[_ Hin]]%lookup_insert_Some; [done|]. exfalso.
    apply (is_fresh (dom (br_objects b))). by eapply Hdom. }
  destruct (play_routed a evs b1 [] _ Hr Hev) as (buf & new & (_ & Ha & Hc & _ & Hl) & Hgot & Hsub & Hall).
  destruct (foldl (play a) (b1, []) evs) as [b2 got]. simpl in Ha, Hgot. subst got.
  eexists. split; [exact Ha|]. split; [done|]. split; [exact Hl|]. by split.
Qed.

(** ** Closing while a frame is under way *)

(** The goroutines: a control connection that has looked up a stream holds
    the frame until it sends it. *)
Record relay_state : Type := mkRelay { rl_broker : Broker; rl_held : list (nat * bytes) }.

Inductive relay_step : relay_state → relay_state → Prop :=
| rl_register id dev kind b h : relay_step (mkRelay b h) (mkRelay (Register id dev kind b).2 h)
| rl_unregister id b h : relay_step (mkRelay b h) (mkRelay (Unregister id b) h)
| rl_lookup dev kind id p a b h :
    inbound_target dev kind id b = Some a → relay_step (mkRelay b h) (mkRelay b ((a, p) :: h))
| rl_send a p b h : relay_step (mkRelay b ((a, p) :: h)) (mkRelay (try_send a p b) h)
| rl_read a p rest s b h :
    br_objects b !! a = Some s → st_buffer s = p :: rest →
    relay_step (mkRelay b h)
      (mkRelay (mkBroker (br_streams b) (<[a := with_buffer rest s]> (br_objects b)) (br_panicked b)) h).

(** Closing a session can crash the server: between the lookup of a stream
    and the send to its channel the lock is free, and a session closed in
    that window leaves the send on a closed channel, which panics. *)
Theorem relay_close_races_with_send :
  ∃ s, reachable (eq (mkRelay NewBroker [])) relay_step s ∧ br_panicked (rl_broker s) = true.
Proof.
  eexists. split.
  - eapply reach_step; [eapply reach_step; [eapply reach_step; [eapply reach_step; [by apply reach_init|]|]|]|].
    + apply (rl_register 1 2 StreamKindTerminal).
    + eapply (rl_lookup 2 StreamKindTerminal 1 []). vm_compute. reflexivity.
    + apply (rl_unregister 1).
    + apply rl_send.
  - vm_compute. reflexivity.
Qed.

(** A payload arrives and is taken, another device tries the same stream, a
    second stream opens, and a second payload waits. *)
Definition demo_events : list relay_event :=
  [RvFrame (mkFrame 2 StreamKindTerminal 1 (str_bytes "x")); RvTake; RvFrame (mkFrame 3 StreamKindTerminal 1 (str_bytes "y"));
   RvOpen 5 3 StreamKindTerminal; RvFrame (mkFrame 2 StreamKindTerminal 1 (str_bytes "z"))].
Lemma relay_routes_exactly_witness :
  let '(a, b1) := Register 1 2 StreamKindTerminal NewBroker in
  let '(b2, got) := foldl (play a) (b1, []) demo_events in
  ∃ s, br_objects b2 !! a = Some s ∧ got ++ st_buffer s = [str_bytes "x"; str_bytes "z"].
Proof.
  pose proof (relay_routes_exactly NewBroker 1 2 StreamKindTerminal demo_events ltac:(by intros ??)
    ltac:(by repeat constructor)) as H.
  destruct (Register 1 2 StreamKindTerminal NewBroker) as [a b1] eqn:E.
  destruct (foldl (play a) (b1, []) demo_events) as [b2 got].
  destruct H as (s & Hs & _ & _ & _ & Hall). exists s. split; [exact Hs|]. apply Hall. vm_compute. repeat constructor; lia.
Defined.
