(* ===== verification/RemoteSession.v ===== *)
(** Remote sessions ([internal/remotesession]): terminal sessions and their
    maintenance records ([session.go], [internal/maintenance]), tunnel
    tickets ([tunnel.go]), time-boxed privileges ([privilege.go]) and the
    handlers the router registers with the hub
    ([internal/httpapi/router.go]). *)
From S2P Require Import Prelude Base64 Sha256 Protocol Messages Relay Device Metrics.

(** ** Rows *)

(* internal/remotesession/session.go:30-41 State *)
Inductive State : Type :=
| StateRequested | StateOpening | StateActive | StateClosing | StateClosed | StateFailed
| StateInterrupted | StateExpired.
(* internal/remotesession/session.go:43-45 Kind *)
Inductive Kind : Type := KindTerminal | KindSSHTunnel | KindRDPTunnel.
#[export] Instance State_eq_dec : EqDecision State.
Proof. solve_decision. Defined.
#[export] Instance Kind_eq_dec : EqDecision Kind.
Proof. solve_decision. Defined.

(* internal/remotesession/session.go:47-58 Session *)
Record RemoteSession : Type := mkRemoteSession {
  rs_DeviceID : uuid;
  rs_UserID : uuid;
  rs_Kind : Kind;
  rs_State : State;
  rs_OpenedAt : time;
  rs_ClosedAt : option time;
  rs_ExpiresAt : time;
  rs_CloseReason : option string;
  rs_MaintenanceSessionID : option uuid }.

(* internal/remotesession/privilege.go:19-27 PrivilegeSession *)
Record PrivilegeSession : Type := mkPrivilege {
  pv_RemoteSessionID : uuid;
  pv_UserID : uuid;
  pv_DeviceID : uuid;
  pv_CreatedAt : time;
  pv_ValidUntil : time;
  pv_Reason : string;
  pv_RevokedAt : option time }.

(* internal/remotesession/tunnel.go:28-33 TargetType *)
Inductive TargetType : Type := TargetSSHLocal | TargetRDPLocal | TargetOther (s : string).
#[export] Instance TargetType_eq_dec : EqDecision TargetType.
Proof. solve_decision. Defined.

(** The states a tunnel row takes. *)
Inductive TunnelState : Type :=
| TnTicketIssued | TnActive | TnClosed | TnExpired | TnFailed | TnInterrupted.
#[export] Instance TunnelState_eq_dec : EqDecision TunnelState.
Proof. solve_decision. Defined.

(* internal/remotesession/tunnel.go:51-59 TunnelSession *)
Record TunnelSession : Type := mkTunnel {
  tn_RemoteSessionID : uuid;
  tn_DeviceID : uuid;
  tn_UserID : uuid;
  tn_TargetType : TargetType;
  tn_State : TunnelState;
  tn_TicketHash : bytes;
  tn_ExpiresAt : time;
  tn_BytesUp : Z;
  tn_BytesDown : Z }.

(* internal/maintenance/maintenance.go:15-23 Session *)
Record Maintenance : Type := mkMaintenance {
  mn_DeviceID : uuid;
  mn_CustomerID : option uuid;
  mn_UserID : uuid;
  mn_StartedAt : time;
  mn_EndedAt : option time;
  mn_Result : string;
  mn_Summary : string }.

Record MaintenanceEvent : Type := mkMaintEvent {
  me_SessionID : uuid;
  me_Type : string;
  me_Summary : string;
  me_ReferenceID : option uuid }.

(** What is sent to an agent without waiting, and what is audited. *)
Inductive rs_call : Type :=
| SendSessionClose (dev session : uuid) (reason : string)
| SendResize (dev session : uuid) (cols rows : Z)
| SendPrivilege (dev session : uuid) (privileged : bool) (until : option time) (authorization : option uuid)
| AuditPrivilegeExpired (dev session privilege : uuid)
| AuditInterrupted (dev session : uuid) (reason : string).

Record rs_db : Type := mkRsDB {
  rd_sessions : gmap uuid RemoteSession;
  rd_privileges : gmap uuid PrivilegeSession;
  rd_tunnels : gmap uuid TunnelSession;
  rd_maintenance : gmap uuid Maintenance;
  rd_events : list MaintenanceEvent;
  rd_broker : Broker;
  rd_calls : list rs_call }.
Definition empty_rs_db : rs_db := mkRsDB ∅ ∅ ∅ ∅ [] NewBroker [].

Inductive rs_error : Type :=
| RsNotFound
| RsDeviceOffline
| RsAgentRejected (msg : string)
| RsNotActive
| RsInvalidTarget
| RsTicketInvalid
| RsEntropy
| RsDB.
Abbreviation RsM := (M rs_db rs_error).

Definition on_sessions (f : gmap uuid RemoteSession → gmap uuid RemoteSession) (d : rs_db) : rs_db :=
  mkRsDB (f (rd_sessions d)) (rd_privileges d) (rd_tunnels d) (rd_maintenance d) (rd_events d)
    (rd_broker d) (rd_calls d).
Definition on_privileges (f : gmap uuid PrivilegeSession → gmap uuid PrivilegeSession) (d : rs_db) : rs_db :=
  mkRsDB (rd_sessions d) (f (rd_privileges d)) (rd_tunnels d) (rd_maintenance d) (rd_events d)
    (rd_broker d) (rd_calls d).
Definition on_tunnels (f : gmap uuid TunnelSession → gmap uuid TunnelSession) (d : rs_db) : rs_db :=
  mkRsDB (rd_sessions d) (rd_privileges d) (f (rd_tunnels d)) (rd_maintenance d) (rd_events d)
    (rd_broker d) (rd_calls d).
Definition on_maintenance (f : gmap uuid Maintenance → gmap uuid Maintenance) (d : rs_db) : rs_db :=
  mkRsDB (rd_sessions d) (rd_privileges d) (rd_tunnels d) (f (rd_maintenance d)) (rd_events d)
    (rd_broker d) (rd_calls d).
Definition on_events (f : list MaintenanceEvent → list MaintenanceEvent) (d : rs_db) : rs_db :=
  mkRsDB (rd_sessions d) (rd_privileges d) (rd_tunnels d) (rd_maintenance d) (f (rd_events d))
    (rd_broker d) (rd_calls d).
Definition on_broker (f : Broker → Broker) (d : rs_db) : rs_db :=
  mkRsDB (rd_sessions d) (rd_privileges d) (rd_tunnels d) (rd_maintenance d) (rd_events d)
    (f (rd_broker d)) (rd_calls d).
Definition note (c : rs_call) (d : rs_db) : rs_db :=
  mkRsDB (rd_sessions d) (rd_privileges d) (rd_tunnels d) (rd_maintenance d) (rd_events d)
    (rd_broker d) (rd_calls d ++ [c]).
Definition tell (c : rs_call) : RsM unit := mstate (λ d, (tt, note c d)).

(** [INSERT ... RETURNING id] with the id the database drew. *)
Definition insert_row {R} (get : rs_db → gmap uuid R) (set : (gmap uuid R → gmap uuid R) → rs_db → rs_db)
    (id : uuid) (row : R) : RsM uuid :=
  mstmt RsDB (λ d, if is_null (get d !! id) then (Ok id, set (insert id row) d) else (Err RsDB, d)).

(** ** Sessions *)

(* internal/remotesession/session.go:68-80 Create *)
Definition CreateSession (id deviceID userID : uuid) (kind : Kind) (expiresAt now : time)
    : RsM (uuid * RemoteSession) :=
  let s := mkRemoteSession deviceID userID kind StateRequested now None expiresAt None None in
  insert_row rd_sessions on_sessions id s;;
  mret (id, s).

(* internal/remotesession/session.go:82-99 Get *)
Definition GetSession (id : uuid) : RsM (uuid * RemoteSession) :=
  r ← mquery RsDB (λ d, rd_sessions d !! id);
  match r with None => mfail RsNotFound | Some s => mret (id, s) end.

Definition with_state (st : State) (s : RemoteSession) : RemoteSession :=
  mkRemoteSession (rs_DeviceID s) (rs_UserID s) (rs_Kind s) st (rs_OpenedAt s) (rs_ClosedAt s)
    (rs_ExpiresAt s) (rs_CloseReason s) (rs_MaintenanceSessionID s).
Definition with_close (st : State) (reason : string) (now : time) (s : RemoteSession) : RemoteSession :=
  mkRemoteSession (rs_DeviceID s) (rs_UserID s) (rs_Kind s) st (rs_OpenedAt s) (Some now)
    (rs_ExpiresAt s) (Some reason) (rs_MaintenanceSessionID s).
Definition with_maintenance (m : uuid) (s : RemoteSession) : RemoteSession :=
  mkRemoteSession (rs_DeviceID s) (rs_UserID s) (rs_Kind s) (rs_State s) (rs_OpenedAt s) (rs_ClosedAt s)
    (rs_ExpiresAt s) (rs_CloseReason s) (Some m).

(* internal/remotesession/session.go:101-107 SetMaintenanceSession *)
Definition SetMaintenanceSession (id maint : uuid) : RsM unit :=
  mexec RsDB (on_sessions (update_id id (with_maintenance maint))).

(* internal/remotesession/session.go:109-115 SetState *)
Definition SetState (id : uuid) (st : State) : RsM unit :=
  mexec RsDB (on_sessions (update_id id (with_state st))).

(* internal/remotesession/session.go:117-126 Close *)
Definition CloseRow (id : uuid) (st : State) (reason : string) (now : time) : RsM unit :=
  mexec RsDB (on_sessions (update_id id (with_close st reason now))).

Definition is_live (st : State) : bool :=
  match st with StateRequested | StateOpening | StateActive => true | _ => false end.

(** [UPDATE ... WHERE ... RETURNING id, maintenance_session_id]. *)
Definition interrupt_where (p : RemoteSession → bool) (reason : string) (now : time)
    : RsM (list (uuid * option uuid)) :=
  mstmt RsDB (λ d,
    let hit := λ _ s, is_live (rs_State s) && p s in
    (Ok (map (λ r, (r.1, rs_MaintenanceSessionID r.2)) (select_where hit (rd_sessions d))),
     on_sessions (update_where hit (with_close StateInterrupted reason now)) d)).

(* internal/remotesession/session.go:139-158 InterruptAllForDevice *)
Definition InterruptAllForDevice (deviceID : uuid) (now : time) : RsM (list (uuid * option uuid)) :=
  interrupt_where (λ s, (rs_DeviceID s =? deviceID)%N) "agent_disconnected" now.

(* internal/remotesession/session.go:166-185 InterruptAllActive *)
Definition InterruptAllActive (now : time) : RsM (list (uuid * option uuid)) :=
  interrupt_where (λ _, true) "server_restart" now.

(** ** Maintenance records *)

(* internal/maintenance/maintenance.go:38-48 Open *)
Definition MaintOpen (id deviceID : uuid) (customerID : option uuid) (userID : uuid) (now : time) : RsM uuid :=
  insert_row rd_maintenance on_maintenance id
    (mkMaintenance deviceID customerID userID now None "" "").

(* internal/maintenance/maintenance.go:50-59 AddEvent *)
Definition MaintAddEvent (maint : uuid) (eventType summary : string) (ref : option uuid) : RsM unit :=
  mstmt RsDB (λ d,
    if is_null (rd_maintenance d !! maint) then (Err RsDB, d)
    else (Ok tt, on_events (λ l, l ++ [mkMaintEvent maint eventType summary ref]) d)).

Definition ended (result summary : string) (now : time) (m : Maintenance) : Maintenance :=
  mkMaintenance (mn_DeviceID m) (mn_CustomerID m) (mn_UserID m) (mn_StartedAt m) (Some now) result summary.

(* internal/maintenance/maintenance.go:61-69 Close *)
Definition MaintClose (id : uuid) (result summary : string) (now : time) : RsM unit :=
  mexec RsDB (on_maintenance (update_id id (ended result summary now))).

(* internal/maintenance/maintenance.go:71-89 ListForDevice *)
Definition MaintListForDevice (deviceID : uuid) : RsM (list (uuid * Maintenance)) :=
  mquery RsDB (λ d,
    take 200 (order_by (λ a b, (mn_StartedAt b.2 <=? mn_StartedAt a.2)%Z)
      (select_where (λ _ m, (mn_DeviceID m =? deviceID)%N) (rd_maintenance d)))).

(** ** Opening and closing over the control channel

    [ask] stands for [hub.SendAndWait] with the [session_open] message: it
    fails when the agent is not connected or does not answer in time, its
    result is [None] when the answer cannot be decoded, and while it waits
    other goroutines may change the database. *)
Abbreviation Ask := (uuid → M rs_db unit (option SessionOpenResultPayload)).

Definition accepted (r : option SessionOpenResultPayload) : bool :=
  match r with Some p => String.eqb (or_Status p) "success" | None => false end.
Definition rejection (r : option SessionOpenResultPayload) : string :=
  match r with
  | Some p => if String.eqb (or_Message p) "" then "no reason given by agent" else or_Message p
  | None => "no reason given by agent"
  end.

(** From the request to the agent on; shared by terminals and tunnels. *)
(* internal/remotesession/session.go:219-245 OpenTerminal *)
Definition open_on_agent (ask : Ask) (id : uuid) (s : RemoteSession) (later : time)
    : RsM (uuid * RemoteSession) :=
  r ← mtry (E := unit) (ask id);
  match r with
  | Err _ =>
      mignore (E := rs_error) (CloseRow id StateFailed "agent_unreachable" later);;
      mfail RsDeviceOffline
  | Ok answer =>
      if accepted answer then
        SetState id StateActive;;
        mret (id, with_state StateActive s)
      else
        mignore (E := rs_error) (CloseRow id StateFailed "agent_rejected" later);;
        mfail (RsAgentRejected (rejection answer))
  end.

(* internal/remotesession/session.go:205-246 OpenTerminal *)
Definition OpenTerminal (ask : Ask) (sid mid deviceID userID : uuid) (customerID : option uuid)
    (ttl : duration) (now later : time) : RsM (uuid * RemoteSession) :=
  '(id, s) ← CreateSession sid deviceID userID KindTerminal (now + ttl)%Z now;
  m ← mtry (E := rs_error) (MaintOpen mid deviceID customerID userID now);
  s' ← match m with
       | Err _ => mret s
       | Ok maint =>
           mignore (E := rs_error) (SetMaintenanceSession id maint);;
           mignore (E := rs_error) (MaintAddEvent maint "terminal_opened" "Remote terminal session opened" (Some id));;
           mret (with_maintenance maint s)
       end;
  open_on_agent ask id s' later.

(* internal/remotesession/session.go:250-260 Close *)
Definition CloseSession (id : uuid) (s : RemoteSession) (reason : string) (now : time) : RsM unit :=
  tell (SendSessionClose (rs_DeviceID s) id reason);;
  match rs_MaintenanceSessionID s with
  | Some maint =>
      mignore (E := rs_error) (MaintAddEvent maint "terminal_closed" ("Remote terminal session closed: " +:+ reason) (Some id));;
      mignore (E := rs_error) (MaintClose maint "completed" ("Terminal session closed: " +:+ reason) now)
  | None => mret tt
  end;;
  CloseRow id StateClosed reason now.

(* internal/remotesession/session.go:263-269 Resize *)
Definition Resize (id : uuid) (s : RemoteSession) (cols rows : Z) : RsM unit :=
  tell (SendResize (rs_DeviceID s) id cols rows).

(** ** The handlers registered with the hub *)

Fixpoint each {A} (f : A → RsM unit) (l : list A) : RsM unit :=
  match l with [] => mret tt | x :: l' => f x;; each f l' end.

(* internal/httpapi/router.go:161-172 session close handler *)
Definition on_session_close (deviceID : uuid) (sessionID : option uuid) (reason : string) (now : time) : RsM unit :=
  match sessionID with
  | None => mret tt
  | Some id =>
      r ← mtry (E := rs_error) (GetSession id);
      match r with
      | Err _ => mret tt
      | Ok (_, s) =>
          if negb (rs_DeviceID s =? deviceID)%N || negb (bool_decide (rs_State s = StateActive)) then mret tt
          else
            mstate (λ d, (tt, on_broker (Unregister id) d));;
            mignore (E := rs_error) (CloseSession id s ("agent_" +:+ reason) now)
      end
  end.

(* internal/httpapi/router.go:183-196 device disconnect handler *)
Definition settle_interrupted (deviceID : uuid) (now : time) (r : uuid * option uuid) : RsM unit :=
  mstate (λ d, (tt, on_broker (Unregister r.1) d));;
  match r.2 with
  | Some maint => mignore (E := rs_error)
      (MaintClose maint "interrupted" "Agent disconnected while session was active" now)
  | None => mret tt
  end;;
  tell (AuditInterrupted deviceID r.1 "agent_disconnected").

(* internal/httpapi/router.go:178-197 device disconnect handler *)
Definition on_device_disconnect (deviceID : uuid) (now : time) : RsM unit :=
  r ← mtry (E := rs_error) (InterruptAllForDevice deviceID now);
  match r with
  | Err _ => mret tt
  | Ok interrupted => each (settle_interrupted deviceID now) interrupted
  end.

(** ** Tunnels *)

Definition ticket_prefix : string := "wr_tunnel_".

(* internal/remotesession/tunnel.go:40-49 kindForTarget *)
Definition kindForTarget (t : TargetType) : res rs_error (Kind * byte) :=
  match t with
  | TargetSSHLocal => Ok (KindSSHTunnel, StreamKindTunnel)
  | TargetRDPLocal => Ok (KindRDPTunnel, StreamKindTunnel)
  | TargetOther _ => Err RsInvalidTarget
  end.

(* internal/remotesession/tunnel.go:72-80 generateTicket *)
Definition generateTicket (rnd : option bytes) : res rs_error (string * bytes) :=
  match rnd with
  | None => Err RsEntropy
  | Some raw => Ok (ticket_prefix +:+ raw_encode url_alphabet raw, Sum256 raw)
  end.

(* internal/remotesession/tunnel.go:82-93 hashTicket *)
Definition hashTicket (ticket : string) : res rs_error bytes :=
  if (String.length ticket <=? String.length ticket_prefix) ||
     negb (String.eqb (substring 0 (String.length ticket_prefix) ticket) ticket_prefix)
  then Err RsTicketInvalid
  else
    match raw_decode url_alphabet
            (substring (String.length ticket_prefix)
               (String.length ticket - String.length ticket_prefix) ticket) with
    | None => Err RsTicketInvalid
    | Some raw => Ok (Sum256 raw)
    end.

(* internal/remotesession/tunnel.go:95-106 create *)
Definition create_tunnel (id session deviceID userID : uuid) (t : TargetType) (hash : bytes) (expiresAt : time)
    : RsM uuid :=
  insert_row rd_tunnels on_tunnels id
    (mkTunnel session deviceID userID t TnTicketIssued hash expiresAt 0 0).

Definition tunnel_state (st : TunnelState) (t : TunnelSession) : TunnelSession :=
  mkTunnel (tn_RemoteSessionID t) (tn_DeviceID t) (tn_UserID t) (tn_TargetType t) st (tn_TicketHash t)
    (tn_ExpiresAt t) (tn_BytesUp t) (tn_BytesDown t).
Definition tunnel_bytes (up down : Z) (t : TunnelSession) : TunnelSession :=
  mkTunnel (tn_RemoteSessionID t) (tn_DeviceID t) (tn_UserID t) (tn_TargetType t) (tn_State t) (tn_TicketHash t)
    (tn_ExpiresAt t) up down.
Definition has_hash (h : bytes) (_ : uuid) (t : TunnelSession) : bool := bool_decide (tn_TicketHash t = h).

(* internal/remotesession/tunnel.go:112-148 ConsumeTicket *)
Definition ConsumeTicket (ticket : string) (now : time) : RsM (uuid * TunnelSession) :=
  hash ← mlift (hashTicket ticket);
  mtx RsDB RsDB (
    r ← mquery RsDB (λ d, select_one (has_hash hash) (rd_tunnels d));
    match r with
    | None => mfail RsTicketInvalid
    | Some (id, t) =>
        if negb (bool_decide (tn_State t = TnTicketIssued)) || (tn_ExpiresAt t <? now)%Z
        then mfail RsTicketInvalid
        else
          mexec RsDB (on_tunnels (update_id id (tunnel_state TnActive)));;
          mret (id, tunnel_state TnActive t)
    end).

(* internal/remotesession/tunnel.go:153-159 UpdateBytes *)
Definition UpdateBytes (id : uuid) (up down : Z) : RsM unit :=
  mexec RsDB (on_tunnels (update_id id (tunnel_bytes up down))).

(* internal/remotesession/tunnel.go:161-167 Close *)
Definition CloseTunnel (id : uuid) (st : TunnelState) : RsM unit :=
  mexec RsDB (on_tunnels (update_id id (tunnel_state st))).

(* internal/remotesession/tunnel.go:172-181 InvalidateAllOutstanding *)
Definition InvalidateAllOutstanding : RsM unit :=
  mexec RsDB (on_tunnels (update_where (λ _ t, bool_decide (tn_State t = TnTicketIssued))
    (tunnel_state TnExpired))).

(* internal/remotesession/tunnel.go:191-236 OpenTunnel *)
Definition OpenTunnel (ask : Ask) (sid tid deviceID userID : uuid) (t : TargetType)
    (sessionTTL ticketTTL : duration) (rnd : option bytes) (now later : time)
    : RsM (uuid * RemoteSession * string * uuid) :=
  '(kind, _) ← mlift (kindForTarget t);
  '(id, s) ← CreateSession sid deviceID userID kind (now + sessionTTL)%Z now;
  '(_, s') ← open_on_agent ask id s later;
  '(ticket, hash) ← mlift (generateTicket rnd);
  tunnelID ← create_tunnel tid id deviceID userID t hash (later + ticketTTL)%Z;
  mret (id, s', ticket, tunnelID).

(** ** Privileges *)

(* internal/remotesession/privilege.go:37-49 Create *)
Definition CreatePrivilege (id session userID deviceID : uuid) (validUntil : time) (reason : string) (now : time)
    : RsM (uuid * PrivilegeSession) :=
  let p := mkPrivilege session userID deviceID now validUntil reason None in
  insert_row rd_privileges on_privileges id p;;
  mret (id, p).

Definition granted (session : uuid) (now : time) (p : PrivilegeSession) : bool :=
  (pv_RemoteSessionID p =? session)%N && is_null (pv_RevokedAt p) && (now <? pv_ValidUntil p)%Z.

(* internal/remotesession/privilege.go:53-72 ActiveForSession *)
Definition ActiveForSession (session : uuid) (now : time) : RsM (option (uuid * PrivilegeSession)) :=
  mquery RsDB (λ d,
    head (order_by (λ a b, (pv_CreatedAt b.2 <=? pv_CreatedAt a.2)%Z)
      (select_where (λ _ p, granted session now p) (rd_privileges d)))).

Definition revoked_at (now : time) (p : PrivilegeSession) : PrivilegeSession :=
  if is_null (pv_RevokedAt p) then
    mkPrivilege (pv_RemoteSessionID p) (pv_UserID p) (pv_DeviceID p) (pv_CreatedAt p) (pv_ValidUntil p)
      (pv_Reason p) (Some now)
  else p.

(* internal/remotesession/privilege.go:74-80 Revoke *)
Definition RevokeRow (id : uuid) (now : time) : RsM unit :=
  mexec RsDB (on_privileges (update_id id (revoked_at now))).

(* internal/remotesession/privilege.go:85-104 expiredButNotRevoked *)
Definition expiredButNotRevoked (now : time) : RsM (list (uuid * PrivilegeSession)) :=
  mquery RsDB (λ d,
    select_where (λ _ p, is_null (pv_RevokedAt p) && (pv_ValidUntil p <=? now)%Z) (rd_privileges d)).

(* internal/remotesession/privilege.go:110-131 GrantPrivilege *)
Definition GrantPrivilege (pid sid : uuid) (s : RemoteSession) (dur maxDuration : duration) (reason : string)
    (now : time) : RsM (uuid * PrivilegeSession) :=
  if negb (bool_decide (rs_State s = StateActive)) then mfail RsNotActive else
  let dur' := if (dur <=? 0)%Z || (maxDuration <? dur)%Z then maxDuration else dur in
  let validUntil := (now + dur')%Z in
  '(id, p) ← CreatePrivilege pid sid (rs_UserID s) (rs_DeviceID s) validUntil reason now;
  tell (SendPrivilege (rs_DeviceID s) sid true (Some validUntil) (Some id));;
  mret (id, p).

(* internal/remotesession/privilege.go:135-144 RevokePrivilege *)
Definition RevokePrivilege (id : uuid) (p : PrivilegeSession) (now : time) : RsM unit :=
  RevokeRow id now;;
  tell (SendPrivilege (pv_DeviceID p) (pv_RemoteSessionID p) false None None).

(** One tick. *)
(* internal/remotesession/privilege.go:157-181 RunPrivilegeExpirySweeper *)
Definition privilege_sweep (now : time) : RsM unit :=
  r ← mtry (E := rs_error) (expiredButNotRevoked now);
  match r with
  | Err _ => mret tt
  | Ok expired => each (λ '(id, p),
      x ← mtry (E := rs_error) (RevokePrivilege id p now);
      match x with
      | Err _ => mret tt
      | Ok _ => tell (AuditPrivilegeExpired (pv_DeviceID p) (pv_RemoteSessionID p) id)
      end) expired
  end.

(** ** Everything is a sequence of statements

    [base_step] is one statement that changes the tunnel or the privilege
    table, or anything that leaves both alone; new tickets are fresh (256
    random bits) and privileges last at most [maxDuration]. *)
Section protocol.
Context (maxDuration : duration).

Inductive base_step (d d' : rs_db) : Prop :=
| b_other : rd_tunnels d' = rd_tunnels d → rd_privileges d' = rd_privileges d → base_step d d'
| b_ticket id t :
    rd_tunnels d !! id = None → (∀ j u, rd_tunnels d !! j = Some u → tn_TicketHash u ≠ tn_TicketHash t) →
    rd_tunnels d' = <[id := t]> (rd_tunnels d) → rd_privileges d' = rd_privileges d → base_step d d'
| b_tunnel (hit : uuid → TunnelSession → bool) f :
    (∀ t, tn_TicketHash (f t) = tn_TicketHash t ∧
          (tn_State t ≠ TnTicketIssued → tn_State (f t) ≠ TnTicketIssued)) →
    rd_tunnels d' = update_where hit f (rd_tunnels d) → rd_privileges d' = rd_privileges d → base_step d d'
| b_grant id p :
    rd_privileges d !! id = None → (pv_ValidUntil p ≤ pv_CreatedAt p + maxDuration)%Z →
    rd_privileges d' = <[id := p]> (rd_privileges d) → rd_tunnels d' = rd_tunnels d → base_step d d'
| b_revoke id now :
    rd_privileges d' = update_id id (revoked_at now) (rd_privileges d) → rd_tunnels d' = rd_tunnels d →
    base_step d d'.

Definition steps : rs_db → rs_db → Prop := rtc base_step.
#[local] Instance steps_preorder : PreOrder steps := rtc_po.

Lemma steps_same d d' : rd_tunnels d' = rd_tunnels d → rd_privileges d' = rd_privileges d → steps d d'.
Proof. intros. by apply rtc_once, b_other. Qed.

Lemma update_id_where {R} id (f : R → R) (t : gmap uuid R) :
  update_id id f t = update_where (λ k _, (k =? id)%N) f t.
Proof.
  apply map_eq. intros k. rewrite lookup_update_id, lookup_update_where.
  destruct (decide (id = k)) as [->|Hne].
  - destruct (t !! k); simpl; [by rewrite N.eqb_refl|done].
  - destruct (t !! k); simpl; [|done]. by rewrite (proj2 (N.eqb_neq _ _)).
Qed.

Lemma tunnel_update_steps id f d :
  (∀ t, tn_TicketHash (f t) = tn_TicketHash t ∧ (tn_State t ≠ TnTicketIssued → tn_State (f t) ≠ TnTicketIssued)) →
  steps d (on_tunnels (update_id id f) d).
Proof.
  intros Hf. apply rtc_once, (b_tunnel _ _ (λ k _, (k =? id)%N) f); [done| |done]. simpl. apply update_id_where.
Qed.

Lemma other_exec (e : rs_error) f :
  (∀ d, rd_tunnels (f d) = rd_tunnels d ∧ rd_privileges (f d) = rd_privileges d) → preserves steps (mexec e f).
Proof. intros Hf. apply preserves_mexec; [apply _|]. intros d. destruct (Hf d). by apply steps_same. Qed.
Lemma other_state {A} (f : rs_db → A * rs_db) :
  (∀ d, rd_tunnels (f d).2 = rd_tunnels d ∧ rd_privileges (f d).2 = rd_privileges d) →
  preserves steps (E := rs_error) (mstate f).
Proof. intros Hf. apply preserves_mstate. intros d. destruct (Hf d). by apply steps_same. Qed.
Lemma tell_steps c : preserves steps (tell c).
Proof. by apply other_state. Qed.
Lemma insert_session_steps id s : preserves steps (insert_row rd_sessions on_sessions id s).
Proof.
  apply preserves_mstmt; [apply _|]. intros d. destruct (is_null _); [by apply steps_same|done].
Qed.
Lemma insert_maint_steps id s : preserves steps (insert_row rd_maintenance on_maintenance id s).
Proof.
  apply preserves_mstmt; [apply _|]. intros d. destruct (is_null _); [by apply steps_same|done].
Qed.
Lemma update_session_steps id f : preserves steps (mexec RsDB (on_sessions (update_id id f))).
Proof. by apply other_exec. Qed.
Lemma update_maint_steps id f : preserves steps (mexec RsDB (on_maintenance (update_id id f))).
Proof. by apply other_exec. Qed.
Lemma MaintAddEvent_steps m ty sm ref : preserves steps (MaintAddEvent m ty sm ref).
Proof.
  apply preserves_mstmt; [apply _|]. intros d. destruct (is_null _); [done|by apply steps_same].
Qed.
Lemma interrupt_steps p r now : preserves steps (interrupt_where p r now).
Proof. apply preserves_mstmt; [apply _|]. intros d. by apply steps_same. Qed.
Lemma broker_steps f : preserves steps (E := rs_error) (mstate (λ d, (tt, on_broker f d))).
Proof. by apply other_state. Qed.
#[local] Hint Resolve tell_steps insert_session_steps insert_maint_steps update_session_steps
  update_maint_steps MaintAddEvent_steps interrupt_steps broker_steps : preserve.

Lemma GetSession_steps id : preserves steps (GetSession id).
Proof. unfold GetSession. preserve_steps. Qed.
#[local] Hint Resolve GetSession_steps : preserve.
Lemma CloseSession_steps id s r now : preserves steps (CloseSession id s r now).
Proof. unfold CloseSession, MaintClose, CloseRow. preserve_steps. Qed.
#[local] Hint Resolve CloseSession_steps : preserve.
Lemma each_steps {A} (f : A → RsM unit) l : (∀ x, preserves steps (f x)) → preserves steps (each f l).
Proof.
  intros Hf. induction l as [|x l IH]; simpl; [apply preserves_mret; apply _|].
  apply preserves_mbind; [apply _|apply Hf|]. by intros _.
Qed.
Lemma on_session_close_steps dev id r now : preserves steps (on_session_close dev id r now).
Proof. unfold on_session_close. preserve_steps. Qed.
Lemma on_device_disconnect_steps dev now : preserves steps (on_device_disconnect dev now).
Proof.
  unfold on_device_disconnect, InterruptAllForDevice. preserve_steps.
  apply each_steps. intros [id m]. unfold settle_interrupted, MaintClose. preserve_steps.
Qed.

Section asking.
Context (ask : Ask) (ask_steps : ∀ id, preserves steps (ask id)).
Lemma open_on_agent_steps id s later : preserves steps (open_on_agent ask id s later).
Proof. unfold open_on_agent, CloseRow, SetState. preserve_steps; apply ask_steps. Qed.
Lemma OpenTerminal_steps sid mid dev usr cust ttl now later :
  preserves steps (OpenTerminal ask sid mid dev usr cust ttl now later).
Proof.
  unfold OpenTerminal, CreateSession, MaintOpen, SetMaintenanceSession. preserve_steps; apply open_on_agent_steps.
Qed.
End asking.

Lemma tunnel_state_keeps st t :
  st ≠ TnTicketIssued → tn_TicketHash (tunnel_state st t) = tn_TicketHash t ∧
  (tn_State t ≠ TnTicketIssued → tn_State (tunnel_state st t) ≠ TnTicketIssued).
Proof. done. Qed.

Lemma CloseTunnel_steps id st : st ≠ TnTicketIssued → preserves steps (CloseTunnel id st).
Proof.
  intros Hst. apply preserves_mexec; [apply _|]. intros d. apply tunnel_update_steps.
  intros t. by apply tunnel_state_keeps.
Qed.
Lemma UpdateBytes_steps id up down : preserves steps (UpdateBytes id up down).
Proof. apply preserves_mexec; [apply _|]. intros d. by apply tunnel_update_steps. Qed.
Lemma InvalidateAll_steps : preserves steps InvalidateAllOutstanding.
Proof.
  apply preserves_mexec; [apply _|]. intros d. eapply rtc_once, b_tunnel; [|done|done].
  intros t. by apply tunnel_state_keeps.
Qed.
Lemma ConsumeTicket_steps ticket now : preserves steps (ConsumeTicket ticket now).
Proof.
  unfold ConsumeTicket. preserve_steps. apply preserves_mexec; [apply _|]. intros d.
  apply tunnel_update_steps. intros t0. by apply tunnel_state_keeps.
Qed.
Lemma RevokeRow_steps id now : preserves steps (RevokeRow id now).
Proof. apply preserves_mexec; [apply _|]. intros d. by eapply rtc_once, b_revoke. Qed.
#[local] Hint Resolve RevokeRow_steps : preserve.
Lemma RevokePrivilege_steps id p now : preserves steps (RevokePrivilege id p now).
Proof. unfold RevokePrivilege. preserve_steps. Qed.
#[local] Hint Resolve RevokePrivilege_steps : preserve.
Lemma privilege_sweep_steps now : preserves steps (privilege_sweep now).
Proof.
  unfold privilege_sweep, expiredButNotRevoked. preserve_steps.
  apply each_steps. intros [id p]. preserve_steps.
Qed.
Lemma GrantPrivilege_steps pid sid s dur reason now : preserves steps (GrantPrivilege pid sid s dur maxDuration reason now).
Proof.
  unfold GrantPrivilege, CreatePrivilege. preserve_steps. apply preserves_mstmt; [apply _|]. intros d.
  destruct (rd_privileges d !! pid) eqn:E; simpl; [done|].
  eapply rtc_once, b_grant; [done| |done|done]. simpl.
  destruct ((dur <=? 0)%Z || (maxDuration <? dur)%Z) eqn:Eb; [lia|].
  apply orb_false_iff in Eb as [_ Eb]. apply Z.ltb_ge in Eb. lia.
Qed.

(** The new ticket's hash is the new row's alone. *)
Definition only_at (id : uuid) (h : bytes) (d : rs_db) : Prop :=
  ∀ j t, rd_tunnels d !! j = Some t → tn_TicketHash t = h → j = id.

Lemma OpenTunnel_steps ask sid tid dev usr t sttl tttl rnd now later d :
  (∀ id, preserves steps (ask id)) →
  always (OpenTunnel ask sid tid dev usr t sttl tttl rnd now later)
    (λ _ d', (∀ raw, rnd = Some raw → only_at tid (Sum256 raw) d') → steps d d') d.
Proof.
  intros Hask. unfold OpenTunnel. apply always_mbind, always_mlift.
  destruct (kindForTarget t) as [[kind b]|e]; [|done].
  apply always_mbind. eapply always_mono.
  { assert (preserves steps (CreateSession sid dev usr kind (now + sttl) now)) as Hc
      by (unfold CreateSession; preserve_steps). apply Hc. }
  intros [[id s]|e] d1 H1; [|by intros _]. apply always_mbind.
  eapply always_mono; [by apply open_on_agent_steps|]. intros [[id' s']|e] d2 H2; [|intros _; by etrans].
  assert (steps d d2) as H02 by by etrans. clear H1 H2.
  apply always_mbind, always_mlift. destruct rnd as [raw|]; [|by intros _]. simpl.
  apply always_mbind. unfold create_tunnel, insert_row. apply always_mstmt; [by intros _|].
  destruct (rd_tunnels d2 !! tid) eqn:E; simpl; [by intros _|]. apply always_mret.
  intros Hf. specialize (Hf raw eq_refl). etrans; [exact H02|].
  eapply rtc_once, b_ticket; [exact E| |done|done]. simpl. intros j u Hj Hh.
  assert (j = tid) as ->; [|congruence]. apply (Hf j u); [|done]. simpl.
  rewrite lookup_insert_ne; [done|congruence].
Qed.

(** ** The operations of the component *)

Inductive rs_step (d d' : rs_db) : Prop :=
| rs_open_terminal ask sid mid dev usr cust ttl now later :
    (∀ id, preserves steps (ask id)) →
    effect (OpenTerminal ask sid mid dev usr cust ttl now later) d d' → rs_step d d'
| rs_open_tunnel ask sid tid dev usr t sttl tttl rnd now later :
    (∀ id, preserves steps (ask id)) → (∀ raw, rnd = Some raw → only_at tid (Sum256 raw) d') →
    effect (OpenTunnel ask sid tid dev usr t sttl tttl rnd now later) d d' → rs_step d d'
| rs_close id s reason now : effect (CloseSession id s reason now) d d' → rs_step d d'
| rs_agent_close dev id reason now : effect (on_session_close dev id reason now) d d' → rs_step d d'
| rs_disconnect dev now : effect (on_device_disconnect dev now) d d' → rs_step d d'
| rs_restart now : effect (InterruptAllActive now) d d' → rs_step d d'
| rs_consume ticket now : effect (ConsumeTicket ticket now) d d' → rs_step d d'
| rs_bytes id up down : effect (UpdateBytes id up down) d d' → rs_step d d'
| rs_close_tunnel id st : st ≠ TnTicketIssued → effect (CloseTunnel id st) d d' → rs_step d d'
| rs_invalidate : effect InvalidateAllOutstanding d d' → rs_step d d'
| rs_grant pid sid s dur reason now :
    effect (GrantPrivilege pid sid s dur maxDuration reason now) d d' → rs_step d d'
| rs_revoke id p now : effect (RevokePrivilege id p now) d d' → rs_step d d'
| rs_sweep now : effect (privilege_sweep now) d d' → rs_step d d'.

Lemma rs_step_steps d d' : rs_step d d' → steps d d'.
Proof.
  destruct 1 as [????????? Ha E|??????????? Ha Hf E|???? E|???? E|?? E|? E|?? E|??? E|?? Hst E|E|?????? E|??? E|? E].
  2:{ revert Hf. pattern d'. revert E. apply effect_always. by apply OpenTunnel_steps. }
  all: revert E; apply effect_always.
  - by apply OpenTerminal_steps.
  - apply CloseSession_steps.
  - apply on_session_close_steps.
  - apply on_device_disconnect_steps.
  - apply interrupt_steps.
  - apply ConsumeTicket_steps.
  - apply UpdateBytes_steps.
  - by apply CloseTunnel_steps.
  - apply InvalidateAll_steps.
  - apply GrantPrivilege_steps.
  - apply RevokePrivilege_steps.
  - apply privilege_sweep_steps.
Qed.

Lemma reachable_steps d d' : reachable (eq d) rs_step d' → steps d d'.
Proof.
  revert d'. apply invariant_reachable; [by intros ? <-|].
  intros s s' Hs Hst. etrans; [exact Hs|by apply rs_step_steps].
Qed.

(** ** Tickets are used once *)

Definition hashes_unique (d : rs_db) : Prop :=
  ∀ i j t u, rd_tunnels d !! i = Some t → rd_tunnels d !! j = Some u →
    tn_TicketHash t = tn_TicketHash u → i = j.
(** A ticket that is no longer issued stays that way, under the same hash. *)
Definition ticket_rel (d d' : rs_db) : Prop :=
  (hashes_unique d → hashes_unique d') ∧
  ∀ id t, rd_tunnels d !! id = Some t → ∃ t', rd_tunnels d' !! id = Some t' ∧
    tn_TicketHash t' = tn_TicketHash t ∧ (tn_State t ≠ TnTicketIssued → tn_State t' ≠ TnTicketIssued).
#[local] Instance ticket_rel_preorder : PreOrder ticket_rel.
Proof.
  split.
  - intros d. split; [done|]. by eauto.
  - intros d1 d2 d3 [U1 H1] [U2 H2]. split; [by auto|]. intros id t Ht.
    destruct (H1 id t Ht) as (t2 & Ht2 & E2 & S2). destruct (H2 id t2 Ht2) as (t3 & Ht3 & E3 & S3).
    exists t3. split; [done|]. split; [congruence|by auto].
Qed.

Lemma base_step_ticket d d' : base_step d d' → ticket_rel d d'.
Proof.
  destruct 1 as [E _|id t Hn Hf E _|hit f Hf E _|??? _ _ E|?? _ E]; unfold ticket_rel, hashes_unique; rewrite E;
    try (split; [done|by eauto]).
  - split.
    + intros Hu i j a b [[<- <-]|[? Ha]]%lookup_insert_Some [[<- <-]|[? Hb]]%lookup_insert_Some Hh; [done| | |by eauto].
      * exfalso. by apply (Hf j b).
      * exfalso. by apply (Hf i a).
    + intros j u Hj. exists u. split_and!; [|done..]. rewrite lookup_insert_ne; [done|congruence].
  - split.
    + intros Hu i j a b. rewrite !lookup_update_where, !fmap_Some. intros (a0 & Ha & ->) (b0 & Hb & ->) Hh.
      apply (Hu i j a0 b0 Ha Hb). destruct (Hf a0) as [Ea _], (Hf b0) as [Eb _].
      destruct (hit i a0), (hit j b0); congruence.
    + intros j u Hj. rewrite lookup_update_where, Hj. simpl. eexists. split; [done|].
      destruct (hit j u); [apply Hf|done].
Qed.

Lemma steps_ticket d d' : steps d d' → ticket_rel d d'.
Proof. induction 1; [done|]. etrans; [by apply base_step_ticket|done]. Qed.

Lemma ConsumeTicket_always ticket now d :
  always (ConsumeTicket ticket now) (λ r d', match r with
    | Ok (id, t) => ∃ h t0, hashTicket ticket = Ok h ∧ rd_tunnels d !! id = Some t0 ∧ tn_TicketHash t0 = h ∧
        tn_State t0 = TnTicketIssued ∧ (now ≤ tn_ExpiresAt t0)%Z ∧ t = tunnel_state TnActive t0 ∧
        d' = on_tunnels (update_id id (tunnel_state TnActive)) d
    | Err _ => d' = d
    end) d.
Proof.
  unfold ConsumeTicket. apply always_mbind, always_mlift. destruct (hashTicket ticket) as [h|e] eqn:Hh; [|done].
  apply always_mtx; [done|]. apply always_mbind, always_mquery; [done|].
  destruct (select_one _ _) as [[id t]|] eqn:Es; [|by apply always_mfail].
  apply select_one_Some in Es as [Ht Hp]. apply bool_decide_eq_true in Hp.
  destruct (_ || _) eqn:Ec; [by apply always_mfail|]. apply orb_false_iff in Ec as [Ec1 Ec2].
  apply negb_false_iff, bool_decide_eq_true in Ec1. apply Z.ltb_ge in Ec2.
  apply always_mbind, always_mexec; [done|]. apply always_mret. split; [done|].
  exists h, t. by split_and!.
Qed.

(** C11: a tunnel ticket opens one tunnel: once a ticket was redeemed, no later
    redemption of it succeeds, whatever operations, restarts and failures
    come in between. *)
Theorem ticket_single_use d ticket now fs id t w d' now' fs' :
  hashes_unique d → ConsumeTicket ticket now (World d fs) = (Ok (id, t), w) →
  reachable (eq (w_db w)) rs_step d' →
  is_ok (ConsumeTicket ticket now' (World d' fs')).1 = false.
Proof.
  intros Hu Hc Hr. pose proof (ConsumeTicket_always ticket now d fs) as H1. rewrite Hc in H1.
  destruct H1 as (h & t0 & Hh & Ht0 & Hth & _ & _ & -> & Hd1).
  assert (steps d (w_db w)) as Hs1.
  { rewrite Hd1. apply tunnel_update_steps. intros t. by apply tunnel_state_keeps. }
  apply reachable_steps in Hr. apply steps_ticket in Hs1, Hr.
  destruct (proj2 Hr id (tunnel_state TnActive t0)) as (t2 & Ht2 & Eh2 & Es2).
  { rewrite Hd1. simpl. rewrite (update_id_Some _ _ _ _ Ht0). apply lookup_insert_eq. }
  pose proof (ConsumeTicket_always ticket now' d' fs') as H2.
  destruct (ConsumeTicket ticket now' (World d' fs')) as [[[id' t']|e] w']; [|done].
  destruct H2 as (h' & t3 & Hh' & Ht3 & Hth3 & Hst3 & _). exfalso.
  assert (id' = id) as ->; [|simplify_eq; by apply Es2].
  apply (proj1 Hr (proj1 Hs1 Hu) id' id t3 t2 Ht3 Ht2). simpl in Eh2. congruence.
Qed.

(** ** Privileges end *)

Definition boxed (p : PrivilegeSession) : Prop := (pv_ValidUntil p ≤ pv_CreatedAt p + maxDuration)%Z.
Definition privilege_rel (d d' : rs_db) : Prop :=
  (map_Forall (λ _, boxed) (rd_privileges d) → map_Forall (λ _, boxed) (rd_privileges d')) ∧
  ∀ id p, rd_privileges d !! id = Some p → ∃ p', rd_privileges d' !! id = Some p' ∧
    (pv_RevokedAt p ≠ None → pv_RevokedAt p' ≠ None).
#[local] Instance privilege_rel_preorder : PreOrder privilege_rel.
Proof.
  split.
  - intros d. split; [done|]. by eauto.
  - intros d1 d2 d3 [U1 H1] [U2 H2]. split; [by auto|]. intros id p Hp.
    destruct (H1 id p Hp) as (p2 & Hp2 & ?). destruct (H2 id p2 Hp2) as (p3 & Hp3 & ?). eauto 10.
Qed.

Lemma base_step_privilege d d' : base_step d d' → privilege_rel d d'.
Proof.
  destruct 1 as [_ E|???? _ E|??? _ E|id p Hn Hb E _|id now E _]; unfold privilege_rel; rewrite E;
    try (split; [done|by eauto]).
  - split; [intros Hall; by apply map_Forall_insert_2|]. intros j q Hj. exists q. split; [|done].
    rewrite lookup_insert_ne; [done|congruence].
  - assert (∀ p, boxed p → boxed (revoked_at now p)) as Hbox.
    { intros p. unfold revoked_at. by destruct (is_null _). }
    split.
    + intros Hall j q (q0 & Hq & [->|[-> ->]])%update_id_inv; [by eapply Hall|]. apply Hbox. by eapply Hall.
    + intros j q Hj. rewrite lookup_update_id, Hj. case_decide; simpl; [|by eauto].
      eexists. split; [done|]. unfold revoked_at. by destruct (pv_RevokedAt q) eqn:Er; simpl; rewrite ?Er.
Qed.
Lemma steps_privilege d d' : steps d d' → privilege_rel d d'.
Proof. induction 1; [done|]. etrans; [by apply base_step_privilege|done]. Qed.

Lemma ActiveForSession_always sid now d :
  always (ActiveForSession sid now) (λ r d', d' = d ∧ match r with
    | Ok (Some (id, p)) => rd_privileges d !! id = Some p ∧ pv_RemoteSessionID p = sid ∧
        pv_RevokedAt p = None ∧ (now < pv_ValidUntil p)%Z
    | _ => True
    end) d.
Proof.
  unfold ActiveForSession. apply always_mquery; [done|]. split; [done|].
  destruct (head _) as [[id p]|] eqn:E; [|done].
  apply order_by_head in E as [Hin _];
    [|intros a b; rewrite !Z.leb_le; lia|intros a b c; rewrite !Z.leb_le; lia].
  apply elem_of_select_where in Hin as [Hp Hg]. unfold granted in Hg.
  apply andb_true_iff in Hg as [[Hs Hr]%andb_true_iff Hv]. apply N.eqb_eq in Hs. apply Z.ltb_lt in Hv.
  destruct (pv_RevokedAt p); [done|]. by split_and!.
Qed.

(** C29: elevated rights are always time-boxed: whatever grants, revocations,
    sweeps and failures happened, the privilege a session holds at a moment
    was granted for that very session, has not been revoked, has not expired,
    and ends at most the configured maximum after it was granted. *)
Theorem privilege_time_boxed d sid now :
  reachable (eq empty_rs_db) rs_step d →
  always (ActiveForSession sid now) (λ r _, match r with
    | Ok (Some (_, p)) => pv_RemoteSessionID p = sid ∧ pv_RevokedAt p = None ∧
        (now < pv_ValidUntil p ≤ pv_CreatedAt p + maxDuration)%Z
    | _ => True
    end) d.
Proof.
  intros Hr%reachable_steps%steps_privilege. eapply always_mono; [apply ActiveForSession_always|].
  intros [[[id p]|]|e] d' [_ H]; [|done..]. destruct H as (Hp & Hs & Hrv & Hv). split_and!; [done..|].
  apply (proj1 Hr (map_Forall_empty _) id p Hp).
Qed.

(** A revoked privilege is gone for good: after a successful revocation, no
    later state and no clock reading makes it the session's privilege
    again. *)
Theorem revoked_privilege_dead d id p now fs w d' sid now' fs' :
  is_Some (rd_privileges d !! id) → RevokePrivilege id p now (World d fs) = (Ok tt, w) →
  reachable (eq (w_db w)) rs_step d' →
  match (ActiveForSession sid now' (World d' fs')).1 with
  | Ok (Some (id', _)) => id' ≠ id
  | _ => True
  end.
Proof.
  intros [q Hq] Hrev Hr%reachable_steps%steps_privilege.
  assert (∃ q', rd_privileges (w_db w) !! id = Some q' ∧ pv_RevokedAt q' ≠ None) as (q1 & Hq1 & Hn1).
  { assert (always (RevokePrivilege id p now) (λ r d1, r = Ok tt →
      rd_privileges d1 = update_id id (revoked_at now) (rd_privileges d)) d) as Ha.
    { unfold RevokePrivilege, RevokeRow, tell. by always_steps. }
    specialize (Ha fs). rewrite Hrev in Ha. rewrite (Ha eq_refl), (update_id_Some _ _ _ _ Hq), lookup_insert_eq.
    eexists. split; [done|]. unfold revoked_at. by destruct (pv_RevokedAt q) eqn:Er; simpl; rewrite ?Er. }
  destruct (proj2 Hr id q1 Hq1) as (q2 & Hq2 & Hn2).
  pose proof (ActiveForSession_always sid now' d' fs') as Ha.
  destruct (ActiveForSession sid now' (World d' fs')) as [[[[id' p']|]|e] w']; [|done..].
  destruct Ha as (_ & Hp' & _ & Hrv & _). simpl. intros ->. simplify_eq. by apply Hn2.
Qed.
End protocol.

(** ** A disconnect ends every session of the device *)

Definition settled (dev : uuid) (now : time) (r : uuid * option uuid) (d : rs_db) : rs_db :=
  note (AuditInterrupted dev r.1 "agent_disconnected")
    (match r.2 with
     | Some m => on_maintenance (update_id m
                   (ended "interrupted" "Agent disconnected while session was active" now))
     | None => λ d, d
     end (on_broker (Unregister r.1) d)).

Lemma settle_run dev now r d :
  settle_interrupted dev now r (World d []) = (Ok tt, World (settled dev now r d) []).
Proof. unfold settle_interrupted, MaintClose, tell, settled. by destruct r as [id [m|]]. Qed.

Lemma each_settle_run dev now l d :
  each (settle_interrupted dev now) l (World d []) = (Ok tt, World (foldl (λ d r, settled dev now r d) d l) []).
Proof.
  revert d. induction l as [|r l IH]; intros d; simpl; [done|].
  unfold mbind, M_bind. by rewrite settle_run, IH.
Qed.

(** What the loop leaves: sessions untouched, the listed streams and
    maintenance records ended. *)
Definition settles (now : time) (l : list (uuid * option uuid)) (d d' : rs_db) : Prop :=
  rd_sessions d' = rd_sessions d ∧
  (∀ id, (id ∈ l.*1 ∨ br_streams (rd_broker d) !! id = None) → br_streams (rd_broker d') !! id = None) ∧
  (∀ a x, br_objects (rd_broker d) !! a = Some x → ∃ x', br_objects (rd_broker d') !! a = Some x' ∧
     st_buffer x' = st_buffer x ∧
     (st_closed x = true ∨ (∃ id, id ∈ l.*1 ∧ br_streams (rd_broker d) !! id = Some a) → st_closed x' = true)) ∧
  (∀ m x, rd_maintenance d !! m = Some x → ∃ x', rd_maintenance d' !! m = Some x' ∧
     (Some m ∈ l.*2 ∨ mn_EndedAt x = Some now → mn_EndedAt x' = Some now)).

Lemma Unregister_streams id b : br_streams (Unregister id b) = delete id (br_streams b).
Proof.
  unfold Unregister, close. destruct (br_streams b !! id) as [a|] eqn:E; simpl.
  - destruct (br_objects b !! a) as [s|]; simpl; [|done]. by destruct (st_closed s).
  - by rewrite delete_id.
Qed.

Lemma Unregister_objects id b a x :
  br_objects b !! a = Some x → ∃ x', br_objects (Unregister id b) !! a = Some x' ∧ st_buffer x' = st_buffer x ∧
    (st_closed x = true ∨ br_streams b !! id = Some a → st_closed x' = true).
Proof.
  intros Hx. unfold Unregister, close. destruct (br_streams b !! id) as [a'|] eqn:E; [|exists x; split_and!; try done; by intros [?|?]].
  cbn [br_objects]. destruct (br_objects b !! a') as [y|] eqn:Ey; [|exists x; split_and!; try done; intros [?|[= ->]]; [done|congruence]].
  destruct (st_closed y) eqn:Ec.
  - exists x. split_and!; try done. intros [?|[= ->]]; [done|congruence].
  - destruct (decide (a' = a)) as [->|Hne]; simpl.
    + eexists. rewrite lookup_insert_eq. split_and!; try done. by simplify_eq.
    + exists x. rewrite lookup_insert_ne by done. split_and!; try done. intros [?|[= ?]]; [done|congruence].
Qed.

Lemma settle_settles dev now l d : settles now l d (foldl (λ d r, settled dev now r d) d l).
Proof.
  revert d. induction l as [|[id m] l IH]; intros d; simpl.
  { split_and!; [done| | |].
    - intros id [Hin|Hn]; [by apply elem_of_nil in Hin|done].
    - intros a x Hx. exists x. split_and!; try done. intros [?|(id & Hin & _)]; [done|by apply elem_of_nil in Hin].
    - intros m x Hx. exists x. split; [done|]. intros [Hin|He]; [by apply elem_of_nil in Hin|done]. }
  destruct (IH (settled dev now (id, m) d)) as (Hs & Hb & Ho & Hm).
  assert (rd_broker (settled dev now (id, m) d) = Unregister id (rd_broker d)) as E by by destruct m.
  rewrite E in Hb, Ho. rewrite Unregister_streams in Hb, Ho. split_and!.
  - rewrite Hs. by destruct m.
  - intros j Hj. apply Hb. destruct Hj as [Hj|Hj].
    + apply elem_of_cons in Hj as [->|Hj]; [right; apply lookup_delete_eq|by left].
    + right. by apply lookup_delete_None; right.
  - intros a x Hx. destruct (Unregister_objects id _ a x Hx) as (x1 & Hx1 & Hbuf1 & Hc1).
    destruct (Ho a x1 Hx1) as (x2 & Hx2 & Hbuf2 & Hc2). exists x2. split_and!; [done|congruence|].
    intros [Hc|(j & Hj & Hja)]; apply Hc2; [left; by auto|]. apply elem_of_cons in Hj as [->|Hj]; [left; by auto|].
    destruct (decide (j = id)) as [->|Hne]; [left; by auto|]. right. exists j. by rewrite lookup_delete_ne.
  - intros k x Hx.
    assert (∃ x1, rd_maintenance (settled dev now (id, m) d) !! k = Some x1 ∧
      (m = Some k ∨ mn_EndedAt x = Some now → mn_EndedAt x1 = Some now)) as (x1 & Hx1 & He1).
    { destruct m as [m|]; simpl; [|exists x; split; [done|]; by intros [?|?]].
      rewrite lookup_update_id, Hx. case_decide; simpl; [by eexists|].
      exists x. split; [done|]. intros [?|?]; [congruence|done]. }
    destruct (Hm k x1 Hx1) as (x2 & Hx2 & He2). exists x2. split; [done|]. intros Hor. apply He2.
    destruct Hor as [Hk|He]; [|right; by auto]. apply elem_of_cons in Hk as [Hk|Hk]; [|by left].
    right. apply He1. left. by rewrite Hk.
Qed.

Lemma settled_calls dev now l d :
  rd_calls (foldl (λ d r, settled dev now r d) d l) =
  rd_calls d ++ map (λ r, AuditInterrupted dev r.1 "agent_disconnected") l.
Proof.
  revert d. induction l as [|[id m] l IH]; intros d; cbn [foldl map]; [by rewrite app_nil_r|].
  rewrite IH. destruct m; cbn [settled note rd_calls on_maintenance on_broker snd fst]; by rewrite <-app_assoc.
Qed.

(** The sessions a lost device still had. *)
Definition lost_sessions (dev : uuid) (d : rs_db) : list uuid :=
  (select_where (λ _ s, is_live (rs_State s) && (rs_DeviceID s =? dev)%N) (rd_sessions d)).*1.
Lemma elem_of_lost_sessions dev d id :
  id ∈ lost_sessions dev d ↔ ∃ s, rd_sessions d !! id = Some s ∧ is_live (rs_State s) = true ∧ rs_DeviceID s = dev.
Proof.
  unfold lost_sessions. rewrite list_elem_of_fmap. split.
  - intros ([k s] & -> & [Hk Hs]%elem_of_select_where). exists s.
    apply andb_true_iff in Hs as [? ?%N.eqb_eq]. done.
  - intros (s & Hk & Hl & <-). exists (id, s). split; [done|]. apply elem_of_select_where. by rewrite Hl, N.eqb_refl.
Qed.

(** A stream taken out of the relay: it is not found any more, and its channel
    is closed, so that the browser's loop ends after what still waits in it. *)
Definition hung_up (id : uuid) (b b' : Broker) : Prop :=
  Get id b' = None ∧
  ∀ a x, br_streams b !! id = Some a → br_objects b !! a = Some x →
    ∃ x', br_objects b' !! a = Some x' ∧ st_closed x' = true ∧ st_buffer x' = st_buffer x.

(** Losing the agent ends its sessions: the disconnect handler always
    completes; every session of the device that was not over becomes
    INTERRUPTED, its stream is closed and its maintenance record ended,
    and no session of another device changes. *)
Theorem disconnect_interrupts_sessions dev now d :
  ideal (on_device_disconnect dev now) (λ r d', r = Ok tt ∧
    rd_calls d' = rd_calls d ++ map (λ id, AuditInterrupted dev id "agent_disconnected") (lost_sessions dev d) ∧
    ∀ id s, rd_sessions d !! id = Some s →
      if is_live (rs_State s) && (rs_DeviceID s =? dev)%N then
        rd_sessions d' !! id = Some (with_close StateInterrupted "agent_disconnected" now s) ∧
        hung_up id (rd_broker d) (rd_broker d') ∧
        (∀ m x, rs_MaintenanceSessionID s = Some m → rd_maintenance d !! m = Some x →
           ∃ x', rd_maintenance d' !! m = Some x' ∧ mn_EndedAt x' = Some now)
      else rd_sessions d' !! id = Some s) d.
Proof.
  unfold on_device_disconnect, InterruptAllForDevice, interrupt_where, ideal.
  unfold mbind, M_bind, mtry, mstmt, pop_fault. simpl.
  set (hit := λ (_ : uuid) s, is_live (rs_State s) && (rs_DeviceID s =? dev)%N).
  set (l := map _ (select_where hit (rd_sessions d))). set (d1 := on_sessions _ d).
  rewrite each_settle_run. eexists _, _. split; [reflexivity|]. split; [done|]. split.
  { rewrite settled_calls. f_equal. subst l. unfold lost_sessions. fold hit. rewrite !map_map. by apply map_ext. }
  destruct (settle_settles dev now l d1) as (Hs & Hb & Ho & Hm). intros id s Hid. cbn [w_db].
  rewrite Hs. subst d1. simpl. rewrite lookup_update_where, Hid. simpl. change (hit id s) with (is_live (rs_State s) && (rs_DeviceID s =? dev)%N).
  destruct (is_live (rs_State s) && (rs_DeviceID s =? dev)%N) eqn:E; [|done].
  assert ((id, rs_MaintenanceSessionID s) ∈ l) as Hin.
  { subst l. apply list_elem_of_fmap. exists (id, s). split; [done|]. by apply elem_of_select_where. }
  assert (id ∈ l.*1) as Hin1 by (apply list_elem_of_fmap; by exists (id, rs_MaintenanceSessionID s)).
  split_and!.
  - done.
  - split; [apply Hb; by left|]. intros a x Ha Hx. destruct (Ho a x Hx) as (x' & Hx' & Hbuf & Hc).
    exists x'. split_and!; [done| |done]. apply Hc. right. by exists id.
  - intros m x Hmm Hx. destruct (Hm m x Hx) as (x' & Hx' & He). exists x'. split; [done|].
    apply He. left. apply list_elem_of_fmap. exists (id, rs_MaintenanceSessionID s).
    split; [simpl; congruence|done].
Qed.

(** ** Opening a session *)

(** An agent that gives an answer, while the database is left alone. *)
Definition answers (r : res unit (option SessionOpenResultPayload)) : Ask := λ _, mlift r.

(** What the agent says decides: opening a terminal always leaves exactly
    one new session, ACTIVE if the agent accepted, and otherwise FAILED and
    closed with the reason, and the caller gets the session or the matching
    error with the agent's own message. *)
Theorem open_terminal_outcome r sid mid dev usr cust ttl now later d :
  rd_sessions d !! sid = None → rd_maintenance d !! mid = None →
  ∃ d' s, (run (OpenTerminal (answers r) sid mid dev usr cust ttl now later) d) =
    (match r with
     | Err _ => Err RsDeviceOffline
     | Ok a => if accepted a then Ok (sid, s) else Err (RsAgentRejected (rejection a))
     end, d') ∧
    rs_DeviceID s = dev ∧ rs_UserID s = usr ∧ rs_ExpiresAt s = (now + ttl)%Z ∧
    rs_MaintenanceSessionID s = Some mid ∧ rs_State s = StateActive ∧
    rd_sessions d' = <[sid := match r with
      | Err _ => with_close StateFailed "agent_unreachable" later s
      | Ok a => if accepted a then s else with_close StateFailed "agent_rejected" later s
      end]> (rd_sessions d).
Proof.
  intros Hs Hm. unfold OpenTerminal, CreateSession, MaintOpen, insert_row, SetMaintenanceSession,
    MaintAddEvent, open_on_agent, CloseRow, SetState, answers.
  set (s := mkRemoteSession dev usr KindTerminal StateActive now None (now + ttl) None (Some mid)).
  run_unfold. simpl. rewrite Hs. simpl. rewrite Hm. simpl. rewrite lookup_insert_eq. simpl.
  destruct r as [a|e]; simpl; [destruct (accepted a); simpl|]; eexists _, s; (split; [reflexivity|]);
    split_and!; try done; simpl; unfold update_id; rewrite !alter_insert_eq; done.
Qed.

(** ** Where the sessions' records go wrong *)

(** An agent whose connection ends just after it accepted: the disconnect
    handler runs before the waiting request goes on. *)
Definition accepts_then_disconnects (dev : uuid) (now : time) : Ask := λ id,
  mignore (E := rs_error) (on_device_disconnect dev now);;
  mret (Some (mkOpenResult "" "success" "ok" "")).

(** An INTERRUPTED session can silently become ACTIVE again: when the agent
    disconnects between its acceptance and the server's last statement, the
    session that the disconnect handler has just closed is set to ACTIVE, and
    the caller is told it is open. *)
Theorem interrupted_session_revived :
  ∃ d', run (OpenTerminal (accepts_then_disconnects 7 5) 1 2 7 3 None (30 * Minute) 0 6) empty_rs_db =
      (Ok (1%N, mkRemoteSession 7 3 KindTerminal StateActive 0 None (30 * Minute) None (Some 2%N)), d') ∧
    rd_sessions d' !! 1%N = Some (mkRemoteSession 7 3 KindTerminal StateActive 0 (Some 5%Z) (30 * Minute)
      (Some "agent_disconnected"%string) (Some 2%N)).
Proof. eexists. split; vm_compute; reflexivity. Qed.

(** A terminal that never opened leaves a maintenance record that never
    ends: when the agent does not accept, the session fails but its
    maintenance session stays open. *)
Theorem failed_open_leaves_maintenance_open r sid mid dev usr cust ttl now later d :
  rd_sessions d !! sid = None → rd_maintenance d !! mid = None →
  match r with Ok a => accepted a = false | Err _ => True end →
  rd_maintenance (run (OpenTerminal (answers r) sid mid dev usr cust ttl now later) d).2 !! mid =
    Some (mkMaintenance dev cust usr now None "" "").
Proof.
  intros Hs Hm Hr. unfold OpenTerminal, CreateSession, MaintOpen, insert_row, SetMaintenanceSession,
    MaintAddEvent, open_on_agent, CloseRow, SetState, answers.
  run_unfold. simpl. rewrite Hs. simpl. rewrite Hm. simpl. rewrite lookup_insert_eq. simpl.
  destruct r as [a|e]; simpl; [rewrite Hr; simpl|]; apply lookup_insert_eq.
Qed.

(** Closing a session leaves its elevated rights in force: [Close] revokes
    nothing, so until it expires the privilege of a closed session is still
    its active one. *)
Theorem close_keeps_privilege id s reason now d sid t :
  (run (ActiveForSession sid t) (run (CloseSession id s reason now) d).2).1 =
  (run (ActiveForSession sid t) d).1.
Proof.
  unfold CloseSession, ActiveForSession, MaintAddEvent, MaintClose, CloseRow, tell.
  destruct (rs_MaintenanceSessionID s) as [m|]; run_unfold; simpl; [|done].
  by destruct (is_null _).
Qed.

(** ** Concrete sessions *)

Definition demo_ticket_raw : bytes := str_bytes "0123456789abcdef0123456789abcdef".
Definition demo_ticket : string := ticket_prefix +:+ raw_encode url_alphabet demo_ticket_raw.
Definition demo_accepts : Ask := answers (Ok (Some (mkOpenResult "" "success" "ok" ""))).
Definition demo_tunnel : rs_db :=
  (run (OpenTunnel demo_accepts 1 4 7 3 TargetSSHLocal (30 * Minute) Minute (Some demo_ticket_raw) 0 0)
     empty_rs_db).2.
Definition demo_consumed : res rs_error (uuid * TunnelSession) * world rs_db :=
  ConsumeTicket demo_ticket 5 (World demo_tunnel []).

Lemma ticket_single_use_witness :
  is_ok demo_consumed.1 = true ∧
  is_ok (ConsumeTicket demo_ticket 6 (World (w_db demo_consumed.2) [])).1 = false.
Proof.
  assert (is_ok demo_consumed.1 = true) as Hok by (vm_compute; reflexivity).
  split; [exact Hok|]. destruct demo_consumed as [[[id t]|e] w] eqn:E; [|done].
  refine (ticket_single_use Minute demo_tunnel demo_ticket 5 [] id t w (w_db w) 6 [] _ E (reach_init _ _ _ eq_refl)).
  assert (rd_tunnels demo_tunnel = {[4%N := mkTunnel 1 7 3 TargetSSHLocal TnTicketIssued
    (Sum256 demo_ticket_raw) Minute 0 0]}) as Ht by (vm_compute; reflexivity).
  intros i j a b. rewrite Ht, !lookup_singleton_Some. intros [<- _] [<- _] _. reflexivity.
Defined.

Definition demo_opened : rs_db :=
  (run (OpenTerminal demo_accepts 1 2 7 3 None (30 * Minute) 0 0) empty_rs_db).2.
Definition demo_session : RemoteSession :=
  mkRemoteSession 7 3 KindTerminal StateActive 0 None (30 * Minute) None (Some 2%N).
Definition demo_granted : rs_db :=
  (run (GrantPrivilege 9 1 demo_session (60 * Minute) (15 * Minute) "admin_requested" 0) demo_opened).2.
Lemma demo_granted_reachable : reachable (eq empty_rs_db) (rs_step (15 * Minute)) demo_granted.
Proof.
  eapply reach_step; [eapply reach_step; [by apply reach_init|]|].
  - apply (rs_open_terminal _ _ demo_opened demo_accepts 1 2 7 3 None (30 * Minute) 0 0);
      [|exact (effect_run _ empty_rs_db)].
    intros id. apply preserves_mret, steps_preorder.
  - exact (rs_grant _ _ demo_granted 9 1 demo_session (60 * Minute) "admin_requested" 0
      (effect_run _ demo_opened)).
Qed.

Lemma privilege_time_boxed_witness :
  match (run (ActiveForSession 1 Minute) demo_granted).1 with
  | Ok (Some (_, p)) => pv_ValidUntil p = (15 * Minute)%Z
  | _ => False
  end ∧
  always (ActiveForSession 1 Minute) (λ r _, match r with
    | Ok (Some (_, p)) => pv_RemoteSessionID p = 1%N ∧ pv_RevokedAt p = None ∧
        (Minute < pv_ValidUntil p ≤ pv_CreatedAt p + 15 * Minute)%Z
    | _ => True
    end) demo_granted.
Proof.
  split; [vm_compute; reflexivity|].
  exact (privilege_time_boxed (15 * Minute) demo_granted 1 Minute demo_granted_reachable).
Defined.

Definition demo_privilege : PrivilegeSession :=
  mkPrivilege 1 3 7 0 (15 * Minute) "admin_requested" None.
Lemma revoked_privilege_dead_witness :
  let w := (RevokePrivilege 9 demo_privilege 5 (World demo_granted [])).2 in
  match (ActiveForSession 1 Minute (World (w_db w) [])).1 with
  | Ok (Some (id', _)) => id' ≠ 9%N
  | _ => True
  end.
Proof.
  intros w. apply (revoked_privilege_dead (15 * Minute) demo_granted 9 demo_privilege 5 [] w).
  - eexists. vm_compute. reflexivity.
  - vm_compute. reflexivity.
  - by apply reach_init.
Defined.

Lemma open_terminal_outcome_witness :
  ∃ d' s, run (OpenTerminal (answers (Ok (Some (mkOpenResult "" "error" "x" "busy")))) 1 2 7 3 None Minute 0 1)
    empty_rs_db = (Err (RsAgentRejected "busy"), d') ∧
    rd_sessions d' = <[1%N := with_close StateFailed "agent_rejected" 1 s]> ∅.
Proof.
  destruct (open_terminal_outcome (Ok (Some (mkOpenResult "" "error" "x" "busy"))) 1 2 7 3 None Minute 0 1
    empty_rs_db ltac:(reflexivity) ltac:(reflexivity)) as (d' & s & Hrun & _ & _ & _ & _ & _ & Hd).
  exists d', s. split; [exact Hrun|exact Hd].
Defined.

Lemma failed_open_leaves_maintenance_open_witness :
  rd_maintenance (run (OpenTerminal (answers (Err tt)) 1 2 7 3 None Minute 0 1) empty_rs_db).2 !! 2%N =
    Some (mkMaintenance 7 None 3 0 None "" "").
Proof.
  exact (failed_open_leaves_maintenance_open (Err tt) 1 2 7 3 None Minute 0 1 empty_rs_db
    ltac:(reflexivity) ltac:(reflexivity) I).
Defined.
