(* ===== verification/AgentUpdate.v ===== *)
(** Signed self-updates of the agent: verification, the staged swap of the
    binary, and the marker that turns a crash loop into a rollback
    ([internal/agentupdate], [internal/agentcore/update.go] and the start-up
    code of [cmd/wr-agent/main.go]).

    The file system is a map from paths to contents.  A round trip to it may
    fail, and a failed write leaves [torn data] of the data behind. *)
From S2P Require Import Prelude Protocol Messages Codec Base64 Sha256.

(** ** The file system *)

Abbreviation fsys := (gmap string bytes).

Inductive os_error : Type := ErrNotExist | ErrIO.
#[export] Instance os_error_dec : EqDecision os_error.
Proof. solve_decision. Defined.

(** [os.ReadFile], [os.Stat], [os.Remove] and [os.Rename], which replaces an
    existing destination. *)
Definition ReadFile (p : string) : M fsys os_error bytes :=
  mstmt ErrIO (λ fs, (match fs !! p with Some b => Ok b | None => Err ErrNotExist end, fs)).
Definition Stat (p : string) : M fsys os_error unit :=
  mstmt ErrIO (λ fs, (match fs !! p with Some _ => Ok tt | None => Err ErrNotExist end, fs)).
Definition Remove (p : string) : M fsys os_error unit :=
  mstmt ErrIO (λ fs, match fs !! p with
                     | Some _ => (Ok tt, delete p fs)
                     | None => (Err ErrNotExist, fs)
                     end).
Definition Rename (a b : string) : M fsys os_error unit :=
  mstmt ErrIO (λ fs, match fs !! a with
                     | Some d => (Ok tt, <[b := d]> (delete a fs))
                     | None => (Err ErrNotExist, fs)
                     end).

(** [os.WriteFile] opens with truncation, then writes. *)
Definition WriteFile (torn : bytes → bytes) (p : string) (data : bytes) : M fsys os_error unit :=
  mexec ErrIO (λ fs, <[p := []]> fs);;
  r ← mtry (mexec ErrIO (λ fs, <[p := data]> fs));
  match r with
  | Ok _ => mret tt
  | Err e => mstate (λ fs, (tt, <[p := torn data]> fs));; mfail e
  end.

(** One file operation, by its outcomes. *)
Section operations.
Context (fs : fsys) (p q : string).

Lemma always_ReadFile (Q : res os_error bytes → fsys → Prop) :
  Q (Err ErrIO) fs → (fs !! p = None → Q (Err ErrNotExist) fs) →
  (∀ d, fs !! p = Some d → Q (Ok d) fs) → always (ReadFile p) Q fs.
Proof. intros. apply always_mstmt; [done|]. simpl. destruct (fs !! p); auto. Qed.
Lemma always_Stat (Q : res os_error unit → fsys → Prop) :
  Q (Err ErrIO) fs → (fs !! p = None → Q (Err ErrNotExist) fs) →
  (∀ d, fs !! p = Some d → Q (Ok tt) fs) → always (Stat p) Q fs.
Proof. intros. apply always_mstmt; [done|]. simpl. destruct (fs !! p); eauto. Qed.
Lemma always_Remove (Q : res os_error unit → fsys → Prop) :
  Q (Err ErrIO) fs → (fs !! p = None → Q (Err ErrNotExist) fs) →
  (∀ d, fs !! p = Some d → Q (Ok tt) (delete p fs)) → always (Remove p) Q fs.
Proof. intros. apply always_mstmt; [done|]. simpl. destruct (fs !! p); simpl; eauto. Qed.
Lemma always_Rename (Q : res os_error unit → fsys → Prop) :
  Q (Err ErrIO) fs → (fs !! p = None → Q (Err ErrNotExist) fs) →
  (∀ d, fs !! p = Some d → Q (Ok tt) (<[q := d]> (delete p fs))) → always (Rename p q) Q fs.
Proof. intros. apply always_mstmt; [done|]. simpl. destruct (fs !! p); simpl; eauto. Qed.
Lemma always_WriteFile torn data (Q : res os_error unit → fsys → Prop) :
  Q (Err ErrIO) fs → Q (Err ErrIO) (<[p := torn data]> fs) → Q (Ok tt) (<[p := data]> fs) →
  always (WriteFile torn p data) Q fs.
Proof. intros. unfold WriteFile. always_steps; rewrite ?insert_insert_eq; auto. Qed.
End operations.

Ltac fs_step :=
  lazymatch goal with
  | |- always (ReadFile _) _ _ => apply always_ReadFile; [|intros ?|intros ? ?]
  | |- always (Stat _) _ _ => apply always_Stat; [|intros ?|intros ? ?]
  | |- always (Remove _) _ _ => apply always_Remove; [|intros ?|intros ? ?]
  | |- always (Rename _ _) _ _ => apply always_Rename; [|intros ?|intros ? ?]
  | |- always (WriteFile _ _ _) _ _ => apply always_WriteFile
  | _ => always_step
  end; simpl.
Ltac fs_steps := repeat fs_step.

(** ** Verification *)

Inductive verify_error : Type := ErrHashMismatch | ErrSignatureInvalid | ErrNoTrustedKey.

Section verify.
(** [ed25519.Verify]: key, message, signature. *)
Context (ed25519_verify : bytes → bytes → bytes → bool).

(* internal/agentupdate/verify.go:29-49 VerifyArtifact *)
Definition VerifyArtifact (pubKey data : bytes) (expectedSHA256Hex sigB64 : string)
    : res verify_error unit :=
  if negb (length pubKey =? 32) then Err ErrNoTrustedKey else
  let sum := Sum256 data in
  match hex_decode expectedSHA256Hex with
  | None => Err ErrHashMismatch
  | Some expected =>
      if negb (length expected =? length sum) then Err ErrHashMismatch else
      if negb (bool_decide (sum = expected)) then Err ErrHashMismatch else
      match std_decode sigB64 with
      | None => Err ErrSignatureInvalid
      | Some sig => if negb (ed25519_verify pubKey sum sig) then Err ErrSignatureInvalid else Ok tt
      end
  end.

(* internal/agentupdate/verify.go:56-67 VerifyHashAndSignature *)
Definition VerifyHashAndSignature (pubKey sha256Sum sig : bytes) : res verify_error unit :=
  if negb (length pubKey =? 32) then Err ErrNoTrustedKey else
  if negb (length sha256Sum =? 32) then Err ErrHashMismatch else
  if negb (ed25519_verify pubKey sha256Sum sig) then Err ErrSignatureInvalid else Ok tt.

(** What an accepted artifact is: signed, by digest, with the key. *)
Definition signed_by (pubKey data : bytes) : Prop :=
  length pubKey = 32 ∧ ∃ sig, ed25519_verify pubKey (Sum256 data) sig = true.

Lemma VerifyArtifact_ok pubKey data hex sigB64 :
  VerifyArtifact pubKey data hex sigB64 = Ok tt ↔
  length pubKey = 32 ∧ hex_decode hex = Some (Sum256 data) ∧
  ∃ sig, std_decode sigB64 = Some sig ∧ ed25519_verify pubKey (Sum256 data) sig = true.
Proof.
  unfold VerifyArtifact. split.
  - intros H. repeat case_match; reflect_bools; simplify_eq/=; try done.
    apply Nat.eqb_eq in H0. eauto 10.
  - intros (-> & -> & sig & -> & ->). simpl. by rewrite Nat.eqb_refl, bool_decide_eq_true_2.
Qed.

Lemma VerifyArtifact_signed pubKey data hex sigB64 :
  VerifyArtifact pubKey data hex sigB64 = Ok tt → signed_by pubKey data.
Proof. rewrite VerifyArtifact_ok. intros (Hk & _ & sig & _ & Hv). split; eauto. Qed.

(** The server's check of a submission and the agent's check of the artifact
    agree on the artifact with that digest. *)
Lemma verify_agree pubKey data sig :
  VerifyHashAndSignature pubKey (Sum256 data) sig = Ok tt ↔
  VerifyArtifact pubKey data (hex_encode (Sum256 data)) (std_encode sig) = Ok tt.
Proof.
  rewrite VerifyArtifact_ok, hex_decode_encode, std_decode_encode.
  unfold VerifyHashAndSignature. rewrite Sum256_length. simpl. split.
  - intros H. repeat case_match; reflect_bools; simplify_eq/=; try done.
    apply Nat.eqb_eq in H0. eauto 10.
  - intros (-> & _ & sig' & [= <-] & ->). done.
Qed.
End verify.

(** ** The update marker *)

(* internal/agentupdate/marker.go:12-16 Marker *)
Record Marker : Type := mkMarker {
  mk_Version : string;
  mk_BackupPath : string;
  mk_BootAttempts : Z }.

(* internal/agentupdate/marker.go:22-22 MaxBootAttempts *)
Definition MaxBootAttempts : Z := 3.

Inductive update_error : Type :=
| UpNoKey
| UpBadKey
| UpDownload
| UpStatus
| UpRead
| UpTooLarge
| UpVerify (e : verify_error)
| UpNoPath
| UpStage
| UpBackup
| UpSwap
| UpNoBackup
| UpRestore
| UpMarker.

(** What an HTTP GET returns: the status and a body, which may break off. *)
Record http_response : Type := mkResponse {
  rs_Status : Z;
  rs_Body : bytes;
  rs_Broken : bool }.

(** [io.ReadAll(io.LimitReader(body, n))]: a break beyond the limit is not
    seen. *)
Fixpoint read_limited (n : N) (body : bytes) (broken : bool) : option bytes :=
  if (n =? 0)%N then Some [] else
  match body with
  | [] => if broken then None else Some []
  | b :: body' => cons b <$> read_limited (N.pred n) body' broken
  end.

(* internal/agentcore/update.go:20-20 maxArtifactBytes *)
Definition maxArtifactBytes : N := N.shiftl 256 20.

(** What a process start decides. *)
Inductive boot_outcome : Type := Continues | Exits.

Section update.
Context `{!Json Marker}.
Context (ed25519_verify : bytes → bytes → bytes → bool).
(** What a failed write leaves of its data. *)
Context (torn : bytes → bytes).
(** [os.Executable], [os.PathSeparator] and the HTTP client. *)
Context (os_executable : option string) (PathSeparator : string).
Context (http_get : string → option http_response).
(** The key embedded at build time. *)
Context (ReleasePublicKeyHex : string).

(* internal/agentupdate/marker.go:24-37 LoadMarker *)
Definition LoadMarker (path : string) : M fsys update_error (option Marker) :=
  r ← mtry (ReadFile path);
  match r with
  | Err ErrNotExist => mret None
  | Err ErrIO => mfail UpMarker
  | Ok data =>
      match json_unmarshal data with
      | None => mfail UpMarker
      | Some m => mret (Some m)
      end
  end.

(* internal/agentupdate/marker.go:39-45 SaveMarker *)
Definition SaveMarker (path : string) (m : Marker) : M fsys update_error unit :=
  match json_marshal m with
  | None => mfail UpMarker
  | Some data => mwrap (λ _, UpMarker) (WriteFile torn path data)
  end.

(* internal/agentupdate/marker.go:47-53 DeleteMarker *)
Definition DeleteMarker (path : string) : M fsys update_error unit :=
  r ← mtry (Remove path);
  match r with
  | Ok _ | Err ErrNotExist => mret tt
  | Err ErrIO => mfail UpMarker
  end.

(** ** The swap *)

Definition stagedPath (exe : string) : string := (exe +:+ ".new")%string.
Definition backupPath (exe : string) : string := (exe +:+ ".old")%string.

(* internal/agentupdate/stage.go:16-32 StageAndSwap *)
Definition StageAndSwap (currentPath : string) (newData : bytes) : M fsys update_error string :=
  let staged := stagedPath currentPath in
  mwrap (λ _, UpStage) (WriteFile torn staged newData);;
  let backup := backupPath currentPath in
  mignore (Remove backup);;
  r ← mtry (Rename currentPath backup);
  match r with
  | Err _ => mignore (Remove staged);; mfail UpBackup
  | Ok _ =>
      r ← mtry (Rename staged currentPath);
      match r with
      | Err _ => mignore (Rename backup currentPath);; mfail UpSwap
      | Ok _ => mret backup
      end
  end.

(* internal/agentupdate/stage.go:36-45 RestoreBackup *)
Definition RestoreBackup (currentPath backup : string) : M fsys update_error unit :=
  mwrap (λ _, UpNoBackup) (Stat backup);;
  mignore (Remove currentPath);;
  mwrap (λ _, UpRestore) (Rename backup currentPath).

(** ** The update command *)

(* internal/agentcore/update.go:35-44 releasePublicKey *)
Definition releasePublicKey : res update_error bytes :=
  if String.eqb ReleasePublicKeyHex "" then Err UpNoKey else
  match hex_decode ReleasePublicKeyHex with
  | None => Err UpBadKey
  | Some raw => if negb (length raw =? 32) then Err UpBadKey else Ok raw
  end.

(** Up to the verified bytes: nothing is written before. *)
(* internal/agentcore/update.go:52-79 beginUpdate *)
Definition fetchArtifact (p : AgentUpdateParams) : res update_error bytes :=
  match releasePublicKey with
  | Err e => Err e
  | Ok pubKey =>
      match http_get (up_ArtifactURL p) with
      | None => Err UpDownload
      | Some resp =>
          if negb (rs_Status resp =? 200)%Z then Err UpStatus else
          match read_limited (maxArtifactBytes + 1) (rs_Body resp) (rs_Broken resp) with
          | None => Err UpRead
          | Some data =>
              if (maxArtifactBytes <? N.of_nat (length data))%N then Err UpTooLarge else
              match VerifyArtifact ed25519_verify pubKey data (up_ArtifactSHA256Hex p)
                      (up_SignatureBase64 p) with
              | Err e => Err (UpVerify e)
              | Ok _ => Ok data
              end
          end
      end
  end.

(** [filepath.Join] of the data directory, a clean path, and the name. *)
Definition markerPath (dataDir : string) : string :=
  (dataDir +:+ PathSeparator +:+ "update.marker")%string.

(* internal/agentcore/update.go:52-99 beginUpdate *)
Definition beginUpdate (dataDir : string) (p : AgentUpdateParams) : M fsys update_error unit :=
  data ← mlift (fetchArtifact p);
  match os_executable with
  | None => mfail UpNoPath
  | Some exePath =>
      backup ← StageAndSwap exePath data;
      if String.eqb dataDir "" then mret tt
      else mignore (SaveMarker (markerPath dataDir) (mkMarker (up_Version p) backup 0))
  end.

(** ** Process start *)

(* cmd/wr-agent/main.go:207-230 reconcilePendingUpdate *)
Definition reconcilePendingUpdate (dataDir : string) : M fsys update_error boot_outcome :=
  if String.eqb dataDir "" then mret Continues else
  let path := markerPath dataDir in
  r ← LoadMarker path;
  match r with
  | None => mret Continues
  | Some m =>
      let m := mkMarker (mk_Version m) (mk_BackupPath m) (wrap64 (mk_BootAttempts m + 1)) in
      if (MaxBootAttempts <? mk_BootAttempts m)%Z then
        match os_executable with
        | None => mfail UpNoPath
        | Some exePath =>
            RestoreBackup exePath (mk_BackupPath m);;
            mignore (DeleteMarker path);;
            mret Exits
        end
      else SaveMarker path m;; mret Continues
  end.

(* cmd/wr-agent/main.go:236-250 commitPendingUpdate *)
Definition commitPendingUpdate (dataDir : string) : M fsys update_error unit :=
  if String.eqb dataDir "" then mret tt else
  let path := markerPath dataDir in
  r ← mtry (LoadMarker path);
  match r with
  | Ok (Some m) =>
      mignore (E := os_error) (Remove (mk_BackupPath m));;
      mignore (DeleteMarker path)
  | _ => mret tt
  end.

(** ** Paths and file contents *)

Lemma append_ne (p s : string) : s ≠ "" → (p +:+ s)%string ≠ p.
Proof. intros Hs. induction p; simpl; [done|]. intros [= E]. auto. Qed.
Lemma append_inj (p s t : string) : (p +:+ s)%string = (p +:+ t)%string → s = t.
Proof. induction p; simpl; [done|]. intros [= E]. auto. Qed.
Lemma staged_ne exe : stagedPath exe ≠ exe.
Proof. by apply append_ne. Qed.
Lemma backup_ne exe : backupPath exe ≠ exe.
Proof. by apply append_ne. Qed.
Lemma staged_backup_ne exe : stagedPath exe ≠ backupPath exe.
Proof. by intros E%append_inj. Qed.
Create HintDb paths.
#[local] Hint Resolve staged_ne backup_ne staged_backup_ne : paths.

Ltac fs_simpl :=
  repeat first
    [ rewrite lookup_insert_eq in * | rewrite lookup_delete_eq in *
    | rewrite lookup_insert_ne in * by eauto 3 using not_eq_sym with paths
    | rewrite lookup_delete_ne in * by eauto 3 using not_eq_sym with paths
    | progress simplify_eq/= ].

(** The files an update works on. *)
Definition update_files (exe : string) : list string := [exe; stagedPath exe; backupPath exe].
Definition elsewhere (exe : string) (fs fs' : fsys) : Prop :=
  ∀ p, p ∉ update_files exe → fs' !! p = fs !! p.

Lemma not_update_file exe p : p ∉ update_files exe →
  exe ≠ p ∧ stagedPath exe ≠ p ∧ backupPath exe ≠ p.
Proof. unfold update_files. rewrite !not_elem_of_cons. naive_solver. Qed.

Ltac elsewhere_tac :=
  intros ? (? & ? & ?)%not_update_file; repeat (rewrite lookup_insert_ne || rewrite lookup_delete_ne); done.

(** Whatever fails, the binary stays, unless both the move of the new one into
    place and the move back fail. *)
Lemma StageAndSwap_outcome exe data b fs :
  fs !! exe = Some b →
  always (StageAndSwap exe data)
    (λ r fs', elsewhere exe fs fs' ∧
      match r with
      | Ok bk => bk = backupPath exe ∧ fs' !! exe = Some data ∧ fs' !! bk = Some b
      | Err e => fs' !! exe = Some b ∨ (e = UpSwap ∧ fs' !! exe = None ∧ fs' !! backupPath exe = Some b)
      end) fs.
Proof.
  intros Hb. unfold StageAndSwap. fs_steps; fs_simpl; (split; [elsewhere_tac|]); auto.
Qed.

(** A body shorter than the limit is read whole. *)
Lemma read_limited_whole n body broken d :
  read_limited n body broken = Some d → (N.of_nat (length d) < n)%N → d = body ∧ broken = false.
Proof.
  revert n d. induction body as [|b body IH]; intros n d; simpl;
    destruct (n =? 0)%N eqn:En; reflect_bools; try (intros [= <-]; simpl; lia).
  - by destruct broken; intros [= <-].
  - intros (d' & Hd & ->)%fmap_Some Hlen. simpl in Hlen.
    destruct (IH _ _ Hd) as [-> ->]; [lia|done].
Qed.

(** What the agent has established about the bytes it is about to install. *)
Definition accepted (p : AgentUpdateParams) (data : bytes) : Prop :=
  ∃ key resp sig,
    hex_decode ReleasePublicKeyHex = Some key ∧ length key = 32 ∧
    http_get (up_ArtifactURL p) = Some resp ∧ rs_Status resp = 200%Z ∧
    data = rs_Body resp ∧ rs_Broken resp = false ∧ (N.of_nat (length data) ≤ maxArtifactBytes)%N ∧
    hex_decode (up_ArtifactSHA256Hex p) = Some (Sum256 data) ∧
    std_decode (up_SignatureBase64 p) = Some sig ∧ ed25519_verify key (Sum256 data) sig = true.

Lemma releasePublicKey_ok key :
  releasePublicKey = Ok key → hex_decode ReleasePublicKeyHex = Some key ∧ length key = 32.
Proof.
  unfold releasePublicKey. repeat case_match; try done. intros [= <-]. reflect_bools.
  by rewrite Nat.eqb_eq in *.
Qed.

Lemma fetchArtifact_accepted p data : fetchArtifact p = Ok data → accepted p data.
Proof.
  unfold fetchArtifact. destruct releasePublicKey as [key|] eqn:Hk; [|done].
  apply releasePublicKey_ok in Hk as [Hk Hlen].
  destruct (http_get _) as [resp|] eqn:Hg; [|done].
  destruct (rs_Status resp =? 200)%Z eqn:Hs; simpl; [|done]. apply Z.eqb_eq in Hs.
  destruct (read_limited _ _ _) as [d|] eqn:Hr; [|done].
  destruct (maxArtifactBytes <? _)%N eqn:Hm; [done|]. apply N.ltb_ge in Hm.
  destruct (VerifyArtifact _ _ _ _ _) as [[]|] eqn:Hv; [|done]. intros [= <-].
  apply VerifyArtifact_ok in Hv as (_ & Hx & sig & Hsig & Hok).
  apply read_limited_whole in Hr as [-> Hb]; [|lia]. exists key, resp, sig. auto 20.
Qed.

(** The marker is a file of its own. *)
Definition separate (dataDir exe : string) : Prop := markerPath dataDir ∉ update_files exe.

Lemma separate_ne dataDir exe : separate dataDir exe →
  markerPath dataDir ≠ exe ∧ markerPath dataDir ≠ stagedPath exe ∧ markerPath dataDir ≠ backupPath exe.
Proof. intros (? & ? & ?)%not_update_file. auto. Qed.

Lemma SaveMarker_elsewhere path m q fs :
  path ≠ q → always (SaveMarker path m) (λ _ fs', fs' !! q = fs !! q) fs.
Proof.
  intros Hq. unfold SaveMarker. fs_steps; try done; by rewrite lookup_insert_ne.
Qed.

(** Whatever the server sends and whichever file operations fail, an
    update command replaces the agent's binary only by the whole body of a
    successful download of at most 256 MiB whose SHA-256 is the announced one
    and carries a valid signature of the key embedded in the build; the
    replaced binary is then kept as the backup.  In every other case the
    binary is untouched, or it is missing because moving the new one into
    place and moving the old one back both failed, and then it is still the
    backup. *)
Theorem update_installs_verified dataDir p exe b fs :
  os_executable = Some exe → separate dataDir exe → fs !! exe = Some b →
  always (beginUpdate dataDir p)
    (λ r fs', match r with
      | Ok _ => ∃ data, accepted p data ∧ fs' !! exe = Some data ∧ fs' !! backupPath exe = Some b
      | Err e => fs' !! exe = Some b ∨
                 (e = UpSwap ∧ fs' !! exe = None ∧ fs' !! backupPath exe = Some b)
      end) fs.
Proof.
  intros Hexe (Hm1 & _ & Hm3)%separate_ne Hb. unfold beginUpdate. rewrite Hexe.
  apply always_mbind, always_mlift. destruct (fetchArtifact p) as [data|e] eqn:Hf; [|by left].
  apply fetchArtifact_accepted in Hf. apply always_mbind.
  eapply always_mono; [by apply StageAndSwap_outcome|].
  intros [bk|e] fs' [_ Hr]; [|exact Hr]. destruct Hr as (-> & Hnew & Hold).
  destruct (String.eqb dataDir ""); [apply always_mret; eauto|].
  apply always_mignore. eapply always_mono.
  - apply always_and; [apply (SaveMarker_elsewhere _ _ exe)|apply (SaveMarker_elsewhere _ _ (backupPath exe))];
      done.
  - simpl. intros r fs'' [E1 E2]. exists data. by rewrite E1, E2.
Qed.

(** The install can be left without a binary: the comment on [beginUpdate]
    ("a failure never leaves the install without a working binary") does not
    hold when the move of the staged binary and the move back both fail. *)
Theorem swap_can_lose_binary exe data b fs :
  fs !! exe = Some b →
  ∃ faults, let '(r, w) := StageAndSwap exe data (World fs faults) in
            r = Err UpSwap ∧ w_db w !! exe = None.
Proof.
  intros Hb. exists [false; false; false; false; true; true].
  unfold StageAndSwap, WriteFile, Remove, Rename. run_unfold. run_simpl.
  rewrite insert_insert_eq, (lookup_insert_ne _ (stagedPath exe) (backupPath exe)) by apply staged_backup_ne.
  destruct (fs !! backupPath exe); run_simpl; fs_simpl; rewrite Hb; run_simpl; (split; [done|]); by fs_simpl.
Qed.

(** ** The life of an update

    What the marker protocol promises: an installed binary is on trial until
    the agent connects; after more than [MaxBootAttempts] starts without a
    connection the previous binary returns. *)

Inductive event : Type :=
| Install (p : AgentUpdateParams)
| Boot
| Connect.

Inductive phase : Type :=
| Settled (bin : bytes)
| Trial (version : string) (new old : bytes) (attempts : nat).

Definition installed (ph : phase) : bytes :=
  match ph with Settled b => b | Trial _ new _ _ => new end.

Definition life (ev : event) (ph : phase) : phase :=
  match ev, ph with
  | Install p, _ => match fetchArtifact p with
                    | Ok data => Trial (up_Version p) data (installed ph) 0
                    | Err _ => ph
                    end
  | Boot, Trial v new old k => if k <? 3 then Trial v new old (S k) else Settled old
  | Connect, Trial v new _ _ => Settled new
  | _, Settled _ => ph
  end.

(** What the agent's process does on the event. *)
Definition perform (dataDir : string) (ev : event) : M fsys update_error boot_outcome :=
  match ev with
  | Install p => beginUpdate dataDir p;; mret Exits
  | Boot => reconcilePendingUpdate dataDir
  | Connect => commitPendingUpdate dataDir;; mret Continues
  end.

Section lifecycle.
Context `{!JsonLaws Marker}.
Context (dataDir exe : string) (Hdir : dataDir ≠ "") (Hexe : os_executable = Some exe)
  (Hsep : separate dataDir exe).

(** The markers of this version survive their text form, whatever the count:
    the version and the path are valid UTF-8. *)
Definition writable (version : string) : Prop :=
  ∀ k, json_faithful (mkMarker version (backupPath exe) k).
Definition event_ok (ev : event) : Prop :=
  match ev with Install p => writable (up_Version p) | _ => True end.

(** How the files represent a phase. *)
Definition represents (ph : phase) (fs : fsys) : Prop :=
  match ph with
  | Settled b => fs !! exe = Some b ∧ fs !! markerPath dataDir = None
  | Trial v new old k =>
      k ≤ 3 ∧ writable v ∧ fs !! exe = Some new ∧ fs !! backupPath exe = Some old ∧
      ∃ body, fs !! markerPath dataDir = Some body ∧
              json_unmarshal body = Some (mkMarker v (backupPath exe) (Z.of_nat k))
  end.

Lemma marker_ne_exe : markerPath dataDir ≠ exe.
Proof. apply separate_ne in Hsep. tauto. Qed.
Lemma marker_ne_staged : markerPath dataDir ≠ stagedPath exe.
Proof. apply separate_ne in Hsep. tauto. Qed.
Lemma marker_ne_backup : markerPath dataDir ≠ backupPath exe.
Proof. apply separate_ne in Hsep. tauto. Qed.
#[local] Hint Resolve marker_ne_exe marker_ne_staged marker_ne_backup : paths.

Lemma dataDir_eqb : String.eqb dataDir "" = false.
Proof. by apply String.eqb_neq. Qed.

Lemma represents_exe ph fs : represents ph fs → fs !! exe = Some (installed ph).
Proof. destruct ph; simpl; tauto. Qed.

(** Fault-free file operations. *)
Lemma run_SaveMarker m fs :
  json_faithful m → ∃ body, json_unmarshal body = Some m ∧
    SaveMarker (markerPath dataDir) m (World fs []) =
      (Ok tt, World (<[markerPath dataDir := body]> fs) []).
Proof.
  intros Hm. destruct (json_total m Hm) as [body Hb]. exists body.
  split; [by eapply json_roundtrip|]. unfold SaveMarker, WriteFile. rewrite Hb. run_unfold. run_simpl.
  by rewrite insert_insert_eq.
Qed.

Lemma run_StageAndSwap data b fs :
  fs !! exe = Some b → ∃ fs',
    StageAndSwap exe data (World fs []) = (Ok (backupPath exe), World fs' []) ∧
    fs' !! exe = Some data ∧ fs' !! backupPath exe = Some b.
Proof.
  intros Hb. unfold StageAndSwap, WriteFile, Remove, Rename. run_unfold. run_simpl.
  rewrite insert_insert_eq, (lookup_insert_ne _ (stagedPath exe) (backupPath exe)) by apply staged_backup_ne.
  destruct (fs !! backupPath exe); run_simpl; fs_simpl; rewrite Hb; run_simpl; fs_simpl;
    eexists; (split; [done|]); by fs_simpl.
Qed.

Lemma install_step p ph fs :
  represents ph fs → writable (up_Version p) →
  represents (life (Install p) ph) (run (perform dataDir (Install p)) fs).2.
Proof.
  intros Hr Hw. pose proof (represents_exe _ _ Hr) as Hb. unfold perform, beginUpdate.
  rewrite Hexe, dataDir_eqb. simpl. unfold run.
  destruct (fetchArtifact p) as [data|e] eqn:Hf; cbn [mlift]; [|exact Hr].
  unfold mbind, M_bind, mret, M_ret, mignore.
  destruct (run_StageAndSwap data _ _ Hb) as (fs1 & -> & Hnew & Hold).
  destruct (run_SaveMarker (mkMarker (up_Version p) (backupPath exe) 0) fs1 (Hw 0%Z)) as (body & Hbody & ->).
  cbn. fs_simpl. eauto 10 with lia.
Qed.

Lemma boot_step ph fs :
  represents ph fs →
  represents (life Boot ph) (run (perform dataDir Boot) fs).2 ∧
  (run (perform dataDir Boot) fs).1 =
    Ok (match ph with Trial _ _ _ 3 => Exits | _ => Continues end).
Proof.
  intros Hr. unfold perform, reconcilePendingUpdate. rewrite dataDir_eqb, Hexe.
  unfold run, LoadMarker, ReadFile. destruct ph as [b|v new old k]; simpl in Hr.
  - destruct Hr as [Hb Hm]. run_unfold. run_simpl. rewrite Hm. run_simpl. done.
  - destruct Hr as (Hk & Hw & Hnew & Hold & body & Hm & Hbody).
    run_unfold. run_simpl. rewrite Hm. run_simpl. rewrite Hbody. run_simpl. cbn [mk_BootAttempts mk_BackupPath mk_Version].
    rewrite wrap64_id by lia. unfold MaxBootAttempts. destruct (decide (k = 3)) as [->|Hne].
    + change (3 <? Z.of_nat 3 + 1)%Z with true. cbv iota.
      unfold RestoreBackup, Stat, Remove, Rename, DeleteMarker, Remove. run_unfold. run_simpl.
      rewrite Hold. run_simpl. rewrite Hnew. run_simpl. fs_simpl. rewrite Hold. run_simpl. fs_simpl.
      rewrite Hm. run_simpl. simpl. by fs_simpl.
    + rewrite (proj2 (Z.ltb_ge 3 (Z.of_nat k + 1))) by lia. cbv iota.
      destruct (run_SaveMarker (mkMarker v (backupPath exe) (Z.of_nat k + 1)) fs (Hw _)) as (body' & Hb' & ->).
      run_simpl. unfold life. rewrite (proj2 (Nat.ltb_lt k 3)) by lia. cbn. fs_simpl. split.
      * replace (Z.of_nat (S k)) with (Z.of_nat k + 1)%Z by lia. eauto 10 with lia.
      * do 3 (destruct k as [|k]; [done|]). lia.
Qed.

Lemma connect_step ph fs :
  represents ph fs → represents (life Connect ph) (run (perform dataDir Connect) fs).2.
Proof.
  intros Hr. unfold perform, commitPendingUpdate. rewrite dataDir_eqb.
  unfold run, LoadMarker, ReadFile. destruct ph as [b|v new old k]; simpl in Hr.
  - destruct Hr as [Hb Hm]. run_unfold. run_simpl. rewrite Hm. run_simpl. done.
  - destruct Hr as (Hk & Hw & Hnew & Hold & body & Hm & Hbody).
    run_unfold. run_simpl. rewrite Hm. run_simpl. rewrite Hbody. run_simpl. cbn [mk_BackupPath].
    unfold Remove, DeleteMarker, Remove. run_unfold. run_simpl. rewrite Hold. run_simpl. fs_simpl.
    rewrite Hm. run_simpl. cbn. by fs_simpl.
Qed.

Definition lives (evs : list event) (ph : phase) : phase := foldl (λ ph ev, life ev ph) ph evs.
Definition performs (evs : list event) (fs : fsys) : fsys :=
  foldl (λ fs ev, (run (perform dataDir ev) fs).2) fs evs.

Lemma lifecycle evs ph fs :
  represents ph fs → Forall event_ok evs → represents (lives evs ph) (performs evs fs).
Proof.
  revert ph fs. induction evs as [|ev evs IH]; intros ph fs Hr Hev; [done|].
  apply Forall_cons_iff in Hev as [He Hev]. apply IH; [|done]. destruct ev as [p| |].
  - by apply install_step.
  - by apply boot_step.
  - by apply connect_step.
Qed.

(** C13: as long as no file operation fails, the staged swap, the marker file
    and the start-up check implement the promised life of an update: along every
    sequence of update commands, first connections and process starts that get
    as far as [reconcilePendingUpdate], the files of the install represent the
    state of the abstract machine in which a new binary is on trial until it
    connects and is replaced by the previous one at the fourth such start
    without a connection, at which (and only then) the process exits.  A start
    that stops earlier, for instance at a broken configuration, is not counted,
    and after a failed write of the marker there is nothing to roll back to.
    The versions installed have a faithful text form in the marker. *)
Theorem update_lifecycle_refines evs ph fs :
  represents ph fs → Forall event_ok evs →
  represents (lives evs ph) (performs evs fs) ∧
  performs evs fs !! exe = Some (installed (lives evs ph)) ∧
  (run (perform dataDir Boot) (performs evs fs)).1 =
    Ok (match lives evs ph with Trial _ _ _ 3 => Exits | _ => Continues end).
Proof.
  intros Hr Hev. pose proof (lifecycle evs ph fs Hr Hev) as H.
  split; [done|]. split; [by apply represents_exe|]. by apply boot_step.
Qed.

Lemma lives_boots v new old k n :
  k + n ≤ 3 → lives (replicate n Boot) (Trial v new old k) = Trial v new old (k + n).
Proof.
  revert k. induction n as [|n IH]; intros k Hk; simpl; [by rewrite Nat.add_0_r|].
  unfold lives in *. simpl. rewrite (proj2 (Nat.ltb_lt k 3)) by lia. rewrite IH by lia. f_equal. lia.
Qed.
Lemma lives_settled b n : lives (replicate n Boot) (Settled b) = Settled b.
Proof. induction n; [done|]. unfold lives in *. simpl. done. Qed.
Lemma lives_app l1 l2 ph : lives (l1 ++ l2) ph = lives l2 (lives l1 ph).
Proof. apply foldl_app. Qed.

Lemma lives_install p data ph l :
  fetchArtifact p = Ok data → lives (Install p :: l) ph = lives l (Trial (up_Version p) data (installed ph) 0).
Proof. intros Hf. unfold lives. simpl. by rewrite Hf. Qed.

Lemma boots_ok n : Forall event_ok (replicate n Boot).
Proof. by apply Forall_replicate. Qed.
#[local] Hint Resolve boots_ok : paths.
#[local] Hint Constructors Forall : paths.

(** After an accepted update the new binary runs for the first three
    starts; if none of them connects, the fourth start restores the previous
    binary and removes the marker, and no later start changes it; if one of
    them connects, every later start runs the new binary. *)
Theorem crash_loop_rolls_back p data b fs :
  represents (Settled b) fs → writable (up_Version p) → fetchArtifact p = Ok data →
  (∀ n, n ≤ 3 → performs (Install p :: replicate n Boot) fs !! exe = Some data) ∧
  (∀ n, performs (Install p :: replicate 4 Boot ++ replicate n Boot) fs !! exe = Some b ∧
        performs (Install p :: replicate 4 Boot ++ replicate n Boot) fs !! markerPath dataDir = None) ∧
  (∀ k n, k ≤ 3 →
     performs (Install p :: replicate k Boot ++ Connect :: replicate n Boot) fs !! exe = Some data).
Proof.
  intros Hr Hw Hf. split_and!.
  - intros n Hn. erewrite represents_exe; [|apply lifecycle; [exact Hr|by auto with paths]].
    by erewrite lives_install, lives_boots.
  - intros n. change (represents (Settled b) (performs (Install p :: replicate 4 Boot ++ replicate n Boot) fs)).
    assert (lives (Install p :: replicate 4 Boot ++ replicate n Boot) (Settled b) = Settled b) as E
      by (erewrite lives_install, lives_app by done; apply lives_settled).
    rewrite <-E at 1. apply lifecycle; [exact Hr|]. constructor; [done|]. apply Forall_app. by auto with paths.
  - intros k n Hk. erewrite represents_exe; [|apply lifecycle; [exact Hr|]].
    + erewrite lives_install, lives_app, lives_boots by done. f_equal.
      change (installed (lives (replicate n Boot) (Settled data)) = data). by rewrite lives_settled.
    + constructor; [done|]. apply Forall_app. split; [|constructor; [done|]]; auto with paths.
Qed.

(** ** Only genuine binaries *)

Section genuine.
(** A marker whose write broke off is not a whole JSON document. *)
Context (torn_marker : ∀ m body, json_marshal m = Some body → json_unmarshal (T := Marker) (torn body) = None).
Context (b0 : bytes).

Definition genuine (d : bytes) : Prop :=
  d = b0 ∨ ∃ key, releasePublicKey = Ok key ∧ signed_by ed25519_verify key d.

Definition marker_ok (body : bytes) : Prop :=
  ∀ m, json_unmarshal body = Some m → mk_BackupPath m = backupPath exe ∧ writable (mk_Version m).

Record sound (fs : fsys) : Prop := {
  sound_exe d : fs !! exe = Some d → genuine d;
  sound_backup d : fs !! backupPath exe = Some d → genuine d;
  sound_marker body : fs !! markerPath dataDir = Some body → marker_ok body }.

Lemma fetchArtifact_genuine p data : fetchArtifact p = Ok data → genuine data.
Proof.
  unfold fetchArtifact. intros H. right. repeat case_match; simplify_eq. eexists. split; [done|].
  eapply VerifyArtifact_signed. by match goal with u : unit |- _ => destruct u end.
Qed.

Lemma sound_delete p fs : sound fs → sound (delete p fs).
Proof. intros [H1 H2 H3]. split; intros x [_ Hx]%lookup_delete_Some; eauto. Qed.
Lemma sound_put q d fs : q ≠ markerPath dataDir → genuine d → sound fs → sound (<[q := d]> fs).
Proof.
  intros Hq Hd [H1 H2 H3]. split; intros x [[-> <-]|[_ Hx]]%lookup_insert_Some; eauto; done.
Qed.
Lemma sound_stage d fs : sound fs → sound (<[stagedPath exe := d]> fs).
Proof.
  intros [H1 H2 H3]. split; intros x Hx; rewrite lookup_insert_ne in Hx by eauto using not_eq_sym with paths; eauto.
Qed.
Lemma sound_mark body fs : marker_ok body → sound fs → sound (<[markerPath dataDir := body]> fs).
Proof.
  intros Hb [H1 H2 H3]. split; intros x Hx.
  - rewrite lookup_insert_ne in Hx by auto with paths. eauto.
  - rewrite lookup_insert_ne in Hx by auto with paths. eauto.
  - apply lookup_insert_Some in Hx as [[_ <-]|[? _]]; done.
Qed.
Create HintDb sound.
#[local] Hint Resolve sound_delete sound_stage : sound.

Lemma StageAndSwap_sound data fs :
  genuine data → sound fs → always (StageAndSwap exe data) (λ _ fs', sound fs') fs.
Proof.
  intros Hd Hs. unfold StageAndSwap.
  assert (∀ d fs, sound fs → fs !! exe = Some d → sound (<[backupPath exe := d]> (delete exe fs))) as Hmove.
  { intros d fs1 H1 H2. apply sound_put; [auto using not_eq_sym with paths|by eapply sound_exe|by apply sound_delete]. }
  fs_steps; eauto 6 with sound; fs_simpl; apply sound_put; eauto using not_eq_sym with paths;
    try (eapply sound_exe; [exact Hs|done]); apply sound_delete; apply Hmove; fs_simpl; eauto 6 with sound.
Qed.

Lemma SaveMarker_sound m fs :
  mk_BackupPath m = backupPath exe → writable (mk_Version m) → sound fs →
  always (SaveMarker (markerPath dataDir) m) (λ _ fs', sound fs') fs.
Proof.
  intros Hm Hw Hs. unfold SaveMarker. destruct (json_marshal m) as [body|] eqn:Hb; fs_steps; try done.
  - apply sound_mark; [|done]. intros m' Hm'. by erewrite torn_marker in Hm'.
  - apply sound_mark; [|done]. intros m' Hm'. destruct m as [v bk k]. simpl in *. subst bk.
    erewrite json_roundtrip in Hm'; [|apply (Hw k)|done]. by simplify_eq.
Qed.

Lemma LoadMarker_sound fs :
  sound fs → always (LoadMarker (markerPath dataDir))
    (λ r fs', fs' = fs ∧ ∀ m, r = Ok (Some m) → mk_BackupPath m = backupPath exe ∧ writable (mk_Version m)) fs.
Proof.
  intros Hs. unfold LoadMarker. fs_steps; try done. split; [done|]. intros m' [= ->].
  by eapply sound_marker.
Qed.

Lemma DeleteMarker_sound fs :
  sound fs → always (DeleteMarker (markerPath dataDir)) (λ _ fs', sound fs') fs.
Proof. intros Hs. unfold DeleteMarker. fs_steps; auto with sound. Qed.

Lemma RestoreBackup_sound fs :
  sound fs → always (RestoreBackup exe (backupPath exe)) (λ _ fs', sound fs') fs.
Proof.
  intros Hs. unfold RestoreBackup. fs_steps; auto with sound;
    (apply sound_put; [auto using not_eq_sym with paths| |auto with sound]); fs_simpl;
    by eapply sound_backup.
Qed.

Lemma perform_sound ev fs :
  event_ok ev → sound fs → always (perform dataDir ev) (λ _ fs', sound fs') fs.
Proof.
  intros Hev Hs. destruct ev as [p| |]; unfold perform.
  - unfold beginUpdate. rewrite Hexe, dataDir_eqb.
    destruct (fetchArtifact p) as [data|e] eqn:Hf; [|by repeat always_step].
    do 2 apply always_mbind. apply always_mret, always_mbind.
    eapply always_mono; [eapply always_and|].
    + apply StageAndSwap_sound; [by eapply fetchArtifact_genuine|done].
    + instantiate (1 := λ r _, ∀ bk, r = Ok bk → bk = backupPath exe).
      unfold StageAndSwap. fs_steps; by intros ? [= <-].
    + intros [bk|e] fs' [Hs' Hbk]; [|done]. rewrite (Hbk bk eq_refl). apply always_mignore.
      eapply always_mono; [by apply SaveMarker_sound|]. intros r fs'' H. by apply always_mret.
  - unfold reconcilePendingUpdate. rewrite Hexe, dataDir_eqb. apply always_mbind.
    eapply always_mono; [by apply LoadMarker_sound|]. intros [[m|]|e] fs' [-> Hm]; [|by apply always_mret|done].
    destruct (Hm m eq_refl) as [Hbk Hw]. simpl. destruct (_ <? _)%Z.
    + rewrite Hbk. apply always_mbind. eapply always_mono; [by apply RestoreBackup_sound|].
      intros [] fs' Hs'; [|done]. apply always_mbind, always_mignore.
      eapply always_mono; [by apply DeleteMarker_sound|]. intros r fs'' H. by apply always_mret.
    + apply always_mbind. eapply always_mono; [by apply SaveMarker_sound|].
      intros [] fs' Hs'; [by apply always_mret|done].
  - unfold commitPendingUpdate. rewrite dataDir_eqb. do 2 apply always_mbind. apply always_mtry.
    eapply always_mono; [by apply LoadMarker_sound|]. intros r fs' [-> Hm].
    destruct r as [[m|]|e]; [|by repeat always_step|by repeat always_step].
    apply always_mbind, always_mignore. eapply (always_mono _ (λ _ fs', sound fs')).
    { fs_steps; auto with sound. }
    intros r fs' Hs'. apply always_mignore. eapply always_mono; [by apply DeleteMarker_sound|].
    intros r' fs'' H. by apply always_mret.
Qed.

(** Runs of the agent, faults included. *)
Definition agent_step (fs fs' : fsys) : Prop :=
  ∃ ev, event_ok ev ∧ effect (perform dataDir ev) fs fs'.

(** C5: starting from a fresh install of a binary, after any sequence of
    update commands, process starts and first connections in which any file
    operation may fail and any write may break off, the file the service
    manager starts is that first binary or bytes whose SHA-256 is signed with
    the key embedded in the build, if it is there at all. *)
Theorem only_genuine_binaries fs d :
  reachable (λ fs, fs !! exe = Some b0 ∧ fs !! backupPath exe = None ∧ fs !! markerPath dataDir = None)
    agent_step fs →
  fs !! exe = Some d →
  d = b0 ∨ ∃ key sig, hex_decode ReleasePublicKeyHex = Some key ∧ length key = 32 ∧
                      ed25519_verify key (Sum256 d) sig = true.
Proof.
  intros Hr Hd. assert (sound fs) as Hs.
  { revert fs Hr Hd. intros fs Hr _. revert fs Hr. apply invariant_reachable.
    - intros fs (H1 & H2 & H3). split; intros x Hx; [|congruence..]. left. congruence.
    - intros fs fs' Hs (ev & Hev & He). pattern fs'. revert He. apply effect_always.
      by apply perform_sound. }
  destruct (sound_exe _ Hs d Hd) as [->|(key & Hk & _ & sig & Hv)]; [by left|].
  apply releasePublicKey_ok in Hk as [Hk Hl]. right. eauto 6.
Qed.
End genuine.
End lifecycle.
End update.

(** ** A concrete install *)

#[local] Instance wire_marker : Wire Marker.
Proof.
  refine (wire_iso (λ m, (mk_Version m, mk_BackupPath m, mk_BootAttempts m))
                   (λ '(a, b, c), mkMarker a b c) _). by intros [].
Defined.
#[local] Instance demo_marker_json : Json Marker := wire_json Marker.
#[local] Instance demo_marker_laws : JsonLaws Marker := wire_json_laws Marker.

Definition demo_artifact : bytes := str_bytes "new agent".
Definition demo_params : AgentUpdateParams :=
  mkUpdateParams "1.2.0" "https://example.org/wr-agent" (hex_encode (Sum256 demo_artifact))
    (std_encode (Sum256 demo_artifact)).
Definition demo_get (url : string) : option http_response := Some (mkResponse 200 demo_artifact false).
Definition demo_key : string := hex_encode (replicate 32 (byte_of 7)).
(** A toy signature: the digest itself. *)
Definition demo_check (key m sig : bytes) : bool := bool_decide (sig = m).
Definition demo_exe : string := "/usr/local/bin/wr-agent".
Definition demo_dir : string := "/var/lib/wartungsremote".
Definition demo_fs : fsys := {[ demo_exe := str_bytes "old agent" ]}.
Definition demo_torn (b : bytes) : bytes := [].

Lemma demo_separate : separate "/" demo_dir demo_exe.
Proof. unfold separate. by vm_compute; intros H; repeat (apply elem_of_cons in H as [H|H]; [done|]); apply elem_of_nil in H. Qed.
Lemma demo_fetch : fetchArtifact demo_check demo_get demo_key demo_params = Ok demo_artifact.
Proof. vm_compute. reflexivity. Qed.

Lemma demo_update_ok :
  (run (beginUpdate demo_check demo_torn (Some demo_exe) "/" demo_get demo_key demo_dir demo_params) demo_fs).1
    = Ok tt.
Proof. vm_compute. reflexivity. Qed.

Lemma update_installs_verified_witness :
  ∃ data, accepted demo_check demo_get demo_key demo_params data ∧
    (run (beginUpdate demo_check demo_torn (Some demo_exe) "/" demo_get demo_key demo_dir demo_params)
       demo_fs).2 !! demo_exe = Some data.
Proof.
  pose proof (always_run _ _ _ (update_installs_verified demo_check demo_torn (Some demo_exe) "/" demo_get
    demo_key demo_dir demo_params demo_exe (str_bytes "old agent") demo_fs eq_refl demo_separate
    ltac:(vm_compute; reflexivity))) as Hrun.
  pose proof demo_update_ok as Hok. destruct (run _ _) as [r fs']. simpl in Hok. subst r.
  destruct Hrun as (data & Hacc & Hexe & _). exists data. exact (conj Hacc Hexe).
Defined.

Lemma demo_represents : represents "/" demo_dir demo_exe (Settled (str_bytes "old agent")) demo_fs.
Proof. split; vm_compute; reflexivity. Qed.

Lemma update_lifecycle_refines_witness :
  performs demo_check demo_torn (Some demo_exe) "/" demo_get demo_key demo_dir [Install demo_params; Boot; Connect]
    demo_fs !! demo_exe = Some demo_artifact.
Proof.
  apply (update_lifecycle_refines demo_check demo_torn (Some demo_exe) "/" demo_get demo_key demo_dir demo_exe
    ltac:(done) eq_refl demo_separate [Install demo_params; Boot; Connect] (Settled (str_bytes "old agent")) demo_fs
    demo_represents).
  repeat constructor.
Defined.

Lemma crash_loop_rolls_back_witness :
  performs demo_check demo_torn (Some demo_exe) "/" demo_get demo_key demo_dir
    (Install demo_params :: replicate 4 Boot) demo_fs !! demo_exe = Some (str_bytes "old agent").
Proof.
  destruct (crash_loop_rolls_back demo_check demo_torn (Some demo_exe) "/" demo_get demo_key demo_dir demo_exe
    ltac:(done) eq_refl demo_separate demo_params demo_artifact (str_bytes "old agent") demo_fs
    demo_represents (λ _, I) demo_fetch) as (_ & H & _).
  exact (proj1 (H 0)).
Defined.

Definition demo_installed : fsys :=
  (run (perform demo_check demo_torn (Some demo_exe) "/" demo_get demo_key demo_dir (Install demo_params)) demo_fs).2.
Lemma only_genuine_binaries_witness :
  demo_installed !! demo_exe = Some demo_artifact ∧
  (demo_artifact = str_bytes "old agent" ∨
    ∃ key sig, hex_decode demo_key = Some key ∧ length key = 32 ∧ demo_check key (Sum256 demo_artifact) sig = true).
Proof.
  assert (demo_installed !! demo_exe = Some demo_artifact) as He by (vm_compute; reflexivity).
  split; [exact He|]. revert He.
  apply (only_genuine_binaries demo_check demo_torn (Some demo_exe) "/" demo_get demo_key demo_dir
    demo_exe ltac:(done) eq_refl demo_separate (λ m body _, eq_refl) (str_bytes "old agent")).
  eapply reach_step.
  - apply reach_init. split_and!; [|instantiate (1 := demo_fs)|]; vm_compute; reflexivity.
  - exists (Install demo_params). split; [done|]. exact (effect_run _ demo_fs).
Defined.
