(* ===== verification/ReleaseSign.v ===== *)
(** The two programs that hold private keys on disk: the offline signing tool
    ([cmd/wr-release-sign/main.go]) and the agent's credential store
    ([internal/agentcore/credstore_linux.go]), over the file system of
    [AgentUpdate], where calls fail and failing writes are torn. *)
From S2P Require Import Prelude Base64 Sha256 AgentUpdate.

(** ** The signing tool *)

Inductive sign_error : Type :=
| SgGenerate | SgWrite (path : string) | SgNoKey | SgReadKey | SgKeySize | SgReadArtifact.

Section tool.
(** [ed25519.Sign] and [ed25519.Verify], and what a failing write leaves. *)
Context (ed25519_sign : bytes → bytes → bytes) (ed25519_verify : bytes → bytes → bytes → bool).
Context (torn : bytes → bytes).
Abbreviation SignM := (M fsys sign_error).

(** [generated] is the pair of [ed25519.GenerateKey(rand.Reader)], [None]
    where the random source fails. *)
(* cmd/wr-release-sign/main.go:46-62 runGenKey *)
Definition runGenKey (generated : option (bytes * bytes)) (outPrefix : string) : SignM unit :=
  match generated with
  | None => mfail SgGenerate
  | Some (pub, priv) =>
      mwrap (λ _, SgWrite (outPrefix +:+ ".key")) (WriteFile torn (outPrefix +:+ ".key") priv);;
      mwrap (λ _, SgWrite (outPrefix +:+ ".pub")) (WriteFile torn (outPrefix +:+ ".pub") pub)
  end.

(* cmd/wr-release-sign/main.go:64-99 runSign *)
Definition runSign (artifactPath keyPath : string) : SignM unit :=
  if String.eqb keyPath "" then mfail SgNoKey else
  priv ← mwrap (λ _, SgReadKey) (ReadFile keyPath);
  if negb (length priv =? 64) then mfail SgKeySize else
  data ← mwrap (λ _, SgReadArtifact) (ReadFile artifactPath);
  let sum := Sum256 data in
  let sig := ed25519_sign priv sum in
  let sumHex := hex_encode sum in
  let sigB64 := std_encode sig in
  mwrap (λ _, SgWrite (artifactPath +:+ ".sha256")) (WriteFile torn (artifactPath +:+ ".sha256") (str_bytes sumHex));;
  mwrap (λ _, SgWrite (artifactPath +:+ ".sig")) (WriteFile torn (artifactPath +:+ ".sig") (str_bytes sigB64)).

(** The exit code of the program. *)
(* cmd/wr-release-sign/main.go:20-44 main *)
Definition sign_main (genKey : bool) (keyOut signPath keyFile : string) (generated : option (bytes * bytes))
    : M fsys sign_error Z :=
  let code r := match r with Ok _ => 0%Z | Err _ => 1%Z end in
  if genKey then (r ← mtry (F := sign_error) (runGenKey generated keyOut); mret (code r))
  else if negb (String.eqb signPath "") then (r ← mtry (F := sign_error) (runSign signPath keyFile); mret (code r))
  else mret 2%Z.

(** A pair as [ed25519.GenerateKey] makes them. *)
Definition key_pair (pub priv : bytes) : Prop :=
  length pub = 32 ∧ length priv = 64 ∧ ∀ m, ed25519_verify pub m (ed25519_sign priv m) = true.

(** The sidecar files of an artifact are there and convince the agent and the
    server, which hold the public key. *)
Definition accepted_release (pub : bytes) (artifact : string) (fs : fsys) : Prop :=
  ∃ data sumHex sigB64, fs !! artifact = Some data ∧
    fs !! (artifact +:+ ".sha256")%string = Some (str_bytes sumHex) ∧
    fs !! (artifact +:+ ".sig")%string = Some (str_bytes sigB64) ∧
    VerifyArtifact ed25519_verify pub data sumHex sigB64 = Ok tt.

Lemma signature_verifies pub priv data :
  key_pair pub priv →
  VerifyArtifact ed25519_verify pub data (hex_encode (Sum256 data)) (std_encode (ed25519_sign priv (Sum256 data))) = Ok tt.
Proof.
  intros (Hpub & _ & Hv). apply VerifyArtifact_ok. split; [done|]. split; [apply hex_decode_encode|].
  exists (ed25519_sign priv (Sum256 data)). split; [apply std_decode_encode|apply Hv].
Qed.

Lemma sidecars_ne (a : string) :
  (a +:+ ".sha256")%string ≠ a ∧ (a +:+ ".sig")%string ≠ a ∧ (a +:+ ".sha256")%string ≠ (a +:+ ".sig")%string.
Proof. split_and!; [by apply append_ne..|]. by intros H%append_inj. Qed.

Lemma signed_accepted pub priv artifact data fs :
  key_pair pub priv → fs !! artifact = Some data →
  accepted_release pub artifact
    (<[artifact +:+ ".sig" := str_bytes (std_encode (ed25519_sign priv (Sum256 data)))]>
      (<[artifact +:+ ".sha256" := str_bytes (hex_encode (Sum256 data))]> fs))%string.
Proof.
  intros Hk Ha. destruct (sidecars_ne artifact) as (N1 & N2 & N3).
  exists data, (hex_encode (Sum256 data)), (std_encode (ed25519_sign priv (Sum256 data))). split_and!.
  - by rewrite !lookup_insert_ne.
  - rewrite lookup_insert_ne by done. apply lookup_insert_eq.
  - apply lookup_insert_eq.
  - by apply signature_verifies.
Qed.

(** C28: what the signing tool signs is accepted: whatever file operations fail,
    [-sign] never changes the artifact, and when it reports success the two
    sidecar files hold a digest and a signature that [VerifyArtifact] accepts
    under the matching public key; and it does succeed when nothing fails. *)
Theorem signed_release_accepted pub priv keyPath artifact data fs :
  key_pair pub priv → keyPath ≠ ""%string → fs !! keyPath = Some priv → fs !! artifact = Some data →
  always (runSign artifact keyPath) (λ r fs', fs' !! artifact = Some data ∧
    (r = Ok tt → accepted_release pub artifact fs')) fs ∧
  (run (runSign artifact keyPath) fs).1 = Ok tt.
Proof.
  intros Hk Hne Hkey Ha. destruct (sidecars_ne artifact) as (N1 & N2 & N3).
  pose proof Hk as (_ & Hlen & _).
  unfold runSign. rewrite (proj2 (String.eqb_neq keyPath "")) by done. split.
  - apply always_mbind, always_mwrap, always_ReadFile; [done|done|]. intros p Hp. assert (p = priv) as -> by congruence.
    rewrite Hlen. cbn [Nat.eqb negb].
    apply always_mbind, always_mwrap, always_ReadFile; [done|done|]. intros p Hp'. assert (p = data) as -> by congruence.
    cbv zeta. apply always_mbind, always_mwrap, always_WriteFile; [done|by rewrite lookup_insert_ne|].
    apply always_mwrap, always_WriteFile; rewrite ?lookup_insert_ne by done; [done|done|].
    split; [done|]. intros _. by apply signed_accepted.
  - unfold WriteFile, ReadFile. run_unfold. simpl. rewrite Hkey. simpl. rewrite Hlen. simpl. by rewrite Ha.
Qed.
End tool.

(** ** The credential store *)

Inductive cred_error : Type := CrDir | CrWrite | CrChmod | CrFinalize | CrRead.

Section store.
Context (torn : bytes → bytes).
(** [filepath.Join] of the data directory, a clean path, and the name. *)
(* internal/agentcore/credstore_linux.go:15-21 NewCredentialStore *)
Definition credentialPath (dataDir : string) : string := (dataDir +:+ "/device_credential.bin")%string.
Context (path : string).
Abbreviation CredM := (M fsys cred_error).

(** Directories and modes are not part of the file system; the calls can
    fail. *)
(* internal/agentcore/credstore_linux.go:23-38 Save *)
Definition Save (data : bytes) : CredM unit :=
  mexec CrDir (λ fs, fs);;
  let tmp := (path +:+ ".tmp")%string in
  mwrap (λ _, CrWrite) (WriteFile torn tmp data);;
  mexec CrChmod (λ fs, fs);;
  mwrap (λ _, CrFinalize) (Rename tmp path).
(* internal/agentcore/credstore_linux.go:40-46 Load *)
Definition LoadCredential : CredM bytes := mwrap (λ _, CrRead) (ReadFile path).
(* internal/agentcore/credstore_linux.go:48-51 Exists *)
Definition Exists : CredM bool :=
  r ← mtry (F := cred_error) (Stat path);
  mret (match r with Ok _ => true | Err _ => false end).

(** The device key is never torn: [Save] replaces the credential by the new
    one when it reports success and otherwise leaves it as it was; only the
    credential and its temporary file change. *)
Theorem credential_saved_whole data fs :
  always (Save data) (λ r fs',
    fs' !! path = (if is_ok r then Some data else fs !! path) ∧
    ∀ p, p ≠ path → p ≠ (path +:+ ".tmp")%string → fs' !! p = fs !! p) fs.
Proof.
  assert ((path +:+ ".tmp")%string ≠ path) as Hne by by apply append_ne.
  assert (∀ x, (<[(path +:+ ".tmp")%string := x]> fs) !! path = fs !! path ∧
    ∀ p, p ≠ path → p ≠ (path +:+ ".tmp")%string → (<[(path +:+ ".tmp")%string := x]> fs) !! p = fs !! p) as Hkept.
  { intros x. split; [by rewrite lookup_insert_ne|]. intros p H1 H2. by rewrite lookup_insert_ne. }
  unfold Save. apply always_mbind, always_mexec; [done|]. cbv zeta.
  apply always_mbind, always_mwrap, always_WriteFile; [done|apply Hkept|].
  apply always_mbind, always_mexec; [apply Hkept|].
  apply always_mwrap, always_Rename; [apply Hkept|intros _; apply Hkept|].
  intros d Hd. rewrite lookup_insert_eq in Hd. injection Hd as <-. cbn [is_ok]. split; [apply lookup_insert_eq|].
  intros p H1 H2. by rewrite lookup_insert_ne, lookup_delete_ne, lookup_insert_ne.
Qed.

(** What was saved is there after a restart. *)
Theorem credential_roundtrip data fs :
  (run (Save data;; e ← Exists; d ← LoadCredential; mret (e, d)) fs).1 = Ok (true, data).
Proof.
  unfold Save, Exists, LoadCredential, WriteFile, Rename, Stat, ReadFile. run_unfold. simpl.
  rewrite lookup_insert_eq. simpl. by rewrite lookup_insert_eq.
Qed.
End store.

(** ** A concrete key *)

Definition toy_sign (priv m : bytes) : bytes := m.
Definition toy_pub : bytes := replicate 32 zero.
Definition toy_priv : bytes := replicate 64 zero.
Definition toy_fs : fsys := {["release.key" := toy_priv; "wr-agent" := str_bytes "agent"]}.
Lemma signed_release_accepted_witness :
  accepted_release demo_check toy_pub "wr-agent"
    (run (runSign toy_sign demo_torn "wr-agent" "release.key") toy_fs).2.
Proof.
  destruct (signed_release_accepted toy_sign demo_check demo_torn toy_pub toy_priv "release.key" "wr-agent"
    (str_bytes "agent") toy_fs) as [H1 H2].
  - split_and!; [reflexivity..|]. intros m. apply bool_decide_eq_true. reflexivity.
  - discriminate.
  - vm_compute. reflexivity.
  - vm_compute. reflexivity.
  - pose proof (always_run _ _ _ H1) as Hr. destruct (run _ toy_fs) as [r fs']. simpl in H2. subst r.
    exact (proj2 Hr eq_refl).
Defined.
