(* ===== verification/AgentRelease.v ===== *)
(** The manifest of agent releases and its import from GitHub
    ([internal/agentrelease]).  The server accepts a release only with a
    signature of the trusted key over the artifact's digest; what it hands to
    an agent, the agent verifies again. *)
From S2P Require Import Prelude Protocol Messages Codec Base64 Sha256 AgentUpdate.

(** ** Data *)

(* internal/agentrelease/agentrelease.go:26-38 Release *)
Record Release : Type := mkRelease {
  rl_ID : uuid;
  rl_Version : string;
  rl_OSFamily : string;
  rl_Architecture : string;
  rl_Channel : string;
  rl_ArtifactURL : string;
  rl_ArtifactSHA256Hex : string;
  rl_SignatureBase64 : string;
  rl_PublishedAt : time;
  rl_MinimumSupported : bool;
  rl_Blocked : bool }.

(** A row of [agent_versions], by its id. *)
Record version_row : Type := mkVersionRow {
  vr_version : string;
  vr_os : string;
  vr_arch : string;
  vr_channel : string;
  vr_url : string;
  vr_sha256 : bytes;
  vr_signature : bytes;
  vr_published : time;
  vr_minimum : bool;
  vr_blocked : bool }.
Abbreviation manifest := (gmap uuid version_row).

Inductive release_error : Type :=
| RelNotFound
| RelBadHash
| RelBadSignatureText
| RelUnverified (e : verify_error)
| RelDB
| RelFetch.

(** UNIQUE(version, os_family, architecture, channel). *)
Definition same_release (v os arch ch : string) (r : version_row) : bool :=
  String.eqb (vr_version r) v && String.eqb (vr_os r) os && String.eqb (vr_arch r) arch &&
  String.eqb (vr_channel r) ch.

(* internal/agentrelease/agentrelease.go:149-158 scanRelease *)
Definition scanRelease (kr : uuid * version_row) : Release :=
  let '(id, r) := kr in
  mkRelease id (vr_version r) (vr_os r) (vr_arch r) (vr_channel r) (vr_url r)
    (hex_encode (vr_sha256 r)) (std_encode (vr_signature r)) (vr_published r) (vr_minimum r) (vr_blocked r).

(** [ORDER BY published_at DESC]. *)
Definition newer (a b : uuid * version_row) : bool := (vr_published b.2 <=? vr_published a.2)%Z.

Section releases.
Context (ed25519_verify : bytes → bytes → bytes → bool).

(* internal/agentrelease/agentrelease.go:48-67 List *)
Definition ListReleases : M manifest release_error (list Release) :=
  mquery RelDB (λ db, scanRelease <$> order_by newer (map_to_list db)).

(* internal/agentrelease/agentrelease.go:73-94 Create *)
Definition CreateRelease (rl : Release) (trustedPubKey : bytes) (newID : uuid) (now : time)
    : M manifest release_error Release :=
  match hex_decode (rl_ArtifactSHA256Hex rl) with
  | None => mfail RelBadHash
  | Some sum =>
      if negb (length sum =? 32) then mfail RelBadHash else
      match std_decode (rl_SignatureBase64 rl) with
      | None => mfail RelBadSignatureText
      | Some sig =>
          match VerifyHashAndSignature ed25519_verify trustedPubKey sum sig with
          | Err e => mfail (RelUnverified e)
          | Ok _ =>
              mstmt RelDB (λ db,
                if bool_decide (is_Some (db !! newID)) ||
                   negb (count_where (λ _, same_release (rl_Version rl) (rl_OSFamily rl)
                                             (rl_Architecture rl) (rl_Channel rl)) db =? 0)
                then (Err RelDB, db)
                else (Ok (mkRelease newID (rl_Version rl) (rl_OSFamily rl) (rl_Architecture rl) (rl_Channel rl)
                            (rl_ArtifactURL rl) (rl_ArtifactSHA256Hex rl) (rl_SignatureBase64 rl) now
                            (rl_MinimumSupported rl) (rl_Blocked rl)),
                      <[newID := mkVersionRow (rl_Version rl) (rl_OSFamily rl) (rl_Architecture rl)
                                   (rl_Channel rl) (rl_ArtifactURL rl) sum sig now (rl_MinimumSupported rl)
                                   false]> db))
          end
      end
  end.

(* internal/agentrelease/agentrelease.go:99-114 Latest *)
Definition Latest (osFamily architecture channel : string) : M manifest release_error Release :=
  r ← mquery RelDB (λ db, head (order_by newer (select_where (λ _ r,
        String.eqb (vr_os r) osFamily && String.eqb (vr_arch r) architecture &&
        String.eqb (vr_channel r) channel && negb (vr_blocked r)) db)));
  match r with
  | None => mfail RelNotFound
  | Some kr => mret (scanRelease kr)
  end.

(* internal/agentrelease/agentrelease.go:122-132 IsVersionBlocked *)
Definition IsVersionBlocked (osFamily architecture version : string) : M manifest release_error bool :=
  mquery RelDB (λ db, existsb (λ kr, vr_blocked kr.2)
    (select_where (λ _ r, String.eqb (vr_os r) osFamily && String.eqb (vr_arch r) architecture &&
                          String.eqb (vr_version r) version) db)).

Definition set_blocked (b : bool) (r : version_row) : version_row :=
  mkVersionRow (vr_version r) (vr_os r) (vr_arch r) (vr_channel r) (vr_url r) (vr_sha256 r) (vr_signature r)
    (vr_published r) (vr_minimum r) b.

(* internal/agentrelease/agentrelease.go:134-143 SetBlocked *)
Definition SetBlocked (id : uuid) (blocked : bool) : M manifest release_error unit :=
  mstmt RelDB (λ db, if rows_with_id id db =? 0 then (Err RelNotFound, db)
                     else (Ok tt, update_id id (set_blocked blocked) db)).
End releases.

(** ** Import from GitHub *)

(* internal/agentrelease/githubsync.go:16-19 ghAsset *)
Record ghAsset : Type := mkAsset {
  as_Name : string;
  as_URL : string }.

(* internal/agentrelease/githubsync.go:21-25 ghRelease *)
Record ghRelease : Type := mkGhRelease {
  gr_TagName : string;
  gr_Prerelease : bool;
  gr_Assets : list ghAsset }.

(** What the [Errors] strings report. *)
Inductive sync_error : Type :=
| SyMissingSum (asset tag : string)
| SyMissingSig (asset tag : string)
| SyFetchSum (asset : string)
| SyFetchSig (asset : string)
| SyCreate (asset : string) (e : release_error).

(* internal/agentrelease/githubsync.go:64-68 SyncResult *)
Record SyncResult : Type := mkSyncResult {
  sr_Imported : nat;
  sr_Skipped : nat;
  sr_Errors : list sync_error }.

(** [strings.HasPrefix] and [strings.TrimPrefix]. *)
Fixpoint strip_prefix (p s : string) : option string :=
  match p, s with
  | EmptyString, _ => Some s
  | String a p', String b s' => if Ascii.eqb a b then strip_prefix p' s' else None
  | String _ _, EmptyString => None
  end.
Definition HasPrefix (s p : string) : bool := negb (is_null (strip_prefix p s)).
Definition TrimPrefix (s p : string) : string := default s (strip_prefix p s).

(** [strings.TrimSpace]: the UTF-8 forms of [unicode.IsSpace]. *)
Definition spaces : list bytes :=
  (map byte_of <$>
    [[9]; [10]; [11]; [12]; [13]; [32]; [194; 133]; [194; 160]; [225; 154; 128];
     [226; 128; 128]; [226; 128; 129]; [226; 128; 130]; [226; 128; 131]; [226; 128; 132];
     [226; 128; 133]; [226; 128; 134]; [226; 128; 135]; [226; 128; 136]; [226; 128; 137];
     [226; 128; 138]; [226; 128; 168]; [226; 128; 169]; [226; 128; 175]; [226; 129; 159];
     [227; 128; 128]]%N).
Fixpoint strip_bytes (p b : bytes) : option bytes :=
  match p, b with
  | [], _ => Some b
  | x :: p', y :: b' => if Ascii.eqb x y then strip_bytes p' b' else None
  | _ :: _, [] => None
  end.
Fixpoint trim_left (forms : list bytes) (fuel : nat) (b : bytes) : bytes :=
  match fuel with
  | 0 => b
  | S fuel' =>
      match head (omap (λ f, strip_bytes f b) forms) with
      | Some b' => trim_left forms fuel' b'
      | None => b
      end
  end.
Definition TrimSpace (b : bytes) : bytes :=
  let l := trim_left spaces (length b) b in
  rev (trim_left (map (@rev byte) spaces) (length l) (rev l)).

(** [^wr-agent-([a-z0-9]+)-([a-z0-9]+)(\.exe)?$]: the two groups.  Neither
    class contains a dash or a dot, so each group is the longest run. *)
Definition word_char (c : ascii) : bool :=
  let n := N_of_ascii c in ((97 <=? n) && (n <=? 122) || (48 <=? n) && (n <=? 57))%N.
Fixpoint word_run (s : string) : string * string :=
  match s with
  | EmptyString => (EmptyString, EmptyString)
  | String c s' => if word_char c then let '(w, r) := word_run s' in (String c w, r) else (EmptyString, s)
  end.
(* internal/agentrelease/githubsync.go:31-31 assetNamePattern *)
Definition assetNamePattern (name : string) : option (string * string) :=
  match strip_prefix "wr-agent-" name with
  | None => None
  | Some s =>
      let '(os, r) := word_run s in
      if String.eqb os "" then None else
      match r with
      | String "-" s' =>
          let '(arch, r') := word_run s' in
          if String.eqb arch "" then None
          else if String.eqb r' "" || String.eqb r' ".exe" then Some (os, arch) else None
      | _ => None
      end
  end.

Definition seen_key (version os arch : string) : string :=
  (version +:+ "|" +:+ os +:+ "|" +:+ arch)%string.

Section sync.
Context (ed25519_verify : bytes → bytes → bytes → bool) (TrustedPubKey : bytes).
(** The HTTP client, and the identifiers and times of the rows inserted by the
    successive [Create] calls of a run. *)
Context (http_get : string → option http_response).

(* internal/agentrelease/githubsync.go:206-224 fetchText *)
Definition fetchText (url : string) : option string :=
  match http_get url with
  | None => None
  | Some resp =>
      if negb (rs_Status resp =? 200)%Z then None
      else (bytes_str ∘ TrimSpace) <$> read_limited 4096 (rs_Body resp) (rs_Broken resp)
  end.

(** [decode] is [json.Decoder] reading one array of releases; [apiBase] the
    address of another server than GitHub's, if set. *)
(* internal/agentrelease/githubsync.go:176-204 fetchReleases *)
Definition fetchReleases (decode : bytes → option (list ghRelease)) (apiBase repo : string) : option (list ghRelease) :=
  let base := if String.eqb apiBase "" then "https://api.github.com"%string else apiBase in
  match http_get (base +:+ "/repos/" +:+ repo +:+ "/releases")%string with
  | None => None
  | Some resp =>
      if negb (rs_Status resp =? 200)%Z then None
      else decode (take (Z.to_nat (5 * 2 ^ 20)) (rs_Body resp))
  end.

(** The variables of the loop: [seen], [result] and how often [Create] ran. *)
Record sync_state : Type := mkSync {
  sy_seen : gset string;
  sy_result : SyncResult;
  sy_calls : nat }.
Definition sy_skip (st : sync_state) : sync_state :=
  let r := sy_result st in
  mkSync (sy_seen st) (mkSyncResult (sr_Imported r) (S (sr_Skipped r)) (sr_Errors r)) (sy_calls st).
Definition sy_error (e : sync_error) (st : sync_state) : sync_state :=
  let r := sy_result st in
  mkSync (sy_seen st) (mkSyncResult (sr_Imported r) (sr_Skipped r) (sr_Errors r ++ [e])) (sy_calls st).
Definition sy_import (key : string) (st : sync_state) : sync_state :=
  let r := sy_result st in
  mkSync ({[key]} ∪ sy_seen st) (mkSyncResult (S (sr_Imported r)) (sr_Skipped r) (sr_Errors r)) (sy_calls st).
Definition sy_call (st : sync_state) : sync_state := mkSync (sy_seen st) (sy_result st) (S (sy_calls st)).

Definition import_of (version os arch channel url sumHex sigB64 : string) : Release :=
  mkRelease 0 version os arch channel url sumHex sigB64 0 false false.

Section run.
Context (newID : nat → uuid) (clock : nat → time).

(** The body of the inner loop, for one asset of a release. *)
(* internal/agentrelease/githubsync.go:104-146 SyncOnce *)
Definition sync_asset (tag version channel : string) (assetsByName : gmap string ghAsset)
    (st : sync_state) (a : ghAsset) : M manifest release_error sync_state :=
  match assetNamePattern (as_Name a) with
  | None => mret st
  | Some (osFamily, arch) =>
      let key := seen_key version osFamily arch in
      if bool_decide (key ∈ sy_seen st) then mret (sy_skip st) else
      match assetsByName !! (as_Name a +:+ ".sha256")%string with
      | None => mret (sy_error (SyMissingSum (as_Name a) tag) st)
      | Some sumAsset =>
      match assetsByName !! (as_Name a +:+ ".sig")%string with
      | None => mret (sy_error (SyMissingSig (as_Name a) tag) st)
      | Some sigAsset =>
      match fetchText (as_URL sumAsset) with
      | None => mret (sy_error (SyFetchSum (as_Name a)) st)
      | Some sumHex =>
      match fetchText (as_URL sigAsset) with
      | None => mret (sy_error (SyFetchSig (as_Name a)) st)
      | Some sigB64 =>
          r ← mtry (CreateRelease ed25519_verify
                      (import_of version osFamily arch channel (as_URL a) sumHex sigB64) TrustedPubKey
                      (newID (sy_calls st)) (clock (sy_calls st)));
          mret (match r with
                | Err e => sy_call (sy_error (SyCreate (as_Name a) e) st)
                | Ok _ => sy_call (sy_import key st)
                end)
      end end end end
  end.

Fixpoint sync_assets (tag version channel : string) (byName : gmap string ghAsset) (st : sync_state)
    (l : list ghAsset) : M manifest release_error sync_state :=
  match l with
  | [] => mret st
  | a :: l' => st' ← sync_asset tag version channel byName st a;
               sync_assets tag version channel byName st' l'
  end.

Definition assets_by_name (l : list ghAsset) : gmap string ghAsset :=
  foldl (λ m a, <[as_Name a := a]> m) ∅ l.
Definition gh_version (gr : ghRelease) : string :=
  TrimPrefix (TrimPrefix (gr_TagName gr) "agent-") "v".
Definition gh_channel (gr : ghRelease) : string := if gr_Prerelease gr then "beta" else "stable".

(* internal/agentrelease/githubsync.go:90-147 SyncOnce *)
Fixpoint sync_releases (st : sync_state) (l : list ghRelease) : M manifest release_error sync_state :=
  match l with
  | [] => mret st
  | gr :: l' =>
      if negb (HasPrefix (gr_TagName gr) "agent-") then sync_releases st l' else
      st' ← sync_assets (gr_TagName gr) (gh_version gr) (gh_channel gr) (assets_by_name (gr_Assets gr))
              st (gr_Assets gr);
      sync_releases st' l'
  end.

(** [releases] is what [fetchReleases] got from GitHub, [None] for an error. *)
(* internal/agentrelease/githubsync.go:74-149 SyncOnce *)
Definition SyncOnce (releases : option (list ghRelease)) : M manifest release_error SyncResult :=
  match releases with
  | None => mfail RelFetch
  | Some releases =>
      existing ← ListReleases;
      let seen := list_to_set ((λ e, seen_key (rl_Version e) (rl_OSFamily e) (rl_Architecture e)) <$> existing) in
      st ← sync_releases (mkSync seen (mkSyncResult 0 0 []) 0) releases;
      mret (sy_result st)
  end.
End run.

(** ** Signed releases only *)

(** The row a submission becomes, once its texts decode. *)
Definition row_of (rl : Release) (sum sig : bytes) (now : time) : version_row :=
  mkVersionRow (rl_Version rl) (rl_OSFamily rl) (rl_Architecture rl) (rl_Channel rl) (rl_ArtifactURL rl)
    sum sig now (rl_MinimumSupported rl) false.
Definition submitted (rl : Release) (sum sig : bytes) : Prop :=
  hex_decode (rl_ArtifactSHA256Hex rl) = Some sum ∧ std_decode (rl_SignatureBase64 rl) = Some sig ∧
  VerifyHashAndSignature ed25519_verify TrustedPubKey sum sig = Ok tt.
Definition unique_in (db : manifest) (rl : Release) : Prop :=
  ∀ id r, db !! id = Some r →
    same_release (rl_Version rl) (rl_OSFamily rl) (rl_Architecture rl) (rl_Channel rl) r = false.

Lemma VerifyHash_length key sum sig :
  VerifyHashAndSignature ed25519_verify key sum sig = Ok tt → length sum = 32.
Proof. unfold VerifyHashAndSignature. intros H. repeat case_match; try done. reflect_bools. by apply Nat.eqb_eq. Qed.

Lemma CreateRelease_outcome rl id now db :
  always (CreateRelease ed25519_verify rl TrustedPubKey id now)
    (λ r db', match r with
      | Ok _ => ∃ sum sig, submitted rl sum sig ∧ unique_in db rl ∧ db !! id = None ∧
                           db' = <[id := row_of rl sum sig now]> db
      | Err _ => db' = db
      end) db.
Proof.
  unfold CreateRelease. destruct (hex_decode _) as [sum|] eqn:Hx; [|by always_steps].
  destruct (negb _); [by always_steps|]. destruct (std_decode _) as [sig|] eqn:Hs; [|by always_steps].
  destruct (VerifyHashAndSignature _ _ _ _) as [[]|] eqn:Hv; [|by always_steps].
  apply always_mstmt; [done|]. destruct (_ || _) eqn:Hc; simpl; [done|].
  apply orb_false_iff in Hc as [Hid Hu]. apply bool_decide_eq_false in Hid. apply negb_false_iff, Nat.eqb_eq in Hu.
  exists sum, sig. split_and!; [done|exact (proj1 (count_where_zero _ _) Hu)|by apply eq_None_not_Some|done].
Qed.

Lemma run_CreateRelease rl sum sig id now db :
  submitted rl sum sig → unique_in db rl → db !! id = None → ∃ rl',
    CreateRelease ed25519_verify rl TrustedPubKey id now (World db []) =
      (Ok rl', World (<[id := row_of rl sum sig now]> db) []).
Proof.
  intros (Hx & Hs & Hv) Hu Hid. unfold CreateRelease.
  rewrite Hx, (VerifyHash_length _ _ _ Hv), Hs, Hv. simpl. run_unfold. run_simpl.
  assert (count_where (λ _, same_release (rl_Version rl) (rl_OSFamily rl) (rl_Architecture rl) (rl_Channel rl)) db = 0)
    as -> by (apply count_where_zero; exact Hu).
  rewrite Hid. simpl. by eexists.
Qed.

(** The hash and the signature of a row belong together. *)
Definition signed_row (r : version_row) : Prop :=
  VerifyHashAndSignature ed25519_verify TrustedPubKey (vr_sha256 r) (vr_signature r) = Ok tt.
Definition all_signed (db : manifest) : Prop := map_Forall (λ _, signed_row) db.

Definition keeps_signed (db db' : manifest) : Prop := all_signed db → all_signed db'.
#[export] Instance keeps_signed_preorder : PreOrder keeps_signed.
Proof. split; [by intros db ?|]. intros x y z Hxy Hyz Hx. by apply Hyz, Hxy. Qed.

Lemma CreateRelease_signed rl id now :
  preserves keeps_signed (CreateRelease ed25519_verify rl TrustedPubKey id now).
Proof.
  intros db. eapply always_mono; [apply CreateRelease_outcome|].
  intros [rl'|e] db'; simpl; [|by intros -> ?].
  intros (sum & sig & (_ & _ & Hv) & _ & _ & ->) Hdb. by apply map_Forall_insert_2.
Qed.
#[local] Hint Resolve CreateRelease_signed : preserve.

Lemma SetBlocked_signed id b : preserves keeps_signed (SetBlocked id b).
Proof.
  apply preserves_mstmt; [apply _|]. intros db. destruct (rows_with_id id db =? 0); simpl; [done|].
  intros Hdb k r Hr. apply update_id_inv in Hr as (r0 & Hr0 & [->|[_ ->]]); apply (Hdb k r0 Hr0).
Qed.

Lemma sync_asset_signed newID clock tag v ch by_ st a :
  preserves keeps_signed (sync_asset newID clock tag v ch by_ st a).
Proof. unfold sync_asset. preserve_steps. Qed.
#[local] Hint Resolve sync_asset_signed : preserve.
Lemma sync_assets_signed newID clock tag v ch by_ l st :
  preserves keeps_signed (sync_assets newID clock tag v ch by_ st l).
Proof. revert st. induction l; intros st; simpl; preserve_steps. Qed.
#[local] Hint Resolve sync_assets_signed : preserve.
Lemma sync_releases_signed newID clock l st :
  preserves keeps_signed (sync_releases newID clock st l).
Proof. revert st. induction l; intros st; simpl; preserve_steps. Qed.
#[local] Hint Resolve sync_releases_signed : preserve.
Lemma SyncOnce_signed newID clock rs : preserves keeps_signed (SyncOnce newID clock rs).
Proof. unfold SyncOnce, ListReleases. preserve_steps. Qed.

(** Everything that changes the manifest: the form, the import, and blocking. *)
Inductive manifest_step (db db' : manifest) : Prop :=
| step_create rl id now :
    effect (CreateRelease ed25519_verify rl TrustedPubKey id now) db db' → manifest_step db db'
| step_sync newID clock rs : effect (SyncOnce newID clock rs) db db' → manifest_step db db'
| step_block id b : effect (SetBlocked id b) db db' → manifest_step db db'.

Lemma manifest_signed db : reachable (λ db, db = ∅) manifest_step db → all_signed db.
Proof.
  apply invariant_reachable; [by intros db0 ->|].
  intros db1 db2 Hs Hst. destruct Hst as [rl id now He|newID clock rs He|id b He];
    pattern db2; revert He; apply effect_always.
  - eapply always_mono; [apply CreateRelease_signed|]. by intros r s' H; apply H.
  - eapply always_mono; [apply SyncOnce_signed|]. by intros r s' H; apply H.
  - eapply always_mono; [apply SetBlocked_signed|]. by intros r s' H; apply H.
Qed.

Lemma newer_total a b : newer a b = true ∨ newer b a = true.
Proof. unfold newer. rewrite !Z.leb_le. lia. Qed.
Lemma newer_trans a b c : newer a b = true → newer b c = true → newer a c = true.
Proof. unfold newer. rewrite !Z.leb_le. lia. Qed.

(** [Latest] is the newest unblocked release for the platform and channel. *)
Definition offered (os arch ch : string) (r : version_row) : Prop :=
  vr_os r = os ∧ vr_arch r = arch ∧ vr_channel r = ch ∧ vr_blocked r = false.

Lemma Latest_newest db os arch ch rl db' :
  run (Latest os arch ch) db = (Ok rl, db') →
  ∃ r, db !! rl_ID rl = Some r ∧ rl = scanRelease (rl_ID rl, r) ∧ offered os arch ch r ∧
       ∀ id' r', db !! id' = Some r' → offered os arch ch r' → (vr_published r' ≤ vr_published r)%Z.
Proof.
  unfold Latest. run_unfold. run_simpl.
  destruct (head _) as [[id r]|] eqn:Hh; run_simpl; [|done]. intros [= <- _].
  apply order_by_head in Hh as [Hin Hmax]; [|apply newer_total|apply newer_trans].
  apply elem_of_select_where in Hin as [Hr Hp]. exists r. split; [done|]. split; [done|].
  repeat match goal with H : (_ && _) = true |- _ => apply andb_true_iff in H as [? ?] end.
  split. { unfold offered. repeat match goal with H : String.eqb _ _ = true |- _ => apply String.eqb_eq in H end.
           by rewrite <-negb_true_iff. }
  intros id' r' Hr' (Ho & Ha & Hc & Hb). specialize (Hmax (id', r')).
  assert (newer (id, r) (id', r') = true) as Hn.
  { apply Hmax, elem_of_select_where. split; [done|]. by rewrite Ho, Ha, Hc, Hb, !String.eqb_refl. }
  unfold newer in Hn. by apply Z.leb_le in Hn.
Qed.

(** What a signed manifest offers, an agent accepts. *)
Lemma signed_offer db os arch ch rl db' :
  all_signed db → run (Latest os arch ch) db = (Ok rl, db') →
  ∃ r, db !! rl_ID rl = Some r ∧ offered os arch ch r ∧
       (∀ id' r', db !! id' = Some r' → offered os arch ch r' → (vr_published r' ≤ vr_published r)%Z) ∧
       rl_Version rl = vr_version r ∧ rl_ArtifactURL rl = vr_url r ∧
       ∀ data, VerifyArtifact ed25519_verify TrustedPubKey data (rl_ArtifactSHA256Hex rl)
                 (rl_SignatureBase64 rl) = Ok tt ↔ Sum256 data = vr_sha256 r.
Proof.
  intros Hdb Hrun. apply Latest_newest in Hrun as (r & Hr & E & Ho & Hmax).
  exists r. rewrite E. split_and!; try done. intros data. simpl. specialize (Hdb _ _ Hr). simpl in Hdb.
  split; [|intros Hs; unfold signed_row in Hdb; rewrite <-Hs in *; by apply verify_agree].
  rewrite VerifyArtifact_ok, hex_decode_encode. intros (_ & [= Hs] & _). done.
Qed.

(** From the manifest to the device: whatever submissions, imports and
    blocks the manifest has seen, a release the server offers for a platform
    and channel is the newest unblocked one there, and an agent built with the
    server's trusted key accepts, under the texts of that release, exactly the
    artifacts whose SHA-256 is the registered one. *)
Theorem offered_release_verifies db os arch ch rl db' :
  reachable (λ db, db = ∅) manifest_step db →
  run (Latest os arch ch) db = (Ok rl, db') →
  ∃ r, db !! rl_ID rl = Some r ∧ offered os arch ch r ∧
       (∀ id' r', db !! id' = Some r' → offered os arch ch r' → (vr_published r' ≤ vr_published r)%Z) ∧
       rl_Version rl = vr_version r ∧ rl_ArtifactURL rl = vr_url r ∧
       ∀ data, VerifyArtifact ed25519_verify TrustedPubKey data (rl_ArtifactSHA256Hex rl)
                 (rl_SignatureBase64 rl) = Ok tt ↔ Sum256 data = vr_sha256 r.
Proof.
  intros Hdb%manifest_signed Hrun. by eapply signed_offer.
Qed.

(** Registration and import only add rows. *)
Lemma CreateRelease_grows rl id now :
  preserves (⊆) (CreateRelease ed25519_verify rl TrustedPubKey id now).
Proof.
  intros db. eapply always_mono; [apply CreateRelease_outcome|].
  intros [rl'|e] db'; simpl; [|by intros ->].
  intros (sum & sig & _ & _ & Hid & ->). by apply insert_subseteq.
Qed.
#[local] Hint Resolve CreateRelease_grows : preserve.
Lemma sync_asset_grows newID clock tag v ch by_ st a :
  preserves (⊆) (sync_asset newID clock tag v ch by_ st a).
Proof. unfold sync_asset. preserve_steps. Qed.
#[local] Hint Resolve sync_asset_grows : preserve.
Lemma sync_assets_grows newID clock tag v ch by_ l st :
  preserves (⊆) (sync_assets newID clock tag v ch by_ st l).
Proof. revert st. induction l; intros st; simpl; preserve_steps. Qed.
#[local] Hint Resolve sync_assets_grows : preserve.
Lemma sync_releases_grows newID clock l st : preserves (⊆) (sync_releases newID clock st l).
Proof. revert st. induction l; intros st; simpl; preserve_steps. Qed.
#[local] Hint Resolve sync_releases_grows : preserve.
Lemma SyncOnce_grows newID clock rs : preserves (⊆) (SyncOnce newID clock rs).
Proof. unfold SyncOnce, ListReleases. preserve_steps. Qed.

(** A step that does not unblock the release. *)
Inductive other_step (id : uuid) (db db' : manifest) : Prop :=
| other_create rl id' now :
    effect (CreateRelease ed25519_verify rl TrustedPubKey id' now) db db' → other_step id db db'
| other_sync newID clock rs : effect (SyncOnce newID clock rs) db db' → other_step id db db'
| other_block id' b : (id' = id → b = true) → effect (SetBlocked id' b) db db' → other_step id db db'.

Definition stays_blocked (id : uuid) (db db' : manifest) : Prop :=
  ∀ r, db !! id = Some r → vr_blocked r = true → db' !! id = Some r.
Lemma other_step_blocked id db db' : other_step id db db' → stays_blocked id db db'.
Proof.
  intros Hst r Hr Hb. destruct Hst as [rl id' now He|newID clock rs He|id' b Hid He].
  - eapply lookup_weaken; [exact Hr|]. revert He. apply effect_always, CreateRelease_grows.
  - eapply lookup_weaken; [exact Hr|]. revert He. apply effect_always, SyncOnce_grows.
  - pattern db'. revert He. apply effect_always. unfold SetBlocked. apply always_mstmt; [done|].
    destruct (_ =? 0); simpl; [done|]. rewrite lookup_update_id. case_decide; subst; [|done].
    rewrite Hr, (Hid eq_refl). simpl. f_equal. destruct r; simpl in *. by subst.
Qed.

(** A blocked release is withdrawn: once the block is recorded, the
    version check of the control channel reports its platform and version as
    blocked and the server never offers it again, for as long as no one
    unblocks it, whatever else happens to the manifest. *)
Theorem blocked_release_withdrawn db db1 db2 id r :
  db !! id = Some r → run (SetBlocked id true) db = (Ok tt, db1) →
  rtc (other_step id) db1 db2 →
  (run (IsVersionBlocked (vr_os r) (vr_arch r) (vr_version r)) db2).1 = Ok true ∧
  ∀ os arch ch rl, (run (Latest os arch ch) db2).1 = Ok rl → rl_ID rl ≠ id.
Proof.
  intros Hr Hset Hsteps. assert (db1 !! id = Some (set_blocked true r)) as H1.
  { revert Hset. unfold SetBlocked, rows_with_id. run_unfold. run_simpl. rewrite Hr. simpl. intros [= <-].
    by rewrite lookup_update_id, decide_True, Hr by done. }
  assert (db2 !! id = Some (set_blocked true r)) as H2.
  { clear Hset. induction Hsteps as [|x y z Hst _ IH]; [done|]. apply IH. by eapply other_step_blocked. }
  split.
  - unfold IsVersionBlocked. run_unfold. run_simpl. f_equal. apply existsb_exists.
    exists (id, set_blocked true r). split; [|done]. apply list_elem_of_In, elem_of_select_where.
    split; [done|]. simpl. by rewrite !String.eqb_refl.
  - intros os arch ch rl Hl E. destruct (run (Latest os arch ch) db2) as [res db'] eqn:Hrun. simpl in Hl. subst res.
    apply Latest_newest in Hrun as (r' & Hr' & _ & (_ & _ & _ & Hb) & _). rewrite E in Hr'.
    rewrite H2 in Hr'. by simplify_eq/=.
Qed.

(** ** A second import changes nothing *)

Definition row_key (r : version_row) : string := seen_key (vr_version r) (vr_os r) (vr_arch r).
(** [seen] holds the keys of the manifest. *)
Definition tracks (seen : gset string) (db : manifest) : Prop :=
  ∀ k, k ∈ seen ↔ ∃ id r, db !! id = Some r ∧ row_key r = k.

(** An asset with everything an import needs, and its key. *)
Definition importable (version channel : string) (byName : gmap string ghAsset) (a : ghAsset) (k : string)
    : Prop :=
  ∃ os arch sumAsset sigAsset sumHex sigB64 sum sig,
    assetNamePattern (as_Name a) = Some (os, arch) ∧ k = seen_key version os arch ∧
    byName !! (as_Name a +:+ ".sha256")%string = Some sumAsset ∧
    byName !! (as_Name a +:+ ".sig")%string = Some sigAsset ∧
    fetchText (as_URL sumAsset) = Some sumHex ∧ fetchText (as_URL sigAsset) = Some sigB64 ∧
    submitted (import_of version os arch channel (as_URL a) sumHex sigB64) sum sig.

Definition fresh_from (newID : nat → uuid) (n : nat) (db : manifest) : Prop :=
  ∀ m, n ≤ m → db !! newID m = None.

(** [good st db]: what the loop maintains. *)
Definition good (newID : nat → uuid) (st : sync_state) (db : manifest) : Prop :=
  tracks (sy_seen st) db ∧ fresh_from newID (sy_calls st) db.

Lemma tracks_unique seen db version os arch ch url sumHex sigB64 :
  tracks seen db → seen_key version os arch ∉ seen →
  unique_in db (import_of version os arch ch url sumHex sigB64).
Proof.
  intros Ht Hk id r Hr. unfold same_release. simpl. apply not_true_iff_false. intros Hs.
  repeat match goal with H : (_ && _) = true |- _ => apply andb_true_iff in H as [? ?] end.
  repeat match goal with H : String.eqb _ _ = true |- _ => apply String.eqb_eq in H end.
  apply Hk, Ht. exists id, r. split; [done|]. unfold row_key. by subst.
Qed.

Lemma tracks_insert seen db id rl sum sig now :
  tracks seen db → db !! id = None →
  tracks ({[seen_key (rl_Version rl) (rl_OSFamily rl) (rl_Architecture rl)]} ∪ seen)
    (<[id := row_of rl sum sig now]> db).
Proof.
  intros Ht Hid k. rewrite elem_of_union, elem_of_singleton, (Ht k). split.
  - intros [->|(id' & r & Hr & Hk)].
    + exists id, (row_of rl sum sig now). by rewrite lookup_insert_eq.
    + exists id', r. rewrite lookup_insert_ne by congruence. done.
  - intros (id' & r & [[<- <-]|[_ Hr]]%lookup_insert_Some & <-); [by left|]. right. eauto.
Qed.

Lemma submitted_dec rl : (∃ sum sig, submitted rl sum sig) ∨ ¬ ∃ sum sig, submitted rl sum sig.
Proof.
  unfold submitted. destruct (hex_decode _) as [sum|] eqn:Hx; [|right; naive_solver].
  destruct (std_decode _) as [sig|] eqn:Hs; [|right; naive_solver].
  destruct (VerifyHashAndSignature ed25519_verify TrustedPubKey sum sig) as [[]|e] eqn:Hv; [left; eauto|].
  right. intros (? & ? & [= <-] & [= <-] & Hv'). congruence.
Qed.

(** A submission that is not acceptable is refused. *)
Lemma run_CreateRelease_refused rl id now db :
  (¬ ∃ sum sig, submitted rl sum sig) → ∃ e,
    CreateRelease ed25519_verify rl TrustedPubKey id now (World db []) = (Err e, World db []).
Proof.
  intros Hn. unfold CreateRelease. destruct (hex_decode _) as [sum|] eqn:Hx; [|by eexists].
  destruct (negb _); [by eexists|]. destruct (std_decode _) as [sig|] eqn:Hs; [|by eexists].
  destruct (VerifyHashAndSignature _ _ _ _) as [[]|] eqn:Hv; [|by eexists].
  exfalso. apply Hn. exists sum, sig. done.
Qed.

Section passes.
Context (newID : nat → uuid) (clock : nat → time).

(** The loop body either does not get to [Create], and then the asset is not
    importable or its key was seen, or it is that call. *)
Lemma sync_asset_cases tag version channel byName st a :
  (∃ st', (∀ w, sync_asset newID clock tag version channel byName st a w = (Ok st', w)) ∧
          sy_seen st' = sy_seen st ∧ sy_calls st' = sy_calls st ∧
          sr_Imported (sy_result st') = sr_Imported (sy_result st) ∧
          ∀ k, importable version channel byName a k → k ∈ sy_seen st) ∨
  (∃ os arch sumHex sigB64, let rl := import_of version os arch channel (as_URL a) sumHex sigB64 in
     let key := seen_key version os arch in
     (key ∉ sy_seen st) ∧
     (∀ k, importable version channel byName a k ↔ k = key ∧ ∃ sum sig, submitted rl sum sig) ∧
     ∀ w, sync_asset newID clock tag version channel byName st a w =
          let '(r, w') := CreateRelease ed25519_verify rl TrustedPubKey (newID (sy_calls st))
                            (clock (sy_calls st)) w in
          (Ok (match r with
               | Err e => sy_call (sy_error (SyCreate (as_Name a) e) st)
               | Ok _ => sy_call (sy_import key st)
               end), w')).
Proof.
  unfold sync_asset, importable.
  destruct (assetNamePattern _) as [[os arch]|]; [|left; exists st; naive_solver].
  destruct (bool_decide _) eqn:Hk; [left; exists (sy_skip st)|].
  { apply bool_decide_eq_true in Hk. split_and!; try done. naive_solver. }
  apply bool_decide_eq_false in Hk.
  destruct (byName !! (_ +:+ ".sha256")%string) as [sumA|]; [|left; eexists; naive_solver].
  destruct (byName !! (_ +:+ ".sig")%string) as [sigA|]; [|left; eexists; naive_solver].
  destruct (fetchText (as_URL sumA)) as [sumHex|] eqn:E1; [|left; eexists; naive_solver].
  destruct (fetchText (as_URL sigA)) as [sigB64|] eqn:E2; [|left; eexists; naive_solver].
  right. exists os, arch, sumHex, sigB64. simpl. split; [done|]. split.
  - intros k. split; [naive_solver|]. intros (-> & sum & sig & Hs). by exists os, arch, sumA, sigA, sumHex, sigB64, sum, sig.
  - intros w. unfold mbind, M_bind, mtry, mret, M_ret. by destruct (CreateRelease _ _ _ _ _ w).
Qed.

Lemma sync_asset_first `{!Inj (=) (=) newID} tag version channel byName st a db :
  good newID st db → ∃ st' db',
    sync_asset newID clock tag version channel byName st a (World db []) = (Ok st', World db' []) ∧
    good newID st' db' ∧ sy_seen st ⊆ sy_seen st' ∧
    ∀ k, importable version channel byName a k → k ∈ sy_seen st'.
Proof.
  intros [Ht Hf]. destruct (sync_asset_cases tag version channel byName st a)
    as [(st' & -> & Hs & Hc & _ & Hi)|(os & arch & sumHex & sigB64 & Hk & Hi & Hrun)].
  - exists st', db. unfold good. rewrite Hs, Hc. auto.
  - rewrite Hrun. set (rl := import_of _ _ _ _ _ _ _) in *.
    destruct (submitted_dec rl) as [(sum & sig & Hsub)|Hno].
    + destruct (run_CreateRelease rl sum sig (newID (sy_calls st)) (clock (sy_calls st)) db Hsub) as [rl' ->];
        [by eapply tracks_unique|by apply Hf|].
      do 2 eexists. split; [done|]. split; [split|split].
      * apply (tracks_insert _ _ _ rl); [done|by apply Hf].
      * intros m Hm. simpl in Hm. rewrite lookup_insert_ne; [apply Hf; lia|]. intros E%(inj newID). lia.
      * simpl. set_solver.
      * intros k [-> _]%Hi. simpl. set_solver.
    + destruct (run_CreateRelease_refused rl (newID (sy_calls st)) (clock (sy_calls st)) db Hno) as [e ->].
      do 2 eexists. split; [done|]. split; [split; [done|]|split; [done|]].
      * intros m Hm. simpl in Hm. apply Hf. lia.
      * intros k [_ Hs]%Hi. done.
Qed.

Lemma sync_asset_again tag version channel byName st a db :
  (∀ k, importable version channel byName a k → k ∈ sy_seen st) → ∃ st',
    sync_asset newID clock tag version channel byName st a (World db []) = (Ok st', World db []) ∧
    sy_seen st' = sy_seen st ∧ sr_Imported (sy_result st') = sr_Imported (sy_result st).
Proof.
  intros Hall. destruct (sync_asset_cases tag version channel byName st a)
    as [(st' & -> & Hs & _ & Hn & _)|(os & arch & sumHex & sigB64 & Hk & Hi & Hrun)]; [by eauto|].
  rewrite Hrun. set (rl := import_of _ _ _ _ _ _ _) in *.
  destruct (submitted_dec rl) as [Hsub|Hno].
  - destruct Hk. apply Hall, Hi. done.
  - destruct (run_CreateRelease_refused rl (newID (sy_calls st)) (clock (sy_calls st)) db Hno) as [e ->]. by eexists.
Qed.

(** All keys a release, or a list of them, can contribute. *)
Definition release_keys (gr : ghRelease) (k : string) : Prop :=
  HasPrefix (gr_TagName gr) "agent-" = true ∧
  ∃ a, a ∈ gr_Assets gr ∧ importable (gh_version gr) (gh_channel gr) (assets_by_name (gr_Assets gr)) a k.

Lemma sync_assets_first `{!Inj (=) (=) newID} tag version channel byName l st db :
  good newID st db → ∃ st' db',
    sync_assets newID clock tag version channel byName st l (World db []) = (Ok st', World db' []) ∧
    good newID st' db' ∧ sy_seen st ⊆ sy_seen st' ∧
    ∀ a k, a ∈ l → importable version channel byName a k → k ∈ sy_seen st'.
Proof.
  revert st db. induction l as [|a l IH]; intros st db Hg; simpl.
  - exists st, db. split_and!; try done. intros a k Ha. by apply elem_of_nil in Ha.
  - destruct (sync_asset_first tag version channel byName st a db Hg) as (st1 & db1 & H1 & Hg1 & Hs1 & Hi1).
    destruct (IH st1 db1 Hg1) as (st2 & db2 & H2 & Hg2 & Hs2 & Hi2).
    exists st2, db2. unfold mbind, M_bind. rewrite H1. split_and!; [done|done|by etrans|].
    intros a' k [->|Ha]%elem_of_cons Hk; eauto.
Qed.

Lemma sync_assets_again tag version channel byName l st db :
  (∀ a k, a ∈ l → importable version channel byName a k → k ∈ sy_seen st) → ∃ st',
    sync_assets newID clock tag version channel byName st l (World db []) = (Ok st', World db []) ∧
    sy_seen st' = sy_seen st ∧ sr_Imported (sy_result st') = sr_Imported (sy_result st).
Proof.
  revert st. induction l as [|a l IH]; intros st Hall; simpl; [by eauto|].
  destruct (sync_asset_again tag version channel byName st a db) as (st1 & H1 & Hs1 & Hn1).
  { intros k. apply Hall. left. }
  destruct (IH st1) as (st2 & H2 & Hs2 & Hn2).
  { intros a' k Ha. rewrite Hs1. apply Hall. by right. }
  exists st2. unfold mbind, M_bind. rewrite H1. split_and!; [done|congruence..].
Qed.

Lemma sync_releases_first `{!Inj (=) (=) newID} l st db :
  good newID st db → ∃ st' db',
    sync_releases newID clock st l (World db []) = (Ok st', World db' []) ∧
    good newID st' db' ∧ sy_seen st ⊆ sy_seen st' ∧
    ∀ gr k, gr ∈ l → release_keys gr k → k ∈ sy_seen st'.
Proof.
  revert st db. induction l as [|gr l IH]; intros st db Hg; simpl.
  - exists st, db. split_and!; try done. intros gr k Hgr. by apply elem_of_nil in Hgr.
  - destruct (HasPrefix (gr_TagName gr) "agent-") eqn:Hp; simpl.
    + destruct (sync_assets_first (gr_TagName gr) (gh_version gr) (gh_channel gr)
        (assets_by_name (gr_Assets gr)) (gr_Assets gr) st db Hg) as (st1 & db1 & H1 & Hg1 & Hs1 & Hi1).
      destruct (IH st1 db1 Hg1) as (st2 & db2 & H2 & Hg2 & Hs2 & Hi2).
      exists st2, db2. unfold mbind, M_bind. rewrite H1. split_and!; [done|done|by etrans|].
      intros gr' k [->|Hgr]%elem_of_cons; [intros (_ & a & Ha & Hk)|]; eauto.
    + destruct (IH st db Hg) as (st2 & db2 & H2 & Hg2 & Hs2 & Hi2). exists st2, db2. split_and!; try done.
      intros gr' k [->|Hgr]%elem_of_cons Hk; [|eauto]. destruct Hk as [Hk _]. congruence.
Qed.

Lemma sync_releases_again l st db :
  (∀ gr k, gr ∈ l → release_keys gr k → k ∈ sy_seen st) → ∃ st',
    sync_releases newID clock st l (World db []) = (Ok st', World db []) ∧
    sr_Imported (sy_result st') = sr_Imported (sy_result st).
Proof.
  revert st. induction l as [|gr l IH]; intros st Hall; simpl; [by eauto|].
  destruct (HasPrefix (gr_TagName gr) "agent-") eqn:Hp; simpl.
  - destruct (sync_assets_again (gr_TagName gr) (gh_version gr) (gh_channel gr)
      (assets_by_name (gr_Assets gr)) (gr_Assets gr) st db) as (st1 & H1 & Hs1 & Hn1).
    { intros a k Ha Hk. apply (Hall gr k); [left|]. split; [done|]. eauto. }
    destruct (IH st1) as (st2 & H2 & Hn2). { intros gr' k Hgr. rewrite Hs1. apply Hall. by right. }
    exists st2. unfold mbind, M_bind. rewrite H1. split; [done|congruence].
  - apply IH. intros gr' k Hgr. apply Hall. by right.
Qed.

Lemma listed_tracks db :
  tracks (list_to_set ((λ e, seen_key (rl_Version e) (rl_OSFamily e) (rl_Architecture e)) <$>
            (scanRelease <$> order_by newer (map_to_list db)))) db.
Proof.
  intros k. rewrite elem_of_list_to_set, list_elem_of_fmap. split.
  - intros (e & -> & ([id r] & -> & Hin)%list_elem_of_fmap). apply elem_of_order_by, elem_of_map_to_list in Hin.
    by exists id, r.
  - intros (id & r & Hr & <-). exists (scanRelease (id, r)). split; [done|]. apply list_elem_of_fmap.
    exists (id, r). split; [done|]. by apply elem_of_order_by, elem_of_map_to_list.
Qed.
End passes.

Definition sync_start (db : manifest) : sync_state :=
  mkSync (list_to_set ((λ e, seen_key (rl_Version e) (rl_OSFamily e) (rl_Architecture e)) <$>
            (scanRelease <$> order_by newer (map_to_list db)))) (mkSyncResult 0 0 []) 0.
Lemma run_SyncOnce newID clock releases db :
  run (SyncOnce newID clock (Some releases)) db =
  match sync_releases newID clock (sync_start db) releases (World db []) with
  | (Ok st, w) => (Ok (sy_result st), w_db w)
  | (Err e, w) => (Err e, w_db w)
  end.
Proof.
  unfold run, SyncOnce, ListReleases, mquery, mstmt, mbind, M_bind, mret, M_ret. simpl. fold (sync_start db).
  by destruct (sync_releases _ _ _ _ _) as [[]].
Qed.

(** Importing is idempotent: after a run over a GitHub listing whose
    database statements succeed, a second run over the same listing, with the
    same sidecar files, imports nothing and leaves the manifest as it is. *)
Theorem sync_idempotent newID clock newID' clock' releases db :
  Inj (=) (=) newID → (∀ n, db !! newID n = None) →
  let db1 := (run (SyncOnce newID clock (Some releases)) db).2 in
  ∃ res, run (SyncOnce newID' clock' (Some releases)) db1 = (Ok res, db1) ∧ sr_Imported res = 0.
Proof.
  intros Hinj Hfresh. rewrite (run_SyncOnce newID clock). cbv zeta.
  destruct (sync_releases_first newID clock releases (sync_start db) db)
    as (st & db1 & -> & [Ht _] & _ & Hall); [split; [apply listed_tracks|by intros m _]|].
  cbn [snd w_db]. rewrite run_SyncOnce.
  destruct (sync_releases_again newID' clock' releases (sync_start db1) db1) as (st2 & -> & Hn).
  { intros gr k Hgr Hk. apply listed_tracks, Ht. by eapply Hall. }
  by eexists.
Qed.
End sync.

(** ** A concrete import *)

Definition demo_sum : bytes := Sum256 demo_artifact.
Definition demo_release_key : bytes := replicate 32 (byte_of 7).
Definition demo_hub (url : string) : option http_response :=
  if String.eqb url "sum" then Some (mkResponse 200 (str_bytes (hex_encode demo_sum) ++ [byte_of 10]) false)
  else if String.eqb url "sig" then Some (mkResponse 200 (str_bytes (std_encode demo_sum) ++ [byte_of 10]) false)
  else None.
Definition demo_gh (tag : string) : ghRelease :=
  mkGhRelease tag false
    [mkAsset "wr-agent-linux-amd64" "bin"; mkAsset "wr-agent-linux-amd64.sha256" "sum";
     mkAsset "wr-agent-linux-amd64.sig" "sig"; mkAsset "checksums.txt" "x"].
Definition demo_sync (rs : list ghRelease) : M manifest release_error SyncResult :=
  SyncOnce demo_check demo_release_key demo_hub N.of_nat (λ n, Z.of_nat n) (Some rs).
Definition demo_manifest : manifest := (run (demo_sync [demo_gh "agent-v1.2.0"]) ∅).2.

Example demo_imported :
  (run (demo_sync [demo_gh "agent-v1.2.0"; demo_gh "web-v9"]) ∅).1 = Ok (mkSyncResult 1 0 []).
Proof. vm_compute. reflexivity. Qed.

(** GitHub lists releases newest first.  The import inserts them in that order
    and [published_at] is the time of the insert, so after a first import of
    several releases the oldest is the latest. *)
Theorem github_import_inverts_latest :
  let db := (run (demo_sync [demo_gh "agent-v1.3.0"; demo_gh "agent-v1.2.0"]) ∅).2 in
  match (run (Latest "linux" "amd64" "stable") db).1 with
  | Ok rl => rl_Version rl = "1.2.0"
  | Err _ => False
  end.
Proof. vm_compute. reflexivity. Qed.

Lemma demo_manifest_reachable :
  reachable (λ db, db = ∅) (manifest_step demo_check demo_release_key demo_hub) demo_manifest.
Proof.
  eapply reach_step; [by apply reach_init|].
  apply (step_sync _ _ _ _ _ N.of_nat (λ n, Z.of_nat n) (Some [demo_gh "agent-v1.2.0"])).
  exact (effect_run (demo_sync [demo_gh "agent-v1.2.0"]) ∅).
Qed.

Definition demo_latest : res release_error Release * manifest :=
  run (Latest "linux" "amd64" "stable") demo_manifest.
Definition demo_offer : Release :=
  match demo_latest.1 with Ok rl => rl | Err _ => import_of "" "" "" "" "" "" "" end.

Lemma offered_release_verifies_witness :
  rl_Version demo_offer = "1.2.0" ∧
  VerifyArtifact demo_check demo_release_key demo_artifact (rl_ArtifactSHA256Hex demo_offer)
    (rl_SignatureBase64 demo_offer) = Ok tt.
Proof.
  assert (run (Latest "linux" "amd64" "stable") demo_manifest = (Ok demo_offer, demo_latest.2)) as Hrun
    by (vm_compute; reflexivity).
  destruct (offered_release_verifies demo_check demo_release_key demo_hub demo_manifest "linux" "amd64" "stable"
    demo_offer _ demo_manifest_reachable Hrun) as (r & Hr & _ & _ & Hv & _ & Hd).
  assert (demo_manifest !! rl_ID demo_offer = Some (row_of (import_of "1.2.0" "linux" "amd64" "stable" "bin" "" "")
    demo_sum demo_sum 0)) as Hr' by (vm_compute; reflexivity).
  rewrite Hr in Hr'. injection Hr' as ->. split; [exact Hv|]. apply Hd. reflexivity.
Defined.

Definition demo_blocked : manifest := (run (SetBlocked 0 true) demo_manifest).2.
Lemma blocked_release_withdrawn_witness :
  (run (IsVersionBlocked "linux" "amd64" "1.2.0") demo_blocked).1 = Ok true.
Proof.
  refine (proj1 (blocked_release_withdrawn demo_check demo_release_key demo_hub demo_manifest demo_blocked
    demo_blocked 0%N (row_of (import_of "1.2.0" "linux" "amd64" "stable" "bin" "" "") demo_sum demo_sum 0)
    _ _ _)); [vm_compute; reflexivity|vm_compute; reflexivity|apply rtc_refl].
Defined.

Lemma sync_idempotent_witness :
  ∃ res, run (demo_sync [demo_gh "agent-v1.2.0"]) demo_manifest = (Ok res, demo_manifest) ∧ sr_Imported res = 0.
Proof.
  apply (sync_idempotent demo_check demo_release_key demo_hub N.of_nat (λ n, Z.of_nat n) N.of_nat
    (λ n, Z.of_nat n) [demo_gh "agent-v1.2.0"] ∅); [intros a b E; by apply Nat2N.inj|done].
Defined.
