(* ===== verification/AgentCore.v ===== *)
(** The agent as the server sees it: the commands and sessions it serves
    ([internal/agentcore/commands.go], [sessions.go], [files.go] and the message
    loop of [session.go]), its local policy ([internal/config/agent.go]) and
    its reconnect schedule ([agent.go]).

    The operating system behind [platform.Provider] is a function from the
    actions so far to the result of the next one; every action is recorded, so
    that "the agent did this" is a fact about a trace.  The faults of the world
    are writes to the control channel that fail. *)
From S2P Require Import Prelude Protocol Messages Codec Base64 Sha256 AgentUpdate.

(* internal/config/agent.go:13-23 AgentPolicy *)
Record AgentPolicy : Type := mkPolicy {
  ap_Terminal : bool;
  ap_SSHTunnel : bool;
  ap_RDPTunnel : bool;
  ap_FilesRead : bool;
  ap_FilesWrite : bool;
  ap_ServiceControl : bool;
  ap_ProcessTerminate : bool;
  ap_PowerControl : bool;
  ap_SelfUpdate : bool }.

(** The calls of [platform.Provider], the tunnel's dial and the self-update. *)
(* internal/platform/platform.go:138-152 Provider *)
Inductive os_action : Type :=
| CollectInventory
| CollectMetrics
| OpenTerminal
| DialTCP (target : string)
| ListServices
| StartService (name : string)
| StopService (name : string)
| RestartService (name : string)
| ListProcesses
| TerminateProcess (pid start : Z)
| ListDir (path : string)
| Mkdir (path : string)
| RenamePath (from to : string)
| DeletePath (path : string)
| OpenRead (path : string)
| OpenWrite (path : string)
| QueryLogs (q : LogsQueryParams)
| EnsureSupportAccount
| SelfUpdate (p : AgentUpdateParams).

(** What each action needs of the local policy. *)
Definition permitted (pol : AgentPolicy) (a : os_action) : bool :=
  match a with
  | CollectInventory | CollectMetrics | ListProcesses => true
  | OpenTerminal => ap_Terminal pol
  | DialTCP target =>
      (String.eqb target "127.0.0.1:22" && ap_SSHTunnel pol) ||
      (String.eqb target "127.0.0.1:3389" && ap_RDPTunnel pol)
  | ListServices | StartService _ | StopService _ | RestartService _ => ap_ServiceControl pol
  | TerminateProcess _ _ => ap_ProcessTerminate pol
  | ListDir _ | OpenRead _ | QueryLogs _ => ap_FilesRead pol
  | Mkdir _ | RenamePath _ _ | DeletePath _ | OpenWrite _ => ap_FilesWrite pol
  | EnsureSupportAccount => ap_SSHTunnel pol || ap_RDPTunnel pol
  | SelfUpdate _ => ap_SelfUpdate pol
  end.

(** ** State *)

(** An open terminal or tunnel connection: what was written to it. *)
Record stream : Type := mkStream {
  sm_terminal : bool;
  sm_input : bytes;
  sm_size : option (Z * Z);
  sm_closed : bool }.
(** A file being uploaded. *)
Record writer : Type := mkWriter {
  wr_path : string;
  wr_data : bytes;
  wr_closed : bool }.

Inductive payload : Type :=
| PResult (p : CommandResultPayload)
| POpenResult (p : SessionOpenResultPayload)
| PClose (p : SessionClosePayload)
| PCredential (p : SupportCredentialReportPayload)
| PHeartbeat (p : HeartbeatPayload)
| PReport (json : bytes).
Inductive outgoing : Type :=
| OutText (ty : string) (req : option string) (p : payload)
| OutBinary (frame : bytes).

(* internal/agentcore/session.go:35-45 agentSession *)
Record agent : Type := mkAgent {
  ag_sessions : gmap uuid nat;
  ag_uploads : gmap uuid nat;
  ag_streams : gmap nat stream;
  ag_writers : gmap nat writer;
  ag_next : nat;
  ag_actions : list os_action;
  ag_sent : list outgoing;
  ag_fs : fsys;
  ag_exiting : bool;
  (** running goroutines: stream pumps (session, object) and file downloads *)
  ag_pumps : list (uuid * nat);
  ag_downloads : list uuid }.

Definition on_sess (f : gmap uuid nat → gmap uuid nat) (s : agent) : agent :=
  mkAgent (f (ag_sessions s)) (ag_uploads s) (ag_streams s) (ag_writers s) (ag_next s) (ag_actions s) (ag_sent s)
    (ag_fs s) (ag_exiting s) (ag_pumps s) (ag_downloads s).
Definition on_ups (f : gmap uuid nat → gmap uuid nat) (s : agent) : agent :=
  mkAgent (ag_sessions s) (f (ag_uploads s)) (ag_streams s) (ag_writers s) (ag_next s) (ag_actions s) (ag_sent s)
    (ag_fs s) (ag_exiting s) (ag_pumps s) (ag_downloads s).
Definition on_streams (f : gmap nat stream → gmap nat stream) (s : agent) : agent :=
  mkAgent (ag_sessions s) (ag_uploads s) (f (ag_streams s)) (ag_writers s) (ag_next s) (ag_actions s) (ag_sent s)
    (ag_fs s) (ag_exiting s) (ag_pumps s) (ag_downloads s).
Definition on_writers (f : gmap nat writer → gmap nat writer) (s : agent) : agent :=
  mkAgent (ag_sessions s) (ag_uploads s) (ag_streams s) (f (ag_writers s)) (ag_next s) (ag_actions s) (ag_sent s)
    (ag_fs s) (ag_exiting s) (ag_pumps s) (ag_downloads s).
Definition on_actions (f : list os_action → list os_action) (s : agent) : agent :=
  mkAgent (ag_sessions s) (ag_uploads s) (ag_streams s) (ag_writers s) (ag_next s) (f (ag_actions s)) (ag_sent s)
    (ag_fs s) (ag_exiting s) (ag_pumps s) (ag_downloads s).
Definition on_sent (f : list outgoing → list outgoing) (s : agent) : agent :=
  mkAgent (ag_sessions s) (ag_uploads s) (ag_streams s) (ag_writers s) (ag_next s) (ag_actions s) (f (ag_sent s))
    (ag_fs s) (ag_exiting s) (ag_pumps s) (ag_downloads s).
Definition with_fs (fs : fsys) (s : agent) : agent :=
  mkAgent (ag_sessions s) (ag_uploads s) (ag_streams s) (ag_writers s) (ag_next s) (ag_actions s) (ag_sent s)
    fs (ag_exiting s) (ag_pumps s) (ag_downloads s).
Definition set_exiting (s : agent) : agent :=
  mkAgent (ag_sessions s) (ag_uploads s) (ag_streams s) (ag_writers s) (ag_next s) (ag_actions s) (ag_sent s)
    (ag_fs s) true (ag_pumps s) (ag_downloads s).
Definition bump (s : agent) : agent :=
  mkAgent (ag_sessions s) (ag_uploads s) (ag_streams s) (ag_writers s) (S (ag_next s)) (ag_actions s) (ag_sent s)
    (ag_fs s) (ag_exiting s) (ag_pumps s) (ag_downloads s).

Definition on_pumps (f : list (uuid * nat) → list (uuid * nat)) (s : agent) : agent :=
  mkAgent (ag_sessions s) (ag_uploads s) (ag_streams s) (ag_writers s) (ag_next s) (ag_actions s) (ag_sent s)
    (ag_fs s) (ag_exiting s) (f (ag_pumps s)) (ag_downloads s).
Definition on_downloads (f : list uuid → list uuid) (s : agent) : agent :=
  mkAgent (ag_sessions s) (ag_uploads s) (ag_streams s) (ag_writers s) (ag_next s) (ag_actions s) (ag_sent s)
    (ag_fs s) (ag_exiting s) (ag_pumps s) (f (ag_downloads s)).

Definition close_stream (x : stream) : stream := mkStream (sm_terminal x) (sm_input x) (sm_size x) true.
Definition resize_stream (cols rows : Z) (x : stream) : stream :=
  mkStream (sm_terminal x) (sm_input x) (Some (cols, rows)) (sm_closed x).
Definition feed_stream (b : bytes) (x : stream) : stream :=
  mkStream (sm_terminal x) (sm_input x ++ b) (sm_size x) (sm_closed x).
Definition close_writer (x : writer) : writer := mkWriter (wr_path x) (wr_data x) true.
Definition feed_writer (b : bytes) (x : writer) : writer := mkWriter (wr_path x) (wr_data x ++ b) (wr_closed x).

Definition AM : Type → Type := M agent string.
Definition upd (f : agent → agent) : AM unit := mstate (λ s, (tt, f s)).

Section agent_core.
Context `{!UuidText, !Json Envelope, !Json Marker, !Json DeviceCommandPayload, !Json ServiceActionParams,
  !Json ProcessTerminateParams, !Json FilesListParams, !Json FilesMkdirParams, !Json FilesRenameParams,
  !Json FilesDeleteParams, !Json FilesDownloadParams, !Json FilesUploadParams, !Json LogsQueryParams,
  !Json AgentUpdateParams, !Json SessionOpenPayload, !Json TerminalResizePayload, !Json SessionClosePayload}.
Context (policy : AgentPolicy) (dataDir : string).
(** The operating system: the JSON of the result, or an error text. *)
Context (os_result : list os_action → os_action → res string bytes).
(** The account name and password in the result of [EnsureSupportAccount]. *)
Context (credential_of : bytes → SupportCredentialReportPayload).
(** Local writes: how much of the data a stream takes, what a failing file
    write leaves, and the error, if any, of writing to or closing a file. *)
Context (stream_takes : stream → bytes → bytes) (file_takes : writer → bytes → bytes).
Context (write_fails : writer → bytes → bool) (close_fails : writer → option string).
(** The self-update's parameters ([AgentUpdate]). *)
Context (ed25519_verify : bytes → bytes → bytes → bool) (torn : bytes → bytes)
  (os_executable : option string) (PathSeparator : string) (http_get : string → option http_response)
  (ReleasePublicKeyHex : string) (update_text : update_error → string).

Definition act (a : os_action) : AM bytes :=
  upd (on_actions (λ l, l ++ [a]));;
  s ← mstate (λ s, (s, s));
  mlift (os_result (ag_actions s) a).

(** Encoding and sending share one failure. *)
(* internal/agentcore/session.go:60-68 writeEnvelope *)
Definition writeEnvelope (ty : string) (req : option string) (p : payload) : AM unit :=
  mexec "write"%string (on_sent (λ l, l ++ [OutText ty req p])).

(* internal/agentcore/session.go:70-75 writeBinaryFrame *)
Definition writeBinaryFrame (kind : byte) (streamID : uuid) (data : bytes) : AM unit :=
  mexec "write"%string (on_sent (λ l, l ++ [OutBinary (EncodeStreamFrame kind streamID data)])).

(** ** Replies *)

(* internal/agentcore/commands.go:258-265 replyCommand *)
Definition replyCommand (requestID status code message : string) (data : option bytes) : AM unit :=
  mignore (writeEnvelope TypeCommandResult (Some requestID) (PResult (mkResult status code message data))).

(* internal/agentcore/commands.go:246-248 deny *)
Definition deny (requestID message : string) : AM unit :=
  replyCommand requestID "error" CodePermissionDenied message None.

(* internal/agentcore/commands.go:250-256 replyResult *)
Definition replyResult (requestID : string) (r : res string (option bytes)) : AM unit :=
  match r with
  | Err e => replyCommand requestID "error" CodeInternalError e None
  | Ok data => replyCommand requestID "success" CodeOK "" data
  end.

(* internal/agentcore/sessions.go:214-221 replySessionOpenResult *)
Definition replySessionOpenResult (requestID sessionID status code message : string) : AM unit :=
  mignore (writeEnvelope TypeSessionOpenResult (Some requestID)
    (POpenResult (mkOpenResult sessionID status code message))).

(* internal/agentcore/commands.go:241-244 decodeParams *)
Definition decodeParams {P} `{!Json P} (raw : bytes) : res codec_error P :=
  DecodePayload (mkEnvelope 0 "" "" None 0 raw).

(** ** Commands *)

Definition perform_and_reply (requestID : string) (a : os_action) (keep : bool) : AM unit :=
  r ← mtry (act a);
  replyResult requestID (match r with
                         | Ok data => Ok (if keep then Some data else None)
                         | Err e => Err e
                         end).
Definition with_params {P} `{!Json P} (requestID : string) (raw : bytes) (k : P → AM unit) : AM unit :=
  match decodeParams raw with
  | Err _ => replyCommand requestID "error" CodeInvalidRequest "malformed params" None
  | Ok p => k p
  end.

(** The self-update runs on the install's files. *)
Definition update_install (p : AgentUpdateParams) : AM unit :=
  upd (on_actions (λ l, l ++ [SelfUpdate p]));;
  mwrap update_text (mzoom ag_fs with_fs
    (beginUpdate ed25519_verify torn os_executable PathSeparator http_get ReleasePublicKeyHex dataDir p)).

(* internal/agentcore/commands.go:146-167 handleDeviceCommand, case CmdFilesDownload *)
Definition download_command (id : string) (raw : bytes) : AM unit :=
  if negb (ap_FilesRead policy) then deny id "file access disabled by local agent policy" else
  with_params id raw (λ p : FilesDownloadParams,
    match uuid_parse (dl_StreamID p) with
    | None => replyCommand id "error" CodeInvalidRequest "invalid stream_id" None
    | Some streamID =>
        r ← mtry (act (OpenRead (dl_Path p)));
        match r with
        | Err e => replyResult id (Err e)
        | Ok size => replyResult id (Ok (Some size));; upd (on_downloads (cons streamID))
        end
    end).

(* internal/agentcore/commands.go:169-193 handleDeviceCommand, case CmdAgentUpdate *)
Definition update_command (id : string) (raw : bytes) : AM unit :=
  if negb (ap_SelfUpdate policy) then deny id "self-update disabled by local agent policy" else
  with_params id raw (λ p : AgentUpdateParams,
    r ← mtry (update_install p);
    match r with
    | Err e => replyCommand id "error" CodeInternalError e None
    | Ok _ =>
        replyCommand id "success" CodeOK "update staged, restarting" None;;
        upd set_exiting
    end).

(* internal/agentcore/commands.go:195-211 handleDeviceCommand, case CmdRotateSupportCredential *)
Definition rotate_command (id : string) : AM unit :=
  if negb (ap_SSHTunnel policy) && negb (ap_RDPTunnel policy)
  then deny id "SSH/RDP tunnel disabled by local agent policy" else
  r ← mtry (act EnsureSupportAccount);
  match r with
  | Err e => replyCommand id "error" CodeInternalError e None
  | Ok out =>
      w ← mtry (writeEnvelope TypeSupportCredentialReport None (PCredential (credential_of out)));
      match w with
      | Err _ => replyCommand id "error" CodeInternalError "rotated locally but failed to report to server" None
      | Ok _ => replyCommand id "success" CodeOK "support credential rotated" None
      end
  end.

(* internal/agentcore/commands.go:213-234 handleDeviceCommand, case CmdFilesUpload *)
Definition upload_command (id : string) (raw : bytes) : AM unit :=
  if negb (ap_FilesWrite policy) then deny id "file write disabled by local agent policy" else
  with_params id raw (λ p : FilesUploadParams,
    match uuid_parse (ul_StreamID p) with
    | None => replyCommand id "error" CodeInvalidRequest "invalid stream_id" None
    | Some streamID =>
        r ← mtry (act (OpenWrite (ul_Path p)));
        match r with
        | Err e => replyResult id (Err e)
        | Ok _ =>
            upd (λ s, bump (on_ups (<[streamID := ag_next s]>)
                             (on_writers (<[ag_next s := mkWriter (ul_Path p) [] false]>) s)));;
            replyResult id (Ok None)
        end
    end).

(* internal/agentcore/commands.go:18-239 handleDeviceCommand *)
Definition handleDeviceCommand (env : Envelope) : AM unit :=
  let id := env_MessageID env in
  match DecodePayload env with
  | Err _ => replyCommand id "error" CodeInvalidRequest "malformed device_command" None
  | Ok cmd =>
      let ty := dc_CommandType cmd in
      let raw := dc_Params cmd in
      if String.eqb ty CmdServicesList then
        if negb (ap_ServiceControl policy) then deny id "service control disabled by local agent policy" else
        perform_and_reply id ListServices true
      else if String.eqb ty CmdServiceStart || String.eqb ty CmdServiceStop || String.eqb ty CmdServiceRestart then
        if negb (ap_ServiceControl policy) then deny id "service control disabled by local agent policy" else
        with_params id raw (λ p : ServiceActionParams,
          perform_and_reply id
            (if String.eqb ty CmdServiceStart then StartService (sa_Name p)
             else if String.eqb ty CmdServiceStop then StopService (sa_Name p)
             else RestartService (sa_Name p)) false)
      else if String.eqb ty CmdProcessesList then perform_and_reply id ListProcesses true
      else if String.eqb ty CmdProcessTerminate then
        if negb (ap_ProcessTerminate policy) then deny id "process termination disabled by local agent policy" else
        with_params id raw (λ p : ProcessTerminateParams,
          perform_and_reply id (TerminateProcess (pt_PID p) (pt_StartTimeUnixMS p)) false)
      else if String.eqb ty CmdFilesList then
        if negb (ap_FilesRead policy) then deny id "file access disabled by local agent policy" else
        with_params id raw (λ p : FilesListParams, perform_and_reply id (ListDir (fl_Path p)) true)
      else if String.eqb ty CmdFilesMkdir then
        if negb (ap_FilesWrite policy) then deny id "file write disabled by local agent policy" else
        with_params id raw (λ p : FilesMkdirParams, perform_and_reply id (Mkdir (fm_Path p)) false)
      else if String.eqb ty CmdFilesRename then
        if negb (ap_FilesWrite policy) then deny id "file write disabled by local agent policy" else
        with_params id raw (λ p : FilesRenameParams,
          perform_and_reply id (RenamePath (fr_From p) (fr_To p)) false)
      else if String.eqb ty CmdFilesDelete then
        if negb (ap_FilesWrite policy) then deny id "file write disabled by local agent policy" else
        with_params id raw (λ p : FilesDeleteParams, perform_and_reply id (DeletePath (fd_Path p)) false)
      else if String.eqb ty CmdLogsQuery then
        if negb (ap_FilesRead policy) then deny id "log access disabled by local agent policy" else
        with_params id raw (λ p : LogsQueryParams, perform_and_reply id (QueryLogs p) true)
      else if String.eqb ty CmdFilesDownload then download_command id raw
      else if String.eqb ty CmdAgentUpdate then update_command id raw
      else if String.eqb ty CmdRotateSupportCredential then rotate_command id
      else if String.eqb ty CmdFilesUpload then upload_command id raw
      else replyCommand id "error" CodeUnsupportedCapability "unknown command_type" None
  end.

(** ** Sessions *)

(** [sessions.add] and [go pumpStream]. *)
Definition add_session (sessionID : uuid) (terminal : bool) : AM unit :=
  upd (λ s, bump (on_pumps (cons (sessionID, ag_next s))
              (on_sess (<[sessionID := ag_next s]>)
                (on_streams (<[ag_next s := mkStream terminal [] None false]>) s)))).

(* internal/agentcore/sessions.go:96-113 openTerminalSession *)
Definition openTerminalSession (requestID : string) (sessionID : uuid) : AM unit :=
  if negb (ap_Terminal policy)
  then replySessionOpenResult requestID (uuid_string sessionID) "error" CodePermissionDenied
         "terminal disabled by local agent policy" else
  r ← mtry (act OpenTerminal);
  match r with
  | Err _ => replySessionOpenResult requestID (uuid_string sessionID) "error" CodeInternalError
               "failed to open terminal"
  | Ok _ =>
      add_session sessionID true;;
      replySessionOpenResult requestID (uuid_string sessionID) "success" CodeOK ""
  end.

(* internal/agentcore/sessions.go:119-139 openTunnelSession *)
Definition openTunnelSession (requestID : string) (sessionID : uuid) (target : string) (allowed : bool) : AM unit :=
  if negb allowed
  then replySessionOpenResult requestID (uuid_string sessionID) "error" CodePermissionDenied
         "tunnel disabled by local agent policy" else
  r ← mtry (act (DialTCP target));
  match r with
  | Err _ => replySessionOpenResult requestID (uuid_string sessionID) "error" CodeInternalError
               "failed to reach local target"
  | Ok _ =>
      add_session sessionID false;;
      replySessionOpenResult requestID (uuid_string sessionID) "success" CodeOK ""
  end.

(* internal/agentcore/sessions.go:71-94 handleSessionOpen *)
Definition handleSessionOpen (env : Envelope) : AM unit :=
  let id := env_MessageID env in
  match DecodePayload env with
  | Err _ => replySessionOpenResult id "" "error" CodeInvalidRequest "malformed session_open"
  | Ok req =>
      match uuid_parse (so_SessionID req) with
      | None => replySessionOpenResult id (so_SessionID req) "error" CodeInvalidRequest "invalid session_id"
      | Some sessionID =>
          if String.eqb (so_Kind req) "terminal" then openTerminalSession id sessionID
          else if String.eqb (so_Kind req) "ssh_local"
          then openTunnelSession id sessionID "127.0.0.1:22" (ap_SSHTunnel policy)
          else if String.eqb (so_Kind req) "rdp_local"
          then openTunnelSession id sessionID "127.0.0.1:3389" (ap_RDPTunnel policy)
          else replySessionOpenResult id (so_SessionID req) "error" CodeUnsupportedCapability
                 ("unsupported session kind " +:+ so_Kind req)
      end
  end.

(* internal/agentcore/sessions.go:44-52 remove *)
Definition remove_session (sessionID : uuid) : AM (option nat) :=
  mstate (λ s, (ag_sessions s !! sessionID, on_sess (delete sessionID) s)).

(* internal/agentcore/sessions.go:185-197 handleSessionClose *)
Definition handleSessionClose (env : Envelope) : AM unit :=
  match DecodePayload (P := SessionClosePayload) env with
  | Err _ => mret tt
  | Ok req =>
      match uuid_parse (cl_SessionID req) with
      | None => mret tt
      | Some sessionID =>
          r ← remove_session sessionID;
          match r with
          | Some n => upd (on_streams (alter close_stream n))
          | None => mret tt
          end
      end
  end.

(* internal/agentcore/sessions.go:166-183 handleTerminalResize *)
Definition handleTerminalResize (env : Envelope) : AM unit :=
  match DecodePayload (P := TerminalResizePayload) env with
  | Err _ => mret tt
  | Ok req =>
      match uuid_parse (tr_SessionID req) with
      | None => mret tt
      | Some sessionID =>
          s ← mstate (λ s, (s, s));
          match ag_sessions s !! sessionID with
          | Some n => upd (on_streams (alter (λ x, if sm_terminal x && negb (sm_closed x)
                                                   then resize_stream (tr_Cols req) (tr_Rows req) x else x) n))
          | None => mret tt
          end
      end
  end.

(** The end of [pumpStream]: the session leaves the table, its stream is
    closed, and the server is told. *)
(* internal/agentcore/sessions.go:157-163 pumpStream *)
Definition pump_end (sessionID : uuid) (n : nat) : AM unit :=
  upd (on_pumps (λ l, list_difference l [(sessionID, n)]));;
  r ← remove_session sessionID;
  match r with
  | Some _ => upd (on_streams (alter close_stream n))
  | None => mret tt
  end;;
  mignore (E := string) (writeEnvelope TypeSessionClose None
    (PClose (mkSessionClose (uuid_string sessionID) "stream_ended"))).

(** One turn of the pump: what [Read] returned, and whether it also ended. *)
(* internal/agentcore/sessions.go:144-164 pumpStream *)
Definition pump_turn (sessionID : uuid) (n : nat) (chunk : bytes) (ended : bool) : AM unit :=
  s ← mstate (λ s, (s, s));
  let kind := match ag_streams s !! n with
              | Some x => if sm_terminal x then StreamKindTerminal else StreamKindTunnel
              | None => StreamKindTunnel
              end in
  w ← mtry (E := string) (match chunk with [] => mret tt | _ => writeBinaryFrame kind sessionID chunk end);
  match w with
  | Err _ => pump_end sessionID n
  | Ok _ => if ended then pump_end sessionID n else mret tt
  end.

(** ** File transfers *)

(** One turn of [pumpFileDownload]: what [Read] returned, and whether it
    ended, by end of file or by an error. *)
(* internal/agentcore/files.go:64-79 pumpFileDownload *)
Definition download_turn (streamID : uuid) (chunk : bytes) (ended : bool) : AM unit :=
  let finish := upd (on_downloads (λ l, list_difference l [streamID])) in
  w ← mtry (E := string) (match chunk with [] => mret tt | _ => writeBinaryFrame StreamKindFile streamID chunk end);
  match w with
  | Err _ => finish
  | Ok _ =>
      if ended then mignore (E := string) (writeBinaryFrame StreamKindFile streamID []);; finish
      else mret tt
  end.

(* internal/agentcore/files.go:39-47 removeUpload *)
Definition removeUpload (streamID : uuid) : AM unit := upd (on_ups (delete streamID)).

(* internal/agentcore/files.go:85-107 handleFileBinaryFrame *)
Definition handleFileBinaryFrame (streamID : uuid) (data : bytes) : AM unit :=
  s ← mstate (λ s, (s, s));
  match ag_uploads s !! streamID with
  | None => mret tt
  | Some n =>
      match ag_writers s !! n with
      | None => mret tt
      | Some w =>
          match data with
          | [] =>
              removeUpload streamID;;
              upd (on_writers (alter close_writer n));;
              mignore (E := string) (writeEnvelope TypeCommandResult (Some (uuid_string streamID))
                (PResult (match close_fails w with
                          | Some msg => mkResult "error" CodeInternalError msg None
                          | None => mkResult "success" CodeOK "" None
                          end)))
          | _ =>
              if write_fails w data then
                upd (on_writers (alter (feed_writer (file_takes w data)) n));;
                removeUpload streamID;;
                upd (on_writers (alter close_writer n))
              else upd (on_writers (alter (feed_writer data) n))
          end
      end
  end.

(* internal/agentcore/sessions.go:199-212 handleBinaryFrame *)
Definition handleBinaryFrame (raw : bytes) : AM unit :=
  match DecodeStreamFrame raw with
  | Err _ => mret tt
  | Ok (kind, streamID, data) =>
      if Ascii.eqb kind StreamKindTerminal || Ascii.eqb kind StreamKindTunnel then
        s ← mstate (λ s, (s, s));
        match ag_sessions s !! streamID with
        | Some n => upd (on_streams (alter (λ x, feed_stream (stream_takes x data) x) n))
        | None => mret tt
        end
      else if Ascii.eqb kind StreamKindFile then handleFileBinaryFrame streamID data
      else mret tt
  end.

(** ** The connection *)

(* internal/agentcore/session.go:339-369 handleMessage *)
Definition handleMessage (env : Envelope) : AM unit :=
  let ty := env_Type env in
  if String.eqb ty TypeInventoryRequest then
    r ← mtry (act CollectInventory);
    match r with
    | Err _ => mret tt
    | Ok inv => mignore (E := string) (writeEnvelope TypeInventoryResponse (Some (env_MessageID env)) (PReport inv))
    end
  else if String.eqb ty TypeSessionOpen then handleSessionOpen env
  else if String.eqb ty TypeTerminalResize then handleTerminalResize env
  else if String.eqb ty TypeSessionClose || String.eqb ty TypeTerminalClose then handleSessionClose env
  else if String.eqb ty TypeDeviceCommand then handleDeviceCommand env
  else mret tt.

(** One message off the socket; one over the limit set on it makes the read
    fail, which ends the loop and the connection. *)
(* internal/agentcore/session.go:316-337 readLoop *)
Definition readLoop_turn (binary : bool) (raw : bytes) : AM unit :=
  if too_long raw MaxInventoryBytes then mfail "read"%string
  else if binary then handleBinaryFrame raw
  else match Decode raw with
       | Err _ => mret tt
       | Ok env => handleMessage env
       end.

(* internal/agentcore/session.go:232-241 sendMetrics *)
Definition sendMetrics : AM unit :=
  r ← mtry (act CollectMetrics);
  match r with
  | Err _ => mret tt
  | Ok m => mignore (E := string) (writeEnvelope TypeMetricsReport None (PReport m))
  end.

(* internal/agentcore/session.go:224-230 uptimeSeconds *)
Definition uptimeSeconds (uptime_of : bytes → Z) : AM Z :=
  r ← mtry (act CollectInventory);
  mret (match r with Ok inv => uptime_of inv | Err _ => 0%Z end).

(** [provisioned]: the local marker file exists; the result says whether it is
    to be written. *)
(* internal/agentcore/session.go:203-222 ensureSupportAccountProvisioned *)
Definition ensureSupportAccountProvisioned (provisioned : bool) : AM bool :=
  if provisioned then mret true else
  r ← mtry (act EnsureSupportAccount);
  match r with
  | Err _ => mret false
  | Ok out =>
      w ← mtry (E := string) (writeEnvelope TypeSupportCredentialReport None (PCredential (credential_of out)));
      mret (is_ok w)
  end.

(** A connection starts with empty tables and a metrics report. *)
(* internal/agentcore/session.go:102-123 runSession *)
Definition connected : AM unit :=
  upd (λ s, on_ups (λ _, ∅) (on_sess (λ _, ∅) s));; sendMetrics.

(* internal/agentcore/session.go:135-142 runSession *)
Definition heartbeat_turn (uptime_of : bytes → Z) (seq : Z) : AM unit :=
  uptime ← uptimeSeconds uptime_of;
  writeEnvelope TypeHeartbeat None (PHeartbeat (mkHeartbeat uptime seq)).

(** [sessions.closeAll] and [files.closeAll], when the connection ends. *)
(* internal/agentcore/sessions.go:54-65 closeAll *)
Definition close_sessions (s : agent) : agent :=
  on_sess (λ _, ∅) (on_streams (map_imap (λ n x,
    Some (if bool_decide (map_Exists (λ _ m, m = n) (ag_sessions s)) then close_stream x else x))) s).
(* internal/agentcore/files.go:49-60 closeAll *)
Definition close_uploads (s : agent) : agent :=
  on_ups (λ _, ∅) (on_writers (map_imap (λ n x,
    Some (if bool_decide (map_Exists (λ _ m, m = n) (ag_uploads s)) then close_writer x else x))) s).
Definition disconnected : AM unit := upd (close_sessions ∘ close_uploads).

(** What can happen to the agent, in any order: messages of the server, turns
    of the goroutines it started, timers, and connections that come and go. *)
Inductive agent_step (s s' : agent) : Prop :=
| agent_read binary raw : effect (readLoop_turn binary raw) s s' → agent_step s s'
| agent_pump sid n chunk ended :
    (sid, n) ∈ ag_pumps s → effect (pump_turn sid n chunk ended) s s' → agent_step s s'
| agent_download sid chunk ended :
    sid ∈ ag_downloads s → effect (download_turn sid chunk ended) s s' → agent_step s s'
| agent_provision provisioned :
    ap_SSHTunnel policy || ap_RDPTunnel policy = true →
    effect (ensureSupportAccountProvisioned provisioned) s s' → agent_step s s'
| agent_metrics : effect sendMetrics s s' → agent_step s s'
| agent_heartbeat uptime_of seq : effect (heartbeat_turn uptime_of seq) s s' → agent_step s s'
| agent_connected : effect connected s s' → agent_step s s'
| agent_disconnected : effect disconnected s s' → agent_step s s'.

Definition fresh_agent (s : agent) : Prop :=
  ag_sessions s = ∅ ∧ ag_uploads s = ∅ ∧ ag_streams s = ∅ ∧ ag_writers s = ∅ ∧ ag_actions s = [] ∧
  ag_sent s = [] ∧ ag_pumps s = [] ∧ ag_downloads s = [].

(** ** Local policy *)

(** What happened since is permitted. *)
Definition obeys (s s' : agent) : Prop :=
  ∃ l, ag_actions s' = ag_actions s ++ l ∧ Forall (λ a, permitted policy a = true) l.
#[local] Instance obeys_preorder : PreOrder obeys.
Proof.
  split; [intros s; exists []; by rewrite app_nil_r|].
  intros s1 s2 s3 (l1 & E1 & H1) (l2 & E2 & H2). exists (l1 ++ l2).
  rewrite E2, E1, app_assoc. split; [done|]. by apply Forall_app.
Qed.

Lemma obeys_same s s' : ag_actions s' = ag_actions s → obeys s s'.
Proof. intros E. exists []. by rewrite app_nil_r. Qed.

Lemma upd_obeys f : (∀ s, ag_actions (f s) = ag_actions s) → preserves obeys (upd f).
Proof. intros Hf. apply preserves_mstate. intros s. apply obeys_same, Hf. Qed.
Lemma look_obeys : preserves obeys (mstate (λ s, (s, s)) : AM agent).
Proof. apply preserves_mstate. intros s. by apply obeys_same. Qed.
Lemma writeEnvelope_obeys ty req p : preserves obeys (writeEnvelope ty req p).
Proof. apply preserves_mexec; [apply _|]. intros s. by apply obeys_same. Qed.
Lemma writeBinaryFrame_obeys k id d : preserves obeys (writeBinaryFrame k id d).
Proof. apply preserves_mexec; [apply _|]. intros s. by apply obeys_same. Qed.
Lemma remove_session_obeys sid : preserves obeys (remove_session sid).
Proof. apply preserves_mstate. intros s. by apply obeys_same. Qed.
Lemma record_obeys a : permitted policy a = true → preserves obeys (upd (on_actions (λ l, l ++ [a]))).
Proof.
  intros Ha. apply preserves_mstate. intros s. exists [a]. split; [done|]. by constructor.
Qed.
#[local] Hint Resolve look_obeys writeEnvelope_obeys writeBinaryFrame_obeys remove_session_obeys : preserve.
#[local] Hint Extern 1 (preserves obeys (upd _)) => (apply upd_obeys; intros; reflexivity) : preserve.

Ltac guards :=
  repeat match goal with
  | H : negb _ = false |- _ => apply negb_false_iff in H
  | H : (negb _ && negb _) = false |- _ => rewrite <-negb_orb in H
  end.
(** Like [preserve_steps], remembering the guards passed. *)
Ltac obey_steps :=
  repeat (lazymatch goal with
          | |- preserves _ (match ?x with _ => _ end) => destruct x eqn:?
          | _ => first [preserve_step | solve [eauto with preserve typeclass_instances]]
          end).

Lemma act_obeys a : permitted policy a = true → preserves obeys (act a).
Proof. intros Ha. unfold act. apply preserves_mbind; [apply _|by apply record_obeys|]. intros _. obey_steps. Qed.
#[local] Hint Extern 2 (preserves obeys (act _)) =>
  (apply act_obeys; guards; simpl; repeat case_match; try done; by apply orb_true_iff; eauto) : preserve.

Lemma replyCommand_obeys a b c d e : preserves obeys (replyCommand a b c d e).
Proof. unfold replyCommand. obey_steps. Qed.
#[local] Hint Resolve replyCommand_obeys : preserve.
Lemma replyResult_obeys a r : preserves obeys (replyResult a r).
Proof. unfold replyResult. obey_steps. Qed.
#[local] Hint Resolve replyResult_obeys : preserve.
Lemma perform_obeys id a keep : permitted policy a = true → preserves obeys (perform_and_reply id a keep).
Proof. intros Ha. unfold perform_and_reply. obey_steps. Qed.
Lemma with_params_obeys {P} `{!Json P} id raw (k : P → AM unit) :
  (∀ p, preserves obeys (k p)) → preserves obeys (with_params id raw k).
Proof. intros Hk. unfold with_params. obey_steps. Qed.
Lemma update_install_obeys p : ap_SelfUpdate policy = true → preserves obeys (update_install p).
Proof.
  intros Hp. unfold update_install. apply preserves_mbind; [apply _|by apply record_obeys|]. intros _.
  apply preserves_mwrap. eapply (preserves_mzoom _ _ _ (λ _ _, True)); [by intros t; apply always_any|].
  intros s t _. by apply obeys_same.
Qed.
#[local] Hint Resolve with_params_obeys update_install_obeys : preserve.
#[local] Hint Extern 2 (preserves obeys (perform_and_reply _ _ _)) =>
  (apply perform_obeys; guards; simpl; repeat case_match; done) : preserve.

Lemma handleDeviceCommand_obeys env : preserves obeys (handleDeviceCommand env).
Proof.
  unfold handleDeviceCommand, download_command, update_command, rotate_command, upload_command, deny. obey_steps; guards; eauto with preserve;
    apply with_params_obeys; intros p; obey_steps.
Qed.

Lemma replyOpen_obeys a b c d e : preserves obeys (replySessionOpenResult a b c d e).
Proof. unfold replySessionOpenResult. obey_steps. Qed.
#[local] Hint Resolve replyOpen_obeys handleDeviceCommand_obeys : preserve.
Lemma openTerminalSession_obeys r sid : preserves obeys (openTerminalSession r sid).
Proof. unfold openTerminalSession, add_session. obey_steps. Qed.
Lemma openTunnelSession_obeys r sid target allowed :
  (allowed = true → permitted policy (DialTCP target) = true) →
  preserves obeys (openTunnelSession r sid target allowed).
Proof.
  intros Ha. unfold openTunnelSession, add_session. destruct allowed; simpl; [|by auto with preserve].
  apply preserves_mbind; [apply _|apply preserves_mtry, act_obeys, Ha; done|]. intros r'. obey_steps.
Qed.
#[local] Hint Resolve openTerminalSession_obeys : preserve.
#[local] Hint Extern 2 (preserves obeys (openTunnelSession _ _ _ _)) =>
  (apply openTunnelSession_obeys; simpl; intros ->; reflexivity) : preserve.
Lemma handleSessionOpen_obeys env : preserves obeys (handleSessionOpen env).
Proof. unfold handleSessionOpen. obey_steps. Qed.
Lemma handleSessionClose_obeys env : preserves obeys (handleSessionClose env).
Proof. unfold handleSessionClose. obey_steps. Qed.
Lemma handleTerminalResize_obeys env : preserves obeys (handleTerminalResize env).
Proof. unfold handleTerminalResize. obey_steps. Qed.
Lemma handleFileBinaryFrame_obeys sid d : preserves obeys (handleFileBinaryFrame sid d).
Proof. unfold handleFileBinaryFrame, removeUpload. obey_steps. Qed.
#[local] Hint Resolve handleSessionOpen_obeys handleSessionClose_obeys handleTerminalResize_obeys
  handleFileBinaryFrame_obeys : preserve.
Lemma handleBinaryFrame_obeys raw : preserves obeys (handleBinaryFrame raw).
Proof. unfold handleBinaryFrame. obey_steps. Qed.
Lemma handleMessage_obeys env : preserves obeys (handleMessage env).
Proof. unfold handleMessage. obey_steps. Qed.
#[local] Hint Resolve handleBinaryFrame_obeys handleMessage_obeys : preserve.
Lemma readLoop_turn_obeys b raw : preserves obeys (readLoop_turn b raw).
Proof. unfold readLoop_turn. obey_steps. Qed.
Lemma pump_end_obeys sid n : preserves obeys (pump_end sid n).
Proof. unfold pump_end. obey_steps. Qed.
#[local] Hint Resolve readLoop_turn_obeys pump_end_obeys : preserve.
Lemma pump_turn_obeys sid n c e : preserves obeys (pump_turn sid n c e).
Proof. unfold pump_turn. obey_steps. Qed.
Lemma download_turn_obeys sid c e : preserves obeys (download_turn sid c e).
Proof. unfold download_turn. obey_steps. Qed.
Lemma sendMetrics_obeys : preserves obeys sendMetrics.
Proof. unfold sendMetrics. obey_steps. Qed.
#[local] Hint Resolve pump_turn_obeys download_turn_obeys sendMetrics_obeys : preserve.
Lemma heartbeat_obeys f seq : preserves obeys (heartbeat_turn f seq).
Proof. unfold heartbeat_turn, uptimeSeconds. obey_steps. Qed.
Lemma provision_obeys b :
  ap_SSHTunnel policy || ap_RDPTunnel policy = true → preserves obeys (ensureSupportAccountProvisioned b).
Proof. intros Hp. unfold ensureSupportAccountProvisioned. obey_steps. Qed.
Lemma connected_obeys : preserves obeys connected.
Proof. unfold connected. obey_steps. Qed.
Lemma disconnected_obeys : preserves obeys disconnected.
Proof. unfold disconnected. obey_steps. Qed.
#[local] Hint Resolve heartbeat_obeys provision_obeys connected_obeys disconnected_obeys : preserve.

Lemma effect_obeys {A} (m : AM A) s s' : preserves obeys m → effect m s s' → obeys s s'.
Proof. intros Hm. apply effect_always, Hm. Qed.

(** C7: the local policy is final: whatever messages and frames a server sends,
    in whatever order and over however many connections, the agent performs no
    operation on the device that its local policy does not permit: no
    terminal, file, log, service, process, account or update operation whose
    flag is off, and no connection other than to the local SSH or RDP port
    with the matching flag on. *)
Theorem local_policy_enforced s a :
  reachable fresh_agent agent_step s → a ∈ ag_actions s → permitted policy a = true.
Proof.
  intros Hr. revert a. apply (proj1 (list.Forall_forall (λ a, permitted policy a = true) (ag_actions s))).
  revert s Hr. apply invariant_reachable.
  - intros s (_ & _ & _ & _ & -> & _). constructor.
  - intros s s' Hs Hst. assert (obeys s s') as (l & -> & Hl).
    { destruct Hst; (eapply effect_obeys; [|eassumption]); auto with preserve. }
    by apply Forall_app.
Qed.

(** ** Answers *)

Definition is_result (m : outgoing) : bool :=
  match m with OutText _ _ (PResult _) => true | _ => false end.

(** The table of commands: the one operation a command stands for, [None] where
    its type is unknown or its parameters do not decode. *)
Definition params_of {P} `{!Json P} (raw : bytes) : option P :=
  match decodeParams raw with Ok p => Some p | Err _ => None end.
Definition command_table (raw : bytes) : list (string * option os_action) :=
  [(CmdServicesList, Some ListServices);
   (CmdServiceStart, p ← params_of (P := ServiceActionParams) raw; Some (StartService (sa_Name p)));
   (CmdServiceStop, p ← params_of (P := ServiceActionParams) raw; Some (StopService (sa_Name p)));
   (CmdServiceRestart, p ← params_of (P := ServiceActionParams) raw; Some (RestartService (sa_Name p)));
   (CmdProcessesList, Some ListProcesses);
   (CmdProcessTerminate, p ← params_of (P := ProcessTerminateParams) raw; Some (TerminateProcess (pt_PID p) (pt_StartTimeUnixMS p)));
   (CmdFilesList, p ← params_of (P := FilesListParams) raw; Some (ListDir (fl_Path p)));
   (CmdFilesMkdir, p ← params_of (P := FilesMkdirParams) raw; Some (Mkdir (fm_Path p)));
   (CmdFilesRename, p ← params_of (P := FilesRenameParams) raw; Some (RenamePath (fr_From p) (fr_To p)));
   (CmdFilesDelete, p ← params_of (P := FilesDeleteParams) raw; Some (DeletePath (fd_Path p)));
   (CmdLogsQuery, p ← params_of (P := LogsQueryParams) raw; Some (QueryLogs p));
   (CmdFilesDownload, p ← params_of (P := FilesDownloadParams) raw; _ ← uuid_parse (dl_StreamID p); Some (OpenRead (dl_Path p)));
   (CmdAgentUpdate, p ← params_of (P := AgentUpdateParams) raw; Some (SelfUpdate p));
   (CmdRotateSupportCredential, Some EnsureSupportAccount);
   (CmdFilesUpload, p ← params_of (P := FilesUploadParams) raw; _ ← uuid_parse (ul_StreamID p); Some (OpenWrite (ul_Path p)))].
Fixpoint entry {A} (key : string) (l : list (string * option A)) : option A :=
  match l with
  | [] => None
  | (k, x) :: rest => if String.eqb key k then x else entry key rest
  end.
Definition wanted (env : Envelope) : option os_action :=
  match DecodePayload (P := DeviceCommandPayload) env with
  | Err _ => None
  | Ok cmd => entry (dc_CommandType cmd) (command_table (dc_Params cmd))
  end.

(** What the operation gives on this machine, in this state. *)
Definition outcome (s : agent) (a : os_action) : option string :=
  match a with
  | SelfUpdate p => match (run (update_install p) s).1 with Ok _ => None | Err e => Some e end
  | _ => match os_result (ag_actions s ++ [a]) a with Ok _ => None | Err e => Some e end
  end.

(** What the agent did and reported of a wanted operation. *)
Definition settled (want : option os_action) (s : agent) (l : list os_action) (p : CommandResultPayload) : Prop :=
  match want with
  | Some a =>
      if permitted policy a then
        l = [a] ∧ match outcome s a with
                  | None => rp_Status p = "success" ∧ rp_Code p = CodeOK
                  | Some e => rp_Status p = "error" ∧ rp_Code p = CodeInternalError ∧ rp_Message p = e
                  end
      else l = [] ∧ rp_Status p = "error" ∧ rp_Code p = CodePermissionDenied
  | None =>
      l = [] ∧ rp_Status p = "error" ∧ rp_Code p ∈ [CodePermissionDenied; CodeInvalidRequest; CodeUnsupportedCapability]
  end.
(** One correlated answer at the end. *)
Definition answered (id : string) (want : option os_action) (s s' : agent) : Prop :=
  ∃ pre p l,
    ag_sent s' = ag_sent s ++ pre ++ [OutText TypeCommandResult (Some id) (PResult p)] ∧
    Forall (λ m, is_result m = false) pre ∧
    ag_actions s' = ag_actions s ++ l ∧ settled want s l p.

Lemma update_runs p s :
  ideal (update_install p) (λ r s', ag_sent s' = ag_sent s ∧ ag_actions s' = ag_actions s ++ [SelfUpdate p]) s.
Proof.
  unfold update_install, upd, beginUpdate, StageAndSwap, SaveMarker, WriteFile, Remove, Rename.
  repeat first [ideal_step | case_match]; done.
Qed.

Lemma ideal_known {S E A} (m : M S E A) Q s : ideal m Q s → ideal m (λ r s', Q r s' ∧ run m s = (r, s')) s.
Proof. intros (r & s' & E1 & HQ). exists r, s'. unfold run. by rewrite E1. Qed.

(** The shapes of an answer: nothing done, or the operation done and what was
    sent in between. *)
Lemma answered_refused id want code msg s :
  settled want s [] (mkResult "error" code msg None) →
  ideal (replyCommand id "error" code msg None) (λ _, answered id want s) s.
Proof.
  intros Hc. unfold replyCommand, writeEnvelope. ideal_steps.
  exists [], (mkResult "error" code msg None), []. rewrite app_nil_r. auto.
Qed.
Lemma answered_after id s s1 pre a p :
  permitted policy a = true → ag_sent s1 = ag_sent s ++ pre → Forall (λ m, is_result m = false) pre →
  ag_actions s1 = ag_actions s ++ [a] →
  match outcome s a with
  | None => rp_Status p = "success" ∧ rp_Code p = CodeOK
  | Some e => rp_Status p = "error" ∧ rp_Code p = CodeInternalError ∧ rp_Message p = e
  end →
  answered id (Some a) s (on_sent (λ l, l ++ [OutText TypeCommandResult (Some id) (PResult p)]) s1).
Proof.
  intros Hpol Hs Hpre Ha Hp. exists pre, p, [a]. simpl. rewrite Hs, Hpol, <-app_assoc. by split_and!.
Qed.
Lemma answered_same id want s s1 s2 :
  ag_sent s2 = ag_sent s1 → ag_actions s2 = ag_actions s1 → answered id want s s1 → answered id want s s2.
Proof. unfold answered. by intros -> ->. Qed.

(** A branch behind its switch of the policy. *)
Lemma guarded id want g msg (m : AM unit) s :
  (∀ a, want = Some a → permitted policy a = g) → (g = true → ideal m (λ _, answered id want s) s) →
  ideal (if negb g then deny id msg else m) (λ _, answered id want s) s.
Proof.
  intros Hw Hm. destruct g; [by apply Hm|]. apply answered_refused. destruct want as [a|]; simpl.
  - by rewrite (Hw a eq_refl).
  - split_and!; [done..|]. set_solver.
Qed.
Lemma with_params_answered {P} `{!Json P} id raw (k : P → AM unit) (f : P → option os_action) s :
  (∀ p, ideal (k p) (λ _, answered id (f p) s) s) →
  ideal (with_params id raw k) (λ _, answered id (params_of raw ≫= f) s) s.
Proof.
  intros Hk. unfold with_params, params_of. destruct (decodeParams raw); [apply Hk|]. apply answered_refused.
  split_and!; [done..|]. set_solver.
Qed.

(** Runs a reply. *)
Ltac reply_steps := repeat first [ideal_step | progress unfold act, upd, replyResult, replyCommand, writeEnvelope].
Ltac known := repeat match goal with E : os_result _ _ = _ |- _ => cbn [on_actions ag_actions] in E; rewrite E; clear E end; done.
Ltac answer_with pre := apply (answered_after _ _ _ pre); cbn [outcome ag_actions ag_sent on_actions on_sent on_ups on_writers bump];
  [done|by rewrite ?app_nil_r|by repeat constructor|done|].

Lemma perform_answered id a keep s :
  match a with SelfUpdate _ => False | _ => True end → permitted policy a = true →
  ideal (perform_and_reply id a keep) (λ _, answered id (Some a) s) s.
Proof.
  intros Hn Hp. unfold perform_and_reply, act, upd. ideal_steps.
  assert (outcome s a = match os_result (ag_actions s ++ [a]) a with Ok _ => None | Err e => Some e end) as Ho by by destruct a.
  destruct (os_result _ _) as [x|e] eqn:E; simpl; unfold replyCommand, writeEnvelope; ideal_steps;
    (apply (answered_after _ _ _ []); [done|by rewrite app_nil_r|done|done|]);
    by rewrite Ho.
Qed.
Lemma download_answered id path sid s :
  permitted policy (OpenRead path) = true →
  ideal (r ← mtry (act (OpenRead path));
         match r with
         | Err e => replyResult id (Err e)
         | Ok size => replyResult id (Ok (Some size));; upd (on_downloads (cons sid))
         end) (λ _, answered id (Some (OpenRead path)) s) s.
Proof.
  intros Hp. reply_steps; [eapply answered_same; [done..|]|]; answer_with (@nil outgoing); known.
Qed.
Lemma upload_answered id path sid s :
  permitted policy (OpenWrite path) = true →
  ideal (r ← mtry (act (OpenWrite path));
         match r with
         | Err e => replyResult id (Err e)
         | Ok _ =>
             upd (λ s, bump (on_ups (<[sid := ag_next s]>)
                              (on_writers (<[ag_next s := mkWriter path [] false]>) s)));;
             replyResult id (Ok None)
         end) (λ _, answered id (Some (OpenWrite path)) s) s.
Proof.
  intros Hp. reply_steps; answer_with (@nil outgoing); known.
Qed.
Lemma rotate_answered id s :
  permitted policy EnsureSupportAccount = true →
  ideal (r ← mtry (act EnsureSupportAccount);
         match r with
         | Err e => replyCommand id "error" CodeInternalError e None
         | Ok out =>
             w ← mtry (writeEnvelope TypeSupportCredentialReport None (PCredential (credential_of out)));
             match w with
             | Err _ => replyCommand id "error" CodeInternalError "rotated locally but failed to report to server" None
             | Ok _ => replyCommand id "success" CodeOK "support credential rotated" None
             end
         end) (λ _, answered id (Some EnsureSupportAccount) s) s.
Proof.
  intros Hp. reply_steps; [|answer_with (@nil outgoing); known].
  answer_with [OutText TypeSupportCredentialReport None (PCredential (credential_of a))]. known.
Qed.
Lemma update_answered id p s :
  permitted policy (SelfUpdate p) = true →
  ideal (r ← mtry (update_install p);
         match r with
         | Err e => replyCommand id "error" CodeInternalError e None
         | Ok _ => replyCommand id "success" CodeOK "update staged, restarting" None;; upd set_exiting
         end) (λ _, answered id (Some (SelfUpdate p)) s) s.
Proof.
  intros Hp. apply ideal_mbind, ideal_mtry. eapply ideal_mono; [apply ideal_known, update_runs|].
  intros r s1 [[Hs Ha] E]. destruct r as [[]|e]; reply_steps;
    [eapply answered_same; [done..|]|]; (apply (answered_after _ _ _ []); [done|by rewrite app_nil_r|done|done|]); cbn [outcome]; by rewrite E.
Qed.

Lemma permitted_some {P} (want : option P) (f : P → os_action) g a :
  (∀ p, permitted policy (f p) = g) → (p ← want; Some (f p)) = Some a → permitted policy a = g.
Proof. destruct want; [|done]. by intros Hf [= <-]. Qed.
Lemma permitted_stream {P} (want : option P) (f : P → os_action) (i : P → string) g a :
  (∀ p, permitted policy (f p) = g) → (p ← want; _ ← uuid_parse (i p); Some (f p)) = Some a → permitted policy a = g.
Proof. destruct want as [p|]; [|done]. simpl. destruct (uuid_parse (i p)); [|done]. by intros Hf [= <-]. Qed.
(** One branch of the switch: its guard, its parameters, its operation. *)
Ltac branch :=
  first [apply guarded; [intros ?; first [by intros [= <-]|by apply permitted_some|by apply permitted_stream]|intros ?]|idtac];
  try (apply with_params_answered; intros ?).

(** C34: every device command is answered exactly once, with a result
    correlated to its message id, after exactly the operation its type and
    parameters stand for: if the local policy permits it, that operation is
    performed, once and nothing else, and the answer says success or carries
    the error the operation gave; if the policy forbids it, nothing is
    performed and the answer says so; a command of unknown type or with
    malformed parameters performs nothing and is refused.  (Writes to the
    control channel succeeding.) *)
Theorem command_answered_once env s :
  ∃ pre p l, let s' := (run (handleDeviceCommand env) s).2 in
    ag_sent s' = ag_sent s ++ pre ++ [OutText TypeCommandResult (Some (env_MessageID env)) (PResult p)] ∧
    Forall (λ m, is_result m = false) pre ∧
    ag_actions s' = ag_actions s ++ l ∧ settled (wanted env) s l p.
Proof.
  refine (ideal_run (handleDeviceCommand env) (λ _, answered (env_MessageID env) (wanted env) s) s _).
  unfold handleDeviceCommand, wanted, download_command, update_command, rotate_command, upload_command.
  destruct (DecodePayload env) as [cmd|]; [|apply answered_refused; split_and!; [done..|]; set_solver].
  unfold command_table. cbn [entry]. set (ty := dc_CommandType cmd). set (raw := dc_Params cmd).
  destruct (String.eqb ty CmdServicesList); [branch; by apply perform_answered|].
  destruct (String.eqb ty CmdServiceStart); cbn [orb]; [branch; by apply perform_answered|].
  destruct (String.eqb ty CmdServiceStop); cbn [orb]; [branch; by apply perform_answered|].
  destruct (String.eqb ty CmdServiceRestart); cbn [orb]; [branch; by apply perform_answered|].
  destruct (String.eqb ty CmdProcessesList); [by apply perform_answered|].
  do 6 (case_match; [branch; by apply perform_answered|]).
  case_match; [branch; destruct (uuid_parse _); [by apply download_answered|apply answered_refused; split_and!; [done..|]; set_solver]|].
  case_match; [branch; by apply update_answered|].
  case_match; [rewrite <-negb_orb; branch; by apply rotate_answered|].
  case_match; [branch; destruct (uuid_parse _); [by apply upload_answered|apply answered_refused; split_and!; [done..|]; set_solver]|].
  apply answered_refused. split_and!; [done..|]. set_solver.
Qed.

(** ** Uploads *)

(** A frame of the server: kind, stream and data. *)
Definition frame : Type := byte * uuid * bytes.
Definition deliver (s : agent) (f : frame) : agent :=
  let '(kind, id, data) := f in (run (readLoop_turn true (EncodeStreamFrame kind id data)) s).2.
#[local] Arguments deliver : simpl never.
Definition for_upload (sid : uuid) (f : frame) : bool :=
  let '(kind, id, _) := f in Ascii.eqb kind StreamKindFile && (id =? sid)%N.
Definition frame_data (f : frame) : bytes := f.2.

(** The upload's writer, and nobody else's. *)
Definition uploading (sid : uuid) (n : nat) (w : writer) (s : agent) : Prop :=
  ag_uploads s !! sid = Some n ∧ ag_writers s !! n = Some w ∧
  ∀ sid', ag_uploads s !! sid' = Some n → sid' = sid.

Lemma deliver_decoded kind id data s :
  valid_uuid id = true → one_message data →
  deliver s (kind, id, data) =
  (run (if Ascii.eqb kind StreamKindTerminal || Ascii.eqb kind StreamKindTunnel then
          s ← mstate (λ s, (s, s));
          match ag_sessions s !! id with
          | Some n => upd (on_streams (alter (λ x, feed_stream (stream_takes x data) x) n))
          | None => mret tt
          end
        else if Ascii.eqb kind StreamKindFile then handleFileBinaryFrame id data
        else mret tt) s).2.
Proof.
  intros Hid Hfit. unfold deliver, readLoop_turn, handleBinaryFrame.
  by rewrite frame_fits, stream_frame_roundtrip.
Qed.

(** A frame for someone else leaves the upload alone. *)
Lemma deliver_other sid n w s f :
  valid_uuid f.1.2 = true → one_message (frame_data f) → uploading sid n w s → for_upload sid f = false → uploading sid n w (deliver s f).
Proof.
  destruct f as [[kind id] data]. simpl. intros Hid Hfit (Hu & Hw & Huniq) Hf. rewrite deliver_decoded by done.
  destruct (Ascii.eqb kind StreamKindTerminal || _); [run_unfold; run_simpl; by destruct (ag_sessions s !! id)|].
  destruct (Ascii.eqb kind StreamKindFile); [|done]. simpl in Hf. apply N.eqb_neq in Hf.
  unfold handleFileBinaryFrame, removeUpload, upd, writeEnvelope. run_unfold. run_simpl.
  destruct (ag_uploads s !! id) as [n'|] eqn:Hn'; [|done].
  assert (n' ≠ n) as Hne by (intros ->; by apply Hf, Huniq).
  assert (uploading sid n w (on_ups (delete id) s)) as (D1 & D2 & D3).
  { split_and!; simpl; [by rewrite lookup_delete_ne by congruence|done|].
    intros sid' [_ H']%lookup_delete_Some. by apply Huniq. }
  simpl in D1, D3.
  destruct (ag_writers s !! n') as [w'|] eqn:Ew'; run_simpl; [|done].
  destruct data; run_simpl; [|destruct (write_fails _ _); run_simpl]; split_and!; simpl;
    rewrite ?lookup_alter_ne by done; done.
Qed.

Lemma deliver_mine sid n w s data :
  valid_uuid sid = true → one_message data → uploading sid n w s → data ≠ [] → write_fails w data = false →
  uploading sid n (feed_writer data w) (deliver s (StreamKindFile, sid, data)).
Proof.
  intros Hid Hfit (Hu & Hw & Huniq) Hd Hok. rewrite deliver_decoded by done. simpl.
  unfold handleFileBinaryFrame, removeUpload, upd. run_unfold. run_simpl. rewrite Hu, Hw.
  destruct data as [|b data]; [done|]. rewrite Hok. run_simpl. split_and!; simpl; try done.
  by rewrite lookup_alter_eq, Hw.
Qed.

Lemma deliver_all sid n w s frames :
  valid_uuid sid = true → Forall (λ f, valid_uuid f.1.2 = true ∧ one_message (frame_data f)) frames → uploading sid n w s →
  Forall (λ f, for_upload sid f = true → frame_data f ≠ []) frames → (∀ w d, write_fails w d = false) →
  uploading sid n (feed_writer (concat (frame_data <$> filter (λ f, for_upload sid f = true) frames)) w)
    (foldl deliver s frames).
Proof.
  intros Hid Hval Hup Hne Hok. revert w s Hup. induction frames as [|f frames IH]; intros w s Hup; simpl.
  { unfold feed_writer. rewrite app_nil_r. by destruct w. }
  apply Forall_cons_iff in Hval as [[Hv Hfit] Hval], Hne as [Hn Hne]. specialize (IH Hval Hne).
  destruct (for_upload sid f) eqn:Hf.
  - rewrite filter_cons_True by done. destruct f as [[kind id] data]. simpl in *.
    apply andb_true_iff in Hf as [Hk Hi]. apply Ascii.eqb_eq in Hk as ->. apply N.eqb_eq in Hi as ->.
    specialize (IH (feed_writer data w) (deliver s (StreamKindFile, sid, data))).
    unfold feed_writer in *. simpl in *. rewrite <-app_assoc in IH. apply IH.
    apply deliver_mine; auto.
  - rewrite filter_cons_False by congruence. apply IH. by apply deliver_other.
Qed.

(** An uploaded file arrives intact: once the agent has opened the file
    for a stream, whatever other frames arrive in between, the frames of that
    stream up to the empty one leave in the file exactly their data in order,
    closed, and the server gets one result correlated with the stream.
    (Local writes succeeding, and no frame over the read limit.) *)
Theorem upload_arrives_intact sid n path s frames :
  valid_uuid sid = true → Forall (λ f, valid_uuid f.1.2 = true ∧ one_message (frame_data f)) frames →
  uploading sid n (mkWriter path [] false) s →
  Forall (λ f, for_upload sid f = true → frame_data f ≠ []) frames → (∀ w d, write_fails w d = false) →
  let data := concat (frame_data <$> filter (λ f, for_upload sid f = true) frames) in
  let s1 := foldl deliver s frames in
  let s2 := deliver s1 (StreamKindFile, sid, []) in
  ag_writers s2 !! n = Some (mkWriter path data true) ∧ ag_uploads s2 !! sid = None ∧
  ag_sent s2 = ag_sent s1 ++ [OutText TypeCommandResult (Some (uuid_string sid))
    (PResult (match close_fails (mkWriter path data false) with
              | Some msg => mkResult "error" CodeInternalError msg None
              | None => mkResult "success" CodeOK "" None
              end))].
Proof.
  intros Hid Hval Hup Hne Hok data s1 s2.
  destruct (deliver_all sid n _ s frames Hid Hval Hup Hne Hok) as (Hu & Hw & _).
  fold s1 in Hu, Hw. unfold feed_writer in Hw. simpl in Hw. fold data in Hw.
  subst s2. rewrite deliver_decoded by done. simpl.
  unfold handleFileBinaryFrame, removeUpload, upd, writeEnvelope. run_unfold. run_simpl. rewrite Hu, Hw.
  run_simpl. simpl. by rewrite lookup_alter_eq, Hw, lookup_delete_eq.
Qed.
End agent_core.

(** ** Reconnecting *)

(* internal/agentcore/agent.go:20-20 minBackoff *)
Definition minBackoff : duration := (1 * Second)%Z.
(* internal/agentcore/agent.go:21-21 maxBackoff *)
Definition maxBackoff : duration := (300 * Second)%Z.

(** One turn of the reconnect loop, by whether the session got connected: the
    callback resets the backoff the loop waits for (up to jitter), and after
    the wait a failed attempt doubles it. *)
(* internal/agentcore/agent.go:52-88 Run *)
Definition backoff_turn (backoff : duration) (connected : bool) : duration * duration :=
  let backoff := if connected then minBackoff else backoff in
  (backoff, if connected then backoff
            else let doubled := wrap64 (backoff * 2) in
                 if (maxBackoff <? doubled)%Z then maxBackoff else doubled).

(** The waits of a run of sessions that all end in errors. *)
Fixpoint waits (backoff : duration) (outcomes : list bool) : list duration :=
  match outcomes with
  | [] => []
  | c :: rest => let '(w, b) := backoff_turn backoff c in w :: waits b rest
  end.

Lemma backoff_turn_range b c :
  (minBackoff ≤ b ≤ maxBackoff)%Z →
  (minBackoff ≤ (backoff_turn b c).1 ≤ maxBackoff)%Z ∧ (minBackoff ≤ (backoff_turn b c).2 ≤ maxBackoff)%Z.
Proof.
  unfold backoff_turn, minBackoff, maxBackoff, Second. intros Hb. destruct c; simpl; [lia|].
  rewrite wrap64_id by lia. destruct (_ <? _)%Z eqn:E; reflect_bools; lia.
Qed.

Lemma failures_double k n :
  waits (Z.min (2 ^ Z.of_nat k * Second) maxBackoff) (replicate n false) =
  (λ i, Z.min (2 ^ Z.of_nat (k + i) * Second) maxBackoff) <$> seq 0 n.
Proof.
  revert k. induction n as [|n IH]; intros k; [done|].
  simpl replicate. simpl waits. set (b := Z.min _ _).
  assert ((if (maxBackoff <? wrap64 (b * 2))%Z then maxBackoff else wrap64 (b * 2)) =
    Z.min (2 ^ Z.of_nat (S k) * Second) maxBackoff) as ->.
  { assert (0 < 2 ^ Z.of_nat k)%Z by lia. unfold b, maxBackoff, Second in *.
    rewrite wrap64_id by lia. rewrite Nat2Z.inj_succ, Z.pow_succ_r by lia.
    destruct (_ <? _)%Z eqn:E; reflect_bools; lia. }
  rewrite IH. simpl. rewrite Nat.add_0_r. f_equal. rewrite <-fmap_S_seq, <-list_fmap_compose.
  apply list_fmap_ext. intros _ i _. simpl. do 3 f_equal. lia.
Qed.

Lemma waits_range b outcomes :
  (minBackoff ≤ b ≤ maxBackoff)%Z → Forall (λ w, (minBackoff ≤ w ≤ maxBackoff)%Z) (waits b outcomes).
Proof.
  revert b. induction outcomes as [|c rest IH]; intros b Hb; simpl; [constructor|].
  pose proof (backoff_turn_range b c Hb) as [H1 H2]. unfold backoff_turn in *. simpl in *.
  constructor; [done|]. by apply IH.
Qed.
Lemma waits_reset b outcomes rest :
  waits b (outcomes ++ true :: rest) = waits b outcomes ++ minBackoff :: waits minBackoff rest.
Proof. revert b. induction outcomes as [|c l IH]; intros b; [done|]. simpl. by rewrite IH. Qed.

(** The agent never floods the server: every wait between two connection
    attempts is between one second and five minutes, up to jitter, and after
    a connection (or a start) the waits of consecutive failures are 1, 2, 4,
    ... seconds until they stay at five minutes. *)
Theorem reconnect_backoff outcomes n :
  Forall (λ w, (minBackoff ≤ w ≤ maxBackoff)%Z) (waits minBackoff outcomes) ∧
  waits minBackoff (outcomes ++ true :: replicate n false) =
    waits minBackoff outcomes ++ minBackoff ::
      ((λ i, Z.min (2 ^ Z.of_nat i * Second) maxBackoff) <$> seq 0 n).
Proof.
  split; [apply waits_range; vm_compute; split; discriminate|].
  rewrite waits_reset. do 2 f_equal. exact (failures_double 0 n).
Qed.

(** ** A concrete agent *)

Section demo.
#[local] Instance wire_open : Wire SessionOpenPayload.
Proof.
  refine (wire_iso (λ o, (so_SessionID o, so_Kind o, so_ExpiresAt o, so_Privileged o, so_Options o))
                   (λ '(a, b, c, d, e), mkSessionOpen a b c d e) _). by intros [].
Defined.
#[local] Existing Instance demo_uuid_text.
#[local] Instance demo_j_env : Json Envelope := wire_json Envelope.
#[local] Instance demo_j_open : Json SessionOpenPayload := wire_json SessionOpenPayload.
#[local] Instance demo_j_none T : Json T | 100 := no_json T.

Definition demo_policy : AgentPolicy := mkPolicy false true false false true false false false false.
Definition demo_os (h : list os_action) (a : os_action) : res string bytes := Ok [].
Definition demo_agent : agent := mkAgent ∅ ∅ ∅ ∅ 0 [] [] ∅ false [] [].
Definition demo_open_raw : bytes :=
  match Encode TypeSessionOpen None
          (mkSessionOpen (uuid_string 5%N) "ssh_local" 0 false []) "m1" 0 with
  | Ok raw => raw
  | Err _ => []
  end.
Definition demo_read : AM unit :=
  readLoop_turn demo_policy "" demo_os (λ _, mkSupportCredential "" "") (λ _ d, d) (λ _ d, d)
    (λ _ _, false) (λ _, None) demo_check demo_torn None "/" (λ _, None) "" (λ _, ""%string) false demo_open_raw.

Lemma local_policy_enforced_witness :
  (run demo_read demo_agent).2.(ag_actions) = [DialTCP "127.0.0.1:22"] ∧
  permitted demo_policy (DialTCP "127.0.0.1:22") = true.
Proof.
  assert ((run demo_read demo_agent).2.(ag_actions) = [DialTCP "127.0.0.1:22"]) as Ha by (vm_compute; reflexivity).
  split; [exact Ha|].
  apply (local_policy_enforced demo_policy "" demo_os (λ _, mkSupportCredential "" "") (λ _ d, d) (λ _ d, d)
    (λ _ _, false) (λ _, None) demo_check demo_torn None "/" (λ _, None) "" (λ _, ""%string)
    (run demo_read demo_agent).2); [|rewrite Ha; left].
  apply (reach_step _ _ demo_agent); [apply reach_init; by repeat split|].
  eapply (agent_read _ _ _ _ _ _ _ _ _ _ _ _ _ _ _ _ _ false demo_open_raw).
  exact (effect_run demo_read demo_agent).
Defined.

Definition demo_uploading : agent :=
  mkAgent ∅ {[5%N := 0]} ∅ {[0 := mkWriter "/tmp/x" [] false]} 1 [] [] ∅ false [] [].
Definition demo_frames : list frame :=
  [(StreamKindFile, 5%N, str_bytes "ab"); (StreamKindTerminal, 5%N, str_bytes "zz");
   (StreamKindFile, 6%N, []); (StreamKindFile, 5%N, str_bytes "c")].
Definition demo_deliver : agent → frame → agent :=
  deliver demo_policy "" demo_os (λ _, mkSupportCredential "" "") (λ _ d, d) (λ _ d, d)
    (λ _ _, false) (λ _, None) demo_check demo_torn None "/" (λ _, None) "" (λ _, ""%string).

Lemma upload_arrives_intact_witness :
  ag_writers (demo_deliver (foldl demo_deliver demo_uploading demo_frames) (StreamKindFile, 5%N, [])) !! 0 =
    Some (mkWriter "/tmp/x" (str_bytes "abc") true).
Proof.
  refine (proj1 (upload_arrives_intact demo_policy "" demo_os (λ _, mkSupportCredential "" "") (λ _ d, d) (λ _ d, d)
    (λ _ _, false) (λ _, None) demo_check demo_torn None "/" (λ _, None) "" (λ _, ""%string) 5%N 0 "/tmp/x"
    demo_uploading demo_frames _ _ _ _ _)).
  - reflexivity.
  - repeat (apply Forall_cons_2; [split; [reflexivity|by vm_compute]|]). apply Forall_nil_2.
  - split; [vm_compute; reflexivity|]. split; [vm_compute; reflexivity|].
    intros sid' Hs. apply (proj1 (lookup_singleton_Some (M := gmap uuid) 5%N sid' 0 0)) in Hs. by destruct Hs as [<- _].
  - repeat constructor; try done.
  - reflexivity.
Defined.
End demo.
