(* ===== verification/Settings.v ===== *)
(** Runtime settings ([internal/appsettings/appsettings.go]): the key/value
    table behind the dashboard's settings page, and the retention windows
    and the rotation interval read from it. *)
From Stdlib Require Import DecimalString DecimalN SpecFloat.
From S2P Require Import Prelude.

(** ** Numbers as text: [strconv.Itoa] and [strconv.Atoi] *)

Definition min_int : Z := (- 2 ^ 63)%Z.
Definition max_int : Z := (2 ^ 63 - 1)%Z.
Definition in_int (z : Z) : bool := (min_int <=? z)%Z && (z <=? max_int)%Z.

Definition decimal (n : N) : string := NilZero.string_of_uint (N.to_uint n).
Definition Itoa (z : Z) : string :=
  match z with
  | Zneg p => String "-" (decimal (Npos p))
  | _ => decimal (Z.to_N z)
  end.

(** An optional sign, then at least one digit and nothing else; a value
    outside [int] is an error. *)
Definition magnitude (s : string) : option Z :=
  (λ d, Z.of_N (N.of_uint d)) <$> NilZero.uint_of_string s.
Definition parse_int (s : string) : option Z :=
  match s with
  | String "-" r => Z.opp <$> magnitude r
  | String "+" r => magnitude r
  | _ => magnitude s
  end.
Definition Atoi (s : string) : option Z :=
  v ← parse_int s; if in_int v then Some v else None.
(** The value [Atoi] returns next to its error: 0 for a syntax error, the
    nearest [int] for one out of range. *)
Definition Atoi_value (s : string) : Z :=
  match parse_int s with Some v => Z.max min_int (Z.min max_int v) | None => 0%Z end.

Example Atoi_1 : Atoi "-17" = Some (-17)%Z. Proof. reflexivity. Qed.
Example Atoi_2 : Atoi "12h" = None. Proof. reflexivity. Qed.
Example Atoi_3 : Atoi "" = None. Proof. reflexivity. Qed.
Example Atoi_4 : Atoi "9223372036854775808" = None. Proof. reflexivity. Qed.
Example Atoi_5 : Atoi "+007" = Some 7%Z. Proof. reflexivity. Qed.

(** ** [int(d.Hours())]

    [Hours] divides in [float64]: the whole hours plus the remaining
    nanoseconds over 3.6e12, each conversion and operation rounded. *)
Definition float64 (z : Z) : spec_float := binary_normalize 53 1024 z 0 false.
Definition Hours (d : duration) : spec_float :=
  SFadd 53 1024 (float64 (Z.quot d Hour)) (SFdiv 53 1024 (float64 (Z.rem d Hour)) (float64 Hour)).
(** Truncation towards zero, for the finite values [Hours] can take. *)
Definition int_of (f : spec_float) : Z :=
  match f with
  | S754_finite s m e =>
      let v := if (0 <=? e)%Z then (Zpos m * 2 ^ e)%Z else (Zpos m / 2 ^ (- e))%Z in
      if s then (- v)%Z else v
  | _ => 0%Z
  end.
Definition whole_hours (d : duration) : Z := int_of (Hours d).

Example whole_hours_1 : whole_hours (90 * Minute) = 1%Z. Proof. vm_compute. reflexivity. Qed.
Example whole_hours_2 : whole_hours (30 * Minute) = 0%Z. Proof. vm_compute. reflexivity. Qed.
(** A nanosecond short of 4097 hours rounds up. *)
Example whole_hours_3 : whole_hours (4097 * Hour - 1) = 4097%Z. Proof. vm_compute. reflexivity. Qed.

(** ** The table *)

(* internal/appsettings/appsettings.go:20-20 KeyMetricsRawRetentionHours *)
Definition KeyMetricsRawRetentionHours : string := "metrics.raw_retention_hours".
(* internal/appsettings/appsettings.go:21-21 KeyMetricsHourlyRetentionHours *)
Definition KeyMetricsHourlyRetentionHours : string := "metrics.hourly_retention_hours".
(* internal/appsettings/appsettings.go:25-25 KeyNetworkRawRetentionHours *)
Definition KeyNetworkRawRetentionHours : string := "network_metrics.raw_retention_hours".
(* internal/appsettings/appsettings.go:26-26 KeyNetworkHourlyRetentionHours *)
Definition KeyNetworkHourlyRetentionHours : string := "network_metrics.hourly_retention_hours".
(* internal/appsettings/appsettings.go:32-32 KeySupportCredentialRotationDays *)
Definition KeySupportCredentialRotationDays : string := "support_credential.rotation_days".

Abbreviation settings := (gmap string string).
Inductive settings_error : Type := SetDB | SetNotPositive | SetNegative.
Abbreviation SetM := (M settings settings_error).

(* internal/appsettings/appsettings.go:45-54 Get *)
Definition GetSetting (key : string) : SetM (option string) := mquery SetDB (λ d, d !! key).

(* internal/appsettings/appsettings.go:56-65 Set *)
Definition SetSetting (key value : string) : SetM unit := mexec SetDB (<[key := value]>).

(** The stored override of one window, or the default. *)
(* internal/appsettings/appsettings.go:73-79 MetricsRetention *)
Definition override (v : option string) (default_ : duration) : duration :=
  match v ≫= Atoi with
  | Some h => if (0 <? h)%Z then wrap64 (h * Hour) else default_
  | None => default_
  end.

(* internal/appsettings/appsettings.go:70-88 MetricsRetention *)
Definition MetricsRetention (defaultRaw defaultHourly : duration) : SetM (duration * duration) :=
  raw ← GetSetting KeyMetricsRawRetentionHours;
  hourly ← GetSetting KeyMetricsHourlyRetentionHours;
  mret (override raw defaultRaw, override hourly defaultHourly).

(* internal/appsettings/appsettings.go:93-101 SetMetricsRetention *)
Definition SetMetricsRetention (raw hourly : duration) : SetM unit :=
  if (raw <=? 0)%Z || (hourly <=? 0)%Z then mfail SetNotPositive
  else
    SetSetting KeyMetricsRawRetentionHours (Itoa (whole_hours raw));;
    SetSetting KeyMetricsHourlyRetentionHours (Itoa (whole_hours hourly)).

(* internal/appsettings/appsettings.go:105-123 NetworkMetricsRetention *)
Definition NetworkMetricsRetention (defaultRaw defaultHourly : duration) : SetM (duration * duration) :=
  raw ← GetSetting KeyNetworkRawRetentionHours;
  hourly ← GetSetting KeyNetworkHourlyRetentionHours;
  mret (override raw defaultRaw, override hourly defaultHourly).

(* internal/appsettings/appsettings.go:127-135 SetNetworkMetricsRetention *)
Definition SetNetworkMetricsRetention (raw hourly : duration) : SetM unit :=
  if (raw <=? 0)%Z || (hourly <=? 0)%Z then mfail SetNotPositive
  else
    SetSetting KeyNetworkRawRetentionHours (Itoa (whole_hours raw));;
    SetSetting KeyNetworkHourlyRetentionHours (Itoa (whole_hours hourly)).

(* internal/appsettings/appsettings.go:140-153 SupportCredentialRotationDays *)
Definition SupportCredentialRotationDays : SetM Z :=
  v ← GetSetting KeySupportCredentialRotationDays;
  match v with
  | None => mret 0%Z
  | Some s =>
      match Atoi s with
      | Some days => if (days <? 0)%Z then mret 0%Z else mret days
      | None => mret 0%Z
      end
  end.

(* internal/appsettings/appsettings.go:155-160 SetSupportCredentialRotationDays *)
Definition SetSupportCredentialRotationDays (days : Z) : SetM unit :=
  if (days <? 0)%Z then mfail SetNegative
  else SetSetting KeySupportCredentialRotationDays (Itoa days).

(** ** Round trips of numbers *)

Lemma magnitude_decimal n : magnitude (decimal n) = Some (Z.of_N n).
Proof.
  unfold magnitude, decimal. rewrite NilZero.usu; [simpl; by rewrite DecimalN.Unsigned.of_to|].
  intros E. pose proof (DecimalN.Unsigned.of_to n) as H. rewrite E in H. simpl in H. subst n. done.
Qed.

(** The text of a number starts with a digit. *)
Lemma decimal_head n : ∃ c r, decimal n = String c r ∧ c ≠ "-"%char ∧ c ≠ "+"%char.
Proof.
  unfold decimal, NilZero.string_of_uint. destruct (N.to_uint n); simpl; by repeat eexists.
Qed.

Lemma Atoi_Itoa z : in_int z = true → Atoi (Itoa z) = Some z.
Proof.
  intros Hz. destruct z as [|p|p].
  - done.
  - unfold Atoi, parse_int. pose proof (magnitude_decimal (Npos p)) as Hm. simpl in Hm.
    change (Itoa (Zpos p)) with (decimal (Npos p)).
    destruct (decimal_head (Npos p)) as (c & r & E & Hm1 & Hp1). rewrite E in Hm |- *.
    assert (match String c r with
            | String "-" r => Z.opp <$> magnitude r
            | String "+" r => magnitude r
            | _ => magnitude (String c r) end = Some (Zpos p)) as ->.
    { rewrite <-Hm. destruct c as [[] [] [] [] [] [] [] []]; done. }
    simpl. by rewrite Hz.
  - unfold Atoi, parse_int, Itoa. rewrite magnitude_decimal. cbn [fmap option_fmap option_map mbind option_bind].
    change (- Z.of_N (Npos p))%Z with (Zneg p). by rewrite Hz.
Qed.

Lemma digits2_shift k p : digits2_pos (shift_pos k p) = (digits2_pos p + k)%positive.
Proof.
  unfold shift_pos. induction k as [|k IH] using Pos.peano_ind; [by rewrite Pos.add_1_r|].
  rewrite Pos.iter_succ. simpl. rewrite IH. lia.
Qed.
Lemma shift_pos_mul k p : Zpos (shift_pos k p) = (Zpos p * 2 ^ Zpos k)%Z.
Proof.
  unfold shift_pos. induction k as [|k IH] using Pos.peano_ind; [simpl; lia|].
  rewrite Pos.iter_succ, Pos2Z.inj_xO, IH, Pos2Z.inj_succ, Z.pow_succ_r by lia. lia.
Qed.

(** An integer of at most 53 bits converts exactly. *)
Lemma digits2_size p : digits2_pos p = Pos.size p.
Proof. induction p; simpl; congruence. Qed.
Lemma digits2_bound p n : (Zpos p < 2 ^ n)%Z → (Zpos (digits2_pos p) ≤ n)%Z.
Proof.
  rewrite digits2_size. intros H.
  assert (0 ≤ n)%Z by (destruct (Z.le_gt_cases 0 n); [done|rewrite Z.pow_neg_r in H by done; lia]).
  pose proof (Pos.size_le p) as Hs.
  assert (2 ^ Zpos (Pos.size p) ≤ 2 * Zpos p)%Z as Hle.
  { change (2 * Zpos p)%Z with (Zpos p~0). rewrite <-(Pos2Z.inj_pow 2). exact Hs. }
  destruct (Z.le_gt_cases (Zpos (Pos.size p)) n); [done|]. exfalso.
  assert (2 ^ (n + 1) ≤ 2 ^ Zpos (Pos.size p))%Z by (apply Z.pow_le_mono_r; lia).
  rewrite Z.pow_add_r in * by lia. lia.
Qed.

Lemma round_exact s p e :
  digits2_pos p = 53%positive → (-1074 ≤ e ≤ 971)%Z →
  binary_round_aux 53 1024 s (Zpos p) e loc_Exact = S754_finite s p e.
Proof.
  intros Hd He. unfold binary_round_aux, shr_fexp, fexp, emin. simpl Zdigits2.
  assert ((Z.max (Zpos (digits2_pos p) + e - 53) (3 - 1024 - 53) - e)%Z = 0%Z) as -> by (rewrite Hd; lia).
  simpl. assert ((Z.max (Zpos (digits2_pos p) + e - 53) (3 - 1024 - 53) - e)%Z = 0%Z) as -> by (rewrite Hd; lia).
  cbn [shr shr_m shr_record_of_loc round_nearest_even loc_of_shr_record].
  by rewrite (proj2 (Z.leb_le e (1024 - 53))) by lia.
Qed.

Lemma float64_exact p : (Zpos p < 2 ^ 53)%Z → ∃ m e,
  float64 (Zpos p) = S754_finite false m e ∧ (e ≤ 0)%Z ∧ Zpos m = (Zpos p * 2 ^ (- e))%Z.
Proof.
  intros Hp. apply (digits2_bound p 53) in Hp as Hd. unfold float64. simpl binary_normalize.
  unfold binary_round, fexp, emin. set (ex := Z.max _ _).
  assert (ex = Zpos (digits2_pos p) - 53)%Z as Hex by (unfold ex; lia).
  unfold shl_align. destruct (ex - 0)%Z as [|q|q] eqn:Eq; [|lia|].
  - exists p, 0%Z. rewrite round_exact; [split; [done|split; [lia|simpl; lia]]|lia|lia].
  - exists (shift_pos q p), ex.
    rewrite round_exact; [|change (digits2_pos (shift_pos q p) = 53%positive); rewrite digits2_shift; lia|lia].
    split; [done|]. split; [lia|]. rewrite shift_pos_mul. f_equal. f_equal. lia.
Qed.

Lemma whole_hours_exact h : (0 ≤ h < 2 ^ 53)%Z → whole_hours (h * Hour) = h.
Proof.
  intros [H0 H1]. unfold whole_hours, Hours.
  rewrite Z.quot_mul, Z.rem_mul by done. destruct h as [|p|p]; [reflexivity| |lia].
  destruct (float64_exact p H1) as (m & e & -> & He & Hm). simpl.
  destruct (Z.leb_spec 0 e) as [Hle|Hlt].
  - assert (e = 0)%Z as -> by lia. rewrite Hm. simpl. lia.
  - rewrite Hm. rewrite Z.div_mul; [done|]. apply Z.pow_nonzero; lia.
Qed.

(** ** What the windows are *)

(** A whole number of hours that a [time.Duration] can hold. *)
Definition hours_fit (h : Z) : Prop := (0 < h ∧ h * Hour ≤ max_int)%Z.

Lemma hours_fit_small h : hours_fit h → (0 ≤ h < 2 ^ 53)%Z ∧ in_int h = true.
Proof. unfold hours_fit, in_int, min_int, max_int, Hour, Minute, Second. intros. split; [lia|]. apply andb_true_iff. lia. Qed.

Lemma override_stored h dflt : hours_fit h → override (Some (Itoa (whole_hours (h * Hour)))) dflt = (h * Hour)%Z.
Proof.
  intros Hh. destruct (hours_fit_small h Hh) as [Hs Hi]. destruct Hh as [H0 H1].
  rewrite whole_hours_exact by done. unfold override. simpl. rewrite Atoi_Itoa by done.
  rewrite (proj2 (Z.ltb_lt 0 h)) by done. apply wrap64_id. unfold min_int, max_int, Hour, Minute, Second in *. lia.
Qed.

(** A retention setting takes effect exactly: after a successful update
    with whole hours that fit a [time.Duration], the sweeper reads back the
    two windows that were set, whatever the configured defaults, and the
    windows of the other metrics family keep their values. *)
Theorem retention_roundtrip d h1 h2 :
  hours_fit h1 → hours_fit h2 →
  always (SetMetricsRetention (h1 * Hour) (h2 * Hour)) (λ r d', r = Ok tt →
    ∀ dr dh, (run (MetricsRetention dr dh) d').1 = Ok (h1 * Hour, h2 * Hour)%Z ∧
             (run (NetworkMetricsRetention dr dh) d').1 = (run (NetworkMetricsRetention dr dh) d).1) d.
Proof.
  intros H1 H2. unfold SetMetricsRetention.
  rewrite (proj2 (orb_false_iff _ _)) by (destruct H1, H2; split; apply Z.leb_gt; unfold Hour, Minute, Second; lia).
  unfold SetSetting. always_steps; try done. intros _ dr dh.
  unfold MetricsRetention, NetworkMetricsRetention, GetSetting. run_unfold. run_simpl.
  rewrite (lookup_insert_ne (<[_ := _]> d) _ KeyMetricsRawRetentionHours) by done.
  rewrite !lookup_insert_eq, !lookup_insert_ne by done. by rewrite !override_stored by done.
Qed.

(** Calls of the setters, whatever statements fail. *)
Inductive settings_step (d d' : settings) : Prop :=
| ss_metrics h1 h2 : hours_fit h1 → hours_fit h2 →
    effect (SetMetricsRetention (h1 * Hour) (h2 * Hour)) d d' → settings_step d d'
| ss_network h1 h2 : hours_fit h1 → hours_fit h2 →
    effect (SetNetworkMetricsRetention (h1 * Hour) (h2 * Hour)) d d' → settings_step d d'
| ss_rotation n : in_int n = true → effect (SetSupportCredentialRotationDays n) d d' → settings_step d d'.

(** Every stored window is one that was set. *)
Definition windows_ok (d : settings) : Prop :=
  ∀ k v, d !! k = Some v → k ≠ KeySupportCredentialRotationDays →
    ∃ h, hours_fit h ∧ v = Itoa (whole_hours (h * Hour)).

Lemma windows_ok_insert d k h :
  hours_fit h → windows_ok d → windows_ok (<[k := Itoa (whole_hours (h * Hour))]> d).
Proof.
  intros Hh Hd k' v [[<- <-]|[_ Hk]]%lookup_insert_Some Hne; [by eauto|by eapply Hd].
Qed.
Lemma windows_ok_rotation d v : windows_ok d → windows_ok (<[KeySupportCredentialRotationDays := v]> d).
Proof. intros Hd k' v' [[<- _]|[_ Hk]]%lookup_insert_Some Hne; [done|by eapply Hd]. Qed.

Lemma settings_step_ok d d' : windows_ok d → settings_step d d' → windows_ok d'.
Proof.
  intros Hd Hs. destruct Hs as [h1 h2 H1 H2 He|h1 h2 H1 H2 He|n _ He]; pattern d'; revert He; apply effect_always;
    unfold SetMetricsRetention, SetNetworkMetricsRetention, SetSupportCredentialRotationDays, SetSetting;
    always_steps; auto using windows_ok_insert, windows_ok_rotation.
Qed.

Lemma override_pos d k dflt :
  windows_ok d → k ≠ KeySupportCredentialRotationDays → (0 < dflt)%Z → (0 < override (d !! k) dflt)%Z.
Proof.
  intros Hd Hk Hp. destruct (d !! k) as [v|] eqn:E; [|done].
  destruct (Hd k v E Hk) as (h & Hh & ->). rewrite override_stored by done.
  destruct Hh. unfold Hour, Minute, Second. lia.
Qed.

(** The retention sweep is never handed an empty window: with positive
    defaults, after any sequence of successful or failing updates through
    the setters, both metrics families have positive raw and hourly windows,
    so a sweep never deletes the whole history. *)
Theorem retention_windows_positive d dr dh :
  reachable (λ d, d = ∅) settings_step d → (0 < dr)%Z → (0 < dh)%Z →
  ∀ q, q = MetricsRetention dr dh ∨ q = NetworkMetricsRetention dr dh →
  always q (λ r d', d' = d ∧ ∀ raw hourly, r = Ok (raw, hourly) → (0 < raw ∧ 0 < hourly)%Z) d.
Proof.
  intros Hr Hdr Hdh q Hq.
  assert (windows_ok d) as Hd.
  { revert Hr. apply invariant_reachable; [|by intros; eapply settings_step_ok].
    intros ? ->. intros k v Hk. by rewrite lookup_empty in Hk. }
  destruct Hq as [-> | ->]; unfold MetricsRetention, NetworkMetricsRetention, GetSetting; always_steps;
    (split; [done|]); try done; intros ? ? [= <- <-]; split; by apply override_pos.
Qed.

(** An overflowing request is accepted and then ignored: 5124096 hours wrap
    around to 25 minutes, which is stored as 0 hours and never read. *)
Theorem settings_overflow_ignored :
  let raw := wrap64 (5124096 * Hour) in
  (0 < raw < Hour)%Z ∧
  let d := (run (SetMetricsRetention raw Hour) ∅).2 in
  (run (SetMetricsRetention raw Hour) ∅).1 = Ok tt ∧
  d !! KeyMetricsRawRetentionHours = Some "0"%string ∧
  (run (MetricsRetention (720 * Hour) (8760 * Hour)) d).1 = Ok (720 * Hour, Hour)%Z.
Proof. vm_compute. repeat split; reflexivity. Qed.

(** ** Witnesses *)

Lemma retention_roundtrip_witness :
  hours_fit 48 ∧ hours_fit 1000 ∧
  (run (MetricsRetention 1 1) (run (SetMetricsRetention (48 * Hour) (1000 * Hour)) ∅).2).1 =
    Ok (48 * Hour, 1000 * Hour)%Z.
Proof.
  assert (hours_fit 48) as H1 by (split; [reflexivity|vm_compute; discriminate]).
  assert (hours_fit 1000) as H2 by (split; [reflexivity|vm_compute; discriminate]).
  split; [exact H1|]. split; [exact H2|].
  pose proof (always_run _ _ _ (retention_roundtrip ∅ 48 1000 H1 H2)) as H.
  destruct (run (SetMetricsRetention _ _) ∅) as [r d'] eqn:E.
  apply H. revert E. vm_compute. congruence.
Defined.

Lemma retention_windows_positive_witness :
  ∃ raw hourly,
    (run (MetricsRetention Hour Hour) (run (SetMetricsRetention (48 * Hour) (1000 * Hour)) ∅).2).1 =
      Ok (raw, hourly) ∧ (0 < raw ∧ 0 < hourly)%Z.
Proof.
  eexists _, _. split; [vm_compute; reflexivity|].
  pose proof (always_run _ _ _ (retention_windows_positive
    (run (SetMetricsRetention (48 * Hour) (1000 * Hour)) ∅).2 Hour Hour
    (reach_step (λ d, d = ∅) settings_step ∅ _ (reach_init _ _ ∅ eq_refl)
      (ss_metrics ∅ _ 48 1000 ltac:(split; [reflexivity|vm_compute; discriminate])
        ltac:(split; [reflexivity|vm_compute; discriminate]) (effect_run _ _)))
    eq_refl eq_refl (MetricsRetention Hour Hour) (or_introl eq_refl))) as H.
  destruct (run (MetricsRetention Hour Hour) _) as [r d'] eqn:E.
  apply H. revert E. vm_compute. congruence.
Defined.
