(* ===== verification/Support.v ===== *)
(** The remote-support account ([internal/support], [internal/platform/password.go]):
    the generated password, its storage under AES-256-GCM, and the sweep that
    asks agents to rotate it. *)
From S2P Require Import Prelude Rbac AuthStore Mfa Protocol Messages Codec Device Metrics Hub Settings.

(** ** The generated password *)


(* internal/platform/password.go:12-12 pwUpper *)
Definition pwUpper : string := "ABCDEFGHJKLMNPQRSTUVWXYZ".
(* internal/platform/password.go:13-13 pwLower *)
Definition pwLower : string := "abcdefghijkmnopqrstuvwxyz".
(* internal/platform/password.go:14-14 pwDigits *)
Definition pwDigits : string := "23456789".
(* internal/platform/password.go:15-15 pwSymbol *)
Definition pwSymbol : string := "!@#$%^&*-_".

(** What [crypto/rand] will deliver, [None] for a failing read. *)
Abbreviation supply := (list (option N)).
Inductive rand_error : Type := RandFailed.
Abbreviation RandM := (M supply rand_error).

(** [rand.Int] gives some number below [max]. *)
(* internal/platform/password.go:73-79 randomInt *)
Definition randomInt (max : nat) : RandM nat :=
  x ← mstate (λ s, (head s, tail s));
  match x with
  | Some (Some n) => mret (N.to_nat n mod max)
  | _ => mfail RandFailed
  end.

(* internal/platform/password.go:65-71 randomChar *)
Definition randomChar (charset : string) : RandM ascii :=
  i ← randomInt (String.length charset);
  mret (default "000"%char (str_bytes charset !! i)).

(** The two filling loops: one character per charset of the list. *)
Fixpoint fill (charsets : list string) : RandM (list ascii) :=
  match charsets with
  | [] => mret []
  | cs :: rest => c ← randomChar cs; l ← fill rest; mret (c :: l)
  end.

Definition swap (i j : nat) (buf : list ascii) : list ascii :=
  match buf !! i, buf !! j with
  | Some x, Some y => <[j := x]> (<[i := y]> buf)
  | _, _ => buf
  end.

(** [for i := n; i > 0; i--] *)
Fixpoint shuffle (i : nat) (buf : list ascii) : RandM (list ascii) :=
  match i with
  | O => mret buf
  | S i' => j ← randomInt (S i); shuffle i' (swap i j buf)
  end.

Definition pw_all : string := pwUpper +:+ pwLower +:+ pwDigits +:+ pwSymbol.
Definition pw_classes : list string := [pwUpper; pwLower; pwDigits; pwSymbol].

(* internal/platform/password.go:30-63 GenerateSupportPassword *)
Definition GenerateSupportPassword (length : Z) : RandM string :=
  let len := Z.to_nat (if (length <? 4)%Z then 4%Z else length) in
  buf ← fill (pw_classes ++ replicate (len - 4) pw_all);
  buf' ← shuffle (len - 1) buf;
  mret (bytes_str buf').

Lemma swap_perm i j buf : swap i j buf ≡ₚ buf.
Proof.
  unfold swap. destruct (buf !! i) as [x|] eqn:Ei; [|done]. destruct (buf !! j) as [y|] eqn:Ej; [|done].
  apply lookup_lt_Some in Ei as Hi. apply lookup_lt_Some in Ej as Hj.
  destruct (decide (i = j)) as [->|Hne].
  { rewrite list_insert_insert_eq, list_insert_id by congruence. done. }
  set (l1 := <[i := y]> buf).
  assert (l1 !! j = Some y) as H1 by (unfold l1; by rewrite list_lookup_insert_ne).
  assert (∀ k z (l : list ascii), k < length l → <[k := z]> l ≡ₚ z :: delete k l) as Hins.
  { intros k z l Hk. rewrite (delete_Permutation (<[k := z]> l) k z) by (by apply list_lookup_insert_eq).
    f_equiv. rewrite !delete_take_drop, drop_insert_lt, take_insert_ge by lia. done. }
  assert (l1 ≡ₚ y :: delete j l1) as H2 by by apply delete_Permutation.
  assert (l1 ≡ₚ y :: delete i buf) as H3 by by apply Hins.
  rewrite Hins by (unfold l1; by rewrite length_insert).
  assert (delete j l1 ≡ₚ delete i buf) as -> by (apply (Permutation_cons_inv (a := y)); by rewrite <-H2).
  symmetry. by apply delete_Permutation.
Qed.

Lemma randomInt_always max s :
  max ≠ 0 → always (randomInt max) (λ r _, ∀ i, r = Ok i → i < max) s.
Proof.
  intros Hm. unfold randomInt. always_steps; try done. intros i [= <-]. by apply Nat.mod_upper_bound.
Qed.

Lemma randomChar_always cs s :
  cs ≠ ""%string → always (randomChar cs) (λ r _, ∀ c, r = Ok c → c ∈ str_bytes cs) s.
Proof.
  intros Hcs. unfold randomChar. apply always_mbind. eapply always_mono; [apply randomInt_always|].
  { by destruct cs. }
  intros [i|e] s' Hi; [|done]. apply always_mret. intros c [= <-]. specialize (Hi i eq_refl).
  assert (length (str_bytes cs) = String.length cs) as Hl.
  { clear. unfold str_bytes. induction cs; simpl; congruence. }
  destruct (lookup_lt_is_Some_2 (str_bytes cs) i) as [x Hx]; [lia|]. rewrite Hx. simpl.
  by apply list_elem_of_lookup_2 in Hx.
Qed.

Lemma fill_always css s :
  Forall (λ cs, cs ≠ ""%string) css →
  always (fill css) (λ r _, ∀ l, r = Ok l → Forall2 (λ c cs, c ∈ str_bytes cs) l css) s.
Proof.
  intros Hne. revert s. induction Hne as [|cs css Hcs Hne IH]; intros s; simpl.
  { apply always_mret. intros l [= <-]. constructor. }
  apply always_mbind. eapply always_mono; [by apply randomChar_always|].
  intros [c|e] s' Hc; [|done]. apply always_mbind. eapply always_mono; [apply IH|].
  intros [l|e] s'' Hl; [|done]. apply always_mret. intros l' [= <-]. constructor; auto.
Qed.

Lemma shuffle_always i buf s : always (shuffle i buf) (λ r _, ∀ l, r = Ok l → l ≡ₚ buf) s.
Proof.
  revert buf s. induction i as [|i IH]; intros buf s; cbn [shuffle].
  { apply always_mret. intros l [= <-]. done. }
  apply always_mbind. eapply always_mono; [by apply (randomInt_always (S (S i)))|].
  intros [j|e] s' Hj; [|done]. eapply always_mono; [apply IH|]. intros r s'' Hr l E.
  rewrite (Hr l E). apply swap_perm.
Qed.

Lemma pw_all_app :
  str_bytes pw_all = str_bytes pwUpper ++ str_bytes pwLower ++ str_bytes pwDigits ++ str_bytes pwSymbol.
Proof. reflexivity. Qed.

(** What the password is made of: one character of each class, the rest from
    the whole alphabet, in some order. *)
Lemma support_password_made length_ s :
  let len := Z.to_nat (if (length_ <? 4)%Z then 4%Z else length_) in
  always (GenerateSupportPassword length_) (λ r _, ∀ pw, r = Ok pw →
    ∃ l, Forall2 (λ c cs, c ∈ str_bytes cs) l (pw_classes ++ replicate (len - 4) pw_all) ∧
         str_bytes pw ≡ₚ l) s.
Proof.
  intros len. unfold GenerateSupportPassword. fold len. apply always_mbind.
  eapply always_mono; [apply fill_always|].
  { apply Forall_app. split; [by repeat constructor|by apply Forall_replicate]. }
  intros [l|e] s' Hl; [|done]. apply always_mbind. eapply always_mono; [apply shuffle_always|].
  intros [b|e] s'' Hb; [|done]. apply always_mret. intros ? [= <-]. exists l.
  rewrite bytes_str_bytes. auto.
Qed.

(** [draws k m]: with [k] working reads ahead, [m] succeeds and uses them. *)
Definition draws {A} (k : nat) (m : RandM A) : Prop :=
  ∀ s, Forall is_Some s → k ≤ length s → ideal m (λ r s', is_ok r = true ∧ s' = drop k s) s.
Lemma draws_mret {A} (a : A) : draws 0 (mret a).
Proof. intros s _ _. apply ideal_mret. by rewrite drop_0. Qed.
Lemma draws_mbind {A B} j k (m : RandM A) (f : A → RandM B) :
  draws j m → (∀ a, draws k (f a)) → draws (j + k) (m ≫= f).
Proof.
  intros Hm Hf s Hs Hlen. apply ideal_mbind. eapply ideal_mono; [apply Hm; [done|lia]|].
  intros [a|e] s' [Hok ->]; [|done]. eapply ideal_mono; [apply Hf|].
  { by apply Forall_drop. } { rewrite length_drop. lia. }
  intros r s'' [? ->]. by rewrite drop_drop.
Qed.
Lemma draws_randomInt max : draws 1 (randomInt max).
Proof.
  intros [|[n|] s] Hs Hlen; simpl in Hlen; [lia| |by apply Forall_cons_1 in Hs as [[] _]].
  unfold randomInt. ideal_steps. by rewrite drop_0.
Qed.
Lemma draws_fill css : draws (length css) (fill css).
Proof.
  induction css as [|cs css IH]; cbn [fill length]; [apply draws_mret|].
  apply (draws_mbind 1 (length css)).
  { apply (draws_mbind 1 0); [apply draws_randomInt|intros; apply draws_mret]. }
  intros c. rewrite <-(Nat.add_0_r (length css)). apply draws_mbind; [done|intros; apply draws_mret].
Qed.
Lemma draws_shuffle i buf : draws i (shuffle i buf).
Proof.
  revert buf. induction i as [|i IH]; intros buf; cbn [shuffle]; [apply draws_mret|].
  apply (draws_mbind 1 i); [apply draws_randomInt|done].
Qed.

Lemma draws_password length_ :
  draws (Z.to_nat (2 * Z.max 4 length_ - 1)) (GenerateSupportPassword length_).
Proof.
  unfold GenerateSupportPassword. set (len := Z.to_nat (if (length_ <? 4)%Z then 4%Z else length_)).
  assert (Z.to_nat (2 * Z.max 4 length_ - 1) = len + ((len - 1) + 0) ∧ 4 ≤ len) as [-> Hlen].
  { unfold len. destruct (Z.ltb_spec length_ 4); lia. }
  apply draws_mbind; [|intros; apply draws_mbind; [apply draws_shuffle|intros; apply draws_mret]].
  replace len with (length (pw_classes ++ replicate (len - 4) pw_all)) at 1; [apply draws_fill|].
  rewrite length_app, length_replicate. simpl. lia.
Qed.

(** C40: a generated support password always satisfies the complexity policy:
    whatever the random source delivers, it has the requested length (four at
    least), every character is from the unambiguous alphabet, and it contains
    an upper-case letter, a lower-case letter, a digit and a symbol; and the
    generator does return one whenever the random source works. *)
Theorem support_password_complex length_ s :
  let len := Z.max 4 length_ in
  (∀ pw, (run (GenerateSupportPassword length_) s).1 = Ok pw →
     Z.of_nat (length (str_bytes pw)) = len ∧
     Forall (λ c, c ∈ str_bytes pw_all) (str_bytes pw) ∧
     Forall (λ cs, ∃ c, c ∈ str_bytes pw ∧ c ∈ str_bytes cs) [pwUpper; pwLower; pwDigits; pwSymbol]) ∧
  (Forall is_Some s → (2 * len - 1 ≤ Z.of_nat (length s))%Z →
     ∃ pw, (run (GenerateSupportPassword length_) s).1 = Ok pw).
Proof.
  split; [intros pw E|intros Hs Hlen].
  2: { destruct (ideal_run _ _ _ (draws_password length_ s Hs ltac:(lia))) as [Hok _].
       destruct (run _ s) as [[pw|e] s']; [by exists pw|done]. }
  pose proof (always_run _ _ _ (support_password_made length_ s)) as Ha.
  destruct (run _ s) as [r s']. destruct (Ha pw E) as (l & Hl & Hp). split_and!.
  - rewrite Hp, (Forall2_length Hl), length_app, length_replicate. simpl.
    destruct (Z.ltb_spec length_ 4); lia.
  - rewrite Hp, pw_all_app. eapply Forall2_Forall_l; [exact Hl|]. apply Forall_app. split.
    + repeat apply List.Forall_cons; try apply List.Forall_nil; intros c Hc; rewrite !elem_of_app; tauto.
    + apply Forall_replicate. by rewrite pw_all_app.
  - apply Forall2_app_inv_r in Hl as (l1 & l2 & Hl1 & _ & ->). unfold pw_classes in Hl1.
    repeat match goal with
    | H : Forall2 _ _ (_ :: _) |- _ => apply Forall2_cons_inv_r in H as (? & ? & ? & ? & ->)
    end. repeat apply List.Forall_cons; try apply List.Forall_nil;
      match goal with
      | H : ?c ∈ str_bytes ?cs |- ∃ _, _ ∧ _ ∈ str_bytes ?cs =>
          exists c; split; [rewrite Hp; cbn [app]; rewrite !elem_of_cons; tauto|exact H]
      end.
Qed.

(** ** The stored credential *)

(** A row of [device_support_credentials]. *)
Record SupportRow : Type := mkSupportRow {
  sr_Username : string;
  sr_Ciphertext : bytes;
  sr_Nonce : bytes;
  sr_UpdatedAt : time }.
Abbreviation support_db := (gmap uuid SupportRow).

(* internal/support/support.go:27-27 ErrNotFound *)
Inductive support_error : Type := SupportNotFound | SupportCrypto | SupportDB.
Abbreviation SupM := (M support_db support_error).

(** [Credential] with the time instead of its rendering. *)
(* internal/support/support.go:91-95 Credential *)
Record SupportCredential : Type := mkSupportCredential {
  sc_Username : string;
  sc_Password : string;
  sc_UpdatedAt : time }.

Section support.
Context `{AEAD} (key : bytes).

(* internal/support/support.go:38-53 encrypt *)
Definition support_encrypt (plaintext : bytes) (rnd : option bytes) : res support_error (bytes * bytes) :=
  if newCipher_ok key then
    match rnd with
    | None => Err SupportCrypto
    | Some nonce => Ok (seal key nonce plaintext, nonce)
    end
  else Err SupportCrypto.

(* internal/support/support.go:55-65 decrypt *)
Definition support_decrypt (ciphertext nonce : bytes) : res support_error bytes :=
  if newCipher_ok key then
    match open key nonce ciphertext with
    | None => Err SupportCrypto
    | Some p => Ok p
    end
  else Err SupportCrypto.

(* internal/support/support.go:69-87 Upsert *)
Definition Upsert (deviceID : uuid) (username password : string) (rnd : option bytes) (now : time) : SupM unit :=
  '(ciphertext, nonce) ← mlift (support_encrypt (str_bytes password) rnd);
  mexec SupportDB (<[deviceID := mkSupportRow username ciphertext nonce now]>).

(** [Available] and [UpdatedAt]. *)
(* internal/support/support.go:106-118 GetStatus *)
Definition GetSupportStatus (deviceID : uuid) : SupM (option time) :=
  mquery SupportDB (λ d, sr_UpdatedAt <$> d !! deviceID).

(* internal/support/support.go:124-140 ListDueForRotation *)
Definition ListDueForRotation (olderThan : duration) (now : time) : SupM (list uuid) :=
  mquery SupportDB (λ d, (select_where (λ _ r, (sr_UpdatedAt r <? now - olderThan)%Z) d).*1).

(* internal/support/support.go:142-161 Get *)
Definition GetSupportCredential (deviceID : uuid) : SupM SupportCredential :=
  r ← mquery SupportDB (λ d, d !! deviceID);
  match r with
  | None => mfail SupportNotFound
  | Some row =>
      plaintext ← mlift (support_decrypt (sr_Ciphertext row) (sr_Nonce row));
      mret (mkSupportCredential (sr_Username row) (bytes_str plaintext) (sr_UpdatedAt row))
  end.

(** The reported credential comes back as reported: after a successful
    report a reveal returns exactly that user name and password, the stored
    row holds the sealed password, the credentials of other devices are
    untouched, and a failing report changes nothing. *)
Theorem support_credential_roundtrip `{!AEADLaws} dev username password rnd now d :
  always (Upsert dev username password rnd now) (λ r d',
    match r with
    | Ok _ =>
        (run (GetSupportCredential dev) d').1 = Ok (mkSupportCredential username password now) ∧
        (∃ nonce, rnd = Some nonce ∧
           d' !! dev = Some (mkSupportRow username (seal key nonce (str_bytes password)) nonce now)) ∧
        ∀ other, other ≠ dev → d' !! other = d !! other
    | Err _ => d' = d
    end) d.
Proof.
  unfold Upsert, support_encrypt. destruct (newCipher_ok key) eqn:Ek; [|by always_steps].
  destruct rnd as [nonce|]; [|by always_steps]. always_steps; [done|]. split_and!.
  - unfold GetSupportCredential, support_decrypt. rewrite Ek. run_unfold. run_simpl.
    rewrite lookup_insert_eq. simpl. rewrite open_seal. run_simpl. by rewrite str_bytes_str.
  - exists nonce. by rewrite lookup_insert_eq.
  - intros other Hne. by rewrite lookup_insert_ne.
Qed.
End support.

(** ** The rotation sweep *)

Record rotation_state : Type := mkRotation {
  ro_settings : settings;
  ro_support : support_db;
  ro_hub : hub }.
Definition set_ro_settings (x : settings) (s : rotation_state) : rotation_state :=
  mkRotation x (ro_support s) (ro_hub s).
Definition set_ro_support (x : support_db) (s : rotation_state) : rotation_state :=
  mkRotation (ro_settings s) x (ro_hub s).
Definition set_ro_hub (x : hub) (s : rotation_state) : rotation_state :=
  mkRotation (ro_settings s) (ro_support s) x.
Abbreviation RotM := (M rotation_state Empty_set).

Definition rotate_command : DeviceCommandPayload := mkCommand "" CmdRotateSupportCredential [].

Section rotation.
Context `{!Json Envelope, !Json DeviceCommandPayload}.
(** The message ids the loop draws. *)
Context (mid : nat → string).

(** The loop over the due devices; [n] counts the messages. *)
(* internal/support/rotation.go:46-55 RunRotationSweeper *)
Fixpoint rotate_due (ids : list uuid) (n : nat) (now : time) : RotM unit :=
  match ids with
  | [] => mret tt
  | id :: rest =>
      online ← mstate (λ s, (IsOnline id (ro_hub s), s));
      if online : bool then
        mignore (mzoom ro_hub set_ro_hub (SendMessage id TypeDeviceCommand rotate_command (mid n) now));;
        rotate_due rest (S n) now
      else rotate_due rest n now
  end.

(** One tick of the ticker. *)
(* internal/support/rotation.go:32-55 RunRotationSweeper *)
Definition rotation_tick (now : time) : RotM unit :=
  d ← mtry (mzoom ro_settings set_ro_settings SupportCredentialRotationDays);
  match d with
  | Err _ => mret tt
  | Ok days =>
      if (days <=? 0)%Z then mret tt else
      l ← mtry (mzoom ro_support set_ro_support (ListDueForRotation (wrap64 (days * 24 * Hour)) now));
      match l with
      | Err _ => mret tt
      | Ok ids => rotate_due ids 0 now
      end
  end.

(** The messages of a fault-free loop. *)
Fixpoint rotations (conns : gmap uuid nat) (ids : list uuid) (n : nat) (now : time)
    : list (nat * ws_message) :=
  match ids with
  | [] => []
  | id :: rest =>
      match conns !! id with
      | Some ws =>
          match Encode TypeDeviceCommand None rotate_command (mid n) now with
          | Ok raw => [(ws, Text raw)]
          | Err _ => []
          end ++ rotations conns rest (S n) now
      | None => rotations conns rest n now
      end
  end.

Lemma rotate_due_sends ids n now s :
  ideal (rotate_due ids n now) (λ r s',
    r = Ok tt ∧
    s' = set_ro_hub (on_sent (λ l, l ++ rotations (hb_conns (ro_hub s)) ids n now) (ro_hub s)) s) s.
Proof.
  revert n s. induction ids as [|id ids IH]; intros n s; cbn [rotate_due rotations].
  { apply ideal_mret. split; [done|]. destruct s as [a b []]. unfold set_ro_hub, on_sent. simpl. by rewrite app_nil_r. }
  apply ideal_mbind, ideal_mstate. unfold IsOnline. simpl.
  destruct (hb_conns (ro_hub s) !! id) as [ws|] eqn:Ec; simpl; [|apply IH].
  apply ideal_mbind, ideal_mignore, ideal_mzoom. unfold SendMessage, getConn.
  apply ideal_mbind, ideal_mbind, ideal_mstate. simpl. rewrite Ec. apply ideal_mret, ideal_mbind.
  unfold encode. apply ideal_mwrap, ideal_mlift.
  destruct (Encode _ _ _ _ _) as [raw|e]; simpl.
  - unfold write. apply ideal_mexec. eapply ideal_mono; [apply IH|]. intros r s' [-> ->].
    split; [done|]. destruct s as [a b []]. unfold set_ro_hub, on_sent. simpl. by rewrite <-app_assoc.
  - replace (set_ro_hub (ro_hub s) s) with s by (by destruct s). apply IH.
Qed.

Lemma rotations_due conns ids n now ws m :
  (ws, m) ∈ rotations conns ids n now → ∃ dev, dev ∈ ids ∧ conns !! dev = Some ws.
Proof.
  revert n. induction ids as [|id ids IH]; intros n; cbn [rotations]; [by rewrite elem_of_nil|].
  destruct (conns !! id) as [w|] eqn:Ec.
  - rewrite elem_of_app. intros [Hin|Hin].
    + destruct (Encode _ _ _ _ _); [|by apply elem_of_nil in Hin].
      apply list_elem_of_singleton in Hin as [= -> ->]. exists id. split; [left|done].
    + destruct (IH _ Hin) as (dev & ? & ?). exists dev. split; [by right|done].
  - intros Hin. destruct (IH _ Hin) as (dev & ? & ?). exists dev. split; [by right|done].
Qed.

(** The interval in force. *)
Definition interval_days (d : settings) : Z :=
  match d !! KeySupportCredentialRotationDays ≫= Atoi with Some n => Z.max 0 n | None => 0%Z end.

Lemma rotation_days_read (d : settings) :
  ideal SupportCredentialRotationDays (λ r d', r = Ok (interval_days d) ∧ d' = d) d.
Proof.
  unfold SupportCredentialRotationDays, GetSetting, interval_days. apply ideal_mbind, ideal_mquery.
  destruct (d !! _) as [v|]; simpl; [|by apply ideal_mret].
  destruct (Atoi v) as [n|]; [|by apply ideal_mret].
  destruct (Z.ltb_spec n 0); apply ideal_mret; (split; [f_equal; lia|done]).
Qed.

Lemma rotation_tick_ideal s now :
  let days := interval_days (ro_settings s) in
  let due := (select_where (λ _ r, (sr_UpdatedAt r <? now - wrap64 (days * 24 * Hour))%Z) (ro_support s)).*1 in
  ideal (rotation_tick now) (λ r s', r = Ok tt ∧ s' =
     if (0 <? days)%Z
     then set_ro_hub (on_sent (λ l, l ++ rotations (hb_conns (ro_hub s)) due 0 now) (ro_hub s)) s
     else s) s.
Proof.
  intros days due. unfold rotation_tick. apply ideal_mbind, ideal_mtry, ideal_mzoom.
  eapply ideal_mono; [apply rotation_days_read|]. intros r d' [-> ->]. fold days.
  replace (set_ro_settings (ro_settings s) s) with s by (by destruct s).
  destruct (Z.leb_spec days 0) as [Hle|Hgt]; simpl.
  { apply ideal_mret. by rewrite (proj2 (Z.ltb_ge 0 days)). }
  rewrite (proj2 (Z.ltb_lt 0 days)) by done.
  apply ideal_mbind, ideal_mtry, ideal_mzoom, ideal_mquery. simpl.
  replace (set_ro_support (ro_support s) s) with s by (by destruct s). apply rotate_due_sends.
Qed.

(** The rotation sweep does what its interval says: with no interval
    stored (or zero) a tick touches nothing; with [days] set, a tick sends the
    rotation command exactly to the connected devices whose credential is
    older than [days] days, in the order of the query, and changes no stored
    credential; a device that is offline is left for a later tick. *)
Theorem rotation_tick_exact s now :
  let days := interval_days (ro_settings s) in
  let due := (select_where (λ _ r, (sr_UpdatedAt r <? now - wrap64 (days * 24 * Hour))%Z) (ro_support s)).*1 in
  run (rotation_tick now) s =
    (Ok tt,
     if (0 <? days)%Z
     then set_ro_hub (on_sent (λ l, l ++ rotations (hb_conns (ro_hub s)) due 0 now) (ro_hub s)) s
     else s) ∧
  (∀ ws m, (ws, m) ∈ rotations (hb_conns (ro_hub s)) due 0 now →
     ∃ dev row, hb_conns (ro_hub s) !! dev = Some ws ∧ ro_support s !! dev = Some row ∧
       (sr_UpdatedAt row < now - wrap64 (days * 24 * Hour))%Z).
Proof.
  intros days due. split.
  - destruct (ideal_run _ _ _ (rotation_tick_ideal s now)) as [H1 H2].
    destruct (run (rotation_tick now) s). simpl in *. by rewrite H1, H2.
  - intros ws m (dev & Hin & Hc)%rotations_due. exists dev.
    apply list_elem_of_fmap in Hin as ([dev' row] & -> & Hin). apply elem_of_select_where in Hin as [Hr Ho].
    exists row. by apply Z.ltb_lt in Ho.
Qed.
End rotation.

(** ** Witnesses *)

Lemma support_credential_roundtrip_witness :
  (run (@GetSupportCredential demo_aead (replicate 32 "k"%char) 7)
    (run (@Upsert demo_aead (replicate 32 "k"%char) 7 "wr-support" "s3cret" (Some [])%list 5) ∅).2).1 =
  Ok (mkSupportCredential "wr-support" "s3cret" 5).
Proof.
  pose proof (always_run _ _ _ (@support_credential_roundtrip demo_aead (replicate 32 "k"%char) demo_aead_laws
    7 "wr-support" "s3cret" (Some []) 5 ∅)) as H.
  destruct (run (@Upsert _ _ _ _ _ _ _) ∅) as [r d'] eqn:E.
  assert (r = Ok tt) as -> by (revert E; vm_compute; congruence).
  exact (proj1 H).
Defined.
