(* ===== verification/Config.v ===== *)
(** Server configuration and request origin: [internal/config/server.go]
    (defaults, secret files, the start-up refusal rules),
    [internal/config/advisory.go], and the client address of
    [internal/netutil/netutil.go], which decides when [X-Forwarded-For] is
    believed. *)
From S2P Require Import Prelude AgentRelease.

(** ** Client addresses *)

(** [net/netip]: addresses, prefixes and their membership. *)
Class NetIP : Type := {
  addr : Type;
  prefix : Type;
  ParseAddr : string → option addr;
  ParsePrefix : string → option prefix;
  (** [PrefixFrom(addr, addr.BitLen())]: the prefix of one address. *)
  single : addr → prefix;
  Contains : prefix → addr → bool }.

(** The first [i] with [b[i] = c], and the last. *)
Fixpoint IndexByte (c : ascii) (b : bytes) : option nat :=
  match b with
  | [] => None
  | x :: b' => if Ascii.eqb x c then Some 0 else S <$> IndexByte c b'
  end.
Definition LastIndexByte (c : ascii) (b : bytes) : option nat :=
  (λ i, length b - 1 - i) <$> IndexByte c (rev b).

(** [net.SplitHostPort]; [None] is an address error. *)
Definition SplitHostPort (hostport : bytes) : option (bytes * bytes) :=
  match LastIndexByte ":" hostport with
  | None => None
  | Some i =>
      '(host, j, k) ←
        match hostport with
        | "["%char :: _ =>
            match IndexByte "]" hostport with
            | None => None
            | Some e => if e + 1 =? i then Some (drop 1 (take e hostport), 1, e + 1) else None
            end
        | _ =>
            let host := take i hostport in
            if is_null (IndexByte ":" host) then Some (host, 0, 0) else None
        end;
      if negb (is_null (IndexByte "[" (drop j hostport))) || negb (is_null (IndexByte "]" (drop k hostport)))
      then None
      else Some (host, drop (i + 1) hostport)
  end.

Example SplitHostPort_1 : SplitHostPort (str_bytes "10.0.0.1:443") = Some (str_bytes "10.0.0.1", str_bytes "443").
Proof. reflexivity. Qed.
Example SplitHostPort_2 : SplitHostPort (str_bytes "[::1]:80") = Some (str_bytes "::1", str_bytes "80").
Proof. reflexivity. Qed.
Example SplitHostPort_3 : SplitHostPort (str_bytes "::1:80") = None.
Proof. reflexivity. Qed.

(** [strings.Split(s, ",")[0]]. *)
Definition before_comma (b : bytes) : bytes :=
  match IndexByte "," b with Some i => take i b | None => b end.

Section netutil.
Context `{NetIP}.

(* internal/netutil/netutil.go:20-22 TrustedProxies *)
Record TrustedProxies : Type := mkTrusted { prefixes : list prefix }.

(* internal/netutil/netutil.go:39-48 parsePrefixOrAddr *)
Definition parsePrefixOrAddr (s : string) : option prefix :=
  match ParsePrefix s with
  | Some p => Some p
  | None => single <$> ParseAddr s
  end.

(* internal/netutil/netutil.go:27-37 ParseTrustedProxies *)
Fixpoint ParseTrustedProxies (entries : list string) : option TrustedProxies :=
  match entries with
  | [] => Some (mkTrusted [])
  | e :: rest =>
      p ← parsePrefixOrAddr (bytes_str (TrimSpace (str_bytes e)));
      tp ← ParseTrustedProxies rest;
      Some (mkTrusted (p :: prefixes tp))
  end.

(* internal/netutil/netutil.go:50-61 contains *)
Definition contains (tp : TrustedProxies) (host : string) : bool :=
  match ParseAddr host with
  | None => false
  | Some a => existsb (λ p, Contains p a) (prefixes tp)
  end.

(** The two inputs: [r.RemoteAddr] and the first [X-Forwarded-For] header
    (the empty string where there is none). *)
(* internal/netutil/netutil.go:69-82 ClientIP *)
Definition ClientIP (remoteAddr xForwardedFor : string) (trusted : TrustedProxies) : string :=
  let host := match SplitHostPort (str_bytes remoteAddr) with
              | Some (h, _) => bytes_str h
              | None => remoteAddr
              end in
  if contains trusted host then
    if String.eqb xForwardedFor "" then host
    else
      let first := bytes_str (TrimSpace (before_comma (str_bytes xForwardedFor))) in
      if String.eqb first "" then host else first
  else host.

(** Some configured entry covers the address. *)
Definition covered (entries : list string) (host : string) : Prop :=
  ∃ e p a, e ∈ entries ∧ parsePrefixOrAddr (bytes_str (TrimSpace (str_bytes e))) = Some p ∧
    ParseAddr host = Some a ∧ Contains p a = true.

Lemma contains_covered entries tp host :
  ParseTrustedProxies entries = Some tp → contains tp host = true ↔ covered entries host.
Proof.
  revert tp. unfold contains, covered. induction entries as [|e rest IH]; intros tp; simpl.
  - intros [= <-]. simpl. destruct (ParseAddr host); split; try done; intros (? & ? & ? & Hin & _); by inversion Hin.
  - destruct (parsePrefixOrAddr _) as [p|] eqn:Ep; [|done]. simpl.
    destruct (ParseTrustedProxies rest) as [tp'|]; [|done]. simpl. intros [= <-]. simpl.
    specialize (IH tp' eq_refl). destruct (ParseAddr host) as [a|]; [|split; [done|naive_solver]].
    rewrite orb_true_iff, IH. setoid_rewrite elem_of_cons. naive_solver.
Qed.

(** The client address cannot be forged: with the configured proxies, a
    request whose TCP peer no entry covers gets its peer address whatever
    [X-Forwarded-For] it sends (with no entry configured that is every
    request), and behind a covered peer the address is the first non-empty
    element of the header. *)
Theorem client_ip_trusted_only entries tp remoteAddr xff :
  ParseTrustedProxies entries = Some tp →
  let host := match SplitHostPort (str_bytes remoteAddr) with Some (h, _) => bytes_str h | None => remoteAddr end in
  (¬ covered entries host → ClientIP remoteAddr xff tp = ClientIP remoteAddr "" tp ∧ ClientIP remoteAddr xff tp = host) ∧
  (covered entries host →
     let first := bytes_str (TrimSpace (before_comma (str_bytes xff))) in
     ClientIP remoteAddr xff tp = if String.eqb xff "" || String.eqb first "" then host else first).
Proof.
  intros Htp host. unfold ClientIP. fold host. rewrite <-(contains_covered entries tp host Htp).
  destruct (contains tp host); split; try done.
  intros _. simpl. by destruct (String.eqb xff "").
Qed.
End netutil.

(** ** The configuration *)

(* internal/config/server.go:116-139 Secrets *)
Record Secrets : Type := mkSecrets {
  DatabaseURL : string;
  MigrationDatabaseURL : string;
  SessionPepper : bytes;
  TOTPEncryptionKey : bytes;
  InternalServiceKey : bytes;
  ReleasePublicKey : bytes;
  GitHubToken : string }.

Record PublicConfig : Type := mkPublic {
  BaseURL : string;
  PublicListen : string;
  DeterrentContactURL : string }.
Record AdminConfig : Type := mkAdmin {
  AdminListen : string;
  SessionAbsoluteTTL : duration;
  SessionIdleTTL : duration;
  PrivilegeTTL : duration;
  RequireMFA : bool }.
Record AgentTiming : Type := mkAgentTiming {
  HeartbeatInterval : duration;
  ConnectionLostAfter : duration;
  OfflineAfter : duration;
  StatusInterval : duration;
  NetworkUploadInterval : duration;
  EnrollmentTTL : duration;
  ReconnectMaxBackoff : duration;
  GitHubRepo : string;
  GitHubReleaseSyncEvery : duration }.
Record RelayConfig : Type := mkRelayConfig {
  TicketTTL : duration;
  MaxTunnelsPerUser : Z;
  MaxTunnelsPerDevice : Z;
  MaxSessionDuration : duration }.
Record SecurityConfig : Type := mkSecurity {
  SessionCookieName : string;
  CSRFEnabled : bool;
  HSTSEnabled : bool;
  Argon2MemoryKiB : Z;
  Argon2Iterations : Z;
  Argon2Parallelism : Z;
  TrustedProxyEntries : list string }.
Record MetricsConfig : Type := mkMetricsConfig {
  RawRetention : duration;
  HourlyRetention : duration;
  NetworkRawRetention : duration;
  NetworkHourlyRetention : duration }.

(* internal/config/server.go:19-112 ServerConfig *)
Record ServerConfig : Type := mkServerConfig {
  Mode : string;
  Public : PublicConfig;
  Admin : AdminConfig;
  Agent : AgentTiming;
  RelayCfg : RelayConfig;
  Security : SecurityConfig;
  MetricsCfg : MetricsConfig;
  HelpContentDir : string;
  SecretsOf : Secrets }.
Definition set_secrets (x : Secrets) (c : ServerConfig) : ServerConfig :=
  mkServerConfig (Mode c) (Public c) (Admin c) (Agent c) (RelayCfg c) (Security c) (MetricsCfg c)
    (HelpContentDir c) x.

Definition no_secrets : Secrets := mkSecrets "" "" [] [] [] [] "".

(* internal/config/server.go:142-186 Default *)
Definition Default : ServerConfig :=
  mkServerConfig "production"
    (mkPublic "https://localhost:8443" "0.0.0.0:8443" "")
    (mkAdmin "127.0.0.1:9443" (8 * Hour) (30 * Minute) (15 * Minute) true)
    (mkAgentTiming (45 * Second) (120 * Second) (300 * Second) (5 * Minute) (5 * Minute) (30 * Minute)
       (5 * Minute) "mrder/wartungsremote" 0)
    (mkRelayConfig (60 * Second) 5 3 (8 * Hour))
    (mkSecurity "__Host-wr_session" true true (19 * 1024) 2 1 [])
    (mkMetricsConfig (30 * 24 * Hour) (365 * 24 * Hour) (7 * 24 * Hour) (365 * 24 * Hour))
    "docs" no_secrets.

Inductive config_error : Type :=
| CfgRead (path : string)
| CfgParse (path : string)
| CfgSecret (envVar : string)
| CfgEntropy
| CfgInvalid (rule : string).

Fixpoint trim_newlines (r : bytes) : bytes :=
  match r with
  | c :: r' => if Ascii.eqb c "010" || Ascii.eqb c "013" then trim_newlines r' else r
  | [] => []
  end.
(* internal/config/server.go:316-321 trimTrailingNewline *)
Definition trimTrailingNewline (b : bytes) : bytes := rev (trim_newlines (rev b)).

(** [os.ReadFile]: the content, or whether the file does not exist. *)
Inductive file_result : Type := FileBody (b : bytes) | FileMissing | FileError.

Section load.
Context `{NetIP}.
(** The environment and the file system the process starts with, what
    [yaml.Unmarshal] makes of a file laid over a configuration, and the
    bytes [rand.Read] delivers for the two ephemeral secrets. *)
Context (Getenv : string → string) (ReadFile : string → file_result).
Context (yaml : bytes → ServerConfig → option ServerConfig) (rnd1 rnd2 : option bytes).

(* internal/config/server.go:304-314 readSecretFile *)
Definition readSecretFile (envVar : string) : res config_error bytes :=
  let path := Getenv envVar in
  if String.eqb path "" then Ok []
  else match ReadFile path with
       | FileBody b => Ok (trimTrailingNewline b)
       | _ => Err (CfgSecret envVar)
       end.

Definition bind_res {A B} (r : res config_error A) (k : A → res config_error B) : res config_error B :=
  match r with Ok a => k a | Err e => Err e end.

(* internal/config/server.go:256-302 loadSecrets *)
Definition loadSecrets : res config_error Secrets :=
  bind_res (readSecretFile "WR_DATABASE_URL_FILE") (λ dbURL,
  bind_res (readSecretFile "WR_MIGRATION_DATABASE_URL_FILE") (λ migrationDBURL,
  bind_res (readSecretFile "WR_SESSION_PEPPER_FILE") (λ pepper,
  bind_res (readSecretFile "WR_TOTP_ENCRYPTION_KEY_FILE") (λ totpKey,
  bind_res (readSecretFile "WR_INTERNAL_SERVICE_KEY_FILE") (λ svcKey,
  bind_res (readSecretFile "WR_RELEASE_PUBLIC_KEY_FILE") (λ releaseKey,
  bind_res (readSecretFile "WR_GITHUB_TOKEN_FILE") (λ githubToken,
  Ok (mkSecrets (bytes_str dbURL) (bytes_str migrationDBURL) pepper totpKey svcKey releaseKey
        (bytes_str githubToken))))))))).

(* internal/config/server.go:248-254 randomBytes *)
Definition randomBytes (rnd : option bytes) : res config_error bytes :=
  match rnd with Some b => Ok b | None => Err CfgEntropy end.

(* internal/config/server.go:228-246 fillDevelopmentSecrets *)
Definition fillDevelopmentSecrets (s : Secrets) : res config_error Secrets :=
  bind_res
    (if length (SessionPepper s) <? 32 then
       bind_res (randomBytes rnd1) (λ b, Ok (mkSecrets (DatabaseURL s) (MigrationDatabaseURL s) b
         (TOTPEncryptionKey s) (InternalServiceKey s) (ReleasePublicKey s) (GitHubToken s)))
     else Ok s) (λ s,
  if negb (length (TOTPEncryptionKey s) =? 32) then
    bind_res (randomBytes rnd2) (λ b, Ok (mkSecrets (DatabaseURL s) (MigrationDatabaseURL s) (SessionPepper s)
      b (InternalServiceKey s) (ReleasePublicKey s) (GitHubToken s)))
  else Ok s).

Definition is_production (c : ServerConfig) : bool := String.eqb (Mode c) "production".

(* internal/config/server.go:325-363 Validate *)
Definition Validate (c : ServerConfig) : res config_error unit :=
  if negb (is_production c) && negb (String.eqb (Mode c) "development") then Err (CfgInvalid "mode")
  else if (SessionAbsoluteTTL (Admin c) <=? 0)%Z || (SessionIdleTTL (Admin c) <=? 0)%Z ||
          (PrivilegeTTL (Admin c) <=? 0)%Z then Err (CfgInvalid "ttl")
  else if (HeartbeatInterval (Agent c) <=? 0)%Z || (ConnectionLostAfter (Agent c) <=? 0)%Z ||
          (OfflineAfter (Agent c) <=? 0)%Z then Err (CfgInvalid "agent timing")
  else if (OfflineAfter (Agent c) <=? ConnectionLostAfter (Agent c))%Z then Err (CfgInvalid "offline_after")
  else match ParseTrustedProxies (TrustedProxyEntries (Security c)) with
  | None => Err (CfgInvalid "trusted_proxies")
  | Some _ =>
      if is_production c then
        if negb (RequireMFA (Admin c)) then Err (CfgInvalid "require_mfa")
        else if negb (HSTSEnabled (Security c)) || negb (CSRFEnabled (Security c)) then Err (CfgInvalid "hsts/csrf")
        else if (String.length (SessionCookieName (Security c)) <? 6) ||
                negb (String.eqb (substring 0 6 (SessionCookieName (Security c))) "__Host")
             then Err (CfgInvalid "session_cookie_name")
        else if String.eqb (DatabaseURL (SecretsOf c)) "" then Err (CfgInvalid "WR_DATABASE_URL_FILE")
        else if length (SessionPepper (SecretsOf c)) <? 32 then Err (CfgInvalid "WR_SESSION_PEPPER_FILE")
        else if negb (length (TOTPEncryptionKey (SecretsOf c)) =? 32) then Err (CfgInvalid "WR_TOTP_ENCRYPTION_KEY_FILE")
        else Ok tt
      else Ok tt
  end.

(* internal/config/server.go:191-226 LoadServer *)
Definition LoadServer (path : string) : res config_error ServerConfig :=
  bind_res
    (if String.eqb path "" then Ok Default
     else match ReadFile path with
          | FileMissing => Ok Default
          | FileError => Err (CfgRead path)
          | FileBody body => match yaml body Default with Some c => Ok c | None => Err (CfgParse path) end
          end) (λ c,
  bind_res loadSecrets (λ secrets,
  let c := set_secrets secrets c in
  bind_res
    (if String.eqb (Mode c) "development" then
       bind_res (fillDevelopmentSecrets (SecretsOf c)) (λ s, Ok (set_secrets s c))
     else Ok c) (λ c,
  bind_res (Validate c) (λ _, Ok c)))).

(** What a validated configuration guarantees in every mode, and in
    production. *)
Record sane (c : ServerConfig) : Prop := {
  sane_mode : Mode c = "production"%string ∨ Mode c = "development"%string;
  sane_ttls : (0 < SessionAbsoluteTTL (Admin c) ∧ 0 < SessionIdleTTL (Admin c) ∧ 0 < PrivilegeTTL (Admin c))%Z;
  sane_timing : (0 < HeartbeatInterval (Agent c) ∧ 0 < ConnectionLostAfter (Agent c) ∧
                 ConnectionLostAfter (Agent c) < OfflineAfter (Agent c))%Z;
  sane_proxies : is_Some (ParseTrustedProxies (TrustedProxyEntries (Security c))) }.
Record hardened (c : ServerConfig) : Prop := {
  hard_mfa : RequireMFA (Admin c) = true;
  hard_headers : HSTSEnabled (Security c) = true ∧ CSRFEnabled (Security c) = true;
  hard_cookie : substring 0 6 (SessionCookieName (Security c)) = "__Host"%string;
  hard_database : DatabaseURL (SecretsOf c) ≠ ""%string;
  hard_pepper : 32 ≤ length (SessionPepper (SecretsOf c));
  hard_totp : length (TOTPEncryptionKey (SecretsOf c)) = 32 }.

Lemma Validate_ok c : Validate c = Ok tt → sane c ∧ (Mode c = "production"%string → hardened c).
Proof.
  unfold Validate, is_production. intros Hv.
  destruct (String.eqb_spec (Mode c) "production") as [Hp|Hp]; simpl in Hv.
  2: destruct (String.eqb_spec (Mode c) "development") as [Hd|Hd]; simpl in Hv; [|done].
  all: repeat match type of Hv with
       | (if ?b then Err _ else _) = _ => destruct b eqn:?; [done|]
       | match ?o with Some _ => _ | None => _ end = _ => destruct o eqn:?; [|done]
       end; reflect_bools.
  - split; [constructor; [by left|lia|lia|by eexists]|]. intros _. constructor; try lia; try done; try by split.
    + by apply String.eqb_eq.
    + by apply String.eqb_neq.
    + by apply Nat.eqb_eq.
  - split; [constructor; [by right|lia|lia|by eexists]|done].
Qed.

(** The content of the file a secret is read from. *)
Definition secret_of (envVar : string) (b : bytes) : Prop :=
  (Getenv envVar = ""%string ∧ b = []) ∨
  ∃ body, Getenv envVar ≠ ""%string ∧ ReadFile (Getenv envVar) = FileBody body ∧ b = trimTrailingNewline body.

Lemma readSecretFile_ok envVar b : readSecretFile envVar = Ok b → secret_of envVar b.
Proof.
  unfold readSecretFile, secret_of. destruct (String.eqb_spec (Getenv envVar) "") as [E|E].
  - intros [= <-]. by left.
  - destruct (ReadFile _) as [body| |] eqn:Er; try done. intros [= <-]. right. by exists body.
Qed.

Lemma bind_res_ok {A B} (r : res config_error A) (k : A → res config_error B) b :
  bind_res r k = Ok b → ∃ a, r = Ok a ∧ k a = Ok b.
Proof. destruct r; [by eauto|done]. Qed.

Lemma loadSecrets_ok s :
  loadSecrets = Ok s →
  secret_of "WR_SESSION_PEPPER_FILE" (SessionPepper s) ∧
  secret_of "WR_TOTP_ENCRYPTION_KEY_FILE" (TOTPEncryptionKey s) ∧
  secret_of "WR_RELEASE_PUBLIC_KEY_FILE" (ReleasePublicKey s).
Proof.
  unfold loadSecrets. intros Hl.
  repeat (apply bind_res_ok in Hl as (? & ?%readSecretFile_ok & Hl)). injection Hl as <-. done.
Qed.

(** The server refuses to start insecurely: whatever the configuration
    file, the environment and the secret files contain, a configuration that
    [LoadServer] returns has positive session, privilege and agent timings
    with offline after connection-lost; and in production mode it requires
    MFA, HSTS and CSRF protection, a [__Host] session cookie, a database, a
    pepper of at least 32 and a TOTP key of exactly 32 bytes, and the keys
    are the contents of the files the environment names, never a value of
    the configuration file. *)
Theorem production_start_refused path c :
  LoadServer path = Ok c →
  sane c ∧
  (Mode c = "production"%string →
   hardened c ∧
   secret_of "WR_SESSION_PEPPER_FILE" (SessionPepper (SecretsOf c)) ∧
   secret_of "WR_TOTP_ENCRYPTION_KEY_FILE" (TOTPEncryptionKey (SecretsOf c)) ∧
   secret_of "WR_RELEASE_PUBLIC_KEY_FILE" (ReleasePublicKey (SecretsOf c))).
Proof.
  unfold LoadServer. intros H1.
  apply bind_res_ok in H1 as (c1 & _ & H1). apply bind_res_ok in H1 as (s & Hs & H1).
  apply bind_res_ok in H1 as (c2 & Hc2 & H1). apply bind_res_ok in H1 as ([] & Hv & [= <-]).
  destruct (Validate_ok c2 Hv) as [Hsane Hhard]. split; [done|]. intros Hm. split; [auto|].
  destruct (String.eqb_spec (Mode (set_secrets s c1)) "development") as [Hd|Hd].
  - exfalso. apply bind_res_ok in Hc2 as (s' & _ & [= <-]). simpl in Hm, Hd. congruence.
  - injection Hc2 as <-. by apply loadSecrets_ok.
Qed.

(** The [__Host-] prefix is documented, its dash is not checked. *)
Theorem host_prefix_dash_unchecked :
  ∃ c, Mode c = "production"%string ∧ SessionCookieName (Security c) = "__Hostile"%string ∧ Validate c = Ok tt.
Proof.
  exists (mkServerConfig "production" (Public Default) (Admin Default) (Agent Default) (RelayCfg Default)
    (mkSecurity "__Hostile" true true 19456 2 1 []) (MetricsCfg Default) "docs"
    (mkSecrets "postgres" "" (replicate 32 "p"%char) (replicate 32 "t"%char) [] [] "")).
  done.
Qed.
End load.

(** ** Recommendations *)

(* internal/config/advisory.go:14-18 Advisory *)
Record Advisory : Type := mkAdvisory { ad_Code : string; ad_Severity : string }.

(* internal/config/advisory.go:24-45 SecurityAdvisories *)
Definition SecurityAdvisories (c : ServerConfig) : list Advisory :=
  (if negb (HasPrefix (BaseURL (Public c)) "https://")
   then [mkAdvisory "insecure_base_url" (if is_production c then "critical" else "warning")] else []) ++
  (if negb (is_production c) then [mkAdvisory "development_mode" "info"] else []).

(** Only a production server with an HTTPS base URL has nothing to report,
    and a critical finding means production without HTTPS. *)
Lemma SecurityAdvisories_spec c :
  (SecurityAdvisories c = [] ↔ Mode c = "production"%string ∧ HasPrefix (BaseURL (Public c)) "https://" = true) ∧
  (mkAdvisory "insecure_base_url" "critical" ∈ SecurityAdvisories c ↔
     Mode c = "production"%string ∧ HasPrefix (BaseURL (Public c)) "https://" = false).
Proof.
  unfold SecurityAdvisories, is_production.
  destruct (HasPrefix _ _); destruct (String.eqb_spec (Mode c) "production"); simpl; split; set_solver.
Qed.

(** ** Witnesses *)

Definition demo_netip : NetIP := {|
  addr := string; prefix := string;
  ParseAddr s := if String.eqb s "" then None else Some s;
  ParsePrefix _ := None; single a := a; Contains p a := String.eqb p a |}.

Lemma client_ip_trusted_only_witness :
  @ParseTrustedProxies demo_netip ["10.0.0.5"%string] = Some (@mkTrusted demo_netip ["10.0.0.5"%string]) ∧
  @ClientIP demo_netip "203.0.113.9:51000" "1.1.1.1" (@mkTrusted demo_netip ["10.0.0.5"%string]) = "203.0.113.9"%string ∧
  @ClientIP demo_netip "10.0.0.5:51000" "1.1.1.1, 10.0.0.9" (@mkTrusted demo_netip ["10.0.0.5"%string]) = "1.1.1.1"%string.
Proof.
  split; [reflexivity|]. split.
  - destruct (@client_ip_trusted_only demo_netip ["10.0.0.5"%string] (@mkTrusted demo_netip ["10.0.0.5"%string])
      "203.0.113.9:51000" "1.1.1.1" eq_refl) as [H _].
    apply H. intros (e & p & a & ->%list_elem_of_singleton & [= <-] & [= <-] & E). discriminate E.
  - destruct (@client_ip_trusted_only demo_netip ["10.0.0.5"%string] (@mkTrusted demo_netip ["10.0.0.5"%string])
      "10.0.0.5:51000" "1.1.1.1, 10.0.0.9" eq_refl) as [_ H].
    rewrite H; [reflexivity|]. exists "10.0.0.5"%string, "10.0.0.5"%string, "10.0.0.5"%string.
    split; [left|]. split_and!; reflexivity.
Defined.

Definition demo_env (v : string) : string :=
  if String.eqb v "WR_DATABASE_URL_FILE" then "/db"
  else if String.eqb v "WR_SESSION_PEPPER_FILE" then "/pepper"
  else if String.eqb v "WR_TOTP_ENCRYPTION_KEY_FILE" then "/totp" else "".
Definition demo_files (p : string) : file_result :=
  if String.eqb p "/db" then FileBody (str_bytes "postgres" ++ ["010"%char])
  else if String.eqb p "/pepper" then FileBody (replicate 40 "p"%char)
  else if String.eqb p "/totp" then FileBody (replicate 32 "t"%char ++ ["013"%char; "010"%char])
  else FileMissing.

Lemma production_start_refused_witness :
  ∃ c, @LoadServer demo_netip demo_env demo_files (λ _ _, None) None None "" = Ok c ∧
    length (TOTPEncryptionKey (SecretsOf c)) = 32 ∧ Mode c = "production"%string.
Proof.
  eexists. split; [vm_compute; reflexivity|].
  destruct (@production_start_refused demo_netip demo_env demo_files (λ _ _, None) None None "" _
    ltac:(vm_compute; reflexivity)) as [_ H].
  split; [apply (hard_totp _ (proj1 (H eq_refl)))|reflexivity].
Defined.
