(* ===== verification/Customers.v ===== *)
(** Customers and device groups ([internal/customer/customer.go]), with the
    foreign keys that tie devices and enrolment tokens to them. *)
From S2P Require Import Prelude Device.

(** [COALESCE] makes a null number or note the empty string on reading; the
    code never writes nulls. *)
(* internal/customer/customer.go:17-23 Customer *)
Record Customer : Type := mkCustomer {
  cu_Name : string;
  cu_CustomerNumber : string;
  cu_Status : string;
  cu_Notes : string }.

(* internal/customer/customer.go:25-29 Group *)
Record Group : Type := mkGroup {
  gp_CustomerID : option uuid;
  gp_Name : string }.

Record cust_db : Type := mkCustDB {
  cd_customers : gmap uuid Customer;
  cd_groups : gmap uuid Group;
  cd_registry : dev_db }.
Definition on_customers (f : gmap uuid Customer → gmap uuid Customer) (d : cust_db) : cust_db :=
  mkCustDB (f (cd_customers d)) (cd_groups d) (cd_registry d).
Definition on_groups (f : gmap uuid Group → gmap uuid Group) (d : cust_db) : cust_db :=
  mkCustDB (cd_customers d) (f (cd_groups d)) (cd_registry d).

(* internal/customer/customer.go:15-15 ErrNotFound *)
Inductive cust_error : Type := CustNotFound | CustDB.
Abbreviation CustM := (M cust_db cust_error).

Section customers.
(** The order of [ORDER BY name]. *)
Context (collate_le : string → string → bool).

(* internal/customer/customer.go:39-54 List *)
Definition ListCustomers : CustM (list (uuid * Customer)) :=
  mquery CustDB (λ d, order_by (λ a b, collate_le (cu_Name a.2) (cu_Name b.2)) (map_to_list (cd_customers d))).

(* internal/customer/customer.go:93-114 ListGroups *)
Definition ListGroups (customerID : option uuid) : CustM (list (uuid * Group)) :=
  mquery CustDB (λ d, order_by (λ a b, collate_le (gp_Name a.2) (gp_Name b.2))
    (select_where (λ _ g, match customerID with
                          | Some c => bool_decide (gp_CustomerID g = Some c)
                          | None => true end) (cd_groups d))).
End customers.

(* internal/customer/customer.go:56-65 Create *)
Definition CreateCustomer (name number notes : string) (new_id : uuid) : CustM (uuid * Customer) :=
  let c := mkCustomer name number "active" notes in
  mstmt CustDB (λ d,
    if is_null (cd_customers d !! new_id) then (Ok (new_id, c), on_customers (insert new_id c) d)
    else (Err CustDB, d)).

(** The [CHECK] on [customers.status]. *)
Definition status_ok (s : string) : bool := String.eqb s "active" || String.eqb s "disabled".

(* internal/customer/customer.go:67-78 Update *)
Definition UpdateCustomer (id : uuid) (name number notes status : string) : CustM unit :=
  n ← mstmt CustDB (λ d,
        match cd_customers d !! id with
        | None => (Ok 0, d)
        | Some _ =>
            if status_ok status
            then (Ok 1, on_customers (insert id (mkCustomer name number status notes)) d)
            else (Err CustDB, d)
        end);
  if n =? 0 then mfail CustNotFound else mret tt.

(* internal/customer/customer.go:80-91 Get *)
Definition GetCustomer (id : uuid) : CustM (uuid * Customer) :=
  r ← mquery CustDB (λ d, cd_customers d !! id);
  match r with None => mfail CustNotFound | Some c => mret (id, c) end.

(** A group's customer must exist. *)
(* internal/customer/customer.go:116-123 CreateGroup *)
Definition CreateGroup (customerID : option uuid) (name : string) (new_id : uuid) : CustM (uuid * Group) :=
  let g := mkGroup customerID name in
  mstmt CustDB (λ d,
    if is_null (cd_groups d !! new_id) &&
       match customerID with Some c => negb (is_null (cd_customers d !! c)) | None => true end
    then (Ok (new_id, g), on_groups (insert new_id g) d)
    else (Err CustDB, d)).

(* internal/customer/customer.go:125-134 RenameGroup *)
Definition RenameGroup (id : uuid) (name : string) : CustM unit :=
  n ← mstmt CustDB (λ d, (Ok (rows_with_id id (cd_groups d)),
        on_groups (update_id id (λ g, mkGroup (gp_CustomerID g) name)) d));
  if n =? 0 then mfail CustNotFound else mret tt.

(** [ON DELETE SET NULL] on [devices.group_id] and
    [enrollment_tokens.group_id]. *)
Definition leave_group (id : uuid) (x : Device) : Device :=
  if bool_decide (dv_GroupID x = Some id)
  then apply_patch (mkPatch None None (Some None) None None) x else x.
Definition token_leaves_group (id : uuid) (t : EnrollmentToken) : EnrollmentToken :=
  if bool_decide (et_GroupID t = Some id)
  then mkToken (et_TokenHash t) (et_CustomerID t) None (et_DisplayName t) (et_Tags t) (et_CreatedBy t)
         (et_CreatedAt t) (et_ExpiresAt t) (et_ConsumedAt t) (et_ConsumedDeviceID t) (et_RevokedAt t)
         (et_IsReusable t) (et_UseCount t) (et_LastUsedAt t)
  else t.
Definition ungroup (id : uuid) (r : dev_db) : dev_db :=
  on_tokens (fmap (token_leaves_group id)) (on_devices (fmap (leave_group id)) r).

(* internal/customer/customer.go:139-148 DeleteGroup *)
Definition DeleteGroup (id : uuid) : CustM unit :=
  n ← mstmt CustDB (λ d,
        match cd_groups d !! id with
        | None => (Ok 0, d)
        | Some _ => (Ok 1, mkCustDB (cd_customers d) (delete id (cd_groups d)) (ungroup id (cd_registry d)))
        end);
  if n =? 0 then mfail CustNotFound else mret tt.

(** ** References stay valid *)

(** Every customer and group that a group, a device or an outstanding token
    refers to exists. *)
Record refs_ok (d : cust_db) : Prop := {
  ro_groups : map_Forall (λ _ g, ∀ c, gp_CustomerID g = Some c → is_Some (cd_customers d !! c)) (cd_groups d);
  ro_devices : map_Forall (λ _ x, ∀ g, dv_GroupID x = Some g → is_Some (cd_groups d !! g))
                 (devices (cd_registry d));
  ro_tokens : map_Forall (λ _ t, ∀ g, et_GroupID t = Some g → is_Some (cd_groups d !! g))
                (enrollment_tokens (cd_registry d)) }.

(** One call of the repository, whatever fails. *)
Inductive cust_step (d d' : cust_db) : Prop :=
| cs_create name number notes id : effect (CreateCustomer name number notes id) d d' → cust_step d d'
| cs_update id name number notes st : effect (UpdateCustomer id name number notes st) d d' → cust_step d d'
| cs_group c name id : effect (CreateGroup c name id) d d' → cust_step d d'
| cs_rename id name : effect (RenameGroup id name) d d' → cust_step d d'
| cs_delete id : effect (DeleteGroup id) d d' → cust_step d d'.

Lemma is_Some_insert {V} (m : gmap uuid V) k v j : is_Some (m !! j) → is_Some (<[k := v]> m !! j).
Proof. intros H. apply lookup_insert_is_Some. destruct (decide (k = j)); auto. Qed.
Lemma is_Some_update_id {V} (m : gmap uuid V) k f j : is_Some (m !! j) → is_Some (update_id k f m !! j).
Proof. intros H. rewrite lookup_update_id. case_decide; [by apply fmap_is_Some|done]. Qed.

Lemma refs_ok_delete d id :
  refs_ok d → refs_ok (mkCustDB (cd_customers d) (delete id (cd_groups d)) (ungroup id (cd_registry d))).
Proof.
  intros [Hg Hd Ht]. constructor; simpl.
  - intros k g [_ Hk]%lookup_delete_Some. by apply Hg in Hk.
  - intros k x Hk g Hx. rewrite lookup_fmap_Some in Hk. destruct Hk as (x0 & <- & Hk). unfold leave_group in Hx.
    case_bool_decide; [done|]. rewrite lookup_delete_ne by congruence. by eapply Hd.
  - intros k x Hk g Hx. rewrite lookup_fmap_Some in Hk. destruct Hk as (x0 & <- & Hk). unfold token_leaves_group in Hx.
    case_bool_decide; [done|]. rewrite lookup_delete_ne by congruence. by eapply Ht.
Qed.

Lemma cust_step_refs d d' : refs_ok d → cust_step d d' → refs_ok d'.
Proof.
  intros Hok Hs. pose proof Hok as [Hg Hd Ht].
  destruct Hs as [???? He|????? He|??? He|?? He|? He]; pattern d'; revert He; apply effect_always.
  - unfold CreateCustomer. always_steps; try done. destruct (is_null _); [|done]. simpl.
    constructor; simpl; [|done..]. intros k g Hk c Hc. apply is_Some_insert. by eapply Hg.
  - unfold UpdateCustomer. apply always_mbind, always_mstmt; [done|].
    destruct (cd_customers d !! _); simpl; [|by always_steps]. destruct (status_ok _); simpl; [|done].
    always_steps. constructor; simpl; [|done..]. intros k g Hk c' Hc. apply is_Some_insert. by eapply Hg.
  - unfold CreateGroup. apply always_mstmt; [done|]. destruct (is_null _ && _) eqn:E; [|done].
    apply andb_true_iff in E as [E1 E2]. simpl. constructor; simpl.
    + intros k g [[<- <-]|[_ Hk]]%lookup_insert_Some c' Hc; [|by eapply Hg]. simpl in Hc. subst c.
      destruct (cd_customers d !! c'); [by eexists|done].
    + intros k x Hk g Hx. apply is_Some_insert. by eapply Hd.
    + intros k x Hk g Hx. apply is_Some_insert. by eapply Ht.
  - unfold RenameGroup. apply always_mbind, always_mstmt; [done|]. simpl.
    assert (refs_ok (on_groups (update_id id (λ g, mkGroup (gp_CustomerID g) name)) d)) as Hr.
    { constructor; simpl.
      - intros k g Hk c Hc. apply update_id_inv in Hk as (g0 & Hk & [->|[_ ->]]); by eapply Hg.
      - intros k x Hk g Hx. apply is_Some_update_id. by eapply Hd.
      - intros k x Hk g Hx. apply is_Some_update_id. by eapply Ht. }
    always_steps; done.
  - unfold DeleteGroup. apply always_mbind, always_mstmt; [done|].
    destruct (cd_groups d !! id); simpl; always_steps; try done. by apply refs_ok_delete.
Qed.

Lemma cust_step_devices d d' :
  cust_step d d' → dom (devices (cd_registry d')) = dom (devices (cd_registry d)).
Proof.
  intros Hs. destruct Hs as [???? He|????? He|??? He|?? He|? He]; pattern d'; revert He; apply effect_always.
  - unfold CreateCustomer. apply always_mstmt; [done|]. by destruct (is_null _).
  - unfold UpdateCustomer. apply always_mbind, always_mstmt; [done|].
    destruct (cd_customers d !! _); simpl; [|by always_steps]. destruct (status_ok _); by always_steps.
  - unfold CreateGroup. apply always_mstmt; [done|]. by destruct (is_null _ && _).
  - unfold RenameGroup. by always_steps.
  - unfold DeleteGroup. apply always_mbind, always_mstmt; [done|].
    destruct (cd_groups d !! id); simpl; always_steps; try done; by rewrite dom_fmap_L.
Qed.

(** Group and customer references never dangle: whatever calls of the
    customer repository run, and whichever of them fail, every device, token
    and group refers to an existing group or customer; in particular
    deleting a group unassigns its devices instead of deleting them or
    leaving them pointing at nothing. *)
Theorem customer_refs_valid d0 d :
  refs_ok d0 → reachable (λ d, d = d0) cust_step d →
  refs_ok d ∧ dom (devices (cd_registry d)) = dom (devices (cd_registry d0)).
Proof.
  intros H0 Hr. revert Hr. apply (invariant_reachable _ _
    (λ d, refs_ok d ∧ dom (devices (cd_registry d)) = dom (devices (cd_registry d0)))); [by intros ? ->|].
  intros d1 d2 [Hok Hdom] Hs. split; [by eapply cust_step_refs|]. rewrite <-Hdom. by apply cust_step_devices.
Qed.

(** ** Witnesses *)

Definition demo_member : Device :=
  mkDevice 1 None (Some 4%N) "pc" "" "" "" "" "" "" StatusUnknown HealthUnknown [] [] "{}" None "" None CredNone None 0.
Definition demo_groups : cust_db :=
  mkCustDB ∅ {[4%N := mkGroup None "office"]} (on_devices (<[7%N := demo_member]>) empty_dev_db).

Lemma customer_refs_valid_witness :
  let d := (run (DeleteGroup 4) demo_groups).2 in
  refs_ok d ∧ dv_GroupID <$> devices (cd_registry d) !! 7%N = Some None ∧ cd_groups d = ∅.
Proof.
  intros d. split; [|by vm_compute].
  apply (customer_refs_valid demo_groups d).
  - constructor; simpl.
    + intros k g [<- <-]%lookup_singleton_Some c Hc. discriminate Hc.
    + intros k x [[<- <-]|[_ Hk]]%lookup_insert_Some g Hx; [|by rewrite lookup_empty in Hk].
      injection Hx as <-. eexists. reflexivity.
    + intros k t Hk. by rewrite lookup_empty in Hk.
  - eapply reach_step; [by apply reach_init|]. apply (cs_delete _ _ 4). apply effect_run.
Defined.
