(* ===== verification/Notify.v ===== *)
(** Alert notifications over Telegram ([internal/notify/telegram.go]): the one
    bot configuration, its token encrypted at rest, and the HTTP call. *)
From S2P Require Import Prelude Rbac AuthStore Mfa.

(** The single row of [telegram_config]. *)
Record TelegramRow : Type := mkTelegramRow {
  tg_Ciphertext : bytes;
  tg_Nonce : bytes;
  tg_ChatID : string;
  tg_UpdatedAt : time }.

(** The row and the requests posted so far, as URL and body. *)
Record notify_db : Type := mkNotifyDB {
  nd_config : option TelegramRow;
  nd_posted : list (string * bytes) }.

(* internal/notify/telegram.go:26-26 ErrNotConfigured *)
Inductive notify_error : Type :=
| NotConfigured | NotifyCrypto | NotifyDB | NotifyMarshal | NotifyRequest | NotifySend | NotifyStatus (code : Z).
Abbreviation NotifyM := (M notify_db notify_error).

(** The outside world: the JSON text of the request body, whether a URL can
    be built into a request, and the status a POST is answered with. *)
Class TelegramAPI : Type := {
  tg_marshal : string → string → option bytes;
  tg_url_ok : string → bool;
  tg_post : string → bytes → option Z }.

Section telegram.
Context `{AEAD, TelegramAPI} (key : bytes).

(* internal/notify/telegram.go:37-52 encrypt *)
Definition telegram_encrypt (plaintext : bytes) (rnd : option bytes) : res notify_error (bytes * bytes) :=
  if newCipher_ok key then
    match rnd with Some nonce => Ok (seal key nonce plaintext, nonce) | None => Err NotifyCrypto end
  else Err NotifyCrypto.

(* internal/notify/telegram.go:54-64 decrypt *)
Definition telegram_decrypt (ciphertext nonce : bytes) : res notify_error bytes :=
  if newCipher_ok key then
    match open key nonce ciphertext with Some p => Ok p | None => Err NotifyCrypto end
  else Err NotifyCrypto.

(* internal/notify/telegram.go:69-87 Set *)
Definition SetTelegram (botToken chatID : string) (rnd : option bytes) (now : time) : NotifyM unit :=
  '(ciphertext, nonce) ← mlift (telegram_encrypt (str_bytes botToken) rnd);
  mexec NotifyDB (λ d, mkNotifyDB (Some (mkTelegramRow ciphertext nonce chatID now)) (nd_posted d)).

(** The chat and the time of the last change, [None] where not configured. *)
(* internal/notify/telegram.go:97-107 GetStatus *)
Definition GetTelegramStatus : NotifyM (option (string * time)) :=
  mquery NotifyDB (λ d, (λ r, (tg_ChatID r, tg_UpdatedAt r)) <$> nd_config d).

(* internal/notify/telegram.go:109-124 get *)
Definition get_telegram : NotifyM (string * string) :=
  r ← mquery NotifyDB nd_config;
  match r with
  | None => mfail NotConfigured
  | Some row =>
      plaintext ← mlift (telegram_decrypt (tg_Ciphertext row) (tg_Nonce row));
      mret (bytes_str plaintext, tg_ChatID row)
  end.

(* internal/notify/telegram.go:144-167 sendTelegramMessage *)
Definition sendTelegramMessage (botToken chatID text : string) : NotifyM unit :=
  match tg_marshal chatID text with
  | None => mfail NotifyMarshal
  | Some body =>
      let url := ("https://api.telegram.org/bot" +:+ botToken +:+ "/sendMessage")%string in
      if negb (tg_url_ok url) then mfail NotifyRequest else
      mstate (λ d, (tt, mkNotifyDB (nd_config d) (nd_posted d ++ [(url, body)])));;
      match tg_post url body with
      | None => mfail NotifySend
      | Some code => if negb (code =? 200)%Z then mfail (NotifyStatus code) else mret tt
      end
  end.

(* internal/notify/telegram.go:130-136 SendMessage *)
Definition SendTelegram (text : string) : NotifyM unit :=
  '(botToken, chatID) ← get_telegram;
  sendTelegramMessage botToken chatID text.

(** The notification of a new alert; [enabled] tells whether the engine has a
    Telegram repository at all.  Its error is logged at most. *)
(* internal/alerting/engine.go:39-53 notifyOpened *)
Definition notifyOpened (enabled : bool) (displayName severity summary : string) : NotifyM unit :=
  if negb enabled then mret tt else
  let icon := if String.eqb severity "critical" then "🔴"%string else "🟡"%string in
  mignore (E := notify_error) (SendTelegram
    (icon +:+ " WartungsRemote alert" +:+ String "010" "" +:+ "Device: " +:+ displayName +:+ String "010" "" +:+ summary)).

(* internal/notify/telegram.go:140-142 SendTestMessage *)
Definition SendTestMessage (botToken chatID text : string) : NotifyM unit :=
  sendTelegramMessage botToken chatID text.

(** After a successful [Set] a message goes to the configured bot and chat,
    with the token as it was entered; without a configuration nothing is
    posted. *)
Theorem telegram_roundtrip `{!AEADLaws} botToken chatID rnd now d text body :
  tg_marshal chatID text = Some body →
  let url := ("https://api.telegram.org/bot" +:+ botToken +:+ "/sendMessage")%string in
  tg_url_ok url = true →
  always (SetTelegram botToken chatID rnd now) (λ r d', r = Ok tt →
    nd_posted (run (SendTelegram text) d').2 = nd_posted d ++ [(url, body)] ∧
    ((run (SendTelegram text) d').1 = Ok tt ↔ tg_post url body = Some 200%Z)) d ∧
  (nd_config d = None →
   always (SendTelegram text) (λ r d', d' = d ∧ (r = Err NotConfigured ∨ r = Err NotifyDB)) d).
Proof.
  intros Hm url Hu. split.
  - unfold SetTelegram, telegram_encrypt. destruct (newCipher_ok key) eqn:Ek; [|by always_steps].
    destruct rnd as [nonce|]; [|by always_steps]. always_steps; [done|]. intros _.
    unfold SendTelegram, get_telegram, telegram_decrypt, sendTelegramMessage. rewrite Ek. run_unfold. run_simpl.
    cbn [nd_config tg_Ciphertext tg_Nonce tg_ChatID]. rewrite open_seal. run_simpl.
    rewrite str_bytes_str, Hm. fold url. rewrite Hu. simpl.
    destruct (tg_post url body) as [code|]; simpl; [|done].
    destruct (Z.eqb_spec code 200) as [->|]; simpl; [done|]. split; [done|]. split; [done|congruence].
  - intros Hn. unfold SendTelegram, get_telegram. apply always_mbind, always_mbind, always_mquery; [by auto|].
    rewrite Hn. apply always_mfail. auto.
Qed.
End telegram.

Lemma telegram_roundtrip_witness :
  let api : TelegramAPI := {| tg_marshal _ _ := Some []; tg_url_ok _ := true; tg_post _ _ := Some 200%Z |} in
  let d := (run (@SetTelegram demo_aead (replicate 32 "k"%char) "tok" "42" (Some [])%list 5) (mkNotifyDB None [])).2 in
  nd_posted (run (@SendTelegram demo_aead api (replicate 32 "k"%char) "hi") d).2 =
    [("https://api.telegram.org/bottok/sendMessage"%string, [])].
Proof.
  intros api.
  pose proof (always_run _ _ _ (proj1 (@telegram_roundtrip demo_aead api (replicate 32 "k"%char) demo_aead_laws
    "tok" "42" (Some []) 5 (mkNotifyDB None []) "hi" [] eq_refl eq_refl))) as H.
  destruct (run (@SetTelegram _ _ _ _ _ _) _) as [r d'] eqn:E.
  assert (r = Ok tt) as -> by (revert E; vm_compute; congruence).
  exact (proj1 (H eq_refl)).
Defined.
