(* ===== verification/Help.v ===== *)
(** The dashboard's help pages ([internal/help/help.go]): the Markdown subset
    and its HTML, sections and their slugs.  Text is handled as UTF-8 bytes;
    the regular expressions of the source only look for ASCII bytes, which
    never occur inside a longer character. *)
From Stdlib Require Import DecimalString.
From S2P Require Import Prelude Password AgentRelease Settings.

(** ** Text *)

Definition newline : byte := "010"%char.
Definition star : byte := "*"%char.
Definition tick : byte := "`"%char.
Definition raw (s : string) : bytes := str_bytes s.

(** [strings.ReplaceAll(s, "\r\n", "\n")]. *)
Fixpoint unix_lines (b : bytes) : bytes :=
  match b with
  | c :: (d :: rest) as tl =>
      if Ascii.eqb c "013" && Ascii.eqb d newline then newline :: unix_lines rest else c :: unix_lines tl
  | _ => b
  end.

(** [strings.Join]. *)
Fixpoint join (sep : bytes) (l : list bytes) : bytes :=
  match l with
  | [] => []
  | [x] => x
  | x :: rest => x ++ sep ++ join sep rest
  end.

(** [html.EscapeString]. *)
Definition escape_byte (c : byte) : bytes :=
  if Ascii.eqb c "&" then raw "&amp;"
  else if Ascii.eqb c "'" then raw "&#39;"
  else if Ascii.eqb c "<" then raw "&lt;"
  else if Ascii.eqb c ">" then raw "&gt;"
  else if Ascii.eqb c "034" then raw "&#34;" else [c].
Definition EscapeString (b : bytes) : bytes := flat_map escape_byte b.

(** A line that is [prefix] followed by at least one character. *)
Definition after (prefix : string) (line : bytes) : option bytes :=
  match strip_bytes (raw prefix) line with
  | Some (c :: rest) => Some (c :: rest)
  | _ => None
  end.
(* internal/help/help.go:41-41 h2Pattern *)
Definition h2Pattern : bytes → option bytes := after "## ".
(* internal/help/help.go:93-93 h3Pattern *)
Definition h3Pattern : bytes → option bytes := after "### ".
(* internal/help/help.go:94-94 ulPattern *)
Definition ulPattern : bytes → option bytes := after "- ".
(* internal/help/help.go:95-95 olPattern *)
Fixpoint olPattern (line : bytes) : option bytes :=
  match line with
  | c :: rest =>
      if is_digit c then
        match after ". " rest with Some x => Some x | None => olPattern rest end
      else None
  | [] => None
  end.

(** ** Inline markup *)

(** The text before and after the first [**]. *)
Fixpoint split_stars (b : bytes) : option (bytes * bytes) :=
  match b with
  | c :: ((d :: rest) as tl) =>
      if Ascii.eqb c star && Ascii.eqb d star then Some ([], rest)
      else (λ '(x, y), (c :: x, y)) <$> split_stars tl
  | _ => None
  end.
(** The text before and after the first backtick. *)
Fixpoint split_tick (b : bytes) : option (bytes * bytes) :=
  match b with
  | [] => None
  | c :: rest => if Ascii.eqb c tick then Some ([], rest) else (λ '(x, y), (c :: x, y)) <$> split_tick rest
  end.

(** [boldPattern.ReplaceAllString(s, "<strong>$1</strong>")]: the shortest
    nonempty text between two pairs of stars, from left to right. *)
(* internal/help/help.go:96-96 boldPattern *)
Fixpoint bold (fuel : nat) (b : bytes) : bytes :=
  match fuel with
  | O => b
  | S fuel' =>
      match split_stars b with
      | Some (pre, c :: rest) =>
          match split_stars rest with
          | Some (content, tl) =>
              pre ++ raw "<strong>" ++ (c :: content) ++ raw "</strong>" ++ bold fuel' tl
          | None => b
          end
      | _ => b
      end
  end.

(** [inlineCodeExpr.ReplaceAllString(s, "<code>$1</code>")]: of two adjacent
    backticks only the second can open. *)
(* internal/help/help.go:97-97 inlineCodeExpr *)
Fixpoint inline_code (fuel : nat) (b : bytes) : bytes :=
  match fuel with
  | O => b
  | S fuel' =>
      match split_tick b with
      | Some (pre, rest) =>
          match split_tick rest with
          | Some ([], tl) => pre ++ tick :: inline_code fuel' (tick :: tl)
          | Some (content, tl) => pre ++ raw "<code>" ++ content ++ raw "</code>" ++ inline_code fuel' tl
          | None => b
          end
      | None => b
      end
  end.

(** Every round takes at least one byte, so the length is enough fuel. *)
(* internal/help/help.go:190-195 inlineMarkdown *)
Definition inlineMarkdown (s : bytes) : bytes :=
  let escaped := EscapeString s in
  let escaped := bold (length escaped) escaped in
  inline_code (length escaped) escaped.

(** ** Blocks *)

(** The variables of [RenderMarkdown]; [listKind] is empty outside a list. *)
Record render_state : Type := mkRender {
  rn_out : bytes; rn_listBuf : list bytes; rn_listKind : string; rn_inCode : bool; rn_codeBuf : list bytes }.

Definition list_item (item : bytes) : bytes := raw "<li>" ++ inlineMarkdown item ++ raw "</li>".

(* internal/help/help.go:112-123 RenderMarkdown *)
Definition flushList (st : render_state) : render_state :=
  if String.eqb (rn_listKind st) "" then st
  else mkRender (rn_out st ++ raw ("<" +:+ rn_listKind st +:+ ">") ++ flat_map list_item (rn_listBuf st) ++
                 raw ("</" +:+ rn_listKind st +:+ ">")) [] "" (rn_inCode st) (rn_codeBuf st).

(* internal/help/help.go:127-130 RenderMarkdown *)
Definition flushCode (st : render_state) : render_state :=
  mkRender (rn_out st ++ raw "<pre><code>" ++ EscapeString (join [newline] (rn_codeBuf st)) ++ raw "</code></pre>")
    (rn_listBuf st) (rn_listKind st) (rn_inCode st) [].

Definition write (b : bytes) (st : render_state) : render_state :=
  mkRender (rn_out st ++ b) (rn_listBuf st) (rn_listKind st) (rn_inCode st) (rn_codeBuf st).
Definition set_code (inCode : bool) (st : render_state) : render_state :=
  mkRender (rn_out st) (rn_listBuf st) (rn_listKind st) inCode (rn_codeBuf st).
Definition push_code (line : bytes) (st : render_state) : render_state :=
  mkRender (rn_out st) (rn_listBuf st) (rn_listKind st) (rn_inCode st) (rn_codeBuf st ++ [line]).
Definition push_item (kind : string) (item : bytes) (st : render_state) : render_state :=
  let st := if String.eqb (rn_listKind st) kind then st
            else let st := flushList st in mkRender (rn_out st) (rn_listBuf st) kind (rn_inCode st) (rn_codeBuf st) in
  mkRender (rn_out st) (rn_listBuf st ++ [item]) (rn_listKind st) (rn_inCode st) (rn_codeBuf st).

(* internal/help/help.go:132-177 RenderMarkdown *)
Definition render_line (st : render_state) (line : bytes) : render_state :=
  let trimmed := TrimSpace line in
  match strip_bytes (raw "```") trimmed with
  | Some _ => if rn_inCode st then set_code false (flushCode st) else set_code true (flushList st)
  | None =>
      if rn_inCode st then push_code line st
      else if length trimmed =? 0 then flushList st
      else
        match h3Pattern trimmed with
        | Some m => write (raw "<h3>" ++ EscapeString (TrimSpace m) ++ raw "</h3>") (flushList st)
        | None =>
            match ulPattern trimmed with
            | Some m => push_item "ul" m st
            | None =>
                match olPattern trimmed with
                | Some m => push_item "ol" m st
                | None => write (raw "<p>" ++ inlineMarkdown trimmed ++ raw "</p>") (flushList st)
                end
            end
        end
  end.

(* internal/help/help.go:106-184 RenderMarkdown *)
Definition RenderMarkdown (md : bytes) : bytes :=
  let st := fold_left render_line (split_on newline md) (mkRender [] [] "" false []) in
  let st := flushList st in
  rn_out (if rn_inCode st then flushCode st else st).

(** ** Slugs *)

(** [strings.ToLower] and the replacer, as far as a slug can tell: the
    capital letters of ASCII, the umlauts in both cases and both sharp s
    (C3 84, 96, 9C, A4, B6, BC, 9F and E1 BA 9E), and the only two other
    characters whose lower case is ASCII, the Kelvin sign (E2 84 AA) and the
    dotted capital I (C4 B0).  Any other character stays outside of
    [a-z0-9]. *)
Definition lower_ascii (c : byte) : byte :=
  if (65 <=? byte_val c)%N && (byte_val c <=? 90)%N then byte_of (byte_val c + 32) else c.
Definition fold2 (c d : byte) : option string :=
  match byte_val c, byte_val d with
  | 195%N, 132%N | 195%N, 164%N => Some "ae"
  | 195%N, 150%N | 195%N, 182%N => Some "oe"
  | 195%N, 156%N | 195%N, 188%N => Some "ue"
  | 195%N, 159%N => Some "ss"
  | 196%N, 176%N => Some "i"
  | _, _ => None
  end%string.
Definition fold3 (c d e : byte) : option string :=
  match byte_val c, byte_val d, byte_val e with
  | 225%N, 186%N, 158%N => Some "ss"
  | 226%N, 132%N, 170%N => Some "k"
  | _, _, _ => None
  end%string.
Fixpoint fold_case (b : bytes) : bytes :=
  match b with
  | [] => []
  | c :: tl =>
      match tl with
      | d :: rest =>
          match fold2 c d with
          | Some x => raw x ++ fold_case rest
          | None =>
              match rest with
              | e :: rest' =>
                  match fold3 c d e with
                  | Some x => raw x ++ fold_case rest'
                  | None => lower_ascii c :: fold_case tl
                  end
              | [] => lower_ascii c :: fold_case tl
              end
          end
      | [] => [lower_ascii c]
      end
  end.

Definition dash : byte := "-"%char.
Definition slug_char (c : byte) : bool :=
  ((97 <=? byte_val c)%N && (byte_val c <=? 122)%N) || is_digit c.
(** [nonAlnum.ReplaceAllString(s, "-")]: one dash for a run of anything else;
    [gap] tells that the run has begun. *)
(* internal/help/help.go:79-79 nonAlnum *)
Fixpoint dashes (gap : bool) (b : bytes) : bytes :=
  match b with
  | [] => []
  | c :: rest => if slug_char c then c :: dashes false rest
                 else if gap then dashes true rest else dash :: dashes true rest
  end.
(** [strings.Trim(s, "-")]. *)
Fixpoint drop_dashes (b : bytes) : bytes :=
  match b with
  | c :: rest => if Ascii.eqb c dash then drop_dashes rest else b
  | [] => []
  end.

(* internal/help/help.go:84-90 slugify *)
Definition slugify (title : bytes) : bytes :=
  rev (drop_dashes (rev (drop_dashes (dashes false (fold_case title))))).

(** ** Sections *)

(* internal/help/help.go:21-25 Section *)
Record Section_ : Type := mkSection { sc_Slug : string; sc_Title : string; sc_HTML : string }.

Record parse_state : Type := mkParse {
  ps_sections : list Section_; ps_title : bytes; ps_body : list bytes; ps_seen : gmap string nat }.

(* internal/help/help.go:51-61 Parse *)
Definition flush (st : parse_state) : parse_state :=
  if length (ps_title st) =? 0 then st
  else
    let slug := bytes_str (slugify (ps_title st)) in
    let n := default 0 (ps_seen st !! slug) in
    let slug := if 0 <? n then slug +:+ "-" +:+ Itoa (Z.of_nat (n + 1)) else slug in
    mkParse (ps_sections st ++ [mkSection slug (bytes_str (ps_title st))
               (bytes_str (RenderMarkdown (join [newline] (ps_body st))))])
      (ps_title st) (ps_body st) (<[slug := default 0 (ps_seen st !! slug) + 1]> (ps_seen st)).

(* internal/help/help.go:63-73 Parse *)
Definition parse_line (st : parse_state) (line : bytes) : parse_state :=
  match h2Pattern line with
  | Some m => let st := flush st in mkParse (ps_sections st) (TrimSpace m) [] (ps_seen st)
  | None =>
      if length (ps_title st) =? 0 then st
      else mkParse (ps_sections st) (ps_title st) (ps_body st ++ [line]) (ps_seen st)
  end.

(* internal/help/help.go:43-77 Parse *)
Definition Parse (markdown : string) : list Section_ :=
  let lines := split_on newline (unix_lines (str_bytes markdown)) in
  ps_sections (flush (fold_left parse_line lines (mkParse [] [] [] ∅))).

(** [file] is what [os.ReadFile] gave. *)
(* internal/help/help.go:32-39 Load *)
Definition Load (file : option string) : res unit (list Section_) :=
  match file with None => Err tt | Some data => Ok (Parse data) end.

Example render_demo : bytes_str (RenderMarkdown (raw "### A<b
- x **y** `z`
1. **a `b** c`
```
<&>
```")) = "<h3>A&lt;b</h3><ul><li>x <strong>y</strong> <code>z</code></li></ul><ol><li><strong>a <code>b</strong> c</code></li></ol><pre><code>&lt;&amp;&gt;</code></pre>"%string.
Proof. vm_compute. reflexivity. Qed.
Example slug_demo : bytes_str (slugify (raw "Über & GRÖẞE!")) = "ueber-groesse"%string.
Proof. vm_compute. reflexivity. Qed.

(** ** Rendered pages are inert *)

(** The whole allowlist of tags, and the entities of [EscapeString]. *)
Definition tags : list bytes :=
  raw <$> ["<h3>"; "</h3>"; "<p>"; "</p>"; "<ul>"; "</ul>"; "<ol>"; "</ol>"; "<li>"; "</li>"; "<pre>"; "</pre>";
           "<code>"; "</code>"; "<strong>"; "</strong>"]%string.
Definition entities : list bytes := raw <$> ["&amp;"; "&#39;"; "&lt;"; "&gt;"; "&#34;"]%string.
(** A byte that means nothing to an HTML parser, in text or attributes. *)
Definition plain (c : byte) : bool :=
  negb (existsb (Ascii.eqb c) ["&"; "'"; "<"; ">"; "034"]%char).

(** Text whose only markup is tags of the allowlist, all without attributes. *)
Inductive inert : bytes → Prop :=
| inert_nil : inert []
| inert_plain c b : plain c = true → inert b → inert (c :: b)
| inert_word w b : w ∈ tags ++ entities → inert b → inert (w ++ b).

Lemma inert_app a b : inert a → inert b → inert (a ++ b).
Proof.
  intros Ha Hb. induction Ha as [|c a Hc _ IH|w a Hw _ IH]; [done|by apply inert_plain|].
  rewrite <-app_assoc. by apply inert_word.
Qed.
Lemma inert_one w : w ∈ tags ++ entities → inert w.
Proof. intros Hw. rewrite <-(app_nil_r w). by apply inert_word, inert_nil. Qed.

Lemma inert_tag s : raw s ∈ tags → inert (raw s).
Proof. intros Hs. apply inert_one, elem_of_app. by left. Qed.

Lemma escape_inert b : inert (EscapeString b).
Proof.
  unfold EscapeString. induction b as [|c b IH]; simpl; [apply inert_nil|].
  apply inert_app; [|exact IH]. unfold escape_byte.
  assert (∀ s, raw s ∈ entities → inert (raw s)) as He
    by (intros s Hs; apply inert_one, elem_of_app; by right).
  repeat (case_match; [apply He, list_elem_of_In; simpl; tauto|]).
  apply inert_plain, inert_nil. unfold plain. simpl. by repeat match goal with H : Ascii.eqb _ _ = false |- _ => rewrite H; clear H end.
Qed.

(** No tag or entity contains a star or a backtick, so cutting at one leaves
    inert pieces. *)
Lemma inert_cut c a b :
  plain c = true → (∀ w, w ∈ tags ++ entities → c ∉ w) → inert (a ++ c :: b) → inert a ∧ inert b.
Proof.
  intros Hc Hw Hi. remember (a ++ c :: b) as x eqn:E. revert a E.
  induction Hi as [|d x Hd Hx IH|w x Hin Hx IH]; intros a E.
  - by destruct a.
  - destruct a as [|e a]; injection E as -> ->; [split; [apply inert_nil|done]|].
    destruct (IH a eq_refl). split; [by apply inert_plain|done].
  - assert (∃ a', a = w ++ a' ∧ x = a' ++ c :: b) as (a' & -> & Hx').
    { apply app_eq_app in E as (k & [[-> Hk]|[-> Hk]]); [|by exists k].
      destruct k as [|e k]; [exists []; by rewrite !app_nil_r|]. injection Hk as -> ->.
      exfalso. eapply (Hw _ Hin). set_solver. }
    destruct (IH a' Hx'). split; [by apply inert_word|done].
Qed.

Lemma star_cut a b : inert (a ++ star :: b) → inert a ∧ inert b.
Proof.
  apply inert_cut; [done|]. intros w Hw. apply (bool_decide_unpack _). revert w Hw.
  apply list.Forall_forall. repeat constructor.
Qed.
Lemma tick_cut a b : inert (a ++ tick :: b) → inert a ∧ inert b.
Proof.
  apply inert_cut; [done|]. intros w Hw. apply (bool_decide_unpack _). revert w Hw.
  apply list.Forall_forall. repeat constructor.
Qed.

Lemma split_stars_Some b x y : split_stars b = Some (x, y) → b = x ++ star :: star :: y.
Proof.
  revert x. induction b as [|c [|d b] IH]; intros x Hb; [done|done|]. cbn [split_stars] in Hb.
  destruct (Ascii.eqb c star && Ascii.eqb d star) eqn:E.
  - injection Hb as <- <-. reflect_bools. apply Ascii.eqb_eq in H, H0. by subst.
  - apply fmap_Some in Hb as ([x' y'] & Hx & [= -> ->]). by rewrite (IH _ Hx).
Qed.
Lemma split_tick_Some b x y : split_tick b = Some (x, y) → b = x ++ tick :: y.
Proof.
  revert x. induction b as [|c b IH]; intros x Hb; [done|]. cbn [split_tick] in Hb.
  destruct (Ascii.eqb_spec c tick) as [->|]; [by injection Hb as <- <-|].
  apply fmap_Some in Hb as ([x' y'] & Hx & [= -> ->]). by rewrite (IH _ Hx).
Qed.

Lemma stars_cut a b : inert (a ++ star :: star :: b) → inert a ∧ inert b.
Proof.
  intros Hi. apply star_cut in Hi as [Ha Hb]. split; [done|]. by apply (star_cut []) in Hb as [_ Hb].
Qed.

Create HintDb inert.
#[local] Hint Resolve inert_nil inert_app escape_inert : inert.
#[local] Hint Extern 1 (inert (raw _)) => (apply inert_tag, list_elem_of_In; simpl; tauto) : inert.

Lemma bold_inert fuel b : inert b → inert (bold fuel b).
Proof.
  revert b. induction fuel as [|fuel IH]; intros b Hb; cbn [bold]; [done|].
  destruct (split_stars b) as [[pre [|c rest]]|] eqn:E1; [done| |done].
  destruct (split_stars rest) as [[content tl]|] eqn:E2; [|done].
  apply split_stars_Some in E1 as ->. apply split_stars_Some in E2 as ->.
  apply stars_cut in Hb as [Hpre Hb]. apply (stars_cut (c :: content)) in Hb as [Hc Htl].
  auto 8 with inert.
Qed.

Lemma code_inert fuel b : inert b → inert (inline_code fuel b).
Proof.
  revert b. induction fuel as [|fuel IH]; intros b Hb; cbn [inline_code]; [done|].
  destruct (split_tick b) as [[pre rest]|] eqn:E1; [|done].
  destruct (split_tick rest) as [[content tl]|] eqn:E2; [|done].
  apply split_tick_Some in E1 as ->. apply split_tick_Some in E2 as ->.
  apply tick_cut in Hb as [Hpre Hb]. pose proof (tick_cut _ _ Hb) as [Hc Htl].
  destruct content as [|c content]; [|auto 8 with inert].
  apply inert_app, inert_plain; [done..|]. by apply IH.
Qed.

Lemma inline_inert s : inert (inlineMarkdown s).
Proof. apply code_inert, bold_inert, escape_inert. Qed.
#[local] Hint Resolve inline_inert : inert.

Lemma items_inert l : inert (flat_map list_item l).
Proof. induction l as [|x l IH]; cbn [flat_map]; unfold list_item; auto 8 with inert. Qed.
#[local] Hint Resolve items_inert : inert.

(** What has been written so far is inert, and a list is one of the two
    kinds. *)
Definition render_ok (st : render_state) : Prop :=
  inert (rn_out st) ∧ rn_listKind st ∈ [""; "ul"; "ol"]%string.

Lemma flushList_ok st : render_ok st → render_ok (flushList st).
Proof.
  intros [Ho Hk]. unfold flushList. destruct (String.eqb _ _) eqn:E; [done|]. apply String.eqb_neq in E.
  split; cbn [rn_out rn_listKind]; [|apply list_elem_of_here].
  rewrite !elem_of_cons in Hk. destruct Hk as [Hk|[Hk|[Hk|Hk]]]; [done| | |by apply not_elem_of_nil in Hk];
    rewrite Hk; auto 8 with inert.
Qed.
Lemma flushCode_ok st : render_ok st → render_ok (flushCode st).
Proof.
  intros [Ho Hk]. split; [|done]. cbn [rn_out flushCode].
  change (raw "<pre><code>") with (raw "<pre>" ++ raw "<code>").
  change (raw "</code></pre>") with (raw "</code>" ++ raw "</pre>"). auto 9 with inert.
Qed.
Lemma write_ok b st : inert b → render_ok st → render_ok (write b st).
Proof. intros Hb [Ho Hk]. split; [|done]. by apply inert_app. Qed.
Lemma push_item_ok kind item st : kind ∈ ["ul"; "ol"]%string → render_ok st → render_ok (push_item kind item st).
Proof.
  intros Hkind Hst. unfold push_item. destruct (String.eqb _ _); [exact Hst|].
  destruct (flushList_ok st Hst) as [Ho _]. split; [exact Ho|]. by right.
Qed.

Lemma render_line_ok st line : render_ok st → render_ok (render_line st line).
Proof.
  intros Hst. unfold render_line. cbv zeta. pose proof (flushList_ok st Hst) as Hfl.
  repeat case_match; try done.
  - exact (flushCode_ok st Hst).
  - apply write_ok; [|done]. auto 8 with inert.
  - apply push_item_ok; [left|done].
  - apply push_item_ok; [right; left|done].
  - apply write_ok; [|done]. auto 8 with inert.
Qed.

Lemma RenderMarkdown_inert md : inert (RenderMarkdown md).
Proof.
  unfold RenderMarkdown. cbv zeta.
  assert (∀ l st, render_ok st → render_ok (fold_left render_line l st)) as Hfold.
  { induction l as [|x l IH]; intros st Hst; simpl; [done|]. by apply IH, render_line_ok. }
  assert (render_ok (flushList (fold_left render_line (split_on newline md) (mkRender [] [] "" false [])))) as Hst.
  { apply flushList_ok, Hfold. split; [apply inert_nil|left]. }
  case_match; [exact (proj1 (flushCode_ok _ Hst))|exact (proj1 Hst)].
Qed.

(** ** Slugs are safe in a URL *)

Definition url_char (c : byte) : bool := slug_char c || Ascii.eqb c dash.
Definition url_safe (b : bytes) : Prop := Forall (λ c, url_char c = true) b.

Lemma dashes_safe gap b : url_safe (dashes gap b).
Proof.
  revert gap. induction b as [|c b IH]; intros gap; cbn [dashes]; [constructor|].
  destruct (slug_char c) eqn:E; [constructor; [unfold url_char; by rewrite E|apply IH]|].
  destruct gap; [apply IH|constructor; [done|apply IH]].
Qed.
Lemma drop_dashes_safe b : url_safe b → url_safe (drop_dashes b).
Proof.
  intros Hb. induction Hb as [|c b Hc Hb IH]; cbn [drop_dashes]; [constructor|].
  destruct (Ascii.eqb c dash); [exact IH|by constructor].
Qed.
Lemma slugify_safe t : url_safe (slugify t).
Proof. by apply Forall_rev, drop_dashes_safe, Forall_rev, drop_dashes_safe, dashes_safe. Qed.

Lemma uint_safe u : url_safe (str_bytes (NilZero.string_of_uint u)).
Proof.
  assert (∀ v, url_safe (str_bytes (NilEmpty.string_of_uint v))) as Hne.
  { unfold url_safe, str_bytes. induction v; simpl; [constructor|..]; by constructor. }
  destruct u; [by constructor|apply Hne..].
Qed.
Lemma Itoa_safe n : (0 ≤ n)%Z → url_safe (str_bytes (Itoa n)).
Proof. intros Hn. unfold Itoa. destruct n; [apply uint_safe..|lia]. Qed.


Definition section_ok (s : Section_) : Prop :=
  inert (str_bytes (sc_HTML s)) ∧ url_safe (str_bytes (sc_Slug s)).

Lemma flush_ok st : Forall section_ok (ps_sections st) → Forall section_ok (ps_sections (flush st)).
Proof.
  intros Hst. unfold flush. destruct (_ =? 0); [done|]. cbv zeta. cbn [ps_sections].
  apply Forall_app. split; [done|]. constructor; [|constructor]. split; cbn [sc_HTML sc_Slug].
  - rewrite bytes_str_bytes. apply RenderMarkdown_inert.
  - case_match; [|rewrite bytes_str_bytes; apply slugify_safe].
    rewrite !str_bytes_app, bytes_str_bytes. apply Forall_app. split; [apply slugify_safe|].
    apply Forall_app. split; [by constructor|]. apply Itoa_safe. lia.
Qed.

(** No help text can smuggle markup into the dashboard: whatever the
    Markdown file contains, the HTML of every page consists of tags of a
    fixed allowlist, none with attributes, of the five entities of the
    escaping function and of bytes that mean nothing to an HTML parser; and
    every slug is made of lower-case letters, digits and dashes. *)
Theorem help_pages_inert markdown : Forall section_ok (Parse markdown).
Proof.
  unfold Parse. cbv zeta. apply flush_ok.
  assert (∀ l st, Forall section_ok (ps_sections st) → Forall section_ok (ps_sections (fold_left parse_line l st))) as Hfold.
  { induction l as [|x l IH]; intros st Hst; simpl; [done|]. apply IH. unfold parse_line.
    case_match; [by apply flush_ok|]. by case_match. }
  apply Hfold. constructor.
Qed.

(** The third section of a title gets the second one's slug, so its page can
    not be opened. *)
Theorem third_heading_unreachable :
  sc_Slug <$> Parse "## Status
## Status
## Status" = ["status"; "status-2"; "status-2"]%string.
Proof. vm_compute. reflexivity. Qed.
