(* ===== verification/Migrate.v ===== *)
(** Schema migrations ([internal/db/migrate.go]): which files run, in which
    order, and what a failing run leaves behind.  The schema and what
    PostgreSQL makes of a file are parameters. *)
From S2P Require Import Prelude.

(** The database: its schema, and the rows of [schema_migrations] in the
    order of their insertion. *)
Record mig_db (schema : Type) : Type := mkMig { mg_schema : schema; mg_applied : list string }.
Arguments mkMig {schema} _ _.
Arguments mg_schema {schema} _.
Arguments mg_applied {schema} _.

Inductive mig_error : Type :=
| MgAcquire | MgLock | MgTable | MgDir | MgCheck (name : string) | MgRead (name : string) | MgBegin (name : string)
| MgApply (name : string) | MgRecord (name : string) | MgCommit (name : string).

Section migrate.
Context {schema : Type}.
(** [exec content s]: the schema after running a file, [None] where
    PostgreSQL rejects it. *)
Context (exec : bytes → schema → option schema).
(** The embedded directory: for every name whether it is a directory, and the
    contents that can be read. *)
Context (dir : option (gmap string bool)) (read : string → option bytes).
Abbreviation MigM := (M (mig_db schema) mig_error).

Definition HasSuffix (s suffix : string) : bool :=
  (String.length suffix <=? String.length s) &&
  String.eqb (substring (String.length s - String.length suffix) (String.length suffix) s) suffix.

(** [sort.Strings] of the [.sql] files. *)
(* internal/db/migrate.go:58-65 Migrate *)
Definition sql_files (entries : gmap string bool) : list string :=
  order_by String.leb (filter (λ n, HasSuffix n ".sql" = true)
    (omap (λ '(name, isDir), if isDir : bool then None else Some name) (map_to_list entries))).

(** The statements of one migration, in one transaction. *)
(* internal/db/migrate.go:82-96 Migrate *)
Definition apply_file (name : string) (content : bytes) : MigM unit :=
  mtx (MgBegin name) (MgCommit name) (
    mstmt (MgApply name) (λ d,
      match exec content (mg_schema d) with
      | Some s => (Ok tt, mkMig s (mg_applied d))
      | None => (Err (MgApply name), d)
      end);;
    mstmt (MgRecord name) (λ d,
      if bool_decide (name ∈ mg_applied d) then (Err (MgRecord name), d)
      else (Ok tt, mkMig (mg_schema d) (mg_applied d ++ [name])))).

(* internal/db/migrate.go:67-97 Migrate *)
Fixpoint apply_files (files : list string) : MigM unit :=
  match files with
  | [] => mret tt
  | name :: rest =>
      already ← mquery (MgCheck name) (λ d, bool_decide (name ∈ mg_applied d));
      (if already : bool then mret tt
       else match read name with
            | None => mfail (MgRead name)
            | Some content => apply_file name content
            end);;
      apply_files rest
  end.

(** The advisory lock is held from here to the end, so the runs of several
    processes follow one another. *)
(* internal/db/migrate.go:28-99 Migrate *)
Definition Migrate : MigM unit :=
  mexec MgAcquire (λ d, d);;
  mexec MgLock (λ d, d);;
  mexec MgTable (λ d, d);;
  match dir with
  | None => mfail MgDir
  | Some entries => apply_files (sql_files entries)
  end.

(** ** Exactly once, in order *)

(** Running the named files one after the other. *)
Fixpoint replay (names : list string) (s : schema) : option schema :=
  match names with
  | [] => Some s
  | n :: rest => c ← read n; s' ← exec c s; replay rest s'
  end.
Definition pending (files : list string) (d : mig_db schema) : list string :=
  filter (λ n, n ∉ mg_applied d) files.

Lemma sql_files_NoDup entries : NoDup (sql_files entries).
Proof.
  unfold sql_files. rewrite order_by_perm. apply list.NoDup_filter.
  pose proof (NoDup_fst_map_to_list entries) as Hn. induction (map_to_list entries) as [|[n b] l IH]; [constructor|].
  simpl in Hn. apply list.NoDup_cons in Hn as [Hn Hl]. simpl. destruct b; [by apply IH|].
  apply list.NoDup_cons. split; [|by apply IH]. intros Hin. apply Hn.
  apply list_elem_of_omap in Hin as ([m b'] & Hm & Hmn). destruct b'; [done|]. injection Hmn as ->.
  apply list_elem_of_fmap. by exists (n, false).
Qed.

(** What a run over [files] did. *)
Definition progressed (files : list string) (d : mig_db schema) (r : res mig_error unit) (d' : mig_db schema) : Prop :=
  ∃ ran, ran `prefix_of` pending files d ∧ mg_applied d' = mg_applied d ++ ran ∧
    replay ran (mg_schema d) = Some (mg_schema d') ∧ (r = Ok tt → ran = pending files d).

Lemma stuck files d e : progressed files d (Err e) d.
Proof. exists []. split_and!; [apply prefix_nil|by rewrite app_nil_r|done|done]. Qed.

Lemma apply_file_always name content d :
  name ∉ mg_applied d →
  always (apply_file name content) (λ r d',
    (∃ e, r = Err e ∧ d' = d) ∨
    (r = Ok tt ∧ ∃ s, exec content (mg_schema d) = Some s ∧ d' = mkMig s (mg_applied d ++ [name]))) d.
Proof.
  intros Hn. unfold apply_file. apply always_mtx; [by left; eauto|].
  apply always_mbind, always_mstmt; [by left; eauto|].
  destruct (exec content (mg_schema d)) as [s|] eqn:E; [|by left; eauto]. cbn [fst snd].
  apply always_mstmt; [by left; eauto|]. cbn [mg_applied]. rewrite bool_decide_eq_false_2 by done.
  split; [by left; eauto|]. right. split; [done|]. by exists s.
Qed.

Lemma apply_files_always files d : NoDup files → always (apply_files files) (progressed files d) d.
Proof.
  revert d. induction files as [|name files IH]; intros d Hnd; cbn [apply_files].
  { apply always_mret. exists []. split_and!; [done|by rewrite app_nil_r|done|done]. }
  apply list.NoDup_cons in Hnd as [Hname Hnd].
  apply always_mbind, always_mquery; [apply stuck|]. destruct (bool_decide _) eqn:Ea.
  { apply bool_decide_eq_true in Ea. apply always_mbind, always_mret.
    eapply always_mono; [by apply IH|]. unfold progressed, pending. intros r d' Hr.
    by rewrite filter_cons, decide_False by tauto. }
  apply bool_decide_eq_false in Ea.
  assert (pending (name :: files) d = name :: pending files d) as Hpend
    by (unfold pending; by rewrite filter_cons, decide_True).
  apply always_mbind. destruct (read name) as [content|] eqn:Er; [|apply always_mfail, stuck].
  eapply always_mono; [by apply apply_file_always|].
  intros r d1 [(e & -> & ->)|[-> (s & Hs & ->)]]; [apply stuck|].
  eapply always_mono; [by apply IH|]. intros r d' (ran & Hran & Happ & Hrep & Hok).
  assert (pending files (mkMig s (mg_applied d ++ [name])) = pending files d) as Hsame.
  { unfold pending. cbn [mg_applied]. clear -Hname. induction files as [|n files IH]; [done|].
    apply not_elem_of_cons in Hname as [Hne Hin]. rewrite !filter_cons, IH by done.
    case_decide as H1; case_decide as H2; try done; exfalso;
      rewrite elem_of_app, list_elem_of_singleton in H1; naive_solver. }
  rewrite Hsame in Hran, Hok. exists (name :: ran). rewrite Hpend. split_and!.
  - by apply prefix_cons.
  - rewrite Happ. simpl. by rewrite <-app_assoc.
  - cbn [replay]. rewrite Er. simpl. by rewrite Hs.
  - intros ->. by rewrite Hok.
Qed.

(** C39: every migration runs exactly once and in file order, however often
    the start-up fails: a run applies, in lexical order, the first so many of
    the files not recorded yet, each together with its record, and all of
    them when it succeeds; what is recorded already is never run again, and a
    run that breaks off can be repeated. *)
Theorem migrations_run_once entries d :
  dir = Some entries →
  always Migrate (λ r d', ∃ ran, ran `prefix_of` pending (sql_files entries) d ∧
    mg_applied d' = mg_applied d ++ ran ∧ replay ran (mg_schema d) = Some (mg_schema d') ∧
    (r = Ok tt → ran = pending (sql_files entries) d)) d.
Proof.
  intros Hdir. unfold Migrate. rewrite Hdir.
  do 3 (apply always_mbind, always_mexec; [apply stuck|]). apply apply_files_always, sql_files_NoDup.
Qed.
End migrate.

(** ** A concrete directory *)

(** A schema is the list of statements run; the file "2.sql" is broken until
    it is mended. *)
Definition demo_exec (content : bytes) (s : list bytes) : option (list bytes) :=
  if bool_decide (content = str_bytes "broken") then None else Some (s ++ [content]).
Definition demo_dir : gmap string bool :=
  {["2.sql" := false; "1.sql" := false; "old" := true; "notes.txt" := false]}%string.
Definition demo_read (mended : bool) (name : string) : option bytes :=
  Some (str_bytes (if String.eqb name "2.sql" then if mended then "two" else "broken" else "one")).
Definition demo_first : res mig_error unit * mig_db (list bytes) :=
  run (Migrate demo_exec (Some demo_dir) (demo_read false)) (mkMig [] []).

Example demo_restart :
  demo_first = (Err (MgApply "2.sql"), mkMig [str_bytes "one"] ["1.sql"]%string) ∧
  run (Migrate demo_exec (Some demo_dir) (demo_read true)) demo_first.2 =
    (Ok tt, mkMig [str_bytes "one"; str_bytes "two"] ["1.sql"; "2.sql"]%string).
Proof. split; vm_compute; reflexivity. Qed.

Lemma migrations_run_once_witness :
  ∃ ran, ran `prefix_of` pending (sql_files demo_dir) demo_first.2 ∧
    mg_applied (run (Migrate demo_exec (Some demo_dir) (demo_read true)) demo_first.2).2 =
      mg_applied demo_first.2 ++ ran.
Proof.
  pose proof (always_run _ _ _ (migrations_run_once demo_exec (Some demo_dir) (demo_read true) demo_dir demo_first.2
    eq_refl)) as Hr.
  destruct (run _ demo_first.2) as [r d]. destruct Hr as (ran & Hp & Ha & _). exists ran. split; [exact Hp|exact Ha].
Defined.
