(* ===== verification/Paths.v ===== *)
(** Slash-separated paths ([path.Clean], and [filepath.Clean] on Unix): the
    agent's file operations and the HTTP router clean paths with it. *)
From S2P Require Import Prelude Password Help.

Definition slash : byte := "/"%char.
(** [filepath.Clean] of an absolute path: empty and [.] elements go, [..]
    takes its predecessor with it, and never leaves the root. *)
Definition clean_step (stack : list bytes) (seg : bytes) : list bytes :=
  if bool_decide (seg = []) || bool_decide (seg = raw ".") then stack
  else if bool_decide (seg = raw "..") then tail stack
  else seg :: stack.
Definition Clean (path : bytes) : bytes :=
  slash :: join [slash] (rev (fold_left clean_step (split_on slash path) [])).

(** ** Clean paths are canonical *)

(** An element that names something: not empty, not [.] or [..]. *)
Definition plain (seg : bytes) : Prop :=
  seg ≠ [] ∧ seg ≠ raw "." ∧ seg ≠ raw ".." ∧ slash ∉ seg.
Definition canonical (path : string) : Prop :=
  ∃ segs, Forall plain segs ∧ str_bytes path = slash :: join [slash] segs.

Lemma split_on_free sep b : Forall (λ seg, sep ∉ seg) (split_on sep b).
Proof.
  induction b as [|c b IH]; simpl; [by repeat constructor; apply not_elem_of_nil|].
  destruct (decide (c = sep)) as [->|Hne]; [constructor; [apply not_elem_of_nil|done]|].
  destruct (split_on sep b) as [|h t]; [repeat constructor; by apply not_elem_of_cons; split; [|apply not_elem_of_nil]|].
  inversion_clear IH as [|?? Hh Ht]. constructor; [|done]. by apply not_elem_of_cons.
Qed.

Lemma clean_step_plain stack seg : slash ∉ seg → Forall plain stack → Forall plain (clean_step stack seg).
Proof.
  intros Hs Hst. unfold clean_step.
  destruct (bool_decide_reflect (seg = [])) as [|H1], (bool_decide_reflect (seg = raw ".")) as [|H2]; cbn [orb]; try done.
  destruct (bool_decide_reflect (seg = raw "..")) as [|H3].
  - by destruct Hst as [|? stack]; [constructor|].
  - by constructor.
Qed.

Lemma clean_stack_plain segs stack :
  Forall (λ seg, slash ∉ seg) segs → Forall plain stack → Forall plain (fold_left clean_step segs stack).
Proof.
  revert stack. induction segs as [|seg segs IH]; intros stack Hf Hst; [done|].
  inversion_clear Hf as [|?? H1 H2]. simpl. apply IH; [done|]. by apply clean_step_plain.
Qed.

Lemma clean_step_push stack seg : plain seg → clean_step stack seg = seg :: stack.
Proof. intros (H1 & H2 & H3 & _). unfold clean_step. by rewrite !bool_decide_eq_false_2. Qed.

Lemma clean_stack_push segs stack : Forall plain segs → fold_left clean_step segs stack = rev segs ++ stack.
Proof.
  intros Hs. revert stack. induction Hs as [|seg segs H1 H2 IH]; intros stack; [done|].
  simpl. rewrite clean_step_push by done. rewrite IH. by rewrite <-app_assoc.
Qed.

Lemma split_join segs : Forall (λ seg, slash ∉ seg) segs → segs ≠ [] → split_on slash (join [slash] segs) = segs.
Proof.
  induction 1 as [|seg segs H1 H2 IH]; intros Hne; [done|]. destruct segs as [|s2 segs].
  - simpl. by apply split_on_single.
  - change (join [slash] (seg :: s2 :: segs)) with (seg ++ slash :: join [slash] (s2 :: segs)).
    rewrite split_on_app by done. by rewrite IH.
Qed.

Lemma Clean_canonical segs :
  Forall plain segs → Clean (slash :: join [slash] segs) = slash :: join [slash] segs.
Proof.
  intros Hs. unfold Clean.
  change (slash :: join [slash] segs) with ([] ++ slash :: join [slash] segs) at 1.
  rewrite split_on_app by apply not_elem_of_nil. cbn [fold_left].
  replace (clean_step [] []) with (@nil bytes) by done. f_equal. f_equal.
  destruct segs as [|seg segs]; [done|]. rewrite split_join; [|by eapply Forall_impl; [|exact Hs]; intros ? (_ & _ & _ & ?)|done].
  by rewrite clean_stack_push, app_nil_r, rev_involutive.
Qed.
