(* ===== verification/ServeMux.v ===== *)
(** The request multiplexer of [net/http] as the router uses it: patterns of a
    method and a path with [{name}] elements or a trailing slash, literal
    elements before wildcards, redirects to clean paths, 404 and 405. *)
From S2P Require Import Prelude Password Help Paths.

(** ** Patterns *)

(** An element of a pattern; [Multi] is the trailing slash, which stands for
    any rest. *)
Inductive seg : Type := Lit (s : string) | Wild | Multi.
#[export] Instance seg_dec : EqDecision seg.
Proof. solve_decision. Defined.
Record pattern : Type := mkPattern { pt_Method : string; pt_Segs : list seg }.
#[export] Instance pattern_dec : EqDecision pattern.
Proof. solve_decision. Defined.

Definition seg_of (b : bytes) : seg :=
  match b with
  | [] => Multi
  | c :: _ => if Ascii.eqb c "{" then Wild else Lit (bytes_str b)
  end.
Definition segs_of (path : bytes) : list seg := map seg_of (drop 1 (split_on slash path)).
(** The text [HandleFunc] is called with: a method, a blank and a path, or a
    path alone. *)
Definition parse_pattern (text : string) : pattern :=
  match split_on " " (str_bytes text) with
  | [m; p] => mkPattern (bytes_str m) (segs_of p)
  | [p] => mkPattern "" (segs_of p)
  | _ => mkPattern "" []
  end.

(** ** Request paths *)

Definition unhex (c : byte) : option N :=
  let n := byte_val c in
  if ((48 <=? n) && (n <=? 57))%N then Some (n - 48)%N
  else if ((97 <=? n) && (n <=? 102))%N then Some (n - 87)%N
  else if ((65 <=? n) && (n <=? 70))%N then Some (n - 55)%N
  else None.
Definition percent : byte := "%"%char.
(** [url.PathUnescape]. *)
Fixpoint unescape (b : bytes) : option bytes :=
  match b with
  | [] => Some []
  | c :: rest =>
      if Ascii.eqb c percent then
        match rest with
        | x :: y :: rest' =>
            hi ← unhex x; lo ← unhex y; t ← unescape rest'; Some (byte_of (16 * hi + lo) :: t)
        | _ => None
        end
      else t ← unescape rest; Some (c :: t)
  end.
Definition pathUnescape (b : bytes) : bytes := default b (unescape b).

(** The elements [firstSegment] finds one after the other; a trailing slash is
    the element "/". *)
Definition path_segs (path : bytes) : list string :=
  map (λ b, match b with [] => "/"%string | _ => bytes_str (pathUnescape b) end) (drop 1 (split_on slash path)).

Definition ends_slash (path : bytes) : bool :=
  match list.last path with Some c => Ascii.eqb c slash | None => false end.
(** [cleanPath] of [net/http]. *)
Definition mux_clean (path : bytes) : bytes :=
  match path with
  | [] => [slash]
  | c :: _ =>
      let p := if Ascii.eqb c slash then path else slash :: path in
      let np := Clean p in
      if ends_slash p && negb (bool_decide (np = [slash])) then np ++ [slash] else np
  end.

(** ** Matching *)

Section mux.
Context {A : Type}.

(** What is left of the alternatives after an element. *)
Definition after_lit (s : string) (alt : list seg * A) : option (list seg * A) :=
  match alt.1 with Lit t :: rest => if String.eqb t s then Some (rest, alt.2) else None | _ => None end.
Definition after_wild (alt : list seg * A) : option (list seg * A) :=
  match alt.1 with Wild :: rest => Some (rest, alt.2) | _ => None end.
Definition multi_here (alt : list seg * A) : option A :=
  match alt.1 with [Multi] => Some alt.2 | _ => None end.
Definition done_here (alt : list seg * A) : option A :=
  match alt.1 with [] => Some alt.2 | _ => None end.

(** [matchPath]: a literal first, then a wildcard, then a trailing slash. *)
Fixpoint match_path (path : list string) (alts : list (list seg * A)) (values : list string) : option (A * list string) :=
  match path with
  | [] => (λ x, (x, values)) <$> head (omap done_here alts)
  | s :: rest =>
      match match_path rest (omap (after_lit s) alts) values with
      | Some r => Some r
      | None =>
          match (if String.eqb s "/" then None else match_path rest (omap after_wild alts) (values ++ [s])) with
          | Some r => Some r
          | None => (λ x, (x, values)) <$> head (omap multi_here alts)
          end
      end
  end.

Definition of_method (m : string) (mux : list (pattern * A)) : list (list seg * (pattern * A)) :=
  omap (λ pa, if String.eqb (pt_Method pa.1) m then Some (pt_Segs pa.1, pa) else None) mux.
End mux.

Section serve.
Context {A : Type} (mux : list (pattern * A)).

(** [matchMethodAndPath]: patterns of the method, of GET for HEAD, of no
    method. *)
Definition match_request (method : string) (path : bytes) : option ((pattern * A) * list string) :=
  let try m := match_path (path_segs path) (of_method m mux) [] in
  match try method with
  | Some r => Some r
  | None =>
      match (if String.eqb method "HEAD" then try "GET"%string else None) with
      | Some r => Some r
      | None => try ""%string
      end
  end.

(** [exactMatch]: the trailing slash of the pattern, if any, matched nothing
    more. *)
Definition exact (p : pattern) (path : bytes) : bool :=
  match list.last (pt_Segs p) with
  | Some Multi => ends_slash path && (length (pt_Segs p) =? length (filter (λ c, c = slash) path))
  | _ => true
  end.

Inductive outcome : Type :=
| Moved (path : bytes)
| Found (handler : A) (values : list string)
| NotAllowed
| Missing.

(** [findHandler], for any method but CONNECT. *)
Definition find_handler (method : string) (escapedPath : bytes) : outcome :=
  let path := mux_clean escapedPath in
  let n := match_request method path in
  let exact_here r p := match r with Some (pa, _) => exact pa.1 p | None => false end in
  if negb (exact_here n path) && negb (ends_slash path) &&
     exact_here (match_request method (path ++ [slash])) (path ++ [slash])
  then Moved (path ++ [slash])
  else if negb (bool_decide (path = escapedPath)) then Moved path
  else match n with
       | Some (pa, values) => Found pa.2 values
       | None =>
           let fits_path p := existsb (λ pa, negb (is_null (match_path (path_segs p) [(pt_Segs pa.1, tt)] []))) mux in
           if fits_path path || negb (ends_slash path) && fits_path (path ++ [slash]) then NotAllowed else Missing
       end.
End serve.
Arguments outcome : clear implicits.
Arguments Moved {A} _.
Arguments Found {A} _ _.
Arguments NotAllowed {A}.
Arguments Missing {A}.

(** ** What matching finds *)

(** A path fits a pattern with these values. *)
Inductive fits : list seg → list string → list string → Prop :=
| fits_nil : fits [] [] []
| fits_lit s segs path values : fits segs path values → fits (Lit s :: segs) (s :: path) values
| fits_wild s segs path values : s ≠ "/"%string → fits segs path values → fits (Wild :: segs) (s :: path) (s :: values)
| fits_multi s path : fits [Multi] (s :: path) [].

Section found.
Context {A : Type}.
Implicit Types (alts : list (list seg * A)) (x : A).

Lemma head_omap {B C} (f : B → option C) l y : head (omap f l) = Some y → ∃ b, b ∈ l ∧ f b = Some y.
Proof.
  induction l as [|b l IH]; [done|]. simpl. destruct (f b) as [c|] eqn:E; simpl.
  - intros [= ->]. exists b. split; [constructor|done].
  - intros H. destruct (IH H) as (b' & Hb & Hf). exists b'. split; [by constructor|done].
Qed.

Lemma after_lit_inv s alt alt' : after_lit (A := A) s alt = Some alt' → alt = (Lit s :: alt'.1, alt'.2).
Proof.
  destruct alt as [[|[t| |] segs] x]; try done. unfold after_lit. cbn [fst snd].
  destruct (String.eqb_spec t s) as [->|]; [|done]. by intros [= <-].
Qed.
Lemma after_wild_inv alt alt' : after_wild (A := A) alt = Some alt' → alt = (Wild :: alt'.1, alt'.2).
Proof. destruct alt as [[|[t| |] segs] x]; try done. by intros [= <-]. Qed.

Lemma head_done alts y : head (omap done_here alts) = Some y → ([], y) ∈ alts.
Proof. intros ([[|] z] & Hin & Hz)%head_omap; [|done]. by injection Hz as ->. Qed.
Lemma head_multi alts y : head (omap multi_here alts) = Some y → ([Multi], y) ∈ alts.
Proof. intros ([[|[] [|]] z] & Hin & Hz)%head_omap; try done. by injection Hz as ->. Qed.

(** Whatever is found fits. *)
Lemma match_path_sound path alts values x values' :
  match_path path alts values = Some (x, values') →
  ∃ segs v, (segs, x) ∈ alts ∧ fits segs path v ∧ values' = values ++ v.
Proof.
  revert alts values. induction path as [|s path IH]; intros alts values; cbn [match_path].
  { destruct (head _) as [y|] eqn:E; [|done]. intros [= -> <-]. apply head_done in E.
    exists [], []. rewrite app_nil_r. split_and!; [done|constructor|done]. }
  destruct (match_path path (omap (after_lit s) alts) values) as [r|] eqn:E1.
  { intros [= ->]. apply IH in E1 as (segs & v & Hin & Hf & ->).
    apply list_elem_of_omap in Hin as (alt & Hin & ->%after_lit_inv). cbn [fst snd] in Hin.
    exists (Lit s :: segs), v. split_and!; [done|by constructor|done]. }
  destruct (if String.eqb s "/" then None else _) as [r|] eqn:E2.
  { destruct (String.eqb_spec s "/") as [|Hs]; [done|]. intros [= ->].
    apply IH in E2 as (segs & v & Hin & Hf & ->).
    apply list_elem_of_omap in Hin as (alt & Hin & ->%after_wild_inv). cbn [fst snd] in Hin.
    exists (Wild :: segs), (s :: v). split_and!; [done|by constructor|by rewrite <-app_assoc]. }
  destruct (head _) as [y|] eqn:E; [|done]. intros [= -> <-]. apply head_multi in E.
  exists [Multi], []. rewrite app_nil_r. split_and!; [done|constructor|done].
Qed.

Lemma match_path_nil path values : match_path (A := A) path [] values = None.
Proof.
  revert values. induction path as [|s path IH]; intros values; [done|]. cbn [match_path omap].
  change (omap (after_lit (A := A) s) []) with (@nil (list seg * A)). change (omap (after_wild (A := A)) []) with (@nil (list seg * A)).
  rewrite !IH. by destruct (String.eqb s "/").
Qed.

(** No alternative has one of the values as a literal. *)
Definition free_of (values : list string) alts : Prop :=
  ∀ s alt, s ∈ values → alt ∈ alts → Lit s ∉ alt.1.

(** The alternatives after an element are those alternatives that begin with
    it. *)
Lemma advance_NoDup alts (f : list seg * A → option (list seg * A)) h :
  (∀ alt alt', f alt = Some alt' → alt = (h :: alt'.1, alt'.2)) → NoDup alts.*1 → NoDup (omap f alts).*1.
Proof.
  intros Hf Hn. induction alts as [|alt alts IH]; [constructor|]. cbn in Hn. apply list.NoDup_cons in Hn as [Hx Hn].
  cbn [omap list_omap]. specialize (IH Hn). destruct (f alt) as [alt'|] eqn:E; [|exact IH].
  cbn. apply list.NoDup_cons. split; [|exact IH]. intros Hin. apply Hx.
  apply list_elem_of_fmap in Hin as (b & Hb & Hin). apply list_elem_of_omap in Hin as (c & Hc & Hc').
  apply Hf in E as ->. apply Hf in Hc' as ->. apply list_elem_of_fmap. eexists. split; [|exact Hc]. cbn. by rewrite Hb.
Qed.
Lemma advance_free alts f h values :
  (∀ alt alt', f alt = Some alt' → alt = (h :: alt'.1, alt'.2)) → free_of values alts → free_of values (omap f alts).
Proof.
  intros Hf Hfree s alt Hs Hin Hl. apply list_elem_of_omap in Hin as (c & Hc & Hfc). apply Hf in Hfc as ->.
  apply (Hfree s _ Hs Hc). cbn. by constructor.
Qed.

Lemma head_omap_unique {B C} (f : B → option C) (l : list B) b y :
  b ∈ l → f b = Some y → (∀ b' y', b' ∈ l → f b' = Some y' → y' = y) → head (omap f l) = Some y.
Proof.
  intros Hb Hf Hu. destruct (head (omap f l)) as [y'|] eqn:E.
  - apply head_omap in E as (b' & Hb' & Hf'). by rewrite (Hu b' y').
  - exfalso. assert (y ∈ omap f l) as Hy by (apply list_elem_of_omap; eauto).
    destruct (omap f l); [by apply not_elem_of_nil in Hy|done].
Qed.

(** A pattern filled with values that are no words of the table is found, with
    exactly these values. *)
Lemma match_path_fill segs path v alts x values :
  fits segs path v → Multi ∉ segs → (segs, x) ∈ alts → NoDup alts.*1 → free_of v alts →
  match_path path alts values = Some (x, values ++ v).
Proof.
  intros Hfit. revert alts values. induction Hfit as [|s segs path v Hfit IH|s segs path v Hs Hfit IH|s path];
    intros alts values Hm Hin Hn Hfree; cbn [match_path].
  - rewrite (head_omap_unique _ _ ([], x) x); [by rewrite app_nil_r|done|done|].
    intros [segs' x'] y Hin' Hy. destruct segs'; [|done]. injection Hy as <-.
    assert ((@nil seg, x') = ([], x)) as [= ->]; [|done].
    apply list_elem_of_lookup in Hin as [i Hi]. apply list_elem_of_lookup in Hin' as [j Hj].
    assert (i = j) as <-; [|congruence].
    apply (NoDup_lookup _ i j [] Hn); rewrite list_lookup_fmap; [by rewrite Hi|by rewrite Hj].
  - apply not_elem_of_cons in Hm as [_ Hm].
    rewrite (IH (omap (after_lit s) alts) values); [done|done| | |].
    + apply list_elem_of_omap. eexists. split; [exact Hin|]. cbn. by rewrite String.eqb_refl.
    + by apply (advance_NoDup _ _ (Lit s)); [apply after_lit_inv|].
    + by apply (advance_free _ _ (Lit s)); [apply after_lit_inv|].
  - apply not_elem_of_cons in Hm as [_ Hm].
    assert (omap (after_lit s) alts = []) as ->.
    { destruct (omap (after_lit s) alts) as [|b l] eqn:E; [done|]. exfalso.
      assert (b ∈ omap (after_lit s) alts) as Hb by (rewrite E; constructor).
      apply list_elem_of_omap in Hb as (alt & Ha & Hb%after_lit_inv). apply (Hfree s alt); [constructor|done|].
      rewrite Hb. constructor. }
    rewrite match_path_nil. rewrite (proj2 (String.eqb_neq s "/")) by done.
    rewrite (IH (omap after_wild alts) (values ++ [s])); [by rewrite <-app_assoc|done| | |].
    + apply list_elem_of_omap. eexists. by split; [exact Hin|].
    + by apply (advance_NoDup _ _ Wild); [apply after_wild_inv|].
    + apply (advance_free _ _ Wild); [apply after_wild_inv|]. intros t alt Ht. apply Hfree. by constructor.
  - exfalso. apply Hm. constructor.
Qed.
End found.

(** ** Texts of paths *)

(** An element that is written as it is. *)
Definition elem_ok (s : string) : Prop := plain (str_bytes s) ∧ percent ∉ str_bytes s.
Definition path_text (path : list string) : bytes := slash :: join [slash] (map str_bytes path).

Lemma unescape_id b : percent ∉ b → unescape b = Some b.
Proof.
  induction b as [|c b IH]; intros Hb; [done|]. apply not_elem_of_cons in Hb as [Hc Hb]. cbn [unescape].
  rewrite (proj2 (Ascii.eqb_neq c percent)) by congruence. by rewrite IH.
Qed.

Lemma plains path : Forall elem_ok path → Forall plain (map str_bytes path).
Proof. induction 1 as [|s path [H1 H2] _ IH]; constructor; auto. Qed.

Lemma split_path_text path : path ≠ [] → Forall elem_ok path → split_on slash (path_text path) = [] :: map str_bytes path.
Proof.
  intros Hne Hok. unfold path_text. change (slash :: ?x) with ([] ++ slash :: x).
  rewrite split_on_app by apply not_elem_of_nil. f_equal. apply split_join; [|by destruct path].
  eapply Forall_impl; [|apply plains, Hok]. by intros ? (_ & _ & _ & ?).
Qed.

Lemma path_segs_text path : path ≠ [] → Forall elem_ok path → path_segs (path_text path) = path.
Proof.
  intros Hne Hok. unfold path_segs. rewrite split_path_text by done. change (drop 1 ([] :: ?l)) with (drop 0 l). rewrite drop_0. clear Hne.
  induction Hok as [|s path [Hs Hp] _ IH]; [done|]. cbn [map]. rewrite IH. f_equal.
  destruct (str_bytes s) as [|c b] eqn:E; [by destruct Hs|]. rewrite <-E in *. unfold pathUnescape.
  rewrite unescape_id by done. apply str_bytes_str.
Qed.

Lemma last_app_ne {B} (a b : list B) : b ≠ [] → list.last (a ++ b) = list.last b.
Proof. intros Hb. rewrite last_app. destruct (list.last b) eqn:E; [done|]. by apply last_None in E. Qed.

Lemma ends_slash_text path : path ≠ [] → Forall elem_ok path → ends_slash (path_text path) = false.
Proof.
  intros Hne Hok. unfold ends_slash, path_text. change (slash :: ?x) with ([slash] ++ x).
  assert (∀ c, list.last (join [slash] (map str_bytes path)) = Some c → c ≠ slash) as Hl.
  { clear Hne. induction Hok as [|s path [(Hs & _ & _ & Hsl) _] Hok IH]; [done|]. intros c. cbn [map].
    destruct path as [|s2 path].
    - simpl. intros Hc ->. apply Hsl. apply last_Some in Hc as [l ->]. apply elem_of_app. right. constructor.
    - change (join [slash] (str_bytes s :: map str_bytes (s2 :: path)))
        with (str_bytes s ++ [slash] ++ join [slash] (map str_bytes (s2 :: path))).
      intros Hc. rewrite app_assoc in Hc. rewrite last_app_ne in Hc; [by apply IH|]. inversion_clear Hok as [|?? [(H2 & _) _] _]. cbn [map join].
      destruct (map str_bytes path); destruct (str_bytes s2); done. }
  assert (join [slash] (map str_bytes path) ≠ []) as Hj.
  { destruct path as [|s path]; [done|]. inversion_clear Hok as [|?? [(H2 & _) _] _]. cbn [map join].
    destruct (map str_bytes path); destruct (str_bytes s); done. }
  rewrite last_app_ne by done. destruct (list.last _) as [c|] eqn:E; [|done].
  apply Ascii.eqb_neq. by apply Hl.
Qed.

Lemma mux_clean_text path : path ≠ [] → Forall elem_ok path → mux_clean (path_text path) = path_text path.
Proof.
  intros Hne Hok. unfold mux_clean. unfold path_text at 1. rewrite Ascii.eqb_refl. fold (path_text path). cbv zeta.
  rewrite ends_slash_text by done. cbn [andb]. apply Clean_canonical, plains, Hok.
Qed.

Section reach.
Context {A : Type} (mux : list (pattern * A)).

Lemma of_method_NoDup m : NoDup mux.*1 → NoDup (of_method m mux).*1.
Proof.
  induction mux as [|[[m' segs] x] l IH]; intros Hn; [constructor|]. cbn in Hn. apply list.NoDup_cons in Hn as [Hx Hn].
  unfold of_method. cbn [omap list_omap fst pt_Method]. destruct (String.eqb_spec m' m) as [->|]; [|by apply IH].
  cbn. apply list.NoDup_cons. split; [|by apply IH]. intros Hin. apply Hx.
  apply list_elem_of_fmap in Hin as ([segs2 pa] & E & Hin). cbn in E. subst segs2.
  apply list_elem_of_omap in Hin as ([[m2 s2] x2] & Hin & E). cbn [fst pt_Method pt_Segs] in E.
  destruct (String.eqb_spec m2 m) as [->|]; [|done]. injection E as -> _.
  apply list_elem_of_fmap. by exists (mkPattern m segs, x2).
Qed.

(** A registered pattern is reached through its text: filled with values that
    are no words of the table, it leads to its handler with these values. *)
Lemma find_handler_fill p x path v :
  (p, x) ∈ mux → fits (pt_Segs p) path v → Multi ∉ pt_Segs p → NoDup mux.*1 →
  (∀ s pa, s ∈ v → pa ∈ mux → Lit s ∉ pt_Segs pa.1) → path ≠ [] → Forall elem_ok path →
  find_handler mux (pt_Method p) (path_text path) = Found x v.
Proof.
  intros Hin Hfit Hm Hn Hfree Hne Hok.
  assert (match_request mux (pt_Method p) (path_text path) = Some ((p, x), v)) as Hr.
  { unfold match_request. cbv zeta. rewrite path_segs_text by done.
    rewrite (match_path_fill (pt_Segs p) path v _ (p, x) []); [done|done|done| |by apply of_method_NoDup|].
    - apply list_elem_of_omap. exists (p, x). split; [done|]. cbn [fst]. by rewrite String.eqb_refl.
    - intros s alt Hs Halt. apply list_elem_of_omap in Halt as (pa & Hpa & E).
      destruct (String.eqb _ _); [|done]. injection E as <-. by apply Hfree. }
  unfold find_handler. cbv zeta. rewrite mux_clean_text by done. rewrite Hr. cbn [fst snd].
  assert (exact p (path_text path) = true) as ->.
  { unfold exact. destruct (list.last (pt_Segs p)) as [[]|] eqn:E; try done.
    exfalso. apply Hm. apply last_Some in E as [l ->]. apply elem_of_app. right. constructor. }
  cbn [negb andb]. by rewrite bool_decide_eq_true_2.
Qed.

(** Whatever a request finds is registered for its method, for any method, or
    is a GET handler found by HEAD, and fits the path. *)
Lemma find_handler_sound method path x v :
  find_handler mux method path = Found x v →
  ∃ p, (p, x) ∈ mux ∧ fits (pt_Segs p) (path_segs path) v ∧ mux_clean path = path ∧
    (pt_Method p = method ∨ pt_Method p = ""%string ∨ (pt_Method p = "GET" ∧ method = "HEAD")%string).
Proof.
  assert (∀ m pa w, match_path (path_segs path) (of_method m mux) [] = Some (pa, w) →
    pa ∈ mux ∧ pt_Method pa.1 = m ∧ fits (pt_Segs pa.1) (path_segs path) w) as Hs.
  { intros m pa w E. apply match_path_sound in E as (segs & u & Hin & Hf & ->).
    apply list_elem_of_omap in Hin as (pa' & Hin & E). destruct (String.eqb_spec (pt_Method pa'.1) m) as [Em|]; [|done].
    by injection E as <- <-. }
  unfold find_handler. cbv zeta. destruct (negb _ && _ && _); [done|].
  destruct (bool_decide (mux_clean path = path)) eqn:Ec; [|done]. apply bool_decide_eq_true in Ec. rewrite !Ec. cbn [negb].
  destruct (match_request mux method path) as [[[p y] w]|] eqn:Er; [|by destruct (_ || _)].
  intros [= -> ->]. exists p. unfold match_request in Er. cbv zeta in Er.
  destruct (match_path _ (of_method method mux) _) as [r|] eqn:E1.
  { injection Er as ->. apply Hs in E1 as (H1 & H2 & H3). by split_and!; auto. }
  destruct (if String.eqb method "HEAD" then _ else None) as [r|] eqn:E2.
  { destruct (String.eqb_spec method "HEAD") as [->|]; [|done]. injection Er as ->.
    apply Hs in E2 as (H1 & H2 & H3). split_and!; auto. }
  apply Hs in Er as (H1 & H2 & H3). split_and!; auto.
Qed.
End reach.
