(* ===== verification/Flags.v ===== *)
(** Command lines: the standard library's [flag] package as the programs use
    it.  A flag set is the list of defined names with their kinds; parsing
    yields the text each flag was last set to and the remaining arguments. *)
From S2P Require Import Prelude.

Inductive flag_kind : Type := FString | FBool | FInt.
Inductive flag_error : Type :=
| FlBadSyntax (arg : string) | FlUndefined (name : string) | FlHelp | FlNeedsValue (name : string)
| FlBadValue (name value : string).

Definition formal : Type := list (string * flag_kind).
Fixpoint kind_of (name : string) (fs : formal) : option flag_kind :=
  match fs with
  | [] => None
  | (n, k) :: rest => if String.eqb n name then Some k else kind_of name rest
  end.

(** The name and, after the first [=], the value of a flag's text; the name's
    first character is not looked at. *)
Fixpoint cut_equals (s : string) : string * option string :=
  match s with
  | EmptyString => (EmptyString, None)
  | String c rest =>
      if Ascii.eqb c "=" then (EmptyString, Some rest)
      else let '(n, v) := cut_equals rest in (String c n, v)
  end.
Definition cut_flag (s : string) : string * option string :=
  match s with
  | EmptyString => (EmptyString, None)
  | String c rest => let '(n, v) := cut_equals rest in (String c n, v)
  end.

(** What one argument is: the end of the flags, their end consumed (["--"]),
    a malformed flag, or a flag's name with the value in the same text. *)
Inductive arg_shape : Type := ANotFlag | ATerminator | AMalformed | AFlag (name : string) (value : option string).
Definition flag_text (name : string) : arg_shape :=
  match name with
  | EmptyString => AMalformed
  | String c _ =>
      if Ascii.eqb c "-" || Ascii.eqb c "=" then AMalformed
      else let '(n, v) := cut_flag name in AFlag n v
  end.
Definition shape (s : string) : arg_shape :=
  match s with
  | String "-" (String "-" EmptyString) => ATerminator
  | String "-" (String "-" name) => flag_text name
  | String "-" (String c rest) => flag_text (String c rest)
  | _ => ANotFlag
  end.

(** [strconv.ParseBool]. *)
Definition ParseBool (s : string) : option bool :=
  if bool_decide (s ∈ ["1"; "t"; "T"; "TRUE"; "true"; "True"]%string) then Some true
  else if bool_decide (s ∈ ["0"; "f"; "F"; "FALSE"; "false"; "False"]%string) then Some false
  else None.

Section parse.
(** [strconv.ParseInt(s, 0, 64)]. *)
Context (ParseInt : string → option Z).

Definition value_ok (k : flag_kind) (v : string) : bool :=
  match k with
  | FString => true
  | FBool => negb (is_null (ParseBool v))
  | FInt => negb (is_null (ParseInt v))
  end.

(** [FlagSet.Parse]: [set] holds the values set so far. *)
Fixpoint Parse (fs : formal) (set : gmap string string) (args : list string)
    : res flag_error (gmap string string * list string) :=
  match args with
  | [] => Ok (set, [])
  | s :: rest =>
      match shape s with
      | ANotFlag => Ok (set, args)
      | ATerminator => Ok (set, rest)
      | AMalformed => Err (FlBadSyntax s)
      | AFlag name value =>
          match kind_of name fs with
          | None => if bool_decide (name ∈ ["help"; "h"]%string) then Err FlHelp else Err (FlUndefined name)
          | Some k =>
              match value, k, rest with
              | Some v, _, _ => if value_ok k v then Parse fs (<[name := v]> set) rest else Err (FlBadValue name v)
              | None, FBool, _ => Parse fs (<[name := "true"%string]> set) rest
              | None, _, v :: rest' =>
                  if value_ok k v then Parse fs (<[name := v]> set) rest' else Err (FlBadValue name v)
              | None, _, [] => Err (FlNeedsValue name)
              end
          end
      end
  end.

(** ** Arguments a program writes for itself *)

(** A name that can be spelled on a command line. *)
Fixpoint no_equals (s : string) : bool :=
  match s with EmptyString => true | String c rest => negb (Ascii.eqb c "=") && no_equals rest end.
Definition flag_name (n : string) : bool :=
  match n with EmptyString => false | String c _ => negb (Ascii.eqb c "-") && no_equals n end.

Lemma cut_equals_plain s : no_equals s = true → cut_equals s = (s, None).
Proof using Type.
  induction s as [|c s IH]; [done|]. cbn [no_equals cut_equals]. intros Hs.
  apply andb_true_iff in Hs as [Hc Hs]. apply negb_true_iff in Hc. by rewrite Hc, IH.
Qed.

Lemma shape_plain n : flag_name n = true → shape ("--" +:+ n) = AFlag n None.
Proof using Type.
  destruct n as [|c n]; [done|]. cbn [flag_name no_equals]. intros Hn.
  apply andb_true_iff in Hn as [Hd Hn]. apply andb_true_iff in Hn as [He Hn].
  apply negb_true_iff in Hd, He.
  change (shape ("--" +:+ String c n)) with (flag_text (String c n)). unfold flag_text.
  rewrite Hd, He. simpl. by rewrite cut_equals_plain.
Qed.

Definition long_args (l : list (string * string)) : list string :=
  concat (map (λ nv, [("--" +:+ nv.1)%string; nv.2]) l).

(** Values given as [--name value] come back exactly, even empty ones and
    ones that look like flags themselves; the last one of a name counts. *)
Lemma Parse_long_args fs l set :
  Forall (λ nv, flag_name nv.1 = true ∧ kind_of nv.1 fs = Some FString) l →
  Parse fs set (long_args l) = Ok (foldl (λ m nv, <[nv.1 := nv.2]> m) set l, []).
Proof using Type.
  intros Hl. revert set. induction Hl as [|[n v] l [Hn Hk] Hl IH]; intros set; [done|].
  unfold long_args. cbn [map concat fst snd app Parse] in *. rewrite (shape_plain n Hn), Hk.
  cbn [value_ok]. apply IH.
Qed.

(** The same flag in its other spellings. *)
Lemma Parse_equals fs n v rest set :
  flag_name n = true → kind_of n fs = Some FString →
  Parse fs set (("--" +:+ n +:+ "=" +:+ v)%string :: rest) = Parse fs (<[n := v]> set) rest.
Proof using Type.
  intros Hn Hk. assert (shape ("--" +:+ n +:+ "=" +:+ v) = AFlag n (Some v)) as Hs.
  { destruct n as [|c n]; [done|]. cbn [flag_name no_equals] in Hn.
    apply andb_true_iff in Hn as [Hd Hn]. apply andb_true_iff in Hn as [He Hn]. apply negb_true_iff in Hd, He.
    change (shape ("--" +:+ String c n +:+ "=" +:+ v)) with (flag_text (String c (n +:+ "=" +:+ v))).
    unfold flag_text. rewrite Hd, He. simpl.
    assert (cut_equals (n +:+ "=" +:+ v) = (n, Some v)) as ->; [|done].
    clear -Hn. induction n as [|a n IH]; [done|]. cbn [no_equals] in Hn. apply andb_true_iff in Hn as [Ha Hn].
    apply negb_true_iff in Ha. simpl in IH |- *. by rewrite Ha, IH. }
  cbn [Parse]. by rewrite Hs, Hk.
Qed.
End parse.

Example demo_flags :
  let fs := [("config", FString); ("genkey", FBool); ("port", FInt)]%string in
  let num s := if String.eqb s "41022" then Some 41022%Z else None in
  Parse num fs ∅ ["-config"; "--x"; "--genkey"; "-port=41022"; "rest"]%string =
    Ok ({["config" := "--x"; "genkey" := "true"; "port" := "41022"]}, ["rest"])%string ∧
  Parse num fs ∅ ["--port"; "none"]%string = Err (FlBadValue "port" "none") ∧
  Parse num fs ∅ ["--config"]%string = Err (FlNeedsValue "config") ∧
  Parse num fs ∅ ["--"; "--config"]%string = Ok (∅, ["--config"])%string ∧
  Parse num fs ∅ ["---config"]%string = Err (FlBadSyntax "---config") ∧
  Parse num fs ∅ ["-h"]%string = Err FlHelp.
Proof. split_and!; vm_compute; reflexivity. Qed.
