(* ===== verification/Host.v ===== *)
(** The host an agent runs on, as its providers see it ([internal/platform]):
    files, the commands run and the processes; the calls of the [os] package
    on it, any of which can fail, and the temporary file an upload is written
    to.  The separator of paths is a parameter. *)
From S2P Require Import Prelude AgentRelease.

Inductive os_error : Type :=
| OsEmptyPath | OsRelative | OsBadName | OsNotFound | OsExists | OsIsDir | OsFailed | OsParse | OsMismatch | OsEntropy.

(** A file with its content, or a directory. *)
Inductive node : Type := NFile (content : bytes) | NDir.
(** The file system, the commands run (program, arguments, standard input),
    and the processes with their start times. *)
Record host : Type := mkHost {
  ho_files : gmap string node;
  ho_ran : list (string * list string * string);
  ho_procs : gmap Z Z;
  ho_killed : list Z }.
Definition on_files (f : gmap string node → gmap string node) (h : host) : host :=
  mkHost (f (ho_files h)) (ho_ran h) (ho_procs h) (ho_killed h).
Definition on_ran (f : list (string * list string * string) → list (string * list string * string)) (h : host) : host :=
  mkHost (ho_files h) (f (ho_ran h)) (ho_procs h) (ho_killed h).
Definition on_killed (f : list Z → list Z) (h : host) : host :=
  mkHost (ho_files h) (ho_ran h) (ho_procs h) (f (ho_killed h)).
Abbreviation OsM := (M host os_error).

(** ** What providers return *)

(* internal/platform/platform.go:44-48 ServiceInfo *)
Record ServiceInfo : Type := mkServiceInfo { si_Name : string; si_DisplayName : string; si_Status : string }.
(* internal/platform/platform.go:79-84 FileEntry *)
Record FileEntry : Type := mkEntry { fe_Name : string; fe_IsDir : bool; fe_Size : Z; fe_ModTime : Z }.
(* internal/platform/platform.go:99-104 LogEntry *)
Record LogEntry : Type := mkLogEntry { le_Time : time; le_Level : string; le_Source : string; le_Message : string }.
(* internal/platform/platform.go:107-113 LogQuery *)
Record LogQuery : Type := mkLogQuery {
  lq_Query : string; lq_Since : option time; lq_Until : option time; lq_Level : string; lq_Limit : Z }.

Section files.
(** The path separator. *)
Context (sep : ascii).
Definition sep_str : string := String sep "".
Definition ends_in_sep (dir : string) : bool :=
  match list.last (str_bytes dir) with Some c => Ascii.eqb c sep | None => false end.

Definition kmap_files (f : string → string) (fs : gmap string node) : gmap string node :=
  list_to_map (map (λ pn, (f pn.1, pn.2)) (map_to_list fs)).

(** The entry's name and whether it is a directory, for the children of a
    directory. *)
Definition child_of (dir path : string) : option string :=
  let prefix := if ends_in_sep dir then dir else (dir +:+ sep_str)%string in
  match strip_prefix prefix path with
  | Some name => if String.eqb name "" || existsb (Ascii.eqb sep) (str_bytes name) then None else Some name
  | None => None
  end.
(** [os.ReadDir] returns the entries sorted by name; [info] is the
    modification time of a path, [None] where [e.Info()] fails.  The size of
    a directory is the file system's ([dirsize]). *)
Definition entries_of (info : string → option Z) (dirsize : Z) (clean : string) : OsM (list FileEntry) :=
  mstmt OsFailed (λ h,
    match ho_files h !! clean with
    | Some NDir =>
        let entry '(p, n) :=
          name ← child_of clean p; mtime ← info p;
          Some (match n with
                | NDir => mkEntry name true dirsize mtime
                | NFile c => mkEntry name false (Z.of_nat (length c)) mtime
                end) in
        (Ok (order_by (λ a b, String.leb (fe_Name a) (fe_Name b)) (omap entry (map_to_list (ho_files h)))), h)
    | _ => (Err OsNotFound, h)
    end).

(** Where a path is after [from] has become [to], with all that is under it. *)
Definition relocate (from to p : string) : string :=
  if String.eqb p from then to
  else match strip_prefix (from +:+ sep_str)%string p with Some rest => (to +:+ sep_str +:+ rest)%string | None => p end.
(** [os.Rename]: a file replaces its target in one step; a directory is
    moved with its content, not onto a file and not into itself. *)
Definition os_rename (from to : string) : OsM unit :=
  mstmt OsFailed (λ h,
    match ho_files h !! from, ho_files h !! to with
    | None, _ => (Err OsNotFound, h)
    | Some _, Some NDir => (Err OsIsDir, h)
    | Some (NFile c), _ => (Ok tt, on_files (λ fs, <[to := NFile c]> (delete from fs)) h)
    | Some NDir, Some (NFile _) => (Err OsExists, h)
    | Some NDir, None =>
        match strip_prefix (from +:+ sep_str)%string to with
        | Some _ => (Err OsFailed, h)
        | None => (Ok tt, on_files (kmap_files (relocate from to)) h)
        end
    end).
Definition os_remove (path : string) : OsM unit :=
  mstmt OsFailed (λ h,
    match ho_files h !! path with
    | None => (Err OsNotFound, h)
    | Some NDir =>
        if existsb (λ pn, negb (is_null (child_of path pn.1))) (map_to_list (ho_files h)) then (Err OsIsDir, h)
        else (Ok tt, on_files (delete path) h)
    | Some (NFile _) => (Ok tt, on_files (delete path) h)
    end).
End files.

(** ** Commands *)

Definition exec_command (program : string) (args : list string) (input : string) : OsM unit :=
  mexec OsFailed (on_ran (λ l, l ++ [(program, args, input)])).

(** ** Uploads *)

(* internal/platform/linux/files_linux.go:130-134 atomicWriteCloser *)
Record atomicWriteCloser : Type := mkWriter { aw_tmpPath : string; aw_finalPath : string }.

(** The temporary file has one writer, so a write is an append; one that
    fails may still have written a part: [torn] is what it got to. *)
(* internal/platform/linux/files_linux.go:136-136 Write *)
Definition Write (w : atomicWriteCloser) (p torn : bytes) : OsM unit :=
  let append x h := on_files (alter (λ n, match n with NFile c => NFile (c ++ x) | NDir => NDir end) (aw_tmpPath w)) h in
  r ← mtry (E := os_error) (mexec OsFailed (append p));
  match r with
  | Ok _ => mret tt
  | Err err => mstate (λ h, (tt, append torn h));; mfail err
  end.

(** The chunks in turn, every one with what a failing write of it got to. *)
Fixpoint write_all (w : atomicWriteCloser) (chunks : list (bytes * bytes)) : OsM unit :=
  match chunks with
  | [] => mret tt
  | (p, torn) :: rest => Write w p torn;; write_all w rest
  end.

(** An upload as the agent runs it with a provider's writer: a failing write
    ends it with the writer closed and no answer; the end marker ([finished])
    closes it and reports what closing gave; when the connection is lost
    before, it is closed without an answer ([files.closeAll]).  The result
    tells whether success was reported. *)
(* internal/agentcore/files.go:81-107 handleFileBinaryFrame *)
Definition transfer (open : OsM atomicWriteCloser) (close : atomicWriteCloser → OsM unit)
    (chunks : list (bytes * bytes)) (finished : bool) : OsM bool :=
  w ← open;
  r ← mtry (E := os_error) (write_all w chunks);
  match r with
  | Err _ => mignore (E := os_error) (close w);; mret false
  | Ok _ => if finished then close w;; mret true else mignore (E := os_error) (close w);; mret false
  end.
Lemma tmp_differs clean : (clean +:+ ".wr-upload.tmp")%string ≠ clean.
Proof.
  intros H. apply (f_equal String.length) in H. induction clean as [|c clean IH]; [done|]. apply IH. simpl in H. lia.
Qed.

(** Nothing but the temporary file has changed. *)
Definition only_tmp (w : atomicWriteCloser) (h h' : host) : Prop :=
  ∀ p, p ≠ aw_tmpPath w → ho_files h' !! p = ho_files h !! p.

Lemma os_remove_only_tmp sep w h h1 :
  only_tmp w h h1 → always (os_remove sep (aw_tmpPath w)) (λ _ h', only_tmp w h h') h1.
Proof.
  intros H. unfold os_remove. apply always_mstmt; [done|].
  assert (only_tmp w h (on_files (delete (aw_tmpPath w)) h1)) as Hd.
  { intros p Hp. simpl. rewrite lookup_delete_ne by done. by apply H. }
  destruct (ho_files h1 !! aw_tmpPath w) as [[c|]|]; [done| |done].
  by destruct (existsb _ _).
Qed.

Definition written (w : atomicWriteCloser) (h : host) (c : bytes) (h' : host) : Prop :=
  only_tmp w h h' ∧ ho_files h' !! aw_tmpPath w = Some (NFile c).

Lemma written_append w h c x h1 :
  written w h c h1 →
  written w h (c ++ x) (on_files (alter (λ n, match n with NFile c => NFile (c ++ x) | NDir => NDir end) (aw_tmpPath w)) h1).
Proof.
  intros [H1 H2]. split.
  - intros p Hp. simpl. rewrite lookup_alter_ne by done. by apply H1.
  - simpl. by rewrite lookup_alter, decide_True, H2 by done.
Qed.

(** What a failing write leaves: the chunks before it and its own beginning. *)
Definition stopped (chunks : list (bytes * bytes)) (d : bytes) : Prop :=
  ∃ k p torn, chunks !! k = Some (p, torn) ∧ d = concat (map fst (take k chunks)) ++ torn.

Lemma write_all_always w chunks h c h1 :
  written w h c h1 →
  always (write_all w chunks) (λ r h', match r with
    | Ok _ => written w h (c ++ concat (map fst chunks)) h'
    | Err _ => ∃ d, stopped chunks d ∧ written w h (c ++ d) h'
    end) h1.
Proof.
  revert c h1. induction chunks as [|[x torn] chunks IH]; intros c h1 Hw; cbn [write_all].
  { apply always_mret. cbn. by rewrite app_nil_r. }
  apply always_mbind. unfold Write. apply always_mbind, always_mtry, always_mexec.
  - apply always_mbind, always_mstate, always_mfail. exists torn. split; [by exists 0, x, torn|by apply written_append].
  - apply always_mret. eapply always_mono; [by apply IH, written_append|].
    intros [[]|e] h2; cbn [map concat fst]; [by rewrite app_assoc|].
    intros (d & (k & p & t & Hk & ->) & Hd). exists (x ++ concat (map fst (take k chunks)) ++ t).
    split; [exists (S k), p, t; split; [done|]; cbn; by rewrite <-app_assoc|by rewrite app_assoc].
Qed.

(** Opening gives a fresh writer, and [Q c] is what closing does after [c] was
    written. *)
Lemma transfer_always open close w h chunks finished (Q : bytes → res os_error unit → host → Prop) :
  always open (λ r h', match r with Ok w' => w' = w ∧ written w h [] h' | Err _ => h' = h end) h →
  (∀ c h1, written w h c h1 → always (close w) (Q c) h1) →
  always (transfer open close chunks finished) (λ r h',
    match r with
    | Ok true => finished = true ∧ Q (concat (map fst chunks)) (Ok tt) h'
    | Err e => h' = h ∨ finished = true ∧ Q (concat (map fst chunks)) (Err e) h'
    | Ok false => ∃ d x, (finished = false ∧ d = concat (map fst chunks) ∨ stopped chunks d) ∧ Q d x h'
    end) h.
Proof.
  intros Ho Hc. unfold transfer. apply always_mbind. eapply always_mono; [exact Ho|].
  intros [w'|e] h1; [intros [-> Hw]|by left].
  apply always_mbind, always_mtry. eapply always_mono; [by apply (write_all_always _ _ h [])|].
  intros [[]|e] h2; [intros Hw2; destruct finished|intros (d & Hd & Hw2)].
  - apply always_mbind. eapply always_mono; [by apply Hc|]. intros [[]|e] h3 HQ; [by apply always_mret|by right].
  - apply always_mbind, always_mignore. eapply always_mono; [by apply Hc|]. intros x h3 HQ. apply always_mret. eauto 10.
  - apply always_mbind, always_mignore. eapply always_mono; [by apply Hc|]. intros x h3 HQ. apply always_mret. eauto 10.
Qed.
