(* ===== verification/LinuxProvider.v ===== *)
(** What the agent does on a Linux host ([internal/platform/linux]): path
    hygiene and atomic uploads ([files_linux.go]), systemd units
    ([services_linux.go]), processes ([processes_linux.go]), journal queries
    ([logs_linux.go]), the support account ([support_linux.go]).  The host is
    a set of files and a trace of the commands run on it; any call can fail. *)
From S2P Require Import Prelude Password AgentRelease Help Paths Settings Support Host.

(** ** Paths *)

(* internal/platform/linux/files_linux.go:21-29 cleanPath *)
Definition cleanPath (path : string) : res os_error string :=
  match str_bytes path with
  | [] => Err OsEmptyPath
  | c :: _ => if negb (Ascii.eqb c slash) then Err OsRelative else Ok (bytes_str (Clean (str_bytes path)))
  end.

(** ** Files *)

(* internal/platform/linux/files_linux.go:31-54 ListDir *)
Definition ListDir (info : string → option Z) (dirsize : Z) (path : string) : OsM (list FileEntry) :=
  clean ← mlift (cleanPath path);
  entries_of slash info dirsize clean.

(* internal/platform/linux/files_linux.go:56-65 Mkdir *)
Definition Mkdir (path : string) : OsM unit :=
  clean ← mlift (cleanPath path);
  mstmt OsFailed (λ h,
    match ho_files h !! clean with
    | Some _ => (Err OsExists, h)
    | None => (Ok tt, on_files (<[clean := NDir]>) h)
    end).

(* internal/platform/linux/files_linux.go:67-80 Rename *)
Definition Rename (from to : string) : OsM unit :=
  cleanFrom ← mlift (cleanPath from);
  cleanTo ← mlift (cleanPath to);
  os_rename slash cleanFrom cleanTo.

(* internal/platform/linux/files_linux.go:82-91 Delete *)
Definition Delete (path : string) : OsM unit :=
  clean ← mlift (cleanPath path);
  os_remove slash clean.

(* internal/platform/linux/files_linux.go:93-112 ReadFile *)
Definition ReadFile (path : string) : OsM bytes :=
  clean ← mlift (cleanPath path);
  n ← mstmt OsFailed (λ h, (match ho_files h !! clean with Some n => Ok n | None => Err OsNotFound end, h));
  mexec OsFailed (λ h, h);;
  match n with NDir => mfail OsIsDir | NFile content => mret content end.

(* internal/platform/linux/files_linux.go:117-128 WriteFile *)
Definition WriteFile (path : string) : OsM atomicWriteCloser :=
  clean ← mlift (cleanPath path);
  let tmp := (clean +:+ ".wr-upload.tmp")%string in
  mstmt OsFailed (λ h,
    match ho_files h !! tmp with
    | Some NDir => (Err OsIsDir, h)
    | _ => (Ok tt, on_files (<[tmp := NFile []]>) h)
    end);;
  mret (mkWriter tmp clean).

(* internal/platform/linux/files_linux.go:138-148 Close *)
Definition Close (w : atomicWriteCloser) : OsM unit :=
  r ← mtry (E := os_error) (mexec OsFailed (λ h, h));
  match r with
  | Err err => mignore (E := os_error) (os_remove slash (aw_tmpPath w));; mfail err
  | Ok _ =>
      r ← mtry (E := os_error) (os_rename slash (aw_tmpPath w) (aw_finalPath w));
      match r with
      | Err err => mignore (E := os_error) (os_remove slash (aw_tmpPath w));; mfail err
      | Ok _ => mret tt
      end
  end.

(** ** Services *)

Definition unit_char (c : byte) : bool :=
  let n := byte_val c in
  ((97 <=? n) && (n <=? 122) || (65 <=? n) && (n <=? 90) || (48 <=? n) && (n <=? 57))%N ||
  existsb (Ascii.eqb c) ["_"; "@"; ":"; "."; "-"]%char.
(* internal/platform/linux/services_linux.go:20-20 serviceNamePattern *)
Definition serviceNamePattern (name : string) : bool :=
  (1 <=? String.length name) && (String.length name <=? 255) && forallb unit_char (str_bytes name).

Definition ends_with (s suffix : string) : bool :=
  (String.length suffix <=? String.length s) &&
  String.eqb (substring (String.length s - String.length suffix) (String.length suffix) s) suffix.
(* internal/platform/linux/services_linux.go:22-30 normalizeServiceName *)
Definition normalizeServiceName (name : string) : res os_error string :=
  if negb (serviceNamePattern name) then Err OsBadName
  else Ok (if ends_with name ".service" then name else name +:+ ".service").

(** [exec.CommandContext(...)]: an argument list, no shell. *)
(* internal/platform/linux/services_linux.go:80-93 systemctl *)
Definition systemctl (action name : string) : OsM unit :=
  unit_ ← mlift (normalizeServiceName name);
  exec_command "systemctl" [action; unit_] "".
(* internal/platform/linux/services_linux.go:68-70 StartService *)
Definition StartService (name : string) : OsM unit := systemctl "start" name.
(* internal/platform/linux/services_linux.go:72-74 StopService *)
Definition StopService (name : string) : OsM unit := systemctl "stop" name.
(* internal/platform/linux/services_linux.go:76-78 RestartService *)
Definition RestartService (name : string) : OsM unit := systemctl "restart" name.

(** [units] is the decoded output of [systemctl list-units]: unit, active
    state and description. *)
(* internal/platform/linux/services_linux.go:40-66 ListServices *)
Definition ListServices (units : option (list (string * string * string))) : OsM (list (string * string * string)) :=
  exec_command "systemctl" ["list-units"; "--type=service"; "--all"; "--no-pager"; "--output=json"] "";;
  match units with
  | None => mfail OsParse
  | Some l => mret (map (λ '(u, active, descr), (u, descr,
      if String.eqb active "active" then "running"
      else if String.eqb active "inactive" || String.eqb active "failed" then "stopped" else "unknown")%string) l)
  end.

(** ** Processes *)

(* internal/platform/linux/processes_linux.go:47-63 TerminateProcess *)
Definition TerminateProcess (pid startTimeUnixMS : Z) : OsM unit :=
  mstmt OsFailed (λ h, (if is_null (ho_procs h !! pid) then Err OsNotFound else Ok tt, h));;
  actualStart ← mstmt OsFailed (λ h, (match ho_procs h !! pid with Some t => Ok t | None => Err OsNotFound end, h));
  if negb (startTimeUnixMS =? 0)%Z && negb (actualStart =? startTimeUnixMS)%Z then mfail OsMismatch
  else mexec OsFailed (on_killed (λ l, l ++ [pid])).

(** ** Logs *)

(* internal/platform/linux/logs_linux.go:72-83 journalPriority *)
Definition journalPriority (level : string) : string :=
  if String.eqb level "error" then "3" else if String.eqb level "warning" then "4"
  else if String.eqb level "info" then "6" else "".
(* internal/platform/linux/logs_linux.go:85-98 levelFromPriority *)
Definition levelFromPriority (p : string) : string :=
  match Atoi p with
  | None => "unknown"
  | Some n => if (n <=? 3)%Z then "error" else if (n =? 4)%Z then "warning" else "info"
  end.
(** [since] and [until] are formatted already. *)
(* internal/platform/linux/logs_linux.go:29-46 QueryLogs *)
Definition journal_args (limit : Z) (since until : option string) (query level : string) : list string :=
  let limit := if (limit <=? 0)%Z || (5000 <? limit)%Z then 500%Z else limit in
  ["--no-pager"; "-o"; "json"; "-n"; Itoa limit]%string ++
  (match since with Some t => ["--since"; t]%string | None => [] end) ++
  (match until with Some t => ["--until"; t]%string | None => [] end) ++
  (if String.eqb query "" then [] else ["-g"; query]%string) ++
  (if String.eqb (journalPriority level) "" then [] else ["-p"%string; journalPriority level]).

(** ** The support account *)

(* internal/platform/linux/support_linux.go:20-20 SupportAccountUsername *)
Definition SupportAccountUsername : string := "remotewartung".

(* internal/platform/linux/support_linux.go:66-76 grantSudo *)
Definition grantSudo (sudo : bool) : OsM unit :=
  if negb sudo then mfail OsNotFound else
  mexec OsFailed (λ h, on_files (λ fs, if is_null (fs !! "/etc/sudoers.d"%string) then <["/etc/sudoers.d"%string := NDir]> fs else fs) h);;
  mexec OsFailed (on_files (<["/etc/sudoers.d/wartungsremote-support"%string :=
    NFile (raw (SupportAccountUsername +:+ " ALL=(ALL) NOPASSWD:ALL" +:+ String newline ""))]>)).

(** [known] tells whether [id -u] finds the account, [bash] and [sudo]
    whether they are installed; [rand] is the random source. *)
(* internal/platform/linux/support_linux.go:30-61 EnsureSupportAccount *)
Definition EnsureSupportAccount (rand : supply) (known bash sudo : bool) : OsM (string * string) :=
  match (Prelude.run (GenerateSupportPassword 14) rand).1 with
  | Err _ => mfail OsEntropy
  | Ok password =>
      (if known then mret tt
       else exec_command "useradd" ["-m"; "-s"; if bash then "/bin/bash" else "/bin/sh"; SupportAccountUsername]%string "");;
      mignore (E := os_error) (grantSudo sudo);;
      exec_command "chpasswd" [] (SupportAccountUsername +:+ ":" +:+ password +:+ String newline "");;
      mret (SupportAccountUsername, password)
  end.

(** ** Paths are canonical *)

(** Every path the file operations act on is absolute and canonical: no empty
    element, no [.] and no [..]; cleaning such a path again changes nothing. *)
Theorem paths_canonical path clean :
  cleanPath path = Ok clean → canonical clean ∧ cleanPath clean = Ok clean.
Proof.
  unfold cleanPath at 1. destruct (str_bytes path) as [|c rest] eqn:E; [done|].
  destruct (Ascii.eqb_spec c slash) as [->|]; [|done]. cbn [negb]. intros Hok.
  set (segs := rev (fold_left clean_step (split_on slash (slash :: rest)) [])).
  assert (Forall plain segs) as Hs.
  { apply Forall_rev. apply clean_stack_plain; [apply split_on_free|constructor]. }
  assert (clean = bytes_str (slash :: join [slash] segs)) as -> by (by inversion Hok).
  assert (str_bytes (bytes_str (slash :: join [slash] segs)) = slash :: join [slash] segs) as Hb by apply bytes_str_bytes.
  split; [by exists segs|].
  unfold cleanPath. rewrite Hb, Ascii.eqb_refl. cbn [negb]. clear Hb. by rewrite Clean_canonical.
Qed.

(** ** Uploads are atomic *)

(** An upload by the agent with this provider. *)
Definition upload (path : string) : list (bytes * bytes) → bool → OsM bool := transfer (WriteFile path) Close.

Lemma Close_always w h c h1 :
  aw_tmpPath w ≠ aw_finalPath w → written w h c h1 →
  always (Close w) (λ r h',
    match r with
    | Ok _ => ho_files h' = <[aw_finalPath w := NFile c]> (delete (aw_tmpPath w) (ho_files h1))
    | Err _ => only_tmp w h h'
    end) h1.
Proof.
  intros Hne Hw. pose proof Hw as [Hk Ht]. unfold Close.
  assert (∀ e, always (mignore (F := os_error) (os_remove slash (aw_tmpPath w));; mfail e : OsM unit) (λ r h',
    match r with
    | Ok _ => ho_files h' = <[aw_finalPath w := NFile c]> (delete (aw_tmpPath w) (ho_files h1))
    | Err _ => only_tmp w h h'
    end) h1) as Hfail.
  { intros e. apply always_mbind, always_mignore. eapply always_mono; [by apply os_remove_only_tmp|].
    intros r h' H. by apply always_mfail. }
  apply always_mbind, always_mtry, always_mexec; [apply Hfail|].
  apply always_mbind, always_mtry. unfold os_rename. apply always_mstmt; [apply Hfail|]. rewrite Ht.
  destruct (ho_files h1 !! aw_finalPath w) as [[c'|]|]; cbn [fst snd]; [|apply Hfail|]; by apply always_mret.
Qed.

Lemma WriteFile_always path clean h :
  cleanPath path = Ok clean →
  let w := mkWriter (clean +:+ ".wr-upload.tmp")%string clean in
  always (WriteFile path) (λ r h', match r with Ok w' => w' = w ∧ written w h [] h' | Err _ => h' = h end) h.
Proof.
  intros Hc w. unfold WriteFile. rewrite Hc. apply always_mbind, always_mlift. cbv zeta.
  apply always_mbind, always_mstmt; [done|]. cbn [w].
  destruct (ho_files h !! _) as [[c0|]|]; cbn [fst snd]; [|done|]; apply always_mret; split; [done| |done|]; split;
    [by intros p Hp; simpl; rewrite lookup_insert_ne|by simpl; rewrite lookup_insert_eq
    |by intros p Hp; simpl; rewrite lookup_insert_ne|by simpl; rewrite lookup_insert_eq].
Qed.

(** C35: an upload replaces its target in one step or not at all, whatever call
    fails.  One that is reported as a success has left exactly the bytes sent
    at the target and no temporary file; one that is refused or whose closing
    fails has left the target as it was.  One that breaks off without an
    answer, because a write failed or the connection was lost, has left the
    target as it was or put there, complete, what had been written until then
    (the agent closes the writer, which moves the temporary file).  No other
    file is ever touched. *)
Theorem uploads_atomic path clean chunks finished h :
  cleanPath path = Ok clean →
  let tmp := (clean +:+ ".wr-upload.tmp")%string in
  let all := concat (map fst chunks) in
  always (upload path chunks finished) (λ r h',
    (∀ p, p ≠ clean → p ≠ tmp → ho_files h' !! p = ho_files h !! p) ∧
    match r with
    | Ok true => finished = true ∧ ho_files h' !! clean = Some (NFile all) ∧ ho_files h' !! tmp = None
    | Err _ => ho_files h' !! clean = ho_files h !! clean
    | Ok false => ho_files h' !! clean = ho_files h !! clean ∨
        ∃ d, (finished = false ∧ d = all ∨ stopped chunks d) ∧ ho_files h' !! clean = Some (NFile d)
    end) h.
Proof.
  intros Hc tmp all. pose proof (tmp_differs clean : tmp ≠ clean) as Hne. set (w := mkWriter tmp clean).
  set (Q c (r : res os_error unit) h' := (∀ p, p ≠ clean → p ≠ tmp → ho_files h' !! p = ho_files h !! p) ∧
    match r with
    | Ok _ => ho_files h' !! clean = Some (NFile c) ∧ ho_files h' !! tmp = None
    | Err _ => ho_files h' !! clean = ho_files h !! clean
    end).
  eapply always_mono.
  { apply (transfer_always _ _ w h _ _ Q); [by apply WriteFile_always|]. intros c h1 Hw.
    eapply always_mono; [by apply (Close_always w h c)|]. intros [[]|e] h2 H2.
    - unfold Q. rewrite H2. destruct Hw as [Hw _]. split_and!.
      + intros p Hp1 Hp2. rewrite lookup_insert_ne, lookup_delete_ne by done. by apply Hw.
      + apply lookup_insert_eq.
      + by rewrite lookup_insert_ne, lookup_delete_eq by done.
    - split; [by intros; apply H2|by apply H2]. }
  intros [[]|e] h'; [intros (-> & ? & ?)|intros (d & [[]|e] & Hd & ? & Hq)|intros [->|(_ & ? & ?)]]; split; try done; [right|left]; [|done].
  exists d. by destruct Hq.
Qed.

(** ** Processes, services, the support account *)

(** A process is signalled only if it runs and, where the caller names a start
    time, is still the process that started then; at most one is. *)
Theorem terminate_checks_identity pid start h :
  always (TerminateProcess pid start) (λ r h',
    h' = h ∨ (r = Ok tt ∧ h' = on_killed (λ l, l ++ [pid]) h ∧
              ∃ t, ho_procs h !! pid = Some t ∧ (start = 0%Z ∨ start = t))) h.
Proof.
  unfold TerminateProcess. apply always_mbind, always_mstmt; [by left|].
  destruct (ho_procs h !! pid) as [t|] eqn:E; cbn [is_null fst snd]; [|by left].
  apply always_mbind, always_mstmt; [by left|]. rewrite E. cbn [fst snd].
  destruct (Z.eqb_spec start 0) as [Hs|Hs], (Z.eqb_spec t start) as [Ht|Ht]; cbn [andb negb];
    try (by apply always_mfail; left); (apply always_mexec; [by left|]; right; split_and!; [done..|]; eauto).
Qed.

(** A unit name handed to [systemctl] consists of unit characters, so it is one
    argument without blanks or shell syntax. *)
Theorem service_names_plain action name h :
  always (systemctl action name) (λ r h',
    h' = h ∨ ∃ unit_, normalizeServiceName name = Ok unit_ ∧ forallb unit_char (str_bytes unit_) = true ∧
      h' = on_ran (λ l, l ++ [("systemctl"%string, [action; unit_], ""%string)]) h) h.
Proof.
  unfold systemctl. apply always_mbind, always_mlift.
  destruct (normalizeServiceName name) as [u|e] eqn:E; [|by left].
  apply always_mexec; [by left|]. right. exists u. split_and!; [done| |done].
  unfold normalizeServiceName in E. destruct (serviceNamePattern name) eqn:Ep; [|done]. cbn [negb] in E.
  apply andb_true_iff in Ep as [_ Ep]. destruct (ends_with name ".service"); injection E as <-; [done|].
  by rewrite str_bytes_app, forallb_app, Ep.
Qed.

(** The pattern lets a name begin with a dash, which [systemctl] reads as an
    option: [-H] makes it act on another host. *)
Theorem service_name_option_accepted :
  normalizeServiceName "-Hroot@backup" = Ok "-Hroot@backup.service"%string.
Proof. reflexivity. Qed.

(** An upload that breaks off is closed like a complete one: the target is
    replaced by the bytes that came before. *)
Definition demo_host : host := mkHost {["/srv/db" := NFile (raw "old")]} [] ∅ [].
Theorem aborted_upload_truncates :
  let '(r, w) := upload "/srv/db" [(raw "ne", []); (raw "w", [])] true
    (World demo_host [false; false; true; false; false]) in
  r = Ok false ∧ ho_files (w_db w) !! "/srv/db"%string = Some (NFile (raw "ne")).
Proof. vm_compute. split; reflexivity. Qed.

Lemma uploads_atomic_witness :
  ho_files (run (upload "/srv//x/../db" [(raw "ne", []); (raw "w", [])] true) demo_host).2 !! "/srv/db"%string =
    Some (NFile (concat [raw "ne"; raw "w"])).
Proof.
  pose proof (always_run _ _ _
    (uploads_atomic "/srv//x/../db" "/srv/db" [(raw "ne", []); (raw "w", [])] true demo_host eq_refl)) as H.
  destruct (run _ demo_host) as [r h'] eqn:E. assert (r = Ok true) as -> by (vm_compute in E; congruence).
  destruct H as (_ & _ & H & _). exact H.
Defined.
