(* ===== verification/WindowsProvider.v ===== *)
(** What the agent does on a Windows host ([internal/platform/windows]): files
    ([files_windows.go]), the service manager ([services_windows.go]),
    processes ([processes_windows.go]), the event log ([logs_windows.go]), the
    support account ([support_windows.go]), and the credential store under the
    data protection API ([internal/agentcore/credstore_windows.go]). *)
From S2P Require Import Prelude AgentUpdate Password AgentRelease Help Paths Settings Support Host.

Definition backslash : ascii := "\".

(** ** Files *)

Section files.
(** [filepath.IsAbs] and [filepath.Clean] of Windows paths. *)
Context (IsAbs : string → bool) (Clean : string → string).

(* internal/platform/windows/files_windows.go:17-25 cleanPath *)
Definition cleanPath (path : string) : res os_error string :=
  if String.eqb path "" then Err OsEmptyPath
  else if negb (IsAbs path) then Err OsRelative else Ok (Clean path).

(* internal/platform/windows/files_windows.go:27-50 ListDir *)
Definition ListDir (info : string → option Z) (dirsize : Z) (path : string) : OsM (list FileEntry) :=
  clean ← mlift (cleanPath path);
  entries_of backslash info dirsize clean.

(* internal/platform/windows/files_windows.go:52-61 Mkdir *)
Definition Mkdir (path : string) : OsM unit :=
  clean ← mlift (cleanPath path);
  mstmt OsFailed (λ h,
    match ho_files h !! clean with
    | Some _ => (Err OsExists, h)
    | None => (Ok tt, on_files (<[clean := NDir]>) h)
    end).

(* internal/platform/windows/files_windows.go:63-76 Rename *)
Definition Rename (from to : string) : OsM unit :=
  cleanFrom ← mlift (cleanPath from);
  cleanTo ← mlift (cleanPath to);
  os_rename backslash cleanFrom cleanTo.

(* internal/platform/windows/files_windows.go:78-87 Delete *)
Definition Delete (path : string) : OsM unit :=
  clean ← mlift (cleanPath path);
  os_remove backslash clean.

(* internal/platform/windows/files_windows.go:89-108 ReadFile *)
Definition ReadFile (path : string) : OsM bytes :=
  clean ← mlift (cleanPath path);
  n ← mstmt OsFailed (λ h, (match ho_files h !! clean with Some n => Ok n | None => Err OsNotFound end, h));
  mexec OsFailed (λ h, h);;
  match n with NDir => mfail OsIsDir | NFile content => mret content end.

(* internal/platform/windows/files_windows.go:112-123 WriteFile *)
Definition WriteFile (path : string) : OsM atomicWriteCloser :=
  clean ← mlift (cleanPath path);
  let tmp := (clean +:+ ".wr-upload.tmp")%string in
  mstmt OsFailed (λ h,
    match ho_files h !! tmp with
    | Some NDir => (Err OsIsDir, h)
    | _ => (Ok tt, on_files (<[tmp := NFile []]>) h)
    end);;
  mret (mkWriter tmp clean).

(** The target is removed before the temporary file takes its place. *)
(* internal/platform/windows/files_windows.go:133-146 Close *)
Definition Close (w : atomicWriteCloser) : OsM unit :=
  r ← mtry (E := os_error) (mexec OsFailed (λ h, h));
  match r with
  | Err err => mignore (E := os_error) (os_remove backslash (aw_tmpPath w));; mfail err
  | Ok _ =>
      mignore (E := os_error) (os_remove backslash (aw_finalPath w));;
      r ← mtry (E := os_error) (os_rename backslash (aw_tmpPath w) (aw_finalPath w));
      match r with
      | Err err => mignore (E := os_error) (os_remove backslash (aw_tmpPath w));; mfail err
      | Ok _ => mret tt
      end
  end.

(** An upload by the agent with this provider. *)
Definition upload (path : string) : list (bytes * bytes) → bool → OsM bool := transfer (WriteFile path) Close.

(** ** What uploads leave *)

(** Nothing but the temporary file has changed, and the target is as before
    or gone. *)
Definition target_whole (w : atomicWriteCloser) (h h' : host) : Prop :=
  (∀ p, p ≠ aw_tmpPath w → p ≠ aw_finalPath w → ho_files h' !! p = ho_files h !! p) ∧
  (ho_files h' !! aw_finalPath w = ho_files h !! aw_finalPath w ∨ ho_files h' !! aw_finalPath w = None).

Lemma only_tmp_whole w h h' :
  aw_tmpPath w ≠ aw_finalPath w → only_tmp w h h' → target_whole w h h'.
Proof using Type. intros Hne H. split; [by intros; apply H|]. left. by apply H. Qed.

(** [os.Remove] of a path, whatever happens. *)
Lemma os_remove_always p h :
  always (os_remove backslash p) (λ _ h', h' = h ∨ h' = on_files (delete p) h) h.
Proof using Type.
  unfold os_remove. apply always_mstmt; [by left|]. destruct (ho_files h !! p) as [[]|]; [by right| |by left].
  destruct (existsb _ _); auto.
Qed.

Lemma windows_Close_always w h c h1 :
  aw_tmpPath w ≠ aw_finalPath w → written w h c h1 →
  always (Close w) (λ r h',
    target_whole w h h' ∨
    (r = Ok tt ∧ ho_files h' !! aw_finalPath w = Some (NFile c) ∧ ho_files h' !! aw_tmpPath w = None ∧
     ∀ p, p ≠ aw_tmpPath w → p ≠ aw_finalPath w → ho_files h' !! p = ho_files h !! p)) h1.
Proof using Type.
  intros Hne [Hk Ht]. unfold Close.
  assert (∀ h2 e, target_whole w h h2 →
    always (mignore (F := os_error) (os_remove backslash (aw_tmpPath w));; mfail e : OsM unit) (λ r h',
      target_whole w h h' ∨
      (r = Ok tt ∧ ho_files h' !! aw_finalPath w = Some (NFile c) ∧ ho_files h' !! aw_tmpPath w = None ∧
       ∀ p, p ≠ aw_tmpPath w → p ≠ aw_finalPath w → ho_files h' !! p = ho_files h !! p)) h2) as Hfail.
  { intros h2 e [Hp Hf]. apply always_mbind, always_mignore. eapply always_mono; [apply os_remove_always|].
    intros r h3 [-> | ->]; apply always_mfail; left; [done|]. split; simpl.
    - intros p H1 H2. rewrite lookup_delete_ne by done. by apply Hp.
    - by rewrite lookup_delete_ne. }
  apply always_mbind, always_mtry, always_mexec; [by apply Hfail, only_tmp_whole|].
  apply always_mbind, always_mignore. eapply always_mono; [apply os_remove_always|]. intros r h2 Hh2. 
  assert (target_whole w h h2 ∧ ho_files h2 !! aw_tmpPath w = Some (NFile c)) as [Hw Ht2].
  { destruct Hh2 as [-> | ->]; [split; [by apply only_tmp_whole|done]|]. split; [split|]; simpl.
    - intros p H1 H2. rewrite lookup_delete_ne by done. by apply Hk.
    - right. apply lookup_delete_eq.
    - by rewrite lookup_delete_ne. }
  apply always_mbind, always_mtry. unfold os_rename. apply always_mstmt; [by apply Hfail|]. rewrite Ht2.
  destruct (ho_files h2 !! aw_finalPath w) as [[c'|]|]; cbn [fst snd]; [|by apply Hfail|];
    (apply always_mret; right; split; [done|]; simpl; split_and!;
     [apply lookup_insert_eq|by rewrite lookup_insert_ne, lookup_delete_eq by done
     |intros p H1 H2; rewrite lookup_insert_ne, lookup_delete_ne by done; by apply Hw]).
Qed.

Lemma windows_WriteFile_always path clean h :
  cleanPath path = Ok clean →
  let w := mkWriter (clean +:+ ".wr-upload.tmp")%string clean in
  always (WriteFile path) (λ r h', match r with Ok w' => w' = w ∧ written w h [] h' | Err _ => h' = h end) h.
Proof using Type.
  intros Hc w. unfold WriteFile. rewrite Hc. apply always_mbind, always_mlift. cbv zeta.
  apply always_mbind, always_mstmt; [done|]. cbn [w].
  destruct (ho_files h !! _) as [[c0|]|]; cbn [fst snd]; [|done|]; apply always_mret; split; [done| |done|]; split;
    [by intros p Hp; simpl; rewrite lookup_insert_ne|by simpl; rewrite lookup_insert_eq
    |by intros p Hp; simpl; rewrite lookup_insert_ne|by simpl; rewrite lookup_insert_eq].
Qed.

(** An upload leaves its target complete, as it was or gone: whatever call
    fails, the target holds exactly the bytes sent when success is reported;
    one that breaks off without an answer may have put there what had been
    written until then; no other file but the temporary one is touched. *)
Theorem windows_upload_whole path clean chunks finished h :
  cleanPath path = Ok clean →
  let tmp := (clean +:+ ".wr-upload.tmp")%string in
  let all := concat (map fst chunks) in
  always (upload path chunks finished) (λ r h',
    (∀ p, p ≠ clean → p ≠ tmp → ho_files h' !! p = ho_files h !! p) ∧
    (ho_files h' !! clean = ho_files h !! clean ∨ ho_files h' !! clean = None ∨
     (∃ d, (r = Ok true ∧ d = all ∨ r = Ok false ∧ (finished = false ∧ d = all ∨ stopped chunks d)) ∧
       ho_files h' !! clean = Some (NFile d) ∧ ho_files h' !! tmp = None))) h.
Proof using Type.
  intros Hc tmp all. pose proof (tmp_differs clean : tmp ≠ clean) as Hne. set (w := mkWriter tmp clean).
  eapply always_mono; [apply (transfer_always _ _ w h _ _ (λ c r h', target_whole w h h' ∨
    (r = Ok tt ∧ ho_files h' !! aw_finalPath w = Some (NFile c) ∧ ho_files h' !! aw_tmpPath w = None ∧
     ∀ p, p ≠ aw_tmpPath w → p ≠ aw_finalPath w → ho_files h' !! p = ho_files h !! p)));
    [by apply windows_WriteFile_always|intros c h1 Hw; by apply windows_Close_always]|].
  intros [[]|e] h'; [intros (-> & [[Hp Hf]|(_ & ? & ? & ?)])|intros (d & x & Hd & [[Hp Hf]|(_ & ? & ? & ?)])
    |intros [->|(_ & [[Hp Hf]|[? _]])]]; try done; simpl in *.
  all: split; [by auto|]. all: try (destruct Hf; by auto). all: try by left.
  all: right; right; eauto 10.
Qed.
End files.

(** When the move into place fails after the target was removed, the target
    is lost: the comment's premise, that [os.Rename] would not replace it,
    does not hold for Go. *)
Definition demo_files : host := mkHost {["C:\db" := NFile (raw "old")]} [] ∅ [].
Theorem failed_upload_loses_target :
  ∃ e, let '(r, w) := upload (λ _, true) (λ p, p) "C:\db" [(raw "new", [])] true
    (World demo_files [false; false; false; false; true; false]) in
  r = Err e ∧ ho_files (w_db w) = ∅.
Proof. eexists. vm_compute. split; reflexivity. Qed.

Lemma windows_upload_whole_witness :
  let chunks := [(raw "ne", []); (raw "w", [])] in
  ho_files (run (upload (λ _, true) (λ p, p) "C:\db" chunks true) demo_files).2 !! "C:\db"%string =
    Some (NFile (concat [raw "ne"; raw "w"])).
Proof.
  intros chunks. pose proof (always_run _ _ _ (windows_upload_whole (λ _, true) (λ p, p) "C:\db" "C:\db" chunks true demo_files eq_refl)) as H.
  assert (run (upload (λ _, true) (λ p, p) "C:\db" chunks true) demo_files =
    (Ok true, mkHost {["C:\db" := NFile (raw "new")]} [] ∅ [])) as E by (vm_compute; reflexivity).
  rewrite E in H |- *. destruct H as [_ [H|[H|(d & [[_ ->]|[H _]] & H' & _)]]]; [vm_compute in H; discriminate H..|exact H'|discriminate H].
Defined.

(** ** Services *)

Inductive svc_state : Type := Stopped | StartPending | StopPending | Running | OtherState.
#[export] Instance svc_state_dec : EqDecision svc_state.
Proof. solve_decision. Defined.

(** The service manager: for every service its state and display name. *)
Record service : Type := mkService { sv_State : svc_state; sv_Display : string }.
Abbreviation scm := (gmap string service).
Inductive scm_error : Type := ScConnect | ScList | ScOpen | ScStart | ScControl | ScQuery | ScConfig.
Abbreviation ScM := (M scm scm_error).
Definition with_service_state (x : svc_state) (s : service) : service := mkService x (sv_Display s).

(* internal/platform/windows/services_windows.go:48-57 serviceStatusString *)
Definition serviceStatusString (state : svc_state) : string :=
  match state with Running => "running" | Stopped => "stopped" | _ => "unknown" end.

Definition open_service (name : string) : ScM service :=
  mstmt ScOpen (λ m, (match m !! name with Some s => Ok s | None => Err ScOpen end, m)).

(* internal/platform/windows/services_windows.go:28-44 ListServices *)
Fixpoint list_each (names : list string) : ScM (list ServiceInfo) :=
  match names with
  | [] => mret []
  | name :: rest =>
      o ← mtry (F := scm_error) (open_service name);
      match o with
      | Err _ => list_each rest
      | Ok s =>
          status ← mtry (F := scm_error) (mquery ScQuery (λ _, sv_State s));
          cfg ← mtry (F := scm_error) (mquery ScConfig (λ _, sv_Display s));
          match status with
          | Err _ => list_each rest
          | Ok st =>
              out ← list_each rest;
              mret (mkServiceInfo name (match cfg with Ok d => d | Err _ => ""%string end) (serviceStatusString st) :: out)
          end
      end
  end.
(* internal/platform/windows/services_windows.go:15-46 ListServices *)
Definition ListServices : ScM (list ServiceInfo) :=
  mexec ScConnect (λ m, m);;
  names ← mquery ScList (λ m, (map_to_list m).*1);
  list_each names.

(** Starting a service that is not stopped is refused. *)
(* internal/platform/windows/services_windows.go:59-76 StartService *)
Definition StartService (name : string) : ScM unit :=
  mexec ScConnect (λ m, m);;
  open_service name;;
  mstmt ScStart (λ m, match m !! name with
    | Some s => if bool_decide (sv_State s = Stopped) then (Ok tt, <[name := with_service_state StartPending s]> m)
                else (Err ScStart, m)
    | None => (Err ScStart, m)
    end).

(** [polls] are the states found by the queries that fit before the deadline. *)
Fixpoint wait_state (name : string) (want status : svc_state) (polls : list svc_state) : ScM unit :=
  if bool_decide (status = want) then mret tt else
  match polls with
  | [] => mret tt
  | st :: rest =>
      mstmt ScQuery (λ m, (Ok tt, alter (with_service_state st) name m));;
      wait_state name want st rest
  end.
(* internal/platform/windows/services_windows.go:89-117 controlService *)
Definition controlService (name : string) (wantState : svc_state) (polls : list svc_state) : ScM unit :=
  mexec ScConnect (λ m, m);;
  open_service name;;
  mstmt ScControl (λ m, match m !! name with
    | Some s => if bool_decide (sv_State s = Running) then (Ok tt, <[name := with_service_state StopPending s]> m)
                else (Err ScControl, m)
    | None => (Err ScControl, m)
    end);;
  wait_state name wantState StopPending polls.
(* internal/platform/windows/services_windows.go:78-80 StopService *)
Definition StopService (name : string) (polls : list svc_state) : ScM unit := controlService name Stopped polls.
(* internal/platform/windows/services_windows.go:82-87 RestartService *)
Definition RestartService (name : string) (polls : list svc_state) : ScM unit :=
  controlService name Stopped polls;;
  StartService name.

Lemma wait_state_always name want status polls m :
  (∃ s, m !! name = Some s ∧ sv_State s = status) →
  always (wait_state name want status polls) (λ r m',
    (∀ k, k ≠ name → m' !! k = m !! k) ∧
    (∃ s, m' !! name = Some s ∧ (r = Ok tt → sv_State s = want ∨ status ≠ want ∧ want ∉ polls))) m.
Proof.
  revert status m. induction polls as [|st polls IH]; intros status m (s & Hs & Hst); simpl;
    (case_bool_decide as Hw; [apply always_mret; split; [done|]; exists s; split; [done|]; left; congruence|]).
  { apply always_mret. split; [done|]. exists s. split; [done|]. right. split; [done|]. apply not_elem_of_nil. }
  apply always_mbind, always_mstmt; [split; [done|]; by exists s|]. cbn [fst snd].
  eapply always_mono; [apply (IH st)|].
  { exists (with_service_state st s). by rewrite lookup_alter_eq, Hs. }
  intros r m' (Hk & s' & Hs' & Hr). split.
  { intros k Hkn. rewrite Hk by done. by rewrite lookup_alter_ne. }
  exists s'. split; [done|]. intros Hok. destruct (Hr Hok) as [?|[Hne Hnin]]; [by left|]. right.
  split; [done|]. apply not_elem_of_cons. split; [congruence|done].
Qed.

(** A stop touches one service, and its success means that the service was
    running, was told to stop and is stopped, unless no query before the
    deadline saw it stopped. *)
Theorem stop_service_outcome name polls m :
  always (StopService name polls) (λ r m',
    (∀ k, k ≠ name → m' !! k = m !! k) ∧
    (r = Ok tt → ∃ s s', m !! name = Some s ∧ sv_State s = Running ∧ m' !! name = Some s' ∧
      (sv_State s' = Stopped ∨ Stopped ∉ polls))) m.
Proof.
  unfold StopService, controlService. apply always_mbind, always_mexec; [done|].
  apply always_mbind, always_mstmt; [done|]. destruct (m !! name) as [s|] eqn:Es; cbn [fst snd]; [|done].
  apply always_mbind, always_mstmt; [done|]. rewrite Es. case_bool_decide as Hrun; cbn [fst snd]; [|done].
  eapply always_mono.
  { apply wait_state_always. exists (with_service_state StopPending s). by rewrite lookup_insert_eq. }
  intros r m' (Hk & s' & Hs' & Hr). split; [intros k Hkn; rewrite Hk by done; by rewrite lookup_insert_ne|].
  intros Hok. exists s, s'. destruct (Hr Hok) as [?|[_ ?]]; auto 6.
Qed.

(** A service that has not stopped when the twenty seconds are over is
    reported as stopped. *)
Theorem stop_reports_success_while_running name d polls :
  ∃ m', run (StopService name (replicate polls StopPending)) {[name := mkService Running d]} = (Ok tt, m') ∧
    sv_State <$> m' !! name = Some StopPending.
Proof.
  assert (∀ n (m : scm), m !! name = Some (mkService StopPending d) →
    wait_state name Stopped StopPending (replicate n StopPending) (World m []) =
      (Ok tt, World m [])) as Hwait.
  { induction n as [|n IH]; intros m Hm; [done|]. cbn [replicate wait_state]. rewrite bool_decide_eq_false_2 by done.
    unfold mbind, M_bind, mstmt. simpl. replace (alter _ name m) with m; [by apply IH|].
    symmetry. apply map_eq. intros k. destruct (decide (k = name)) as [->|Hk].
    - by rewrite lookup_alter_eq, Hm.
    - by rewrite lookup_alter_ne. }
  set (m1 := <[name := mkService StopPending d]> {[name := mkService Running d]} : scm).
  exists m1. split; [|unfold m1; by rewrite lookup_insert_eq].
  unfold run, StopService, controlService, open_service, mexec. unfold mbind, M_bind, mstmt. simpl.
  rewrite lookup_singleton_eq. simpl. fold m1. rewrite Hwait; [done|]. unfold m1. apply lookup_insert_eq.
Qed.

(** What is listed is there, with its state; a service that cannot be read is
    left out without ending the list. *)
Lemma list_each_always names m :
  always (list_each names) (λ r m', m' = m ∧ ∃ out, r = Ok out ∧
    Forall (λ i, ∃ s, m !! si_Name i = Some s ∧ si_Status i = serviceStatusString (sv_State s) ∧
      (si_DisplayName i = sv_Display s ∨ si_DisplayName i = ""%string)) out) m.
Proof.
  induction names as [|name names IH]; cbn [list_each].
  { apply always_mret. split; [done|]. exists []. split; [done|constructor]. }
  apply always_mbind, always_mtry, always_mstmt; [exact IH|].
  destruct (m !! name) as [s|] eqn:Es; cbn [fst snd]; [|exact IH].
  apply always_mbind, always_mtry, always_mquery; apply always_mbind, always_mtry, always_mquery; try exact IH;
    (apply always_mbind; eapply always_mono; [exact IH|]; intros r m' (-> & out & -> & Hout); apply always_mret;
     split; [done|]; eexists; split; [done|]; constructor; [|done]; exists s; split; [done|]; simpl; auto).
Qed.
Theorem services_listed_truly m :
  always ListServices (λ r m', m' = m ∧ ∀ out, r = Ok out →
    Forall (λ i, ∃ s, m !! si_Name i = Some s ∧ si_Status i = serviceStatusString (sv_State s) ∧
      (si_DisplayName i = sv_Display s ∨ si_DisplayName i = ""%string)) out) m.
Proof.
  unfold ListServices. apply always_mbind, always_mexec; [done|]. apply always_mbind, always_mquery; [done|].
  eapply always_mono; [apply list_each_always|]. intros r m' (-> & out & -> & Hout). split; [done|].
  by intros ? [= <-].
Qed.

(** ** Processes *)

(** The process is opened by its id once its start time was checked. *)
(* internal/platform/windows/processes_windows.go:47-69 TerminateProcess *)
Definition TerminateProcess (pid startTimeUnixMS : Z) : OsM unit :=
  mstmt OsFailed (λ h, (if is_null (ho_procs h !! pid) then Err OsNotFound else Ok tt, h));;
  actualStart ← mstmt OsFailed (λ h, (match ho_procs h !! pid with Some t => Ok t | None => Err OsNotFound end, h));
  if negb (startTimeUnixMS =? 0)%Z && negb (actualStart =? startTimeUnixMS)%Z then mfail OsMismatch
  else
    mstmt OsFailed (λ h, (if is_null (ho_procs h !! pid) then Err OsNotFound else Ok tt, h));;
    mexec OsFailed (on_killed (λ l, l ++ [pid])).

(** As on Linux, only the process the caller saw is ended. *)
Theorem windows_terminate_checks_identity pid start h :
  always (TerminateProcess pid start) (λ r h',
    h' = h ∨ (r = Ok tt ∧ h' = on_killed (λ l, l ++ [pid]) h ∧
              ∃ t, ho_procs h !! pid = Some t ∧ (start = 0%Z ∨ start = t))) h.
Proof.
  unfold TerminateProcess. apply always_mbind, always_mstmt; [by left|].
  destruct (ho_procs h !! pid) as [t|] eqn:E; cbn [is_null fst snd]; [|by left].
  apply always_mbind, always_mstmt; [by left|]. rewrite E. cbn [fst snd].
  destruct (Z.eqb_spec start 0) as [Hs|Hs], (Z.eqb_spec t start) as [Ht|Ht]; cbn [andb negb];
    try (by apply always_mfail; left); (apply always_mbind, always_mstmt; [by left|]; rewrite E; cbn [is_null fst snd];
      apply always_mexec; [by left|]; right; split_and!; [done..|]; eauto).
Qed.

(** ** The event log *)

(* internal/platform/windows/logs_windows.go:19-36 winEvent *)
Record winEvent : Type := mkWinEvent {
  we_Provider : string; we_Level : string; we_SystemTime : string; we_Channel : string; we_Message : string;
  we_Data : list string }.

(* internal/platform/windows/logs_windows.go:109-120 winLevelFilter *)
Definition winLevelFilter (level : string) : string :=
  if String.eqb level "error" then "2" else if String.eqb level "warning" then "3"
  else if String.eqb level "info" then "4" else "".
(* internal/platform/windows/logs_windows.go:122-133 levelFromWinLevel *)
Definition levelFromWinLevel (level : string) : string :=
  if bool_decide (level ∈ ["1"; "2"]%string) then "error"
  else if String.eqb level "3" then "warning"
  else if bool_decide (level ∈ ["4"; "0"]%string) then "info" else "unknown".
(* internal/platform/windows/logs_windows.go:143-150 firstNonEmpty *)
Fixpoint firstNonEmpty (vals : list string) : string :=
  match vals with
  | [] => ""
  | v :: rest => if String.eqb v "" then firstNonEmpty rest else v
  end.

Section logs.
(** [t.UTC().Format(time.RFC3339)], [time.Parse] with nanoseconds (zero where
    it fails), [strings.ToLower] and [strings.Contains]. *)
Context (rfc3339 : time → string) (parseTime : string → option time).
Context (ToLower : string → string) (Contains : string → string → bool).

(* internal/platform/windows/logs_windows.go:91-107 buildXPath *)
Definition buildXPath (q : LogQuery) : string :=
  let conds :=
    match lq_Since q with Some t => [("TimeCreated[@SystemTime>='" +:+ rfc3339 t +:+ "']")%string] | None => [] end ++
    match lq_Until q with Some t => [("TimeCreated[@SystemTime<='" +:+ rfc3339 t +:+ "']")%string] | None => [] end ++
    (if String.eqb (winLevelFilter (lq_Level q)) "" then [] else [("Level=" +:+ winLevelFilter (lq_Level q))%string]) in
  match conds with [] => ""%string | _ => ("*[System[" +:+ String.concat " and " conds +:+ "]]")%string end.

(* internal/platform/windows/logs_windows.go:135-141 parseWinTime *)
Definition parseWinTime (zero : time) (s : string) : time := default zero (parseTime s).

(** The tokens of the decoder that start an [Event], with what decoding it
    gave; decoding ends at the first error of the token stream. *)
(* internal/platform/windows/logs_windows.go:155-173 parseEvents *)
Definition parseEvents (elements : list (option winEvent)) : list winEvent := omap (λ e, e) elements.

(* internal/platform/windows/logs_windows.go:50-54 QueryLogs *)
Definition wevtutil_args (q : LogQuery) : list string :=
  let limit := if (lq_Limit q <=? 0)%Z || (5000 <? lq_Limit q)%Z then 500%Z else lq_Limit q in
  ["qe"; "System"; "/c:" +:+ Itoa limit; "/rd:true"; "/f:xml"]%string ++
  (if String.eqb (buildXPath q) "" then [] else ["/q:" +:+ buildXPath q]%string).

Definition event_text (ev : winEvent) : string :=
  if String.eqb (we_Message ev) "" then String.concat " " (we_Data ev) else we_Message ev.
(** [wevtutil] is the decoded output of the command on the arguments. *)
(* internal/platform/windows/logs_windows.go:44-86 QueryLogs *)
Definition QueryLogs (zero : time) (wevtutil : list string → option (list (option winEvent))) (q : LogQuery)
    : res os_error (list LogEntry) :=
  match wevtutil (wevtutil_args q) with
  | None => Err OsFailed
  | Some out =>
      Ok (omap (λ ev,
        if negb (String.eqb (lq_Query q) "") && negb (Contains (ToLower (event_text ev)) (ToLower (lq_Query q))) then None
        else Some (mkLogEntry (parseWinTime zero (we_SystemTime ev)) (levelFromWinLevel (we_Level ev))
                     (firstNonEmpty [we_Provider ev; we_Channel ev]) (event_text ev))) (parseEvents out))
  end.

(** Every entry returned comes from an event of the log, matches the search
    text, and no more entries come back than were asked for when the tool
    keeps to its limit. *)
Theorem query_logs_sound zero wevtutil q entries :
  (∀ args out, wevtutil args = Some out → ∀ n, ("/c:" +:+ Itoa n)%string ∈ args → (Z.of_nat (length out) ≤ n)%Z) →
  QueryLogs zero wevtutil q = Ok entries →
  (Z.of_nat (length entries) ≤ 5000)%Z ∧
  Forall (λ e, lq_Query q = ""%string ∨ Contains (ToLower (le_Message e)) (ToLower (lq_Query q)) = true) entries.
Proof using Type.
  intros Hlimit. unfold QueryLogs. destruct (wevtutil _) as [out|] eqn:Eo; [|done]. intros [= <-]. split.
  - set (limit := if (lq_Limit q <=? 0)%Z || (5000 <? lq_Limit q)%Z then 500%Z else lq_Limit q).
    assert (Z.of_nat (length out) ≤ limit)%Z as Hout.
    { apply (Hlimit _ _ Eo). unfold wevtutil_args. fold limit. apply elem_of_app. left. do 2 right. left. }
    assert (limit ≤ 5000)%Z as H5000.
    { unfold limit. destruct (_ || _) eqn:E; [lia|]. apply orb_false_iff in E as [_ E]. by apply Z.ltb_ge in E. }
    assert (∀ {A B} (f : A → option B) l, length (omap f l) ≤ length l) as Homap.
    { intros A B f l. induction l as [|x l IH]; [done|].
      change (omap f (x :: l)) with (match f x with Some y => y :: omap f l | None => omap f l end).
      destruct (f x); cbn [length]; lia. }
    unfold parseEvents. etransitivity; [|exact H5000]. etransitivity; [|exact Hout]. apply Nat2Z.inj_le.
    etransitivity; apply Homap.
  - apply list.Forall_forall. intros e He. apply list_elem_of_omap in He as (ev & _ & Hev).
    destruct (String.eqb_spec (lq_Query q) "") as [|Hq]; [by left|]. cbn [negb andb] in Hev.
    destruct (Contains _ _) eqn:Ec; cbn [negb] in Hev; [|done]. injection Hev as <-. by right.
Qed.
End logs.

(** Events the console labels "error" are of levels 1 and 2, and those it
    labels "info" of levels 4 and 0; asking for errors or for information
    filters by one level each, so critical errors and level 0 are missing. *)
Theorem level_filter_incomplete :
  levelFromWinLevel "1" = "error"%string ∧ winLevelFilter "error" = "2"%string ∧
  levelFromWinLevel "0" = "info"%string ∧ winLevelFilter "info" = "4"%string.
Proof. split_and!; reflexivity. Qed.

(** ** The support account *)

(** The local accounts: password and membership of the Administrators. *)
Record account : Type := mkAccount { at_Password : string; at_Admin : bool }.
Inductive net_error : Type := NtEntropy | NtAdd | NtGroup | NtSet.
Abbreviation NetM := (M (gmap string account) net_error).

(* internal/platform/windows/support_windows.go:18-18 SupportAccountUsername *)
Definition SupportAccountUsername : string := "remotewartung".

(** [rand] is the random source; any [net] command can fail, and the first
    one's failure counts as an account that does not exist. *)
(* internal/platform/windows/support_windows.go:23-48 EnsureSupportAccount *)
Definition EnsureSupportAccount (rand : supply) : NetM (string * string) :=
  match (Prelude.run (GenerateSupportPassword 14) rand).1 with
  | Err _ => mfail NtEntropy
  | Ok password =>
      known ← mtry (F := net_error) (mstmt NtSet (λ a,
        (if is_null (a !! SupportAccountUsername) then Err NtSet else Ok tt, a)));
      match known with
      | Err _ =>
          mstmt NtAdd (λ a, if is_null (a !! SupportAccountUsername)
            then (Ok tt, <[SupportAccountUsername := mkAccount password false]> a) else (Err NtAdd, a));;
          mexec NtGroup (alter (λ x, mkAccount (at_Password x) true) SupportAccountUsername);;
          mret (SupportAccountUsername, password)
      | Ok _ =>
          mexec NtSet (alter (λ x, mkAccount password (at_Admin x)) SupportAccountUsername);;
          mret (SupportAccountUsername, password)
      end
  end.

(** A password reported to the server is the account's password, no other
    account is touched, and a failure changes nothing or leaves the account
    without administrator rights. *)
Theorem support_password_set rand a :
  always (EnsureSupportAccount rand) (λ r a',
    (∀ k, k ≠ SupportAccountUsername → a' !! k = a !! k) ∧
    match r with
    | Ok (user, password) => user = SupportAccountUsername ∧
        at_Password <$> a' !! user = Some password ∧
        (a !! user = None → at_Admin <$> a' !! user = Some true)
    | Err _ => a' = a ∨ (a !! SupportAccountUsername = None ∧ at_Admin <$> a' !! SupportAccountUsername = Some false)
    end) a.
Proof.
  unfold EnsureSupportAccount. destruct (run _ rand).1 as [pw|e]; [|by apply always_mfail; auto].
  set (user := SupportAccountUsername).
  apply always_mbind, always_mtry, always_mstmt; cbn [fst snd].
  - apply always_mbind, always_mstmt; [by auto|]. destruct (a !! user) as [x|] eqn:Ex; cbn [is_null fst snd]; [by auto|].
    apply always_mbind, always_mexec.
    { split; [intros k Hk; by rewrite lookup_insert_ne|]. right. split; [done|]. by rewrite lookup_insert_eq. }
    apply always_mret. split; [intros k Hk; by rewrite lookup_alter_ne, lookup_insert_ne|].
    rewrite !lookup_alter_eq, lookup_insert_eq. done.
  - destruct (a !! user) as [x|] eqn:Ex; cbn [is_null].
    + apply always_mbind, always_mexec; [by auto|]. apply always_mret.
      split; [intros k Hk; by rewrite lookup_alter_ne|]. rewrite !lookup_alter_eq, Ex. done.
    + apply always_mbind, always_mstmt; [by auto|]. rewrite Ex. cbn [is_null fst snd].
      apply always_mbind, always_mexec.
      { split; [intros k Hk; by rewrite lookup_insert_ne|]. right. split; [done|]. by rewrite lookup_insert_eq. }
      apply always_mret. split; [intros k Hk; by rewrite lookup_alter_ne, lookup_insert_ne|].
      rewrite !lookup_alter_eq, lookup_insert_eq. done.
Qed.

(** Once the account exists without administrator rights, no later call gives
    them to it: where the group command failed after the account was created,
    every rotation reports success for an account that is no administrator. *)
Theorem support_admin_never_granted rand a x :
  a !! SupportAccountUsername = Some x → at_Admin x = false →
  always (EnsureSupportAccount rand) (λ _ a', at_Admin <$> a' !! SupportAccountUsername = Some false) a.
Proof.
  intros Hx Ha. assert (at_Admin <$> a !! SupportAccountUsername = Some false) as Hsame by (rewrite Hx; simpl; by f_equal).
  unfold EnsureSupportAccount. destruct (run _ rand).1 as [pw|e]; [|by apply always_mfail].
  apply always_mbind, always_mtry, always_mstmt; cbn [fst snd].
  - apply always_mbind, always_mstmt; [done|]. rewrite Hx. done.
  - rewrite Hx. cbn [is_null]. apply always_mbind, always_mexec; [done|]. apply always_mret.
    rewrite lookup_alter_eq, Hx. simpl. by rewrite Ha.
Qed.

(** ** The credential store *)

Inductive dp_error : Type := DpDir | DpProtect | DpWrite | DpFinalize | DpRead | DpUnprotect.

Section dpapi.
(** [CryptProtectData] and [CryptUnprotectData] on this machine. *)
Context (protect unprotect : bytes → option bytes) (torn : bytes → bytes) (path : string).
Abbreviation DpM := (M fsys dp_error).

(* internal/agentcore/credstore_windows.go:92-108 Save *)
Definition Save (data : bytes) : DpM unit :=
  mexec DpDir (λ fs, fs);;
  match protect data with
  | None => mfail DpProtect
  | Some encrypted =>
      let tmp := (path +:+ ".tmp")%string in
      mwrap (λ _, DpWrite) (AgentUpdate.WriteFile torn tmp encrypted);;
      mwrap (λ _, DpFinalize) (AgentUpdate.Rename tmp path)
  end.
(* internal/agentcore/credstore_windows.go:110-116 Load *)
Definition Load : DpM bytes :=
  encrypted ← mwrap (λ _, DpRead) (AgentUpdate.ReadFile path);
  match unprotect encrypted with Some b => mret b | None => mfail DpUnprotect end.
(* internal/agentcore/credstore_windows.go:118-121 Exists *)
Definition Exists : DpM bool :=
  r ← mtry (F := dp_error) (AgentUpdate.Stat path);
  mret (match r with Ok _ => true | Err _ => false end).

(** The key file is replaced as a whole or not at all, what was saved is what
    a later start loads, and the key itself is on the disk only as the data
    protection API encrypted it. *)
Theorem windows_credential_roundtrip data fs :
  (∀ b c, protect b = Some c → unprotect c = Some b) →
  always (Save data) (λ r fs',
    (∀ p, p ≠ path → p ≠ (path +:+ ".tmp")%string → fs' !! p = fs !! p) ∧
    if is_ok r then (∃ c, protect data = Some c ∧ fs' !! path = Some c) ∧ (run Load fs').1 = Ok data
    else fs' !! path = fs !! path) fs.
Proof using Type.
  intros Hlaw. assert ((path +:+ ".tmp")%string ≠ path) as Hne by by apply append_ne.
  unfold Save. apply always_mbind, always_mexec; [done|]. destruct (protect data) as [c|] eqn:Ec; [|by apply always_mfail].
  assert (∀ x, (∀ p, p ≠ path → p ≠ (path +:+ ".tmp")%string → (<[(path +:+ ".tmp")%string := x]> fs) !! p = fs !! p) ∧
    (<[(path +:+ ".tmp")%string := x]> fs) !! path = fs !! path) as Hkept.
  { intros x. split; intros; by rewrite lookup_insert_ne. }
  cbv zeta. apply always_mbind, always_mwrap. fs_step; [done|apply Hkept|].
  apply always_mwrap. fs_step; [apply Hkept|apply Hkept|].
  rewrite lookup_insert_eq in *. simplify_eq. split.
  - intros p H1 H2. by rewrite lookup_insert_ne, lookup_delete_ne, lookup_insert_ne.
  - split; [by exists d|].
    unfold run, Load, mwrap, AgentUpdate.ReadFile, mbind, M_bind, mstmt. simpl. rewrite lookup_insert_eq. simpl.
    by rewrite (Hlaw _ _ Ec).
Qed.
End dpapi.

Example demo_windows :
  winLevelFilter "warning" = "3"%string ∧
  buildXPath (λ _, "2026-01-01T00:00:00Z"%string) (mkLogQuery "" (Some 0%Z) None "error" 10) =
    "*[System[TimeCreated[@SystemTime>='2026-01-01T00:00:00Z'] and Level=2]]"%string ∧
  (run (RestartService "Spooler" [StopPending; Stopped]) {["Spooler"%string := mkService Running "Print Spooler"]}).1 = Ok tt ∧
  (run (RestartService "Spooler" [StopPending]) {["Spooler"%string := mkService Running "Print Spooler"]}).1 = Err ScStart.
Proof. split_and!; vm_compute; reflexivity. Qed.
