(* ===== verification/HostInfo.v ===== *)
(** What the agent reports about its host: inventory, metrics and network
    counters ([internal/platform/linux/linux.go], [windows/windows.go]), the
    process lists, the journal ([logs_linux.go]) and the terminal's shell
    ([terminal_linux.go]).  The figures come from gopsutil and the kernel,
    which are parameters; the providers select, convert and assemble them. *)
From S2P Require Import Prelude Base64 RateLimit Password AgentRelease Settings Device Messages Help Host LinuxProvider.

(** ** What gopsutil delivers *)

Record partition : Type := mkPartition { pt_Device : string; pt_Mountpoint : string; pt_Fstype : string }.
Record usage : Type := mkUsage { us_Used : Z; us_Total : Z }.
Record iface : Type := mkIface { fa_Name : string; fa_HardwareAddr : string; fa_Addrs : list string }.
Record host_info : Type := mkHostInfo {
  hi_Platform : string; hi_PlatformVersion : string; hi_KernelVersion : string; hi_BootTime : Z; hi_Uptime : Z }.

(** One reading of the host; [None] where a call fails. *)
Record readings : Type := mkReadings {
  rg_hostname : option string;
  rg_info : option host_info;
  rg_cpuModels : option (list string);
  rg_cores : bool → option Z;
  rg_memory : option usage;
  rg_partitions : option (list partition);
  rg_usage : string → option usage;
  rg_ifaces : option (list iface);
  rg_percent : option (list float);
  rg_uptime : option Z;
  rg_counters : option (list (Z * Z)) }.

Inductive info_error : Type := IeHost | IeMemory | IeDisks | IeInterfaces | IeCounters | IeProcesses | IeLogs.

(** ** Removable media *)

(** The trailing digits of a device name, reversed, and what is before. *)
Fixpoint span_digits (r : bytes) : bytes * bytes :=
  match r with
  | c :: rest => if is_digit c then let '(d, b) := span_digits rest in (c :: d, b) else ([], r)
  | [] => ([], [])
  end.
(** [partitionSuffix.ReplaceAllString(name, "")] for [(p?\d+)$]. *)
(* internal/platform/linux/linux.go:24-24 partitionSuffix *)
Definition strip_partition (name : bytes) : bytes :=
  match span_digits (rev name) with
  | ([], _) => name
  | (_, "p"%char :: rest) => rev rest
  | (_, rest) => rev rest
  end.

(** [sysfs] reads a file below [/sys]. *)
(* internal/platform/linux/linux.go:32-43 isRemovableDevice *)
Definition isRemovableDevice (sysfs : string → option bytes) (devicePath : string) : bool :=
  let name := TrimPrefix devicePath "/dev/" in
  if String.eqb name "" || String.eqb name devicePath then false else
  let base := bytes_str (strip_partition (str_bytes name)) in
  match sysfs ("/sys/block/" +:+ base +:+ "/removable")%string with
  | None => false
  | Some data => bool_decide (TrimSpace data = str_bytes "1")
  end.

Inductive drive_type : Type := DriveRemovable | DriveCDROM | DriveRemote | DriveFixed | DriveOther.
(** [windows.GetDriveType] of a root, [None] where the path cannot be encoded. *)
(* internal/platform/windows/windows.go:29-44 isRemovableDrive *)
Definition isRemovableDrive (getDriveType : string → option drive_type) (mountpoint : string) : bool :=
  let root := match list.last (str_bytes mountpoint) with
              | Some c => if Ascii.eqb c "\" then mountpoint else (mountpoint +:+ "\")%string
              | None => mountpoint
              end in
  match getDriveType root with
  | Some (DriveRemovable | DriveCDROM | DriveRemote) => true
  | _ => false
  end.

(** ** Assembling the reports *)

(* internal/platform/linux/linux.go:221-231 isIPv6 *)
Fixpoint isIPv6 (cidr : string) : bool :=
  match cidr with
  | EmptyString => false
  | String c rest => if Ascii.eqb c ":" then true else if Ascii.eqb c "/" then false else isIPv6 rest
  end.

(* internal/platform/windows/windows.go:222-232 isIPv6 *)
Definition windows_isIPv6 : string → bool := isIPv6.

Section assemble.
Context (removable : partition → bool) (family agentVersion : string) (r : readings).

Definition each_disk {A} (f : partition → usage → A) : option (list A) :=
  match rg_partitions r with
  | None => None
  | Some parts => Some (omap (λ p, f p <$> rg_usage r (pt_Mountpoint p)) parts)
  end.

Definition disk_inventory : option (list DiskInfo) :=
  each_disk (λ p u, mkDiskInfo (pt_Mountpoint p) (pt_Fstype p) (us_Used u) (us_Total u) (removable p)).
Definition disk_usage : option (list FilesystemUsage) :=
  each_disk (λ p u, mkFilesystem (pt_Mountpoint p) (us_Used u) (us_Total u) (removable p)).
Definition interface_inventory : option (list InterfaceInfo) :=
  map (λ i, mkInterface (fa_Name i) (fa_HardwareAddr i)
    (filter (λ a, isIPv6 a = false) (fa_Addrs i)) (filter (λ a, isIPv6 a = true) (fa_Addrs i))) <$> rg_ifaces r.

(** Counts and sums the code reads while dropping the error. *)
Definition or_zero (x : option Z) : Z := default 0%Z x.

Definition inventory : res info_error InventoryResponsePayload :=
  match rg_info r with
  | None => Err IeHost
  | Some info =>
      let cpuModel := match rg_cpuModels r with Some (m :: _) => m | _ => "unknown"%string end in
      match disk_inventory with
      | None => Err IeDisks
      | Some disks =>
          match interface_inventory with
          | None => Err IeInterfaces
          | Some interfaces =>
              Ok (mkInventory (default ""%string (rg_hostname r))
                    (mkOSInfo family (hi_Platform info) (hi_PlatformVersion info) (hi_KernelVersion info))
                    (mkCPUInfo cpuModel (or_zero (rg_cores r false)) (or_zero (rg_cores r true)))
                    (match rg_memory r with Some m => us_Total m | None => 0%Z end)
                    disks interfaces agentVersion
                    (Some (wrap64 (hi_BootTime info) * Second)%Z) (wrap64 (hi_Uptime info)))
          end
      end
  end.

Definition metrics : res info_error MetricsReportPayload :=
  match rg_memory r with
  | None => Err IeMemory
  | Some vm =>
      match disk_usage with
      | None => Err IeDisks
      | Some disks =>
          Ok (mkMetricsReport (match rg_percent r with Some (x :: _) => x | _ => S754_zero false end)
                (mkMemory (us_Used vm) (us_Total vm)) disks (wrap64 (or_zero (rg_uptime r))))
      end
  end.

Definition network_counters : res info_error (Z * Z) :=
  match rg_counters r with
  | None => Err IeCounters
  | Some [] => Ok (0%Z, 0%Z)
  | Some (c :: _) => Ok c
  end.
End assemble.

(** The two providers differ in the family they report and in how they tell
    removable media. *)
Section providers.
Context (sysfs : string → option bytes) (getDriveType : string → option drive_type) (agentVersion : string).
Context (r : readings).
Definition on_linux (p : partition) : bool := isRemovableDevice sysfs (pt_Device p).
Definition on_windows (p : partition) : bool := isRemovableDrive getDriveType (pt_Mountpoint p).

(* internal/platform/linux/linux.go:57-111 Inventory *)
Definition linux_Inventory : res info_error InventoryResponsePayload := inventory on_linux "linux" agentVersion r.
(* internal/platform/windows/windows.go:58-112 Inventory *)
Definition windows_Inventory : res info_error InventoryResponsePayload := inventory on_windows "windows" agentVersion r.
(* internal/platform/linux/linux.go:113-141 Metrics *)
Definition linux_Metrics : res info_error MetricsReportPayload := metrics on_linux r.
(* internal/platform/windows/windows.go:114-142 Metrics *)
Definition windows_Metrics : res info_error MetricsReportPayload := metrics on_windows r.
(* internal/platform/linux/linux.go:146-155 NetworkCounters *)
Definition linux_NetworkCounters : res info_error (Z * Z) := network_counters r.
(* internal/platform/windows/windows.go:147-156 NetworkCounters *)
Definition windows_NetworkCounters : res info_error (Z * Z) := network_counters r.
(* internal/platform/linux/linux.go:157-177 diskInventory *)
Definition linux_diskInventory : option (list DiskInfo) := disk_inventory on_linux r.
(* internal/platform/windows/windows.go:158-178 diskInventory *)
Definition windows_diskInventory : option (list DiskInfo) := disk_inventory on_windows r.
(* internal/platform/linux/linux.go:179-198 diskUsageOnly *)
Definition linux_diskUsageOnly : option (list FilesystemUsage) := disk_usage on_linux r.
(* internal/platform/windows/windows.go:180-199 diskUsageOnly *)
Definition windows_diskUsageOnly : option (list FilesystemUsage) := disk_usage on_windows r.
(* internal/platform/linux/linux.go:200-219 interfaceInventory *)
Definition linux_interfaceInventory : option (list InterfaceInfo) := interface_inventory r.
(* internal/platform/windows/windows.go:201-220 interfaceInventory *)
Definition windows_interfaceInventory : option (list InterfaceInfo) := interface_inventory r.
End providers.

(* internal/platform/linux/linux.go:53-55 Capabilities *)
Definition linux_Capabilities : list string :=
  ["metrics"; "inventory"; "terminal"; "files_read"; "files_write"; "systemd"; "processes"; "ssh_tunnel"]%string.
(* internal/platform/windows/windows.go:54-56 Capabilities *)
Definition windows_Capabilities : list string :=
  ["metrics"; "inventory"; "terminal"; "files_read"; "files_write"; "windows_services"; "processes"; "rdp_tunnel"]%string.

(** ** Processes *)

(** [platform.ProcessInfo] *)
(* internal/platform/platform.go:62-69 ProcessInfo *)
Record ProcessInfo : Type := mkProcess {
  pr_PID : Z; pr_Name : string; pr_CPUPercent : float; pr_MemoryRSS : Z; pr_Username : string; pr_StartTime : Z }.
(** A process and what each further call about it gave. *)
Record proc : Type := mkProc {
  px_Pid : Z; px_Name : option string; px_CPU : option float; px_RSS : option Z; px_User : option string;
  px_Created : option Z }.
Definition process_info (p : proc) : ProcessInfo :=
  mkProcess (px_Pid p) (default ""%string (px_Name p)) (default (S754_zero false) (px_CPU p))
    (or_zero (px_RSS p)) (default ""%string (px_User p)) (or_zero (px_Created p)).
Definition list_processes (procs : option (list proc)) : res info_error (list ProcessInfo) :=
  match procs with None => Err IeProcesses | Some l => Ok (map process_info l) end.
(* internal/platform/linux/processes_linux.go:15-42 ListProcesses *)
Definition linux_ListProcesses : option (list proc) → res info_error (list ProcessInfo) := list_processes.
(* internal/platform/windows/processes_windows.go:15-42 ListProcesses *)
Definition windows_ListProcesses : option (list proc) → res info_error (list ProcessInfo) := list_processes.

(** ** The journal *)

(** One line of [journalctl -o json], with its message as printed. *)
(* internal/platform/linux/logs_linux.go:20-26 journalEntry *)
Record journalEntry : Type := mkJournal {
  je_Timestamp : string; je_Message : string; je_Priority : string; je_Identifier : string; je_Unit : string }.

(* internal/platform/linux/logs_linux.go:108-115 firstNonEmpty *)
Fixpoint firstNonEmpty (vals : list string) : string :=
  match vals with
  | [] => ""
  | v :: rest => if String.eqb v "" then firstNonEmpty rest else v
  end.
(* internal/platform/linux/logs_linux.go:100-106 parseJournalTime *)
Definition parseJournalTime (zero : time) (microsSinceEpoch : string) : time :=
  match Atoi microsSinceEpoch with Some us => (us * Microsecond)%Z | None => zero end.

(** [bufio.Scanner] over lines with a buffer of one megabyte: scanning ends
    at the first line that does not fit; a carriage return before the newline
    is dropped, and an empty rest after the last newline is no line. *)
Definition max_line : Z := (1024 * 1024)%Z.
Definition drop_cr (l : bytes) : bytes :=
  match rev l with "013"%char :: rest => rev rest | _ => l end.
Fixpoint scan_from (cur : bytes) (out : bytes) : list bytes :=
  match out with
  | [] => if (max_line <=? Z.of_nat (length cur))%Z then [] else match cur with [] => [] | _ => [drop_cr (rev cur)] end
  | c :: rest =>
      if Ascii.eqb c "010" then
        if (max_line <=? Z.of_nat (length cur))%Z then [] else drop_cr (rev cur) :: scan_from [] rest
      else scan_from (c :: cur) rest
  end.
Definition scan_lines (out : bytes) : list bytes := scan_from [] out.

Section journal.
(** [json.Unmarshal] of a line. *)
Context (unmarshal : bytes → option journalEntry) (zero : time).

(* internal/platform/linux/logs_linux.go:54-68 QueryLogs *)
Definition journal_entries (out : bytes) : list LogEntry :=
  omap (λ line,
    je ← unmarshal line;
    Some (mkLogEntry (parseJournalTime zero (je_Timestamp je)) (levelFromPriority (je_Priority je))
      (firstNonEmpty [je_Unit je; je_Identifier je]) (je_Message je))) (scan_lines out).

(** [journalctl] is the output of the command on the arguments. *)
(* internal/platform/linux/logs_linux.go:28-70 QueryLogs *)
Definition QueryLogs (journalctl : list string → option bytes) (limit : Z) (since until : option string)
    (query level : string) : res info_error (list LogEntry) :=
  match journalctl (journal_args limit since until query level) with
  | None => Err IeLogs
  | Some out => Ok (journal_entries out)
  end.
End journal.

(** ** The shell of a terminal *)

(** [stat] tells whether a path exists. *)
(* internal/platform/linux/terminal_linux.go:36-48 defaultShell *)
Definition defaultShell (SHELL : string) (stat : string → bool) : string :=
  if negb (String.eqb SHELL "") && stat SHELL then SHELL
  else if stat "/bin/bash" then "/bin/bash" else if stat "/bin/sh" then "/bin/sh" else "/bin/sh".

(** The program and environment of a terminal. *)
(* internal/platform/linux/terminal_linux.go:24-34 OpenTerminal *)
Definition terminal_command (SHELL : string) (stat : string → bool) (environ : list string) : string * list string :=
  (defaultShell SHELL stat, environ ++ ["TERM=xterm-256color"%string]).

(** A process group by its leader; the terminal kills the shell's group and
    reaps the shell. *)
Record term_host : Type := mkTermHost { th_group : gmap Z Z; th_open : gset Z }.
Record ptySession : Type := mkPty { ps_shell : Z; ps_pty : Z }.
(* internal/platform/linux/terminal_linux.go:53-55 Resize *)
Definition Resize (cols rows : Z) : Z * Z := (rows mod 2 ^ 16, cols mod 2 ^ 16)%Z.
(* internal/platform/linux/terminal_linux.go:59-66 Close *)
Definition CloseTerminal (s : ptySession) (h : term_host) : term_host :=
  mkTermHost (filter (λ pg, pg.1 ≠ ps_shell s ∧ pg.2 ≠ ps_shell s) (th_group h)) (th_open h ∖ {[ps_pty s]}).

(** ** The disk under a partition *)

Lemma span_digits_app d b :
  forallb is_digit d = true → match b with c :: _ => is_digit c = false | [] => True end → span_digits (d ++ b) = (d, b).
Proof.
  intros Hd Hb. induction d as [|c d IH]; cbn [app span_digits].
  - destruct b as [|c b]; [done|]. simpl. by rewrite Hb.
  - simpl in Hd. apply andb_true_iff in Hd as [Hc Hd]. by rewrite Hc, IH.
Qed.

(** The name of a partition leads to its disk: [sda1] to [sda] where the disk's
    name ends in neither a digit nor a [p], and [nvme0n1p2], [mmcblk0p1] to
    the disk whatever its name. *)
Theorem partition_names_disk base digits :
  digits ≠ [] → forallb is_digit digits = true →
  strip_partition (base ++ "p"%char :: digits) = base ∧
  (match list.last base with Some c => is_digit c = false ∧ c ≠ "p"%char | None => True end →
   strip_partition (base ++ digits) = base).
Proof.
  intros Hne Hd.
  assert (forallb is_digit (rev digits) = true) as Hr.
  { apply forallb_forall. intros x Hx. apply in_rev in Hx. rewrite forallb_forall in Hd. by apply Hd. }
  assert (∃ c rest, rev digits = c :: rest) as (c & rest & Hrev).
  { destruct (rev digits) eqn:E; [|eauto]. apply (f_equal (@rev _)) in E. rewrite rev_involutive in E. done. }
  unfold strip_partition. split.
  - rewrite rev_app_distr. cbn [rev]. rewrite <-!app_assoc. simpl app. rewrite span_digits_app, Hrev by done.
    by rewrite rev_involutive.
  - rewrite <-(rev_involutive base) at 1. intros Hlast. rewrite rev_app_distr.
    destruct (rev base) as [|x b] eqn:Eb.
    + rewrite span_digits_app, Hrev by done. apply (f_equal (@rev _)) in Eb. rewrite rev_involutive in Eb. by subst.
    + simpl in Hlast. rewrite last_snoc in Hlast. destruct Hlast as [Hx Hp].
      rewrite span_digits_app, Hrev by done.
      assert (base = rev (x :: b)) as -> by (by rewrite <-Eb, rev_involutive).
      destruct x as [[] [] [] [] [] [] [] []]; try reflexivity. by destruct Hp.
Qed.

(** Only a disk the kernel calls removable is reported as such. *)
Lemma removable_fail_safe sysfs dev :
  isRemovableDevice sysfs dev = true →
  ∃ data, sysfs ("/sys/block/" +:+ bytes_str (strip_partition (str_bytes (TrimPrefix dev "/dev/"))) +:+ "/removable")%string
    = Some data ∧ TrimSpace data = str_bytes "1".
Proof.
  unfold isRemovableDevice. destruct (_ || _); [done|]. destruct (sysfs _) as [data|]; [|done].
  intros H. exists data. split; [done|]. by apply bool_decide_eq_true in H.
Qed.

(** The number of an optical drive belongs to the disk's own name, but is
    taken for a partition's: the drive counts as fixed whatever the kernel
    says of it. *)
Theorem optical_drive_counts_as_fixed sysfs :
  sysfs "/sys/block/sr/removable"%string = None → isRemovableDevice sysfs "/dev/sr0" = false.
Proof. intros Hs. unfold isRemovableDevice. simpl. vm_compute in Hs |- *. by rewrite Hs. Qed.

(** ** Consistent reports *)

(** Inventory and metrics describe the same file systems. *)
Theorem disk_reports_agree removable r :
  disk_usage removable r =
    map (λ d, mkFilesystem (di_Path d) (di_UsedBytes d) (di_TotalBytes d) (di_Removable d)) <$> disk_inventory removable r.
Proof.
  unfold disk_usage, disk_inventory, each_disk. destruct (rg_partitions r) as [parts|]; [|done]. simpl. f_equal.
  induction parts as [|p parts IH]; [done|].
  destruct (rg_usage r (pt_Mountpoint p)) as [u|] eqn:Eu; simpl; rewrite ?Eu; simpl; [by f_equal|done].
Qed.

(** Every address of an interface is reported, once, in its family. *)
Lemma addresses_partitioned r out :
  interface_inventory r = Some out → ∃ ifaces, rg_ifaces r = Some ifaces ∧
    Forall2 (λ i o, if_Name o = fa_Name i ∧ if_IPv4 o ++ if_IPv6 o ≡ₚ fa_Addrs i ∧
      Forall (λ a, isIPv6 a = true) (if_IPv6 o)) ifaces out.
Proof.
  unfold interface_inventory. destruct (rg_ifaces r) as [ifaces|]; [|done]. intros [= <-]. exists ifaces. split; [done|].
  induction ifaces as [|i ifaces IH]; constructor; [|exact IH]. simpl. split; [done|]. split.
  - clear. induction (fa_Addrs i) as [|a l IHl]; [done|]. rewrite !filter_cons.
    destruct (isIPv6 a) eqn:E; [rewrite decide_False, decide_True by done|rewrite decide_True, decide_False by done].
    + by rewrite <-Permutation_middle, IHl.
    + simpl. by rewrite IHl.
  - apply list.Forall_forall. intros a Ha. by apply list_elem_of_filter in Ha as [? _].
Qed.

(** ** Journal lines *)

Definition line_ok (l : bytes) : Prop :=
  (Z.of_nat (length l) < max_line)%Z ∧ ("010"%char ∉ l) ∧ l ≠ [] ∧ list.last l ≠ Some "013"%char.

Lemma scan_from_line cur l rest :
  "010"%char ∉ l → scan_from cur (l ++ rest) = scan_from (rev l ++ cur) rest.
Proof.
  revert cur. induction l as [|c l IH]; intros cur Hl; [done|]. apply not_elem_of_cons in Hl as [Hc Hl].
  cbn [app scan_from]. destruct (Ascii.eqb_spec c "010") as [->|]; [done|]. rewrite IH by done. simpl. by rewrite <-app_assoc.
Qed.
Lemma drop_cr_plain l : list.last l ≠ Some "013"%char → drop_cr l = l.
Proof.
  intros Hl. unfold drop_cr. destruct (rev l) as [|c r] eqn:E; [done|].
  assert (l = rev r ++ [c]) as -> by (rewrite <-(rev_involutive l), E; done). rewrite last_snoc in Hl.
  destruct c as [[] [] [] [] [] [] [] []]; try reflexivity. by destruct Hl.
Qed.

(** The lines of the journal come back as they were printed. *)
Theorem journal_lines_intact lines :
  Forall line_ok lines → scan_lines (concat (map (λ l, l ++ ["010"%char]) lines)) = lines.
Proof.
  unfold scan_lines. induction 1 as [|l lines (Hlen & Hnl & Hne & Hcr) Hl IH]; [done|]. cbn [map concat].
  rewrite <-app_assoc, scan_from_line by done. rewrite app_nil_r. cbn [app scan_from].
  change (Ascii.eqb "010" "010") with true. cbv iota. rewrite length_rev, (proj2 (Z.leb_gt _ _)) by done.
  rewrite rev_involutive, drop_cr_plain, IH by done. done.
Qed.

(** A line of a megabyte or more ends the list: it and everything after it is
    silently missing. *)
Theorem long_line_truncates l rest :
  "010"%char ∉ l → (max_line ≤ Z.of_nat (length l))%Z → scan_lines (l ++ "010"%char :: rest) = [].
Proof.
  intros Hnl Hlen. unfold scan_lines. rewrite scan_from_line by done. rewrite app_nil_r. cbn [scan_from].
  change (Ascii.eqb "010" "010") with true. cbv iota. by rewrite length_rev, (proj2 (Z.leb_le _ _)).
Qed.

(** ** Closing a terminal *)

(** The shell and all of its process group are gone, the others stay, and the
    terminal's file is closed. *)
Theorem terminal_group_ended s h :
  (∀ pid g, th_group (CloseTerminal s h) !! pid = Some g ↔
     th_group h !! pid = Some g ∧ g ≠ ps_shell s ∧ pid ≠ ps_shell s) ∧
  ps_pty s ∉ th_open (CloseTerminal s h).
Proof.
  split; [|set_solver]. intros pid g. unfold CloseTerminal. cbn [th_group]. rewrite map_lookup_filter_Some. simpl. tauto.
Qed.

Example demo_hostinfo :
  strip_partition (raw "nvme0n1p2") = raw "nvme0n1" ∧ strip_partition (raw "sda1") = raw "sda" ∧
  isIPv6 "fe80::1/64" = true ∧ isIPv6 "10.0.0.1/8" = false ∧ Resize 80 65600 = (64, 80)%Z ∧
  isRemovableDrive (λ r, if String.eqb r "D:\" then Some DriveCDROM else None) "D:" = true ∧
  defaultShell "/bin/zsh" (λ p, String.eqb p "/bin/sh") = "/bin/sh"%string.
Proof. split_and!; vm_compute; reflexivity. Qed.
