(* ===== verification/Server.v ===== *)
(** The HTTP API ([internal/httpapi]): the state all handlers share, the
    environment of one request, and the access checks every protected
    handler starts with.  A handler is a program over the whole server state
    whose early returns are errors carrying the reply that was written. *)
From S2P Require Import Prelude Help Base64 Rbac RateLimit Password AuthStore Sessions Mfa AuthService.
From S2P Require Import Device Enrollment AuditLog Metrics Monitoring Alerting Protocol Messages.
From S2P Require Import Codec Hub Relay RemoteSession AgentRelease Settings Support Customers Config.
From S2P Require Import Notify.

(** ** State *)

Record server : Type := mkServer {
  se_svc : svc_state;
  se_hub : hub;
  se_rs : rs_db;
  se_rules : gmap uuid Rule;
  se_alerts : gmap uuid Alert;
  se_manifest : manifest;
  se_settings : settings;
  se_support : support_db;
  se_customers : gmap uuid Customer;
  se_groups : gmap uuid Group;
  se_notify : notify_db;
  se_audit : audit_db;
  se_enrollLimiter : RateLimiter;
  se_controlLimiter : RateLimiter;
  se_ticketLimiter : RateLimiter }.

Definition se_registry (s : server) : dev_db := hb_registry (se_hub s).
Definition se_authdb (s : server) : auth_db := sv_db (se_svc s).

Definition set_svc (x : svc_state) (s : server) : server :=
  mkServer x (se_hub s) (se_rs s) (se_rules s) (se_alerts s) (se_manifest s) (se_settings s) (se_support s)
    (se_customers s) (se_groups s) (se_notify s) (se_audit s) (se_enrollLimiter s) (se_controlLimiter s) (se_ticketLimiter s).
Definition set_hub (x : hub) (s : server) : server :=
  mkServer (se_svc s) x (se_rs s) (se_rules s) (se_alerts s) (se_manifest s) (se_settings s) (se_support s)
    (se_customers s) (se_groups s) (se_notify s) (se_audit s) (se_enrollLimiter s) (se_controlLimiter s) (se_ticketLimiter s).
Definition set_rs (x : rs_db) (s : server) : server :=
  mkServer (se_svc s) (se_hub s) x (se_rules s) (se_alerts s) (se_manifest s) (se_settings s) (se_support s)
    (se_customers s) (se_groups s) (se_notify s) (se_audit s) (se_enrollLimiter s) (se_controlLimiter s) (se_ticketLimiter s).
Definition set_alerting (rules : gmap uuid Rule) (alerts : gmap uuid Alert) (s : server) : server :=
  mkServer (se_svc s) (se_hub s) (se_rs s) rules alerts (se_manifest s) (se_settings s) (se_support s)
    (se_customers s) (se_groups s) (se_notify s) (se_audit s) (se_enrollLimiter s) (se_controlLimiter s) (se_ticketLimiter s).
Definition set_manifest (x : manifest) (s : server) : server :=
  mkServer (se_svc s) (se_hub s) (se_rs s) (se_rules s) (se_alerts s) x (se_settings s) (se_support s)
    (se_customers s) (se_groups s) (se_notify s) (se_audit s) (se_enrollLimiter s) (se_controlLimiter s) (se_ticketLimiter s).
Definition set_settings (x : settings) (s : server) : server :=
  mkServer (se_svc s) (se_hub s) (se_rs s) (se_rules s) (se_alerts s) (se_manifest s) x (se_support s)
    (se_customers s) (se_groups s) (se_notify s) (se_audit s) (se_enrollLimiter s) (se_controlLimiter s) (se_ticketLimiter s).
Definition set_support (x : support_db) (s : server) : server :=
  mkServer (se_svc s) (se_hub s) (se_rs s) (se_rules s) (se_alerts s) (se_manifest s) (se_settings s) x
    (se_customers s) (se_groups s) (se_notify s) (se_audit s) (se_enrollLimiter s) (se_controlLimiter s) (se_ticketLimiter s).
Definition set_customers (c : gmap uuid Customer) (g : gmap uuid Group) (s : server) : server :=
  mkServer (se_svc s) (se_hub s) (se_rs s) (se_rules s) (se_alerts s) (se_manifest s) (se_settings s) (se_support s)
    c g (se_notify s) (se_audit s) (se_enrollLimiter s) (se_controlLimiter s) (se_ticketLimiter s).
Definition set_notify (x : notify_db) (s : server) : server :=
  mkServer (se_svc s) (se_hub s) (se_rs s) (se_rules s) (se_alerts s) (se_manifest s) (se_settings s) (se_support s)
    (se_customers s) (se_groups s) x (se_audit s) (se_enrollLimiter s) (se_controlLimiter s) (se_ticketLimiter s).
Definition set_audit (x : audit_db) (s : server) : server :=
  mkServer (se_svc s) (se_hub s) (se_rs s) (se_rules s) (se_alerts s) (se_manifest s) (se_settings s) (se_support s)
    (se_customers s) (se_groups s) (se_notify s) x (se_enrollLimiter s) (se_controlLimiter s) (se_ticketLimiter s).
Definition set_limiters (e c t : RateLimiter) (s : server) : server :=
  mkServer (se_svc s) (se_hub s) (se_rs s) (se_rules s) (se_alerts s) (se_manifest s) (se_settings s) (se_support s)
    (se_customers s) (se_groups s) (se_notify s) (se_audit s) e c t.

Definition set_registry (x : dev_db) (s : server) : server := set_hub (on_registry (λ _, x) (se_hub s)) s.
Definition set_authdb (x : auth_db) (s : server) : server := set_svc (set_db x (se_svc s)) s.

(** The alert and customer repositories share the registry by their foreign
    keys. *)
Definition alert_view (s : server) : alert_db := mkAlertDB (se_rules s) (se_alerts s) (se_registry s).
Definition set_alert_view (x : alert_db) (s : server) : server :=
  set_registry (ad_registry x) (set_alerting (ad_rules x) (ad_alerts x) s).
Definition cust_view (s : server) : cust_db := mkCustDB (se_customers s) (se_groups s) (se_registry s).
Definition set_cust_view (x : cust_db) (s : server) : server :=
  set_registry (cd_registry x) (set_customers (cd_customers x) (cd_groups x) s).

(** ** Replies *)

(** The fields of [deviceSummary]. *)
(* internal/httpapi/handlers_devices.go:83-104 deviceSummary *)
Record device_summary : Type := deviceSummary {
  ds_id : uuid; ds_install : uuid; ds_customer : option uuid; ds_group : option uuid; ds_name : string;
  ds_hostname : string; ds_os : string * string * string; ds_arch : string; ds_version : string;
  ds_status : Status; ds_health : Health; ds_reasons : list string; ds_tags : list string;
  ds_seen : option time; ds_ip : string; ds_secure : option bool }.
Definition summary_of (kd : uuid * Device) : device_summary :=
  let d := kd.2 in
  deviceSummary kd.1 (dv_InstallID d) (dv_CustomerID d) (dv_GroupID d) (dv_DisplayName d) (dv_Hostname d)
    (dv_OSFamily d, dv_OSName d, dv_OSVersion d) (dv_Architecture d) (dv_AgentVersion d) (dv_Status d)
    (dv_Health d) (dv_HealthReasons d) (dv_Tags d) (dv_LastSeenAt d) (dv_LastPublicIP d) (dv_TransportSecure d).

(** The entry of a user in the list of users. *)
Record user_item : Type := mkUserItem {
  ui_id : uuid; ui_name : string; ui_display : string; ui_status : UserStatus; ui_mfa : bool;
  ui_created : time; ui_login : option time }.
Definition user_json (ku : uuid * User) : user_item :=
  mkUserItem ku.1 (u_Username ku.2) (u_DisplayName ku.2) (u_Status ku.2) (u_MFARequired ku.2) (u_CreatedAt ku.2)
    (u_LastLoginAt ku.2).

(** An outstanding enrolment token without its hash. *)
(* internal/enrollment/enrollment.go:140-149 TokenSummary *)
Record token_item : Type := TokenSummary {
  ti_id : uuid; ti_name : option string; ti_customer : option uuid; ti_reusable : bool; ti_uses : Z;
  ti_used : option time; ti_expires : time; ti_created : time }.
Definition token_json (kt : uuid * EnrollmentToken) : token_item :=
  TokenSummary kt.1 (et_DisplayName kt.2) (et_CustomerID kt.2) (et_IsReusable kt.2) (et_UseCount kt.2)
    (et_LastUsedAt kt.2) (et_ExpiresAt kt.2) (et_CreatedAt kt.2).

(** What a successful reply carries. *)
Inductive Data : Type :=
| DNone
| DState (state : string)
| DCount (n : Z)
| DText (fields : list (string * string))
| DDevices (items : list device_summary) (total page pageSize : Z)
| DDevice (d : device_summary) (online : bool) (support : option (option time))
| DHealth (h : Health) (reasons : list string)
| DIPHistory (l : list IPHistoryEntry) (windowHours : Z)
| DMetrics (l : list MetricsRow)
| DMetricsHourly (l : list (time * HourlyRow))
| DNetwork (l : list (time * list (Z * float)))
| DUsage (l : list DeviceNetworkTotal) (since : time) (hours : Z)
| DAudit (l : list AuditRow)
| DCsv (records : list (list string))
| DChain (v : ChainVerification)
| DSession (id : uuid) (s : RemoteSession)
| DPrivilege (id : uuid) (validUntil : time)
| DTunnel (tunnel session : uuid) (ticket : string) (expiresAt : time)
| DCommand (data : bytes)
| DUpload (bytes_ : Z)
| DDownload (length : option Z) (chunks : list bytes) (complete : bool)
| DStream (out : list bytes)
| DRules (l : list (uuid * Rule))
| DRule (r : uuid * Rule)
| DAlerts (l : list (uuid * Alert))
| DUsers (l : list user_item)
| DMe (id : uuid) (username displayName : string) (permissions : list string) (mfa : bool) (expires : time)
    (baseURL : string) (advisories : list Advisory) (version : string)
| DNewUser (id : uuid) (username password : string)
| DEnrollments (l : list token_item)
| DEnrollment (id : uuid) (token : string) (expiresAt : time)
| DEnrolled (device : uuid)
| DCustomers (l : list (uuid * Customer))
| DCustomer (c : uuid * Customer)
| DGroups (l : list (uuid * Group))
| DGroup (g : uuid * Group)
| DMaintenance (l : list (uuid * Maintenance))
| DReleases (l : list Release)
| DRelease (r : Release)
| DSync (r : SyncResult)
| DRetention (rawHours hourlyHours : Z)
| DTelegram (st : option (string * time))
| DCredential (c : SupportCredential).

(** Status, error code (empty on success) and data; the message text of an
    error is left out. *)
Record Reply : Type := mkReply { ry_Status : Z; ry_Code : string; ry_Data : Data }.
Definition refuse (status : Z) (code : string) : Reply := mkReply status code DNone.
Definition answer (d : Data) : Reply := mkReply 200 "" d.
Definition created_ (d : Data) : Reply := mkReply 201 "" d.

Abbreviation H := (M server Reply).
(** The reply a finished handler wrote. *)
Definition reply_of (r : res Reply Reply) : Reply := match r with Ok x => x | Err x => x end.

(** ** One request *)

(** What a request draws from its surroundings: clock readings before and
    after a wait, the client address, fresh ids and random bytes, the agent's
    answer to a session request, what other goroutines do to the server
    during the [n]-th wait and whether that wait times out. *)
Record env : Type := mkEnv {
  en_now : time;
  en_later : time;
  en_ip : string;
  en_mid : nat → string;
  en_id : nat → uuid;
  en_rnd : nat → option bytes;
  en_auditID : nat → Z;
  en_ask : Ask;
  en_others : nat → server → server;
  en_deadline : nat → bool }.

(** Code outside the repository that handlers reach: PostgreSQL's column
    types and collations, [encoding/json] of audit metadata, the texts of two
    kinds of errors, RFC 3339 parsing and [time.ParseDuration] of a whole number of hours, the
    signature check, and the number under a key of a JSON object, as an [int64]. *)
Class Backend : Type := {
  be_inet : string → option string;
  be_jsonb : bytes → option bytes;
  be_meta : list (string * string) → option bytes;
  be_citext : string → string → bool;
  be_ilike : string → string → bool;
  be_collate : string → string → bool;
  be_rule_le : uuid * Rule → uuid * Rule → bool;
  be_enrollText : enroll_error → string;
  be_syncText : list sync_error → string;
  be_parseTime : string → option time;
  be_parseHours : string → option duration;
  be_verify : bytes → bytes → bytes → bool;
  be_number : bytes → string → option Z }.

(* internal/httpapi/handlers.go:29-54 handlers *)
Record handlers : Type := mkHandlers {
  h_cfg : ServerConfig;
  h_svc : Service;
  h_version : string;
  h_help : list Section_ }.

(** Calls into the components. *)
Definition via {T E A} (get : server → T) (set : T → server → server) (f : E → Reply) (m : M T E A) : H A :=
  mwrap f (mzoom get set m).
Definition try_via {T E A} (get : server → T) (set : T → server → server) (m : M T E A) : H (res E A) :=
  mtry (mzoom get set m).
Definition drop_via {T E A} (get : server → T) (set : T → server → server) (m : M T E A) : H unit :=
  mignore (mzoom get set m).
Definition look {A} (f : server → A) : H A := mstate (λ s, (f s, s)).
Definition when (b : bool) (r : Reply) : H unit := if b then mfail r else mret tt.

Definition not_permitted : Reply := refuse 403 "permission_denied".
Definition bad_request : Reply := refuse 400 "invalid_request".
Definition internal : Reply := refuse 500 "internal_error".

Section access.
Context `{UuidText, Backend}.

(* internal/audit/audit.go:52-52 ActorUser *)
Definition ActorUser : string := "user".
(* internal/audit/audit.go:53-53 ActorAgent *)
Definition ActorAgent : string := "agent".
(* internal/audit/audit.go:60-60 ResultSuccess *)
Definition ResultSuccess : string := "success".
(* internal/audit/audit.go:61-61 ResultFailure *)
Definition ResultFailure : string := "failure".

Definition user_event (cx : authctx) (e : env) (ty result : string) (dev sess cust : option uuid)
    (meta : list (string * string)) : Event :=
  mkEvent ActorUser (Some (cx_User cx).1) sess dev cust ty result (en_ip e) None (be_meta meta).

(** [_ = h.audit.Record(...)], the [n]-th of the request. *)
Definition audit (e : env) (n : nat) (ev : Event) : H unit :=
  drop_via se_audit set_audit (Record_ be_inet be_jsonb ev (en_auditID e n) (en_now e)).

(** [uuid.Parse] of a path value. *)
Definition path_id (s : string) : H uuid :=
  match uuid_parse s with Some id => mret id | None => mfail bad_request end.

(* internal/httpapi/handlers_devices.go:18-20 deviceResource *)
Definition deviceResource (d : Device) : Resource := mkResource (dv_CustomerID d) (dv_GroupID d).

(** The check most global handlers open with. *)
Definition require_any (cx : authctx) (permission : string) : H unit :=
  when (negb (HasAnyGrant (cx_Grants cx) permission)) not_permitted.

Definition load_device (idstr : string) : H (uuid * Device) :=
  id ← path_id idstr;
  via se_registry set_registry (λ _, refuse 404 "resource_not_found") (Device.GetByID id).

(* internal/httpapi/handlers_devices.go:106-123 loadDeviceWithAccess *)
Definition loadDeviceWithAccess (cx : authctx) (idstr permission : string) : H (uuid * Device) :=
  '(id, d) ← load_device idstr;
  when (negb (HasPermission (cx_Grants cx) permission (deviceResource d))) not_permitted;;
  mret (id, d).

(* internal/httpapi/handlers_sessions.go:76-97 loadSessionWithAccess *)
Definition loadSessionWithAccess (cx : authctx) (idstr : string) : H (uuid * RemoteSession) :=
  id ← path_id idstr;
  '(_, sess) ← via se_rs set_rs (λ _, refuse 404 "resource_not_found") (GetSession id);
  dr ← try_via se_registry set_registry (Device.GetByID (rs_DeviceID sess));
  let isOwner := (rs_UserID sess =? (cx_User cx).1)%N in
  let isAdmin := match dr with
                 | Ok (_, d) => HasPermission (cx_Grants cx) PermDeviceManage (deviceResource d)
                 | Err _ => false
                 end in
  when (negb isOwner && negb isAdmin) not_permitted;;
  mret (id, sess).

(** [h.auth.ConsumeReauth]: an error counts as not valid. *)
Definition consume_reauth (cx : authctx) (e : env) (reauthID : string) : H unit :=
  v ← try_via se_authdb set_authdb (ConsumeReauth (cx_User cx).1 reauthID (en_now e));
  match v with
  | Ok true => mret tt
  | _ => mfail (refuse 403 "privilege_required")
  end.
End access.
