(* ===== verification/HttpDevices.v ===== *)
(** The device, metrics and audit endpoints
    ([internal/httpapi/handlers_devices.go]). *)
From S2P Require Import Prelude Base64 Rbac RateLimit Password AuthStore Sessions Mfa AuthService.
From S2P Require Import Device Enrollment AuditLog Metrics Monitoring Alerting Protocol Messages.
From S2P Require Import Codec Hub Relay RemoteSession AgentRelease Settings Support Customers Config.
From S2P Require Import Notify Server.

(** ** Query parameters *)

Definition status_of (s : string) : option Status :=
  if String.eqb s "unknown" then Some StatusUnknown
  else if String.eqb s "online" then Some StatusOnline
  else if String.eqb s "connection_lost" then Some StatusConnectionLost
  else if String.eqb s "offline" then Some StatusOffline
  else if String.eqb s "revoked" then Some StatusRevoked else None.
Definition health_of (s : string) : option Health :=
  if String.eqb s "healthy" then Some HealthHealthy
  else if String.eqb s "warning" then Some HealthWarning
  else if String.eqb s "critical" then Some HealthCritical
  else if String.eqb s "offline" then Some HealthOffline
  else if String.eqb s "unknown" then Some HealthUnknown else None.

(** The query of the device list, every parameter as its text (empty where
    absent). *)
Record device_query : Type := mkDeviceQuery {
  dq_status : string; dq_health : string; dq_tag : string; dq_q : string;
  dq_customer : string; dq_group : string; dq_page : string; dq_pageSize : string }.

(** The query of the metrics endpoints. *)
Record metrics_query : Type := mkMetricsQuery { mq_resolution : string; mq_from : string; mq_to : string }.

(** The query of the audit endpoints. *)
Record audit_query : Type := mkAuditQuery {
  aq_event : string; aq_actor : string; aq_device : string; aq_from : string; aq_to : string; aq_format : string }.

(* internal/httpapi/handlers_devices.go:140-145 patchDeviceRequest *)
Record patchDeviceRequest : Type := mkPatchRequest {
  pr_DisplayName : option string;
  pr_CustomerID : option string;
  pr_GroupID : option string;
  pr_Tags : option (list string) }.

(** ** Renderings *)

Definition fzero : float := S754_zero false.
(** [float64(bytes) / p.IntervalSeconds], 0 for an interval that is not
    positive. *)
Definition rate (interval : float) (n : Z) : float :=
  if SFleb interval fzero then fzero else SFdiv 53 1024 (float64 n) interval.

(* internal/httpapi/handlers_devices.go:292-310 networkPointJSON *)
Definition networkPointJSON (observed : time) (interval : float) (sent recv sentCtl recvCtl : Z)
    : time * list (Z * float) :=
  (observed, [(sent, rate interval sent); (recv, rate interval recv);
              (sentCtl, rate interval sentCtl); (recvCtl, rate interval recvCtl)]).
Definition raw_point (r : NetMetricsRow) : time * list (Z * float) :=
  networkPointJSON (nm_ObservedAt r) (nm_IntervalSeconds r) (nm_BytesSentTotal r) (nm_BytesRecvTotal r)
    (nm_BytesSentControl r) (nm_BytesRecvControl r).
Definition hourly_point (r : time * NetHourlyRow) : time * list (Z * float) :=
  networkPointJSON r.1 (nh_SumIntervalSeconds r.2) (nh_SumBytesSentTotal r.2) (nh_SumBytesRecvTotal r.2)
    (nh_SumBytesSentControl r.2) (nh_SumBytesRecvControl r.2).

Section devices.
Context `{UuidText, Backend, !Json Envelope, !Json InventoryRequestPayload}.
Implicit Types (cx : authctx) (e : env).

(** An optional id in a query or body: absent when empty. *)
Definition optional_id (s : string) : H (option uuid) :=
  if String.eqb s "" then mret None else id ← path_id s; mret (Some id).

(** ** Listing and reading *)

Definition in_scope (cx : authctx) (permission : string) (kd : uuid * Device) : bool :=
  HasPermission (cx_Grants cx) permission (deviceResource kd.2).

(** An unknown status or health matches no row. *)
Definition filter_known (q : device_query) : bool :=
  (String.eqb (dq_status q) "" || negb (is_null (status_of (dq_status q)))) &&
  (String.eqb (dq_health q) "" || negb (is_null (health_of (dq_health q)))).

(* internal/httpapi/handlers_devices.go:22-81 handleListDevices *)
Definition handleListDevices cx (q : device_query) : H Reply :=
  require_any cx PermDeviceRead;;
  customerID ← optional_id (dq_customer q);
  groupID ← optional_id (dq_group q);
  let f := mkFilter (status_of (dq_status q)) (health_of (dq_health q)) customerID groupID (dq_tag q) (dq_q q)
             (if String.eqb (dq_page q) "" then 0%Z else Atoi_value (dq_page q))
             (if String.eqb (dq_pageSize q) "" then 0%Z else Atoi_value (dq_pageSize q)) in
  '(found, n) ← via se_registry set_registry (λ _, internal) (Device.List be_ilike be_collate f);
  let '(rows, total) := if filter_known q then (found, n) else ([], 0%Z) in
  let visible :=
    if HasPermission (cx_Grants cx) PermDeviceRead GlobalResource then rows
    else List.filter (in_scope cx PermDeviceRead) rows in
  mret (answer (DDevices (map summary_of visible) total (lf_Page f) (lf_PageSize f))).

(* internal/httpapi/handlers_devices.go:125-138 handleGetDevice *)
Definition handleGetDevice cx (id : string) : H Reply :=
  '(id, d) ← loadDeviceWithAccess cx id PermDeviceRead;
  online ← look (λ s, IsOnline id (se_hub s));
  st ← try_via se_support set_support (GetSupportStatus id);
  mret (answer (DDevice (summary_of (id, d)) online (match st with Ok x => Some x | Err _ => None end))).

(** [*req.X] as a patch of a nullable reference: the empty string clears it. *)
Definition patch_id (v : option string) : H (option (option uuid)) :=
  match v with
  | None => mret None
  | Some s => if String.eqb s "" then mret (Some None) else id ← path_id s; mret (Some (Some id))
  end.

(* internal/httpapi/handlers_devices.go:147-191 handlePatchDevice *)
Definition handlePatchDevice cx e (id : string) (body : option patchDeviceRequest) : H Reply :=
  '(id, d) ← loadDeviceWithAccess cx id PermDeviceManage;
  match body with
  | None => mfail bad_request
  | Some req =>
      customer ← patch_id (pr_CustomerID req);
      group ← patch_id (pr_GroupID req);
      via se_registry set_registry (λ _, internal)
        (Patch id (mkPatch (pr_DisplayName req) customer group (pr_Tags req) None));;
      audit e 0 (user_event cx e "device.updated" ResultSuccess (Some id) None None []);;
      mret (answer (DState "updated"))
  end.

(* internal/httpapi/handlers_devices.go:193-203 handleStatusRequest *)
Definition handleStatusRequest cx e (id : string) : H Reply :=
  '(id, _) ← loadDeviceWithAccess cx id PermDeviceRead;
  via se_hub set_hub (λ _, refuse 409 "device_busy") (RequestInventory id (en_mid e 0) (en_now e));;
  mret (answer (DState "requested")).

Definition history_window (hours : string) : duration :=
  match Atoi hours with
  | Some h => if (0 <? h)%Z && (h <=? 24 * 30)%Z then (h * Hour)%Z else (24 * Hour)%Z
  | None => (24 * Hour)%Z
  end.

(* internal/httpapi/handlers_devices.go:205-222 handleDeviceIPHistory *)
Definition handleDeviceIPHistory cx e (id hours : string) : H Reply :=
  '(id, _) ← loadDeviceWithAccess cx id PermMonitoringRead;
  let window := history_window hours in
  history ← via se_registry set_registry (λ _, internal) (RecentIPHistory id window (en_now e));
  mret (answer (DIPHistory history (whole_hours window))).

(* internal/httpapi/handlers_devices.go:224-230 handleDeviceHealth *)
Definition handleDeviceHealth cx (id : string) : H Reply :=
  '(_, d) ← loadDeviceWithAccess cx id PermMonitoringRead;
  mret (answer (DHealth (dv_Health d) (dv_HealthReasons d))).

Definition query_time (v : string) : option time := if String.eqb v "" then None else be_parseTime v.

(** The time range of a metrics query: an unparsable bound is ignored, and
    the default start is counted from now. *)
Definition metrics_range (q : metrics_query) (now : time) : time * time :=
  let window := if String.eqb (mq_resolution q) "hourly" then (30 * 24 * Hour)%Z else (24 * Hour)%Z in
  (default (now - window)%Z (query_time (mq_from q)), default now (query_time (mq_to q))).

(* internal/httpapi/handlers_devices.go:232-284 handleDeviceMetrics *)
Definition handleDeviceMetrics cx e (id : string) (q : metrics_query) : H Reply :=
  '(id, _) ← loadDeviceWithAccess cx id PermMonitoringRead;
  let '(from, to) := metrics_range q (en_now e) in
  if String.eqb (mq_resolution q) "hourly" then
    points ← via se_registry set_registry (λ _, internal) (HourlyMetrics id from to 1000);
    mret (answer (DMetricsHourly points))
  else
    points ← via se_registry set_registry (λ _, internal) (RecentMetrics id from to 1000);
    mret (answer (DMetrics points)).

(* internal/httpapi/handlers_devices.go:312-356 handleDeviceNetworkMetrics *)
Definition handleDeviceNetworkMetrics cx e (id : string) (q : metrics_query) : H Reply :=
  '(id, _) ← loadDeviceWithAccess cx id PermMonitoringRead;
  let '(from, to) := metrics_range q (en_now e) in
  if String.eqb (mq_resolution q) "hourly" then
    points ← via se_registry set_registry (λ _, internal) (HourlyNetworkMetrics id from to 1000);
    mret (answer (DNetwork (map hourly_point points)))
  else
    points ← via se_registry set_registry (λ _, internal) (RecentNetworkMetrics id from to 1000);
    mret (answer (DNetwork (map raw_point points))).

(* internal/httpapi/handlers_devices.go:362-392 handleNetworkUsageSummary *)
Definition handleNetworkUsageSummary cx e (hours : string) : H Reply :=
  require_any cx PermMonitoringRead;;
  let n := match (if String.eqb hours "" then None else be_parseHours hours) with
           | Some d => if (0 <? d)%Z then whole_hours d else 24%Z
           | None => 24%Z
           end in
  let since := (en_now e - n * Hour)%Z in
  totals ← via se_registry set_registry (λ _, internal) (NetworkUsageSummary since);
  mret (answer (DUsage totals since n)).

(** ** Revoking and deleting *)

(** [reauth] is the id the decoder found in the body, empty where none. *)
(* internal/httpapi/handlers_devices.go:394-417 handleRevokeDevice *)
Definition handleRevokeDevice cx e (id reauth : string) : H Reply :=
  '(id, _) ← loadDeviceWithAccess cx id PermCredentialRevoke;
  consume_reauth cx e reauth;;
  via se_registry set_registry (λ _, internal) (Device.Revoke id (en_now e));;
  audit e 0 (user_event cx e "device.revoked" ResultSuccess (Some id) None None []);;
  mret (answer (DState "revoked")).

(** [ON DELETE CASCADE] beyond the registry: sessions with their privileges
    and tunnels, maintenance records with their events, alerts and the
    support credential of the device. *)
Definition forget_sessions (id : uuid) (d : rs_db) : rs_db :=
  let gone := λ (k : uuid), match rd_maintenance d !! k with
                            | Some m => (mn_DeviceID m =? id)%N | None => false end in
  mkRsDB (delete_where (λ _ s, (rs_DeviceID s =? id)%N) (rd_sessions d))
    (delete_where (λ _ p, (pv_DeviceID p =? id)%N) (rd_privileges d))
    (delete_where (λ _ t, (tn_DeviceID t =? id)%N) (rd_tunnels d))
    (delete_where (λ k _, gone k) (rd_maintenance d))
    (List.filter (λ ev, negb (gone (me_SessionID ev))) (rd_events d))
    (rd_broker d) (rd_calls d).
Definition forget_device (id : uuid) (s : server) : server :=
  set_support (delete id (se_support s))
    (set_alerting (se_rules s) (delete_where (λ _ a, (al_DeviceID a =? id)%N) (se_alerts s))
      (set_rs (forget_sessions id (se_rs s)) s)).

(* internal/httpapi/handlers_devices.go:427-458 handleDeleteDevice *)
Definition handleDeleteDevice cx e (id reauth : string) : H Reply :=
  '(id, d) ← loadDeviceWithAccess cx id PermCredentialRevoke;
  when (negb (is_null (dv_LastSeenAt d))) (refuse 409 "has_history");;
  consume_reauth cx e reauth;;
  via se_registry set_registry
    (λ err, match err with DevHasHistory => refuse 409 "has_history" | _ => internal end) (Device.Delete id);;
  mstate (λ s, (tt, forget_device id s));;
  audit e 0 (user_event cx e "device.deleted" ResultSuccess (Some id) None None [("display_name", dv_DisplayName d)%string]);;
  mret (answer (DState "deleted")).

(** ** The audit log *)

(** A zero time is how the filter says "no bound". *)
(* internal/httpapi/handlers_devices.go:463-490 parseAuditFilter *)
Definition parseAuditFilter (q : audit_query) : H Filter :=
  let actor := if String.eqb (aq_actor q) "" then None else uuid_parse (aq_actor q) in
  dev ← optional_id (aq_device q);
  mret (mkAuditFilter actor dev (aq_event q) (query_time (aq_from q)) (query_time (aq_to q)) 0).

(* internal/httpapi/handlers_devices.go:492-517 handleAuditLog *)
Definition handleAuditLog cx e (q : audit_query) : H Reply :=
  require_any cx PermAuditRead;;
  f ← parseAuditFilter q;
  entries ← via se_audit set_audit (λ _, internal) (AuditLog.List f (en_now e));
  mret (answer (DAudit entries)).

(* internal/httpapi/handlers_devices.go:571-576 uuidOrEmpty *)
Definition uuidOrEmpty (id : option uuid) : string := match id with Some u => uuid_string u | None => "" end.

(** The records handed to the CSV writer: the header and one per entry. *)
(* internal/httpapi/handlers_devices.go:554-561 handleExportAuditLog *)
Definition csv_records (entries : list AuditRow) : list (list string) :=
  ["id"; "occurred_at"; "actor_type"; "actor_id"; "device_id"; "customer_id"; "event_type"; "result";
   "source_ip"; "metadata"]%string ::
  map (λ r, let f := ar_Fields r in
    [Itoa (ar_ID r); bytes_str (RFC3339Nano (cf_OccurredAt f - cf_OccurredAt f mod Second)); cf_ActorType f;
     uuidOrEmpty (cf_ActorID f); uuidOrEmpty (cf_DeviceID f); uuidOrEmpty (cf_CustomerID f); cf_EventType f;
     cf_Result f; cf_SourceIP f; bytes_str (cf_MetadataJSON f)]) entries.

(* internal/httpapi/handlers_devices.go:523-569 handleExportAuditLog *)
Definition handleExportAuditLog cx e (q : audit_query) : H Reply :=
  require_any cx PermAuditRead;;
  f ← parseAuditFilter q;
  entries ← via se_audit set_audit (λ _, internal)
    (AuditLog.List (mkAuditFilter (fl_ActorID f) (fl_DeviceID f) (fl_EventType f) (fl_From f) (fl_To f) 1000)
       (en_now e));
  audit e 0 (user_event cx e "audit.exported" ResultSuccess None None None
    [("format", aq_format q); ("count", Itoa (Z.of_nat (length entries)))]%string);;
  mret (answer (if String.eqb (aq_format q) "csv" then DCsv (csv_records entries) else DAudit entries)).

(* internal/httpapi/handlers_devices.go:582-604 handleVerifyAuditChain *)
Definition handleVerifyAuditChain cx e : H Reply :=
  require_any cx PermAuditRead;;
  result ← via se_audit set_audit (λ _, internal) VerifyChain;
  audit e 0 (user_event cx e "audit.chain_verified" (if cv_Valid result then ResultSuccess else ResultFailure)
    None None None
    [("valid", if cv_Valid result then "true" else "false"); ("entries_checked", Itoa (cv_EntriesCheck result))]%string);;
  mret (answer (DChain result)).

(* internal/httpapi/handlers_devices.go:606-617 handleDeviceAuditLog *)
Definition handleDeviceAuditLog cx e (id : string) : H Reply :=
  '(id, _) ← loadDeviceWithAccess cx id PermAuditRead;
  entries ← via se_audit set_audit (λ _, internal)
    (AuditLog.List (mkAuditFilter None (Some id) "" None None 0) (en_now e));
  mret (answer (DAudit entries)).
End devices.
