(* ===== verification/HttpRemote.v ===== *)
(** Remote access over HTTP: device commands
    ([internal/httpapi/handlers_remote.go]), files ([handlers_files.go]),
    terminal sessions and privileges ([handlers_sessions.go]), tunnels
    ([handlers_tunnels.go]), the support credential ([handlers_support.go])
    and agent updates ([handlers_releases.go]).  Where a handler waits for an
    agent, other goroutines run: [en_others] says what they did. *)
From S2P Require Import Prelude Base64 Rbac RateLimit Password AuthStore Sessions Mfa AuthService.
From S2P Require Import Device Enrollment AuditLog Metrics Monitoring Alerting Protocol Messages.
From S2P Require Import Codec Hub Relay RemoteSession AgentRelease Settings Support Customers Config.
From S2P Require Import Notify Server HttpDevices.

Section remote.
Context `{UuidText, Backend, !Json Envelope, !Json DeviceCommandPayload, !Json CommandResultPayload,
  !Json ServiceActionParams, !Json ProcessTerminateParams, !Json FilesListParams, !Json FilesMkdirParams,
  !Json FilesRenameParams, !Json FilesDeleteParams, !Json FilesDownloadParams, !Json FilesUploadParams,
  !Json LogsQueryParams, !Json AgentUpdateParams}.
Implicit Types (cx : authctx) (e : env).

(** Other goroutines during the [n]-th wait of the request. *)
Definition others e (n : nat) : H unit := mstate (λ s, (tt, en_others e n s)).

(** [hub.SendAndWait]: send, let others run, collect. *)
Definition send_and_wait {P} `{!Json P} e (n : nat) (dev : uuid) (ty : string) (payload : P)
    : H (res hub_error Envelope) :=
  r ← try_via se_hub set_hub
        (ws ← getConn dev; ch ← sendAndWait_start ws ty payload (en_mid e n) (en_now e); mret (ws, ch));
  match r with
  | Err err => mret (Err err)
  | Ok (ws, ch) =>
      others e n;;
      try_via se_hub set_hub (sendAndWait_finish ws (en_mid e n) ch (en_deadline e n))
  end.

(** ** Commands *)

(** [params] is [json.Marshal] of the parameters. *)
(* internal/httpapi/handlers_remote.go:20-50 runCommand *)
Definition runCommand e (dev : uuid) (cmdType : string) (params : option bytes) : H CommandResultPayload :=
  match params with
  | None => mfail internal
  | Some p =>
      r ← send_and_wait e 0 dev TypeDeviceCommand (mkCommand "" cmdType p);
      match r with
      | Err _ => mfail (refuse 409 "device_busy")
      | Ok env_ =>
          match DecodePayload (P := CommandResultPayload) env_ with
          | Err _ => mfail (refuse 502 "internal_error")
          | Ok result =>
              if String.eqb (rp_Status result) "success" then mret result
              else mfail (refuse (if String.eqb (rp_Code result) CodePermissionDenied then 403 else 502)
                            (rp_Code result))
          end
      end
  end.

Definition null_params : option bytes := Some (str_bytes "null").
Definition data_of (r : CommandResultPayload) : Reply := answer (DCommand (default [] (rp_Data r))).

(* internal/httpapi/handlers_remote.go:54-64 handleListServices *)
Definition handleListServices cx e (id : string) : H Reply :=
  '(id, _) ← loadDeviceWithAccess cx id PermDeviceRead;
  r ← runCommand e id CmdServicesList null_params;
  mret (data_of r).

(** From the last slash on. *)
(* internal/httpapi/handlers_remote.go:100-107 lastPathSegment *)
Definition lastPathSegment (path : string) : string :=
  match LastIndexByte "/" (str_bytes path) with
  | Some i => bytes_str (drop (i + 1) (str_bytes path))
  | None => path
  end.

Definition service_command (action : string) : option string :=
  if String.eqb action "start" then Some CmdServiceStart
  else if String.eqb action "stop" then Some CmdServiceStop
  else if String.eqb action "restart" then Some CmdServiceRestart else None.

(* internal/httpapi/handlers_remote.go:66-98 handleServiceAction *)
Definition handleServiceAction cx e (id serviceName path : string) : H Reply :=
  '(id, _) ← loadDeviceWithAccess cx id PermRemoteServiceControl;
  let action := lastPathSegment path in
  match service_command action with
  | None => mfail bad_request
  | Some cmdType =>
      runCommand e id cmdType (json_marshal (mkServiceAction serviceName));;
      audit e 0 (user_event cx e ("service." +:+ action) ResultSuccess (Some id) None None
        [("service", serviceName)%string]);;
      mret (answer (DState "ok"))
  end.

(* internal/httpapi/handlers_remote.go:111-121 handleListProcesses *)
Definition handleListProcesses cx e (id : string) : H Reply :=
  '(id, _) ← loadDeviceWithAccess cx id PermDeviceRead;
  r ← runCommand e id CmdProcessesList null_params;
  mret (data_of r).

Record logs_query : Type := mkLogsRequest {
  lr_query : string; lr_level : string; lr_since : string; lr_until : string; lr_limit : string }.

(* internal/httpapi/handlers_remote.go:125-159 handleQueryLogs *)
Definition handleQueryLogs cx e (id : string) (q : logs_query) : H Reply :=
  '(id, _) ← loadDeviceWithAccess cx id PermRemoteFilesRead;
  let params := mkLogsQuery (lr_query q) (query_time (lr_since q)) (query_time (lr_until q)) (lr_level q)
                  (default 0%Z (Atoi (lr_limit q))) in
  r ← runCommand e id CmdLogsQuery (json_marshal params);
  audit e 0 (user_event cx e "logs.queried" ResultSuccess (Some id) None None []);;
  mret (data_of r).

(** [strconv.ParseInt(s, 10, 32)]. *)
Definition parse_int32 (s : string) : option Z :=
  v ← parse_int s; if (- 2 ^ 31 <=? v)%Z && (v <? 2 ^ 31)%Z then Some v else None.

(** [startTime] is what the decoder found in the body, 0 where nothing. *)
(* internal/httpapi/handlers_remote.go:161-189 handleTerminateProcess *)
Definition handleTerminateProcess cx e (id pid : string) (startTime : Z) : H Reply :=
  '(id, _) ← loadDeviceWithAccess cx id PermRemoteProcessTerminate;
  match parse_int32 pid with
  | None => mfail bad_request
  | Some p =>
      runCommand e id CmdProcessTerminate (json_marshal (mkTerminate p startTime));;
      audit e 0 (user_event cx e "process.terminate" ResultSuccess (Some id) None None [("pid", Itoa p)%string]);;
      mret (answer (DState "ok"))
  end.

(** ** Files *)

(* internal/httpapi/handlers_files.go:98-105 auditFileOp *)
Definition auditFileOp cx e (dev : uuid) (eventType path : string) : H unit :=
  audit e 0 (user_event cx e eventType ResultSuccess (Some dev) None None [("path", path)%string]).

(* internal/httpapi/handlers_files.go:25-40 handleFilesList *)
Definition handleFilesList cx e (id path : string) : H Reply :=
  '(id, _) ← loadDeviceWithAccess cx id PermRemoteFilesRead;
  when (String.eqb path "") bad_request;;
  r ← runCommand e id CmdFilesList (json_marshal (mkFilesList path));
  mret (data_of r).

(* internal/httpapi/handlers_files.go:42-59 handleFilesMkdir *)
Definition handleFilesMkdir cx e (id : string) (body : option string) : H Reply :=
  '(id, _) ← loadDeviceWithAccess cx id PermRemoteFilesWrite;
  let path := default ""%string body in
  when (String.eqb path "") bad_request;;
  runCommand e id CmdFilesMkdir (json_marshal (mkFilesMkdir path));;
  auditFileOp cx e id "file.mkdir" path;;
  mret (answer (DState "ok")).

(* internal/httpapi/handlers_files.go:61-79 handleFilesRename *)
Definition handleFilesRename cx e (id : string) (body : option (string * string)) : H Reply :=
  '(id, _) ← loadDeviceWithAccess cx id PermRemoteFilesWrite;
  let '(from, to) := default (""%string, ""%string) body in
  when (String.eqb from "" || String.eqb to "") bad_request;;
  runCommand e id CmdFilesRename (json_marshal (mkFilesRename from to));;
  auditFileOp cx e id "file.rename" (from +:+ " -> " +:+ to);;
  mret (answer (DState "ok")).

(* internal/httpapi/handlers_files.go:81-96 handleFilesDelete *)
Definition handleFilesDelete cx e (id path : string) : H Reply :=
  '(id, _) ← loadDeviceWithAccess cx id PermRemoteFilesWrite;
  when (String.eqb path "") bad_request;;
  runCommand e id CmdFilesDelete (json_marshal (mkFilesDelete path));;
  auditFileOp cx e id "file.delete" path;;
  mret (answer (DState "ok")).

(** ** Streams *)

Definition set_broker (b : Broker) (s : server) : server := set_rs (on_broker (λ _, b) (se_rs s)) s.
Definition broker {A} (f : Broker → A * Broker) : H A :=
  mstate (λ s, let '(a, b) := f (rd_broker (se_rs s)) in (a, set_broker b s)).
Definition unregister (id : uuid) : H unit := broker (λ b, (tt, Unregister id b)).

(** [stream.Send] on the stream at an address. *)
(* internal/relay/broker.go:28-30 Send *)
Definition stream_send (a : nat) (payload : bytes) : H (res hub_error unit) :=
  st ← look (λ s, br_objects (rd_broker (se_rs s)) !! a);
  match st with
  | Some x => try_via se_hub set_hub (SendBinaryFrame (st_DeviceID x) (st_Kind x) (st_ID x) payload)
  | None => mret (Err HubNotConnected)
  end.

(** A receive from the channel that does not block: a payload, the news that
    it was closed and drained, or nothing yet. *)
Inductive received : Type := Payload (b : bytes) | Closed | NotYet.
(* internal/relay/broker.go:34-36 FromAgent *)
Definition from_agent (a : nat) : H received :=
  broker (λ b,
    match br_objects b !! a with
    | Some x =>
        match st_buffer x with
        | p :: rest => (Payload p, mkBroker (br_streams b) (<[a := set_buffer (λ _, rest) x]> (br_objects b)) (br_panicked b))
        | [] => (if st_closed x then Closed else NotYet, b)
        end
    | None => (NotYet, b)
    end).

(** ** Up- and download *)

(* internal/httpapi/handlers_files.go:23-23 maxUploadBytes *)
Definition maxUploadBytes : Z := (500 * 1024 * 1024)%Z.

(** The number a member of a result's data holds, as an [int64]. *)
(* internal/httpapi/handlers_files.go:241-248 asFloat *)
Definition asFloat (data : option bytes) (key : string) : option Z := data ≫= λ b, be_number b key.

(** The [Content-Length] of the reply; [net/http] drops a negative one. *)
(* internal/httpapi/handlers_files.go:141-143 handleFilesDownload *)
Definition content_length (result : CommandResultPayload) : option Z :=
  n ← asFloat (rp_Data result) "size"; if (n <? 0)%Z then None else Some n.
(** [ResponseWriter.Write] refuses, as a whole, a write that would take the
    body beyond the length announced. *)
Definition over (limit : option Z) (written : Z) : bool :=
  match limit with Some n => (n <? written)%Z | None => false end.
Definition body_bytes (chunks : list bytes) : Z := Z.of_nat (length (concat chunks)).

(** The download loop: at each turn other goroutines run, then either the
    context is done (or the client gone), or a chunk is taken and written. *)
(* internal/httpapi/handlers_files.go:149-165 handleFilesDownload *)
Fixpoint download_loop cx e (dev : uuid) (path : string) (a : nat) (limit : option Z) (turns n : nat) (out : list bytes)
    : H Reply :=
  match turns with
  | O => mret (answer (DDownload limit out false))
  | S turns' =>
      others e n;;
      if en_deadline e n then mret (answer (DDownload limit out false)) else
      r ← from_agent a;
      match r with
      | NotYet => download_loop cx e dev path a limit turns' (S n) out
      | Closed | Payload [] =>
          auditFileOp cx e dev "file.download" path;; mret (answer (DDownload limit out true))
      | Payload chunk =>
          if over limit (body_bytes (out ++ [chunk])) then mret (answer (DDownload limit out false))
          else download_loop cx e dev path a limit turns' (S n) (out ++ [chunk])
      end
  end.

(** [defer h.broker.Unregister(streamID)]: whatever the body did. *)
Definition with_stream (streamID dev : uuid) (kind : byte) (body : nat → H Reply) : H Reply :=
  a ← broker (Register streamID dev kind);
  r ← mtry (body a);
  unregister streamID;;
  mlift r.

(* internal/httpapi/handlers_files.go:110-166 handleFilesDownload *)
Definition handleFilesDownload cx e (id path : string) (turns : nat) : H Reply :=
  '(id, _) ← loadDeviceWithAccess cx id PermRemoteFilesRead;
  when (String.eqb path "") bad_request;;
  let streamID := en_id e 0 in
  with_stream streamID id StreamKindFile (λ a,
    r ← send_and_wait e 0 id TypeDeviceCommand
          (mkCommand "" CmdFilesDownload (default [] (json_marshal (mkFilesDownload path (uuid_string streamID)))));
    match r with
    | Err _ => mfail (refuse 409 "device_busy")
    | Ok env_ =>
        match DecodePayload (P := CommandResultPayload) env_ with
        | Ok result =>
            if negb (String.eqb (rp_Status result) "success") then mfail (refuse 404 "resource_not_found")
            else download_loop cx e id path a (content_length result) turns 1 []
        | Err _ => mfail (refuse 404 "resource_not_found")
        end
    end).

(** The upload loop over the chunks read from the body: [ok] tells whether
    it ended with [io.EOF]; the reader cuts the body off at the limit. *)
(* internal/httpapi/handlers_files.go:201-218 handleFilesUpload *)
Fixpoint upload_loop (a : nat) (chunks : list bytes) (ok : bool) (total : Z) : H Z :=
  match chunks with
  | [] => if ok then mret total else mfail bad_request
  | c :: rest =>
      let n := Z.of_nat (length c) in
      if (maxUploadBytes <? total + n)%Z then
        r ← stream_send a (take (Z.to_nat (maxUploadBytes - total)) c);
        match r with Err _ => mfail (refuse 502 "internal_error") | Ok _ => mfail bad_request end
      else
        r ← stream_send a c;
        match r with
        | Err _ => mfail (refuse 502 "internal_error")
        | Ok _ => upload_loop a rest ok (total + n)%Z
        end
  end.

(** The end of an upload: the waiter for the agent's confirmation is
    registered after the end marker was sent. *)
(* internal/httpapi/handlers_files.go:221-233 handleFilesUpload *)
Definition upload_confirmed cx e (id : uuid) (path : string) (streamID : uuid) (total : Z) : H Reply :=
  others e 1;;
  w ← try_via se_hub set_hub (ws ← getConn id; ch ← waitForID_start ws (uuid_string streamID); mret (ws, ch));
  match w with
  | Err _ => mfail (refuse 504 "timeout")
  | Ok (ws, ch) =>
      others e 2;;
      f ← try_via se_hub set_hub (sendAndWait_finish ws (uuid_string streamID) ch (en_deadline e 2));
      match f with
      | Err _ => mfail (refuse 504 "timeout")
      | Ok finalEnv =>
          match DecodePayload (P := CommandResultPayload) finalEnv with
          | Err _ => mfail (refuse 502 "internal_error")
          | Ok final =>
              if negb (String.eqb (rp_Status final) "success") then mfail (refuse 502 "internal_error")
              else
                auditFileOp cx e id "file.upload" (path +:+ " (" +:+ Itoa total +:+ " bytes)");;
                mret (answer (DUpload total))
          end
      end
  end.

(* internal/httpapi/handlers_files.go:170-234 handleFilesUpload *)
Definition handleFilesUpload cx e (id path : string) (chunks : list bytes) (ok : bool) : H Reply :=
  '(id, _) ← loadDeviceWithAccess cx id PermRemoteFilesWrite;
  when (String.eqb path "") bad_request;;
  let streamID := en_id e 0 in
  with_stream streamID id StreamKindFile (λ a,
    r ← send_and_wait e 0 id TypeDeviceCommand
          (mkCommand "" CmdFilesUpload (default [] (json_marshal (mkFilesUpload path (uuid_string streamID)))));
    match r with
    | Err _ => mfail (refuse 409 "device_busy")
    | Ok env_ =>
        match DecodePayload (P := CommandResultPayload) env_ with
        | Err _ => mfail not_permitted
        | Ok ready =>
            if negb (String.eqb (rp_Status ready) "success") then mfail not_permitted else
            total ← upload_loop a chunks ok 0;
            mignore (E := Reply) (stream_send a []);;
            upload_confirmed cx e id path streamID total
        end
    end).
End remote.
