(* ===== verification/HttpSessions.v ===== *)
(** Terminal sessions, privileges and tunnels over HTTP
    ([internal/httpapi/handlers_sessions.go], [handlers_tunnels.go]), the
    support credential ([handlers_support.go]) and agent updates
    ([handlers_releases.go]). *)
From S2P Require Import Prelude Base64 Rbac RateLimit Password AuthStore Sessions Mfa AuthService.
From S2P Require Import Device Enrollment AuditLog Metrics Monitoring Alerting Protocol Messages.
From S2P Require Import Codec Hub Relay RemoteSession AgentRelease Settings Support Customers Config.
From S2P Require Import Notify Server HttpDevices HttpRemote.

(* internal/httpapi/handlers_sessions.go:19-19 terminalSessionTTL *)
Definition terminalSessionTTL : duration := (30 * Minute)%Z.
(* internal/httpapi/handlers_tunnels.go:18-18 tunnelSessionTTL *)
Definition tunnelSessionTTL : duration := (8 * Hour)%Z.

(** What happens on the browser's (or helper's) WebSocket, with its time: a
    binary message, a text message (the decoded resize, if it decodes), or
    the forwarding goroutine taking a payload from the agent, which it
    manages to write or not; in between other goroutines run. *)
Inductive stream_event : Type :=
| WsBinary (data : bytes)
| WsText (resize : option (Z * Z))
| Forward (written : bool)
| Elsewhere (n : nat).

Section sessions.
Context `{UuidText, Backend, !Json Envelope, !Json DeviceCommandPayload, !Json AgentUpdateParams}.
Implicit Types (cx : authctx) (e : env) (h : handlers).

(** ** Sessions *)

(** [kind] is the decoded body's, [None] where decoding failed. *)
(* internal/httpapi/handlers_sessions.go:25-71 handleCreateSession *)
Definition handleCreateSession cx e (id : string) (kind : option string) : H Reply :=
  '(id, d) ← loadDeviceWithAccess cx id PermRemoteTerminal;
  let kind := match kind with
              | Some k => if String.eqb k "" then "terminal"%string else k
              | None => "terminal"%string
              end in
  when (negb (String.eqb kind "terminal")) bad_request;;
  online ← look (λ s, IsOnline id (se_hub s));
  when (negb online) (refuse 409 "device_busy");;
  '(sid, sess) ← via se_rs set_rs
    (λ err, match err with
            | RsDeviceOffline => refuse 502 "device_busy"
            | RsAgentRejected _ => refuse 502 "agent_rejected"
            | _ => refuse 502 "internal_error"
            end)
    (OpenTerminal (en_ask e) (en_id e 0) (en_id e 1) id (cx_User cx).1 (dv_CustomerID d) terminalSessionTTL
       (en_now e) (en_later e));
  broker (Register sid id StreamKindTerminal);;
  audit e 0 (user_event cx e "remote_session.opened" ResultSuccess (Some id) (Some sid) None [("kind", "terminal")%string]);;
  mret (created_ (DSession sid sess)).

(* internal/httpapi/handlers_sessions.go:99-107 handleGetSession *)
Definition handleGetSession cx (id : string) : H Reply :=
  '(id, sess) ← loadSessionWithAccess cx id;
  mret (answer (DSession id sess)).

(* internal/httpapi/handlers_sessions.go:109-130 handleCloseSession *)
Definition handleCloseSession cx e (id : string) : H Reply :=
  '(id, sess) ← loadSessionWithAccess cx id;
  if negb (bool_decide (rs_State sess = StateActive)) then mret (answer (DState "closed")) else
  drop_via se_rs set_rs (CloseSession id sess "admin_closed" (en_now e));;
  unregister id;;
  audit e 0 (user_event cx e "remote_session.closed" ResultSuccess (Some (rs_DeviceID sess)) (Some id) None []);;
  mret (answer (DState "closed")).

(** The two goroutines of a stream until the connection ends or the
    session's deadline passes: what was written to the browser, and the bytes
    that went up and down. *)
(* internal/httpapi/handlers_sessions.go:177-213 handleSessionStream *)
Fixpoint stream_loop e (id : uuid) (sess : RemoteSession) (a : nat) (events : list (time * stream_event))
    (out : list bytes) (up down : Z) : H (list bytes * Z * Z) :=
  match events with
  | [] => mret (out, up, down)
  | (t, ev) :: rest =>
      if (rs_ExpiresAt sess <=? t)%Z then mret (out, up, down) else
      match ev with
      | WsBinary data =>
          mignore (E := Reply) (stream_send a data);;
          stream_loop e id sess a rest out (wrap64 (up + Z.of_nat (length data))) down
      | WsText (Some (cols, rows)) =>
          (if (0 <? cols)%Z && (0 <? rows)%Z then drop_via se_rs set_rs (Resize id sess cols rows) else mret tt);;
          stream_loop e id sess a rest out up down
      | WsText None => stream_loop e id sess a rest out up down
      | Forward written =>
          r ← from_agent a;
          match r with
          | Payload p =>
              if written : bool
              then stream_loop e id sess a rest (out ++ [p]) up (wrap64 (down + Z.of_nat (length p)))
              else stream_loop e id sess a rest out up down
          | _ => stream_loop e id sess a rest out up down
          end
      | Elsewhere n => others e n;; stream_loop e id sess a rest out up down
      end
  end.

Definition still_active (id : uuid) : H bool :=
  r ← try_via se_rs set_rs (GetSession id);
  mret (match r with Ok (_, s) => bool_decide (rs_State s = StateActive) | Err _ => false end).

(** [accepted] tells whether the WebSocket upgrade succeeded; the clean-up
    runs at [en_later]. *)
(* internal/httpapi/handlers_sessions.go:135-228 handleSessionStream *)
Definition handleSessionStream cx e (id : string) (accepted : bool) (events : list (time * stream_event)) : H Reply :=
  '(id, sess) ← loadSessionWithAccess cx id;
  when (negb (bool_decide (rs_State sess = StateActive))) (refuse 409 "session_expired");;
  st ← look (λ s, Relay.Get id (rd_broker (se_rs s)));
  match st with
  | None => mfail (refuse 410 "resource_not_found")
  | Some a =>
      if negb accepted then mfail (refuse 400 "") else
      '(out, _, _) ← stream_loop e id sess a events [] 0 0;
      unregister id;;
      active ← still_active id;
      (if active : bool then
         drop_via se_rs set_rs (CloseSession id sess "browser_disconnected" (en_later e));;
         audit e 0 (mkEvent ActorUser (Some (rs_UserID sess)) (Some id) (Some (rs_DeviceID sess)) None
           "remote_session.closed" ResultSuccess "" None (be_meta [("reason", "browser_disconnected")%string]))
       else mret tt);;
      mret (answer (DStream out))
  end.

(** ** Privileges *)

(* internal/httpapi/handlers_sessions.go:230-233 privilegeRequest *)
Record privilegeRequest : Type := mkPrivilegeRequest { pq_ReauthID : string; pq_DurationSeconds : Z }.

(* internal/httpapi/handlers_sessions.go:235-271 handleGrantPrivilege *)
Definition handleGrantPrivilege h cx e (id : string) (body : option privilegeRequest) : H Reply :=
  '(id, sess) ← loadSessionWithAccess cx id;
  '(_, d) ← via se_registry set_registry (λ _, not_permitted) (Device.GetByID (rs_DeviceID sess));
  when (negb (HasPermission (cx_Grants cx) PermPrivilegeRequest (deviceResource d))) not_permitted;;
  match body with
  | None => mfail bad_request
  | Some req =>
      when (String.eqb (pq_ReauthID req) "") bad_request;;
      consume_reauth cx e (pq_ReauthID req);;
      '(pid, priv) ← via se_rs set_rs (λ _, refuse 409 "invalid_request")
        (GrantPrivilege (en_id e 0) id sess (wrap64 (pq_DurationSeconds req * Second))
           (PrivilegeTTL (Admin (h_cfg h))) "admin_requested" (en_now e));
      audit e 0 (user_event cx e "privilege.granted" ResultSuccess (Some (rs_DeviceID sess)) (Some id) None
        [("privilege_session_id", uuid_string pid)%string]);;
      mret (answer (DPrivilege pid (pv_ValidUntil priv)))
  end.

(* internal/httpapi/handlers_sessions.go:273-293 handleRevokePrivilege *)
Definition handleRevokePrivilege cx e (id : string) : H Reply :=
  '(id, sess) ← loadSessionWithAccess cx id;
  p ← via se_rs set_rs (λ _, refuse 404 "resource_not_found") (ActiveForSession id (en_now e));
  match p with
  | None => mfail (refuse 404 "resource_not_found")
  | Some (pid, priv) =>
      via se_rs set_rs (λ _, internal) (RevokePrivilege pid priv (en_now e));;
      audit e 0 (user_event cx e "privilege.revoked" ResultSuccess (Some (rs_DeviceID sess)) (Some id) None []);;
      mret (answer (DState "revoked"))
  end.

(** ** Tunnels *)

Definition target_of (s : string) : option (TargetType * string) :=
  if String.eqb s "ssh_local" then Some (TargetSSHLocal, PermRemoteTunnelSSH)
  else if String.eqb s "rdp_local" then Some (TargetRDPLocal, PermRemoteTunnelRDP) else None.

(** [target] is the decoded [target_type], [None] where decoding failed. *)
(* internal/httpapi/handlers_tunnels.go:30-101 handleCreateTunnel *)
Definition handleCreateTunnel h cx e (id : string) (target : option string) : H Reply :=
  '(id, d) ← load_device id;
  match target ≫= target_of with
  | None => mfail bad_request
  | Some (targetType, permission) =>
      when (negb (HasPermission (cx_Grants cx) permission (deviceResource d))) not_permitted;;
      online ← look (λ s, IsOnline id (se_hub s));
      when (negb online) (refuse 409 "device_busy");;
      '(sid, _, ticket, tunnelID) ← via se_rs set_rs
        (λ err, match err with
                | RsDeviceOffline => refuse 409 "device_busy"
                | RsAgentRejected _ => refuse 502 "agent_rejected"
                | _ => internal
                end)
        (OpenTunnel (en_ask e) (en_id e 0) (en_id e 1) id (cx_User cx).1 targetType tunnelSessionTTL
           (TicketTTL (RelayCfg (h_cfg h))) (en_rnd e 0) (en_now e) (en_later e));
      broker (Register sid id StreamKindTunnel);;
      audit e 0 (user_event cx e "tunnel.opened" ResultSuccess (Some id) (Some sid) None
        [("target_type", default ""%string target); ("tunnel_id", uuid_string tunnelID)]%string);;
      mret (created_ (DTunnel tunnelID sid ticket (en_later e + TicketTTL (RelayCfg (h_cfg h)))%Z))
  end.

(** A tunnel ignores text messages. *)
Definition no_text (te : time * stream_event) : time * stream_event :=
  (te.1, match te.2 with WsText _ => WsText None | ev => ev end).

(** The public endpoint of [wr-helper]: no session, a single-use ticket. *)
(* internal/httpapi/handlers_tunnels.go:107-202 handleTunnelStream *)
Definition handleTunnelStream e (ticket : string) (accepted : bool) (events : list (time * stream_event)) : H Reply :=
  ok ← mstate (λ s, let '(ok, l) := Allow (se_ticketLimiter s) ("tunnel-stream:" +:+ en_ip e) (en_now e) in
                    (ok, set_limiters (se_enrollLimiter s) (se_controlLimiter s) l s));
  when (negb ok) (refuse 429 "rate_limited");;
  when (String.eqb ticket "") bad_request;;
  '(tid, t) ← via se_rs set_rs (λ _, refuse 401 "ticket_expired") (ConsumeTicket ticket (en_now e));
  '(sid, sess) ← via se_rs set_rs (λ _, refuse 409 "session_expired") (GetSession (tn_RemoteSessionID t));
  when (negb (bool_decide (rs_State sess = StateActive))) (refuse 409 "session_expired");;
  st ← look (λ s, Relay.Get sid (rd_broker (se_rs s)));
  match st with
  | None => mfail (refuse 410 "resource_not_found")
  | Some a =>
      if negb accepted then mfail (refuse 400 "") else
      audit e 0 (mkEvent ActorUser (Some (tn_UserID t)) (Some sid) (Some (tn_DeviceID t)) None "tunnel.connected"
        ResultSuccess (en_ip e) None (be_meta [("tunnel_id", uuid_string tid)%string]));;
      '(out, up, down) ← stream_loop e sid sess a (map no_text events) [] 0 0;
      unregister sid;;
      drop_via se_rs set_rs (UpdateBytes tid up down);;
      drop_via se_rs set_rs (CloseTunnel tid TnClosed);;
      active ← still_active sid;
      (if active : bool then drop_via se_rs set_rs (CloseSession sid sess "helper_disconnected" (en_later e))
       else mret tt);;
      audit e 1 (mkEvent ActorUser (Some (tn_UserID t)) (Some sid) (Some (tn_DeviceID t)) None "tunnel.closed"
        ResultSuccess "" None (be_meta [("tunnel_id", uuid_string tid); ("reason", "helper_disconnected")]%string));;
      mret (answer (DStream out))
  end.

(** ** The support credential *)

Definition may_tunnel (cx : authctx) (d : Device) : bool :=
  HasPermission (cx_Grants cx) PermRemoteTunnelSSH (deviceResource d) ||
  HasPermission (cx_Grants cx) PermRemoteTunnelRDP (deviceResource d).

(* internal/httpapi/handlers_support.go:20-58 handleGetSupportCredential *)
Definition handleGetSupportCredential `{AEAD} h cx e (id : string) : H Reply :=
  '(id, d) ← load_device id;
  when (negb (may_tunnel cx d)) not_permitted;;
  cred ← via se_support set_support
    (λ err, match err with SupportNotFound => refuse 404 "not_found" | _ => internal end)
    (GetSupportCredential (TOTPEncryptionKey (SecretsOf (h_cfg h))) id);
  audit e 0 (user_event cx e "support_credential.revealed" ResultSuccess (Some id) None None []);;
  mret (answer (DCredential cred)).

(* internal/httpapi/handlers_support.go:65-98 handleRotateSupportCredential *)
Definition handleRotateSupportCredential cx e (id : string) : H Reply :=
  '(id, d) ← load_device id;
  when (negb (may_tunnel cx d)) not_permitted;;
  online ← look (λ s, IsOnline id (se_hub s));
  when (negb online) (refuse 409 "device_offline");;
  via se_hub set_hub (λ _, refuse 409 "device_busy")
    (SendMessage id TypeDeviceCommand rotate_command (en_mid e 0) (en_now e));;
  audit e 0 (user_event cx e "support_credential.rotate_requested" ResultSuccess (Some id) None None []);;
  mret (answer (DState "ok")).

(** ** Updating an agent *)

(** [channel] is the decoded body's, empty where there is none. *)
(* internal/httpapi/handlers_releases.go:134-184 handleTriggerDeviceUpdate *)
Definition handleTriggerDeviceUpdate cx e (id channel : string) : H Reply :=
  '(id, d) ← loadDeviceWithAccess cx id PermAgentUpdate;
  online ← look (λ s, IsOnline id (se_hub s));
  when (negb online) (refuse 409 "device_offline");;
  let channel := if String.eqb channel "" then "stable"%string else channel in
  rl ← via se_manifest set_manifest
    (λ err, match err with RelNotFound => refuse 404 "not_found" | _ => internal end)
    (Latest (dv_OSFamily d) (dv_Architecture d) channel);
  when (String.eqb (AgentRelease.rl_Version rl) (dv_AgentVersion d)) (refuse 409 "already_current");;
  via se_hub set_hub (λ _, refuse 409 "device_busy")
    (SendMessage id TypeDeviceCommand
       (mkCommand "" CmdAgentUpdate (default [] (json_marshal (mkUpdateParams (rl_Version rl) (rl_ArtifactURL rl)
          (rl_ArtifactSHA256Hex rl) (rl_SignatureBase64 rl))))) (en_mid e 0) (en_now e));;
  audit e 0 (user_event cx e "agent.update.triggered" ResultSuccess (Some id) None None
    [("target_version", rl_Version rl); ("from_version", dv_AgentVersion d)]%string);;
  mret (answer (DText [("target_version", rl_Version rl)%string])).
End sessions.
