(* ===== verification/HttpAdmin.v ===== *)
(** The administrative endpoints: users, enrolment, customers and groups,
    alerts, settings, releases, help ([internal/httpapi/handlers_recovery.go],
    [handlers_enrollment.go], [handlers_customers.go], [handlers_alerts.go],
    [handlers_settings.go], [handlers_releases.go], [handlers_help.go]).
    Bodies are decoded already: [None] where decoding failed. *)
From S2P Require Import Prelude Help AgentUpdate Base64 Rbac RateLimit Password AuthStore Sessions.
From S2P Require Import Mfa AuthService Device Enrollment AuditLog Metrics Monitoring Alerting Protocol.
From S2P Require Import Messages Codec Hub Relay RemoteSession AgentRelease Settings Support Customers.
From S2P Require Import Config Notify Server HttpDevices.

Definition user_status_of (s : string) : option UserStatus :=
  if String.eqb s "active" then Some UserActive
  else if String.eqb s "disabled" then Some UserDisabled
  else if String.eqb s "locked" then Some UserLocked else None.
(* internal/httpapi/handlers_alerts.go:45-50 handleCreateAlertRule *)
Definition rule_scope_of (s : string) : option RuleScope :=
  if String.eqb s "global" then Some RScopeGlobal
  else if String.eqb s "customer" then Some RScopeCustomer
  else if String.eqb s "group" then Some RScopeGroup
  else if String.eqb s "device" then Some RScopeDevice else None.
(* internal/httpapi/handlers_alerts.go:55-60 handleCreateAlertRule *)
Definition rule_type_of (s : string) : option RuleType :=
  if String.eqb s "offline" then Some RuleOffline
  else if String.eqb s "cpu" then Some RuleCPU
  else if String.eqb s "ram" then Some RuleRAM
  else if String.eqb s "disk" then Some RuleDisk
  else if String.eqb s "service" then Some RuleService
  else if String.eqb s "agent_version" then Some RuleAgentVersion else None.
Definition alert_state_of (s : string) : option AlertState :=
  if String.eqb s "open" then Some AlertOpen
  else if String.eqb s "acknowledged" then Some AlertAcknowledged
  else if String.eqb s "resolved" then Some AlertResolved else None.

(** ** Request bodies *)

Record ruleRequest : Type := mkRuleRequest {
  rr_ScopeType : string; rr_ScopeID : option uuid; rr_RuleType : string; rr_Config : bytes; rr_Enabled : option bool }.
Record userRequest : Type := mkUserRequest { uq_Username : string; uq_DisplayName : string; uq_Role : string }.
Record statusRequest : Type := mkStatusRequest { sq_Status : option string; sq_MFARequired : option bool }.
(* internal/httpapi/handlers_enrollment.go:17-24 createEnrollmentRequest *)
Record createEnrollmentRequest : Type := mkCreateEnrollment {
  ce_CustomerID : option string; ce_GroupID : option string; ce_DisplayName : string; ce_ExpiresInSeconds : Z;
  ce_Tags : list string; ce_Reusable : bool }.
(* internal/httpapi/handlers_enrollment.go:132-140 agentEnrollRequest *)
Record agentEnrollRequest : Type := mkAgentEnroll {
  ae_Token : string; ae_InstallID : string; ae_PublicKey : string; ae_AgentVersion : string; ae_OS : string;
  ae_Arch : string; ae_Hostname : string }.
(* internal/httpapi/handlers_customers.go:27-31 createCustomerRequest *)
Record createCustomerRequest : Type := mkCreateCustomer { cc_Name : string; cc_Number : string; cc_Notes : string }.
Record updateCustomerRequest : Type := mkUpdateCustomer {
  uc_Name : string; uc_Number : string; uc_Notes : string; uc_Status : string }.
Record groupRequest : Type := mkGroupRequest { gq_CustomerID : option string; gq_Name : string }.
Record releaseRequest : Type := mkReleaseRequest {
  lq_Version : string; lq_OSFamily : string; lq_Architecture : string; lq_Channel : string; lq_ArtifactURL : string;
  lq_ArtifactSHA256Hex : string; lq_SignatureBase64 : string; lq_MinimumSupported : bool }.
Record retentionRequest : Type := mkRetentionRequest { tq_Raw : Z; tq_Hourly : Z }.

Section admin.
Context `{UuidText, Backend}.
Implicit Types (cx : authctx) (e : env) (h : handlers).

Definition body_of {A} (b : option A) : H A := match b with Some x => mret x | None => mfail bad_request end.
Definition not_found_or_internal (notFound : bool) : Reply :=
  if notFound then refuse 404 "not_found" else internal.
Definition alert_reply (err : alert_error) : Reply :=
  not_found_or_internal (match err with AlertNotFound => true | _ => false end).
Definition auth_reply (err : auth_error) : Reply :=
  not_found_or_internal (match err with ErrNotFound => true | _ => false end).
Definition cust_reply (err : cust_error) : Reply :=
  not_found_or_internal (match err with CustNotFound => true | _ => false end).
Definition Btoa (b : bool) : string := if b then "true" else "false".

(** ** Alert rules and alerts *)

(* internal/httpapi/handlers_alerts.go:14-26 handleListAlertRules *)
Definition handleListAlertRules cx : H Reply :=
  require_any cx PermMonitoringRead;;
  l ← via alert_view set_alert_view (λ _, internal) (ListRules be_rule_le);
  mret (answer (DRules l)).

(* internal/httpapi/handlers_alerts.go:28-79 handleCreateAlertRule *)
Definition handleCreateAlertRule cx e (body : option ruleRequest) : H Reply :=
  require_any cx PermAlertManage;;
  req ← body_of body;
  match rule_scope_of (rr_ScopeType req) with
  | None => mfail bad_request
  | Some scope =>
      when (negb (String.eqb (rr_ScopeType req) "global") && is_null (rr_ScopeID req)) bad_request;;
      match rule_type_of (rr_RuleType req) with
      | None => mfail bad_request
      | Some ty =>
          rule ← via alert_view set_alert_view (λ _, internal)
            (CreateRule (mkRule scope (rr_ScopeID req) ty (rr_Config req) (default true (rr_Enabled req))));
          audit e 0 (user_event cx e "alert_rule.created" ResultSuccess None None None
            [("rule_type", rr_RuleType req); ("scope_type", rr_ScopeType req)]%string);;
          mret (created_ (DRule rule))
      end
  end.

(* internal/httpapi/handlers_alerts.go:81-108 handleSetAlertRuleEnabled *)
Definition handleSetAlertRuleEnabled cx (id : string) (enabled : option bool) : H Reply :=
  require_any cx PermAlertManage;;
  id ← path_id id;
  b ← body_of enabled;
  via alert_view set_alert_view alert_reply (SetRuleEnabled id b);;
  mret (answer (DState "ok")).

(* internal/httpapi/handlers_alerts.go:110-130 handleDeleteAlertRule *)
Definition handleDeleteAlertRule cx (id : string) : H Reply :=
  require_any cx PermAlertManage;;
  id ← path_id id;
  via alert_view set_alert_view alert_reply (DeleteRule id);;
  mret (answer (DState "ok")).

(** A device filter that does not parse is dropped, an unknown state matches
    no alert. *)
(* internal/httpapi/handlers_alerts.go:132-151 handleListAlerts *)
Definition handleListAlerts cx (state device : string) : H Reply :=
  require_any cx PermMonitoringRead;;
  let dev := if String.eqb device "" then None else uuid_parse device in
  l ← via alert_view set_alert_view (λ _, internal) (ListAlerts dev (alert_state_of state));
  mret (answer (DAlerts (if String.eqb state "" || negb (is_null (alert_state_of state)) then l else []))).

(* internal/httpapi/handlers_alerts.go:153-165 handleAlertsOpenCount *)
Definition handleAlertsOpenCount cx : H Reply :=
  require_any cx PermMonitoringRead;;
  n ← via alert_view set_alert_view (λ _, internal) CountOpen;
  mret (answer (DCount (Z.of_nat n))).

(* internal/httpapi/handlers_alerts.go:167-193 handleAcknowledgeAlert *)
Definition handleAcknowledgeAlert cx e (id : string) : H Reply :=
  require_any cx PermAlertManage;;
  id ← path_id id;
  via alert_view set_alert_view alert_reply (Acknowledge id);;
  audit e 0 (user_event cx e "alert.acknowledged" ResultSuccess None None None [("alert_id", uuid_string id)%string]);;
  mret (answer (DState "ok")).

(* internal/httpapi/handlers_alerts.go:195-221 handleResolveAlert *)
Definition handleResolveAlert cx e (id : string) : H Reply :=
  require_any cx PermAlertManage;;
  id ← path_id id;
  via alert_view set_alert_view alert_reply (Resolve id (en_now e));;
  audit e 0 (user_event cx e "alert.resolved" ResultSuccess None None None
    [("alert_id", uuid_string id); ("reason", "manual")]%string);;
  mret (answer (DState "ok")).

(* internal/httpapi/handlers_alerts.go:223-249 handleDeleteAlert *)
Definition handleDeleteAlert cx e (id : string) : H Reply :=
  require_any cx PermAlertManage;;
  id ← path_id id;
  via alert_view set_alert_view alert_reply (DeleteAlert id);;
  audit e 0 (user_event cx e "alert.deleted" ResultSuccess None None None [("alert_id", uuid_string id)%string]);;
  mret (answer (DState "ok")).

(** ** Enrolment tokens *)

(* internal/httpapi/handlers_recovery.go:20-38 handleRevokeAllEnrollments *)
Definition handleRevokeAllEnrollments cx e : H Reply :=
  require_any cx PermCredentialRevoke;;
  n ← via se_registry set_registry (λ _, internal) (RevokeAllOutstanding (en_now e));
  audit e 0 (user_event cx e "enrollment.revoked_all" ResultSuccess None None None
    [("count", Itoa (Z.of_nat n))%string]);;
  mret (answer (DCount (Z.of_nat n))).

(** An optional id in a body: absent when missing or empty. *)
Definition body_id (v : option string) : H (option uuid) := optional_id (default ""%string v).

(* internal/httpapi/handlers_enrollment.go:26-88 handleCreateEnrollment *)
Definition handleCreateEnrollment cx e (body : option createEnrollmentRequest) : H Reply :=
  require_any cx PermEnrollmentCreate;;
  req ← body_of body;
  customerID ← body_id (ce_CustomerID req);
  groupID ← body_id (ce_GroupID req);
  when (negb (HasPermission (cx_Grants cx) PermEnrollmentCreate (mkResource customerID groupID))) not_permitted;;
  '(tid, token, expires) ← via se_registry set_registry (λ _, internal)
    (Enrollment.Create (mkCreateParams customerID groupID (ce_DisplayName req)
       (wrap64 (ce_ExpiresInSeconds req * Second)) (ce_Tags req) (cx_User cx).1 (ce_Reusable req))
       (en_rnd e 0) (en_id e 0) (en_now e));
  audit e 0 (user_event cx e "enrollment.created" ResultSuccess None None customerID
    [("enrollment_id", uuid_string tid); ("reusable", Btoa (ce_Reusable req))]%string);;
  mret (created_ (DEnrollment tid token expires)).

(* internal/httpapi/handlers_enrollment.go:94-106 handleListEnrollments *)
Definition handleListEnrollments cx e : H Reply :=
  require_any cx PermEnrollmentCreate;;
  l ← via se_registry set_registry (λ _, internal) (ListOutstanding (en_now e));
  mret (answer (DEnrollments (map token_json l))).

(* internal/httpapi/handlers_enrollment.go:108-126 handleRevokeEnrollment *)
Definition handleRevokeEnrollment cx e (id : string) : H Reply :=
  require_any cx PermEnrollmentCreate;;
  id ← path_id id;
  via se_registry set_registry (λ _, refuse 404 "resource_not_found") (RevokeToken id (en_now e));;
  audit e 0 (user_event cx e "enrollment.revoked" ResultSuccess None None None
    [("enrollment_id", uuid_string id)%string]);;
  mret (answer (DState "revoked")).

(** ** The agents' endpoints *)

Definition allow_enroll (key : string) (now : time) : H bool :=
  mstate (λ s, let '(ok, l) := Allow (se_enrollLimiter s) key now in
               (ok, set_limiters l (se_controlLimiter s) (se_ticketLimiter s) s)).


Definition agent_event e (dev : option uuid) (ty result : string) (meta : option bytes) : Event :=
  mkEvent ActorAgent None None dev None ty result (en_ip e) None meta.

(* internal/httpapi/handlers_enrollment.go:163-166 handleAgentEnroll *)
Definition fields_too_long (req : agentEnrollRequest) : bool :=
  (64 <? String.length (ae_AgentVersion req)) || (32 <? String.length (ae_OS req)) ||
  (32 <? String.length (ae_Arch req)) || (255 <? String.length (ae_Hostname req)).

(* internal/httpapi/handlers_enrollment.go:142-192 handleAgentEnroll *)
Definition handleAgentEnroll e (body : option agentEnrollRequest) : H Reply :=
  ok ← allow_enroll ("enroll:" +:+ en_ip e) (en_now e);
  when (negb ok) (refuse 429 "rate_limited");;
  req ← body_of body;
  installID ← path_id (ae_InstallID req);
  match std_decode (ae_PublicKey req) with
  | None => mfail bad_request
  | Some pubKey =>
      when (negb (length pubKey =? 32)) bad_request;;
      when (fields_too_long req) bad_request;;
      r ← try_via se_registry set_registry
        (Consume (mkEnrollRequest (ae_Token req) installID pubKey (ae_AgentVersion req) (ae_Hostname req))
           (en_id e 0) (en_now e));
      match r with
      | Err err =>
          audit e 0 (agent_event e None "enrollment.rejected" ResultFailure
            (be_meta [("reason", be_enrollText err)%string]));;
          mfail (match err with
                 | ErrTokenInvalid => refuse 401 "unauthenticated"
                 | ErrInstallExists => refuse 409 "invalid_request"
                 | _ => internal
                 end)
      | Ok deviceID =>
          audit e 0 (agent_event e (Some deviceID) "enrollment.consumed" ResultSuccess (be_meta []));;
          mret (created_ (DEnrolled deviceID))
      end
  end.

(** ** Users *)

(* internal/httpapi/handlers_recovery.go:40-60 handleListUsers *)
Definition handleListUsers cx : H Reply :=
  require_any cx PermUserManage;;
  l ← via se_authdb set_authdb (λ _, internal) (ListUsers be_collate);
  mret (answer (DUsers (map user_json l))).

(* internal/httpapi/handlers_recovery.go:64-66 validRoleNames *)
Definition validRoleNames : list string := ["read_only"; "technician"; "admin"; "super_admin"]%string.

(* internal/httpapi/handlers_recovery.go:97-103 handleCreateUser *)
Definition argon2_of (c : ServerConfig) : Argon2Params :=
  mkArgon2 (Z.to_N (Argon2MemoryKiB (Security c))) (Z.to_N (Argon2Iterations (Security c)))
    (Z.to_N (Argon2Parallelism (Security c))) 16 32.

(** [rand] is what [crypto/rand] delivers for the password, [en_rnd e 0] the
    salt. *)
(* internal/httpapi/handlers_recovery.go:68-141 handleCreateUser *)
Definition handleCreateUser `{Argon2} h cx e (rand : supply) (body : option userRequest) : H Reply :=
  require_any cx PermUserManage;;
  req ← body_of body;
  when (String.eqb (uq_Username req) "") bad_request;;
  when (negb (existsb (String.eqb (uq_Role req)) validRoleNames)) bad_request;;
  password ← mwrap (λ _, internal) (mlift (run (GenerateSupportPassword 20) rand).1);
  hash ← mwrap (λ _, internal) (mlift (HashPassword password (argon2_of (h_cfg h)) (en_rnd e 0)));
  userID ← via se_authdb set_authdb
    (λ err, match err with ErrUnique => refuse 409 "username_taken" | _ => internal end)
    (CreateUser be_citext (uq_Username req) (uq_DisplayName req) hash (en_id e 0) (en_now e));
  roleID ← via se_authdb set_authdb (λ _, internal) (RoleIDByName (uq_Role req));
  via se_authdb set_authdb (λ _, internal) (AssignRole userID roleID ScopeGlobal None);;
  audit e 0 (user_event cx e "user.created" ResultSuccess None None None
    [("target_user_id", uuid_string userID); ("username", uq_Username req); ("role", uq_Role req)]%string);;
  mret (answer (DNewUser userID (uq_Username req) password)).

(* internal/httpapi/handlers_recovery.go:168-198 handleSetUserStatus *)
Definition change_status cx e (id : uuid) (text : string) : H unit :=
  match user_status_of text with
  | None => mfail bad_request
  | Some status =>
      when ((id =? (cx_User cx).1)%N && negb (bool_decide (status = UserActive))) (refuse 409 "invalid_request");;
      via se_authdb set_authdb auth_reply (SetStatus id status);;
      (if bool_decide (status = UserActive) then mret tt
       else drop_via se_authdb set_authdb (RevokeAllForUser id (en_now e)));;
      audit e 0 (user_event cx e "user.status_changed" ResultSuccess None None None
        [("target_user_id", uuid_string id); ("status", text)]%string)
  end.

(* internal/httpapi/handlers_recovery.go:143-217 handleSetUserStatus *)
Definition handleSetUserStatus cx e (id : string) (body : option statusRequest) : H Reply :=
  require_any cx PermUserManage;;
  id ← path_id id;
  req ← body_of body;
  when (is_null (sq_Status req) && is_null (sq_MFARequired req)) bad_request;;
  (match sq_Status req with Some text => change_status cx e id text | None => mret tt end);;
  (match sq_MFARequired req with
   | Some b =>
       via se_authdb set_authdb auth_reply (SetMFARequired id b);;
       audit e 1 (user_event cx e "user.mfa_required_changed" ResultSuccess None None None
         [("target_user_id", uuid_string id); ("mfa_required", Btoa b)]%string)
   | None => mret tt
   end);;
  mret (answer (DState "ok")).

(* internal/httpapi/handlers_recovery.go:219-241 handleRevokeUserSessions *)
Definition handleRevokeUserSessions cx e (id : string) : H Reply :=
  require_any cx PermUserManage;;
  id ← path_id id;
  via se_authdb set_authdb (λ _, internal) (RevokeAllForUser id (en_now e));;
  audit e 0 (user_event cx e "user.sessions_revoked" ResultSuccess None None None
    [("target_user_id", uuid_string id)%string]);;
  mret (answer (DState "ok")).

(** The distinct permissions, in the order of the grants. *)
Fixpoint permission_names (seen : list string) (grants : list PermissionGrant) : list string :=
  match grants with
  | [] => []
  | g :: rest =>
      if existsb (String.eqb (g_Permission g)) seen then permission_names seen rest
      else g_Permission g :: permission_names (g_Permission g :: seen) rest
  end.

(* internal/httpapi/handlers_auth.go:229-265 handleMe *)
Definition handleMe `{AEAD} h cx : H Reply :=
  c ← try_via se_authdb set_authdb (IsConfirmed (sv_MFA (h_svc h)) (cx_User cx).1);
  let confirmed := match c with Ok b => b | Err _ => false end in
  let advisories := if HasAnyGrant (cx_Grants cx) PermSystemSettings then SecurityAdvisories (h_cfg h) else [] in
  mret (answer (DMe (cx_User cx).1 (u_Username (cx_User cx).2) (u_DisplayName (cx_User cx).2)
    (permission_names [] (cx_Grants cx)) confirmed (s_ExpiresAt (cx_Session cx).2)
    (BaseURL (Public (h_cfg h))) advisories (h_version h))).

(** ** Customers and groups *)

(* internal/httpapi/handlers_customers.go:13-25 handleListCustomers *)
Definition handleListCustomers cx : H Reply :=
  require_any cx PermCustomerRead;;
  l ← via cust_view set_cust_view (λ _, internal) (ListCustomers be_collate);
  mret (answer (DCustomers l)).

Definition named {A} (name : A → string) (body : option A) : H A :=
  req ← body_of body;
  when (String.eqb (name req) "") bad_request;;
  mret req.

(* internal/httpapi/handlers_customers.go:33-55 handleCreateCustomer *)
Definition handleCreateCustomer cx e (body : option createCustomerRequest) : H Reply :=
  require_any cx PermCustomerManage;;
  req ← named cc_Name body;
  c ← via cust_view set_cust_view (λ _, internal)
    (CreateCustomer (cc_Name req) (cc_Number req) (cc_Notes req) (en_id e 0));
  audit e 0 (user_event cx e "customer.created" ResultSuccess None None (Some c.1) []);;
  mret (created_ (DCustomer c)).

(* internal/httpapi/handlers_customers.go:57-91 handleUpdateCustomer *)
Definition handleUpdateCustomer cx e (id : string) (body : option updateCustomerRequest) : H Reply :=
  require_any cx PermCustomerManage;;
  id ← path_id id;
  req ← named uc_Name body;
  let status := if String.eqb (uc_Status req) "" then "active"%string else uc_Status req in
  via cust_view set_cust_view (λ _, refuse 404 "resource_not_found")
    (UpdateCustomer id (uc_Name req) (uc_Number req) (uc_Notes req) status);;
  audit e 0 (user_event cx e "customer.updated" ResultSuccess None None (Some id) []);;
  mret (answer (DState "updated")).

(* internal/httpapi/handlers_customers.go:93-114 handleListGroups *)
Definition handleListGroups cx (customer : string) : H Reply :=
  require_any cx PermCustomerRead;;
  c ← optional_id customer;
  l ← via cust_view set_cust_view (λ _, internal) (ListGroups be_collate c);
  mret (answer (DGroups l)).

(* internal/httpapi/handlers_customers.go:116-145 handleCreateGroup *)
Definition handleCreateGroup cx e (body : option groupRequest) : H Reply :=
  require_any cx PermCustomerManage;;
  req ← named gq_Name body;
  customer ← body_id (gq_CustomerID req);
  g ← via cust_view set_cust_view (λ _, internal) (CreateGroup customer (gq_Name req) (en_id e 0));
  mret (created_ (DGroup g)).

(* internal/httpapi/handlers_customers.go:147-180 handleRenameGroup *)
Definition handleRenameGroup cx e (id : string) (name : option string) : H Reply :=
  require_any cx PermCustomerManage;;
  id ← path_id id;
  name ← named (λ n, n) name;
  via cust_view set_cust_view cust_reply (RenameGroup id name);;
  audit e 0 (user_event cx e "group.renamed" ResultSuccess None None None
    [("group_id", uuid_string id); ("name", name)]%string);;
  mret (answer (DState "ok")).

(* internal/httpapi/handlers_customers.go:182-208 handleDeleteGroup *)
Definition handleDeleteGroup cx e (id : string) : H Reply :=
  require_any cx PermCustomerManage;;
  id ← path_id id;
  via cust_view set_cust_view cust_reply (DeleteGroup id);;
  audit e 0 (user_event cx e "group.deleted" ResultSuccess None None None [("group_id", uuid_string id)%string]);;
  mret (answer (DState "ok")).

(* internal/httpapi/handlers_customers.go:210-221 handleListMaintenance *)
Definition handleListMaintenance cx (id : string) : H Reply :=
  '(id, _) ← loadDeviceWithAccess cx id PermMaintenanceRead;
  l ← via se_rs set_rs (λ _, internal) (MaintListForDevice id);
  mret (answer (DMaintenance l)).

(** ** Settings *)

(* internal/httpapi/handlers_settings.go:15-30 handleGetRetentionSettings *)
Definition handleGetRetentionSettings h cx : H Reply :=
  require_any cx PermSystemSettings;;
  '(raw, hourly) ← via se_settings set_settings (λ _, internal)
    (MetricsRetention (RawRetention (MetricsCfg (h_cfg h))) (HourlyRetention (MetricsCfg (h_cfg h))));
  mret (answer (DRetention (whole_hours raw) (whole_hours hourly))).

(* internal/httpapi/handlers_settings.go:38-51 handleSetRetentionSettings *)
Definition retention_body (body : option retentionRequest) : H (retentionRequest * duration * duration) :=
  req ← body_of body;
  when ((tq_Raw req <=? 0)%Z || (tq_Hourly req <=? 0)%Z) bad_request;;
  mret (req, wrap64 (tq_Raw req * Hour), wrap64 (tq_Hourly req * Hour)).
Definition retention_meta (req : retentionRequest) : list (string * string) :=
  [("raw_retention_hours", Itoa (tq_Raw req)); ("hourly_retention_hours", Itoa (tq_Hourly req))]%string.

(* internal/httpapi/handlers_settings.go:32-63 handleSetRetentionSettings *)
Definition handleSetRetentionSettings cx e (body : option retentionRequest) : H Reply :=
  require_any cx PermSystemSettings;;
  '(req, raw, hourly) ← retention_body body;
  via se_settings set_settings (λ _, internal) (SetMetricsRetention raw hourly);;
  audit e 0 (user_event cx e "settings.retention_changed" ResultSuccess None None None (retention_meta req));;
  mret (answer (DState "ok")).

(* internal/httpapi/handlers_settings.go:67-82 handleGetNetworkRetentionSettings *)
Definition handleGetNetworkRetentionSettings h cx : H Reply :=
  require_any cx PermSystemSettings;;
  '(raw, hourly) ← via se_settings set_settings (λ _, internal)
    (NetworkMetricsRetention (NetworkRawRetention (MetricsCfg (h_cfg h)))
       (NetworkHourlyRetention (MetricsCfg (h_cfg h))));
  mret (answer (DRetention (whole_hours raw) (whole_hours hourly))).

(* internal/httpapi/handlers_settings.go:84-115 handleSetNetworkRetentionSettings *)
Definition handleSetNetworkRetentionSettings cx e (body : option retentionRequest) : H Reply :=
  require_any cx PermSystemSettings;;
  '(req, raw, hourly) ← retention_body body;
  via se_settings set_settings (λ _, internal) (SetNetworkMetricsRetention raw hourly);;
  audit e 0 (user_event cx e "settings.network_retention_changed" ResultSuccess None None None (retention_meta req));;
  mret (answer (DState "ok")).

(* internal/httpapi/handlers_settings.go:120-132 handleGetSupportCredentialRotationSettings *)
Definition handleGetRotationSettings cx : H Reply :=
  require_any cx PermSystemSettings;;
  days ← via se_settings set_settings (λ _, internal) SupportCredentialRotationDays;
  mret (answer (DCount days)).

(* internal/httpapi/handlers_settings.go:134-162 handleSetSupportCredentialRotationSettings *)
Definition handleSetRotationSettings cx e (days : option Z) : H Reply :=
  require_any cx PermSystemSettings;;
  days ← body_of days;
  when (days <? 0)%Z bad_request;;
  via se_settings set_settings (λ _, internal) (SetSupportCredentialRotationDays days);;
  audit e 0 (user_event cx e "settings.support_credential_rotation_changed" ResultSuccess None None None
    [("rotation_days", Itoa days)%string]);;
  mret (answer (DState "ok")).

(** The bot token is never part of the reply. *)
(* internal/httpapi/handlers_settings.go:167-183 handleGetTelegramSettings *)
Definition handleGetTelegramSettings cx : H Reply :=
  require_any cx PermSystemSettings;;
  st ← via se_notify set_notify (λ _, internal) GetTelegramStatus;
  mret (answer (DTelegram st)).

(* internal/httpapi/handlers_settings.go:185-209 handleSetTelegramSettings *)
Definition handleSetTelegramSettings `{AEAD} h cx e (body : option (string * string)) : H Reply :=
  require_any cx PermSystemSettings;;
  '(botToken, chatID) ← body_of body;
  when (String.eqb botToken "" || String.eqb chatID "") bad_request;;
  via se_notify set_notify (λ _, internal)
    (SetTelegram (TOTPEncryptionKey (SecretsOf (h_cfg h))) botToken chatID (en_rnd e 0) (en_now e));;
  audit e 0 (user_event cx e "settings.telegram_configured" ResultSuccess None None None []);;
  mret (answer (DState "ok")).

(* internal/httpapi/handlers_settings.go:221-221 handleTestTelegramSettings *)
Definition telegram_test_text : string :=
  "✅ WartungsRemote: this is a test message. Your Telegram alert notifications are set up correctly.".

(* internal/httpapi/handlers_settings.go:215-231 handleTestTelegramSettings *)
Definition handleTestTelegramSettings `{AEAD, TelegramAPI} h cx : H Reply :=
  require_any cx PermSystemSettings;;
  via se_notify set_notify
    (λ err, match err with NotConfigured => refuse 404 "not_found" | _ => refuse 502 "internal_error" end)
    (SendTelegram (TOTPEncryptionKey (SecretsOf (h_cfg h))) telegram_test_text);;
  mret (answer (DState "ok")).

(** ** Agent releases *)

(* internal/httpapi/handlers_releases.go:15-27 handleListReleases *)
Definition handleListReleases cx : H Reply :=
  require_any cx PermAgentUpdate;;
  l ← via se_manifest set_manifest (λ _, internal) ListReleases;
  mret (answer (DReleases l)).

Definition has_release_key h : bool := length (ReleasePublicKey (SecretsOf (h_cfg h))) =? 32.

(* internal/httpapi/handlers_releases.go:53-56 handleCreateRelease *)
Definition release_incomplete (req : releaseRequest) : bool :=
  String.eqb (lq_Version req) "" || String.eqb (lq_OSFamily req) "" || String.eqb (lq_Architecture req) "" ||
  String.eqb (lq_ArtifactURL req) "" || String.eqb (lq_ArtifactSHA256Hex req) "" ||
  String.eqb (lq_SignatureBase64 req) "".

(* internal/httpapi/handlers_releases.go:57-66 handleCreateRelease *)
Definition release_of (req : releaseRequest) : Release :=
  mkRelease 0 (lq_Version req) (lq_OSFamily req) (lq_Architecture req)
    (if String.eqb (lq_Channel req) "" then "stable"%string else lq_Channel req) (lq_ArtifactURL req)
    (lq_ArtifactSHA256Hex req) (lq_SignatureBase64 req) 0 (lq_MinimumSupported req) false.

(* internal/httpapi/handlers_releases.go:29-79 handleCreateRelease *)
Definition handleCreateRelease h cx e (body : option releaseRequest) : H Reply :=
  require_any cx PermAgentUpdate;;
  when (negb (has_release_key h)) (refuse 412 "not_configured");;
  req ← body_of body;
  when (release_incomplete req) bad_request;;
  rl ← via se_manifest set_manifest (λ _, bad_request)
    (CreateRelease be_verify (release_of req) (ReleasePublicKey (SecretsOf (h_cfg h))) (en_id e 0) (en_now e));
  audit e 0 (user_event cx e "agent_release.created" ResultSuccess None None None
    [("version", rl_Version rl); ("os_family", rl_OSFamily rl); ("architecture", rl_Architecture rl);
     ("channel", rl_Channel rl)]%string);;
  mret (created_ (DRelease rl)).

(** [http_get] and [releases] are what GitHub answers. *)
(* internal/httpapi/handlers_releases.go:81-103 handleSyncGitHubReleases *)
Definition handleSyncGitHubReleases (http_get : string → option http_response) h cx e
    (releases : option (list ghRelease)) : H Reply :=
  require_any cx PermAgentUpdate;;
  when (negb (has_release_key h)) (refuse 412 "not_configured");;
  result ← via se_manifest set_manifest (λ _, refuse 502 "github_sync_failed")
    (SyncOnce be_verify (ReleasePublicKey (SecretsOf (h_cfg h))) http_get (en_id e) (λ _, en_now e) releases);
  audit e 0 (user_event cx e "agent_release.github_synced" ResultSuccess None None None
    [("imported", Itoa (Z.of_nat (sr_Imported result))); ("skipped", Itoa (Z.of_nat (sr_Skipped result)));
     ("errors", be_syncText (sr_Errors result))]%string);;
  mret (answer (DSync result)).

(* internal/httpapi/handlers_releases.go:105-132 handleSetReleaseBlocked *)
Definition handleSetReleaseBlocked cx (id : string) (blocked : option bool) : H Reply :=
  require_any cx PermAgentUpdate;;
  id ← path_id id;
  b ← body_of blocked;
  via se_manifest set_manifest
    (λ err, not_found_or_internal (match err with RelNotFound => true | _ => false end)) (SetBlocked id b);;
  mret (answer (DState "ok")).

(** ** Help *)

(* internal/httpapi/handlers_help.go:8-14 handleHelpIndex *)
Definition handleHelpIndex h : H Reply :=
  mret (answer (DText (map (λ s, (sc_Slug s, sc_Title s)) (h_help h)))).

(* internal/httpapi/handlers_help.go:16-25 handleHelpPage *)
Definition handleHelpPage h (slug : string) : H Reply :=
  match List.find (λ s, String.eqb (sc_Slug s) slug) (h_help h) with
  | Some s => mret (answer (DText [("slug", sc_Slug s); ("title", sc_Title s); ("html", sc_HTML s)]%string))
  | None => mfail (refuse 404 "not_found")
  end.
End admin.
