(* ===== verification/Api.v ===== *)
(** The protected API as a whole ([internal/httpapi/router.go]): every route
    of the admin listener behind CSRF and session checks, the access-control
    matrix the handlers implement, and the proof that no handler can be
    reached around it. *)
From S2P Require Import Prelude AgentUpdate Base64 Rbac RateLimit Password AuthStore Sessions Mfa.
From S2P Require Import AuthService Device Enrollment AuditLog Metrics Monitoring Alerting Protocol.
From S2P Require Import Messages Codec Hub Relay RemoteSession AgentRelease Settings Support Customers.
From S2P Require Import Config Notify Server HttpDevices HttpRemote HttpSessions HttpAdmin.

(** ** The routes *)

(** One constructor per route of the protected mux, with the path values,
    query and decoded body its handler reads. *)
Inductive api_request : Type :=
| GetMe
| PostChangePassword (body : option (string * string)) (ent : entropy)
| PostEnrollments (body : option createEnrollmentRequest)
| GetEnrollments
| DeleteEnrollment (id : string)
| PostEnrollmentsRevokeAll
| GetDevices (q : device_query)
| GetDevice (id : string)
| PatchDevice (id : string) (body : option patchDeviceRequest)
| PostStatusRequest (id : string)
| GetHealth (id : string)
| GetIPHistory (id hours : string)
| GetMetrics (id : string) (q : metrics_query)
| GetNetworkMetrics (id : string) (q : metrics_query)
| GetNetworkUsage (hours : string)
| PostRevokeDevice (id reauth : string)
| DeleteDevice (id reauth : string)
| GetDeviceAudit (id : string)
| GetAudit (q : audit_query)
| GetAuditExport (q : audit_query)
| PostAuditVerify
| PostSessions (id : string) (kind : option string)
| GetSession_ (id : string)
| DeleteSession (id : string)
| GetSessionStream (id : string) (accepted : bool) (events : list (time * stream_event))
| PostPrivilege (id : string) (body : option privilegeRequest)
| DeletePrivilege (id : string)
| PostTunnels (id : string) (target : option string)
| GetServices (id : string)
| PostServiceStart (id service : string)
| PostServiceStop (id service : string)
| PostServiceRestart (id service : string)
| GetProcesses (id : string)
| PostTerminate (id pid : string) (startTime : Z)
| GetLogs (id : string) (q : logs_query)
| GetFiles (id path : string)
| GetFilesDownload (id path : string) (turns : nat)
| PostFilesUpload (id path : string) (chunks : list bytes) (ok : bool)
| PostFilesMkdir (id : string) (body : option string)
| PostFilesRename (id : string) (body : option (string * string))
| DeleteFiles (id path : string)
| GetCustomers
| PostCustomers (body : option createCustomerRequest)
| PatchCustomer (id : string) (body : option updateCustomerRequest)
| GetGroups (customer : string)
| PostGroups (body : option groupRequest)
| PatchGroup (id : string) (name : option string)
| DeleteGroup_ (id : string)
| GetMaintenance (id : string)
| GetAlertRules
| PostAlertRules (body : option ruleRequest)
| PatchAlertRule (id : string) (enabled : option bool)
| DeleteAlertRule (id : string)
| GetAlerts (state device : string)
| GetAlertsOpenCount
| GetSupportCredential_ (id : string)
| PostSupportRotate (id : string)
| GetRetention
| PatchRetention (body : option retentionRequest)
| GetNetworkRetention
| PatchNetworkRetention (body : option retentionRequest)
| GetRotation
| PatchRotation (days : option Z)
| GetTelegram
| PatchTelegram (body : option (string * string))
| PostTelegramTest
| PostAcknowledge (id : string)
| PostResolve (id : string)
| DeleteAlert_ (id : string)
| GetReleases
| PostReleases (body : option releaseRequest)
| PatchRelease (id : string) (blocked : option bool)
| PostReleasesSync (releases : option (list ghRelease))
| PostUpdate (id channel : string)
| GetUsers
| PostUsers (rand : supply) (body : option userRequest)
| PatchUser (id : string) (body : option statusRequest)
| PostRevokeSessions (id : string)
| GetHelpIndex
| GetHelpPage (slug : string).

(** ** The access-control matrix *)

Inductive requirement : Type :=
| Anyone
| AnyGrant (permission : string)
| OnScope (customer group : option string) (permission : string)
| OnDevice (id : string) (permissions : list string)
| OnSession (id : string)
| OnSessionWith (id permission : string).

Definition requirement_of (r : api_request) : requirement :=
  match r with
  | GetMe | PostChangePassword _ _ | GetHelpIndex | GetHelpPage _ => Anyone
  | PostEnrollments (Some b) => OnScope (ce_CustomerID b) (ce_GroupID b) PermEnrollmentCreate
  | PostEnrollments None | GetEnrollments | DeleteEnrollment _ => AnyGrant PermEnrollmentCreate
  | PostEnrollmentsRevokeAll => AnyGrant PermCredentialRevoke
  | GetDevices _ => AnyGrant PermDeviceRead
  | GetDevice id | PostStatusRequest id | GetServices id | GetProcesses id => OnDevice id [PermDeviceRead]
  | PatchDevice id _ => OnDevice id [PermDeviceManage]
  | GetHealth id | GetIPHistory id _ | GetMetrics id _ | GetNetworkMetrics id _ => OnDevice id [PermMonitoringRead]
  | GetNetworkUsage _ => AnyGrant PermMonitoringRead
  | PostRevokeDevice id _ | DeleteDevice id _ => OnDevice id [PermCredentialRevoke]
  | GetDeviceAudit id => OnDevice id [PermAuditRead]
  | GetAudit _ | GetAuditExport _ | PostAuditVerify => AnyGrant PermAuditRead
  | PostSessions id _ => OnDevice id [PermRemoteTerminal]
  | GetSession_ id | DeleteSession id | GetSessionStream id _ _ | DeletePrivilege id => OnSession id
  | PostPrivilege id _ => OnSessionWith id PermPrivilegeRequest
  | PostTunnels id target =>
      OnDevice id (match target with
                   | Some t => if String.eqb t "ssh_local" then [PermRemoteTunnelSSH]
                               else if String.eqb t "rdp_local" then [PermRemoteTunnelRDP] else []
                   | None => []
                   end)
  | PostServiceStart id _ | PostServiceStop id _ | PostServiceRestart id _ => OnDevice id [PermRemoteServiceControl]
  | PostTerminate id _ _ => OnDevice id [PermRemoteProcessTerminate]
  | GetLogs id _ | GetFiles id _ | GetFilesDownload id _ _ => OnDevice id [PermRemoteFilesRead]
  | PostFilesUpload id _ _ _ | PostFilesMkdir id _ | PostFilesRename id _ | DeleteFiles id _ =>
      OnDevice id [PermRemoteFilesWrite]
  | GetCustomers | GetGroups _ => AnyGrant PermCustomerRead
  | PostCustomers _ | PatchCustomer _ _ | PostGroups _ | PatchGroup _ _ | DeleteGroup_ _ => AnyGrant PermCustomerManage
  | GetMaintenance id => OnDevice id [PermMaintenanceRead]
  | GetAlertRules | GetAlerts _ _ | GetAlertsOpenCount => AnyGrant PermMonitoringRead
  | PostAlertRules _ | PatchAlertRule _ _ | DeleteAlertRule _ | PostAcknowledge _ | PostResolve _ | DeleteAlert_ _ =>
      AnyGrant PermAlertManage
  | GetSupportCredential_ id | PostSupportRotate id => OnDevice id [PermRemoteTunnelSSH; PermRemoteTunnelRDP]
  | GetRetention | PatchRetention _ | GetNetworkRetention | PatchNetworkRetention _ | GetRotation | PatchRotation _
  | GetTelegram | PatchTelegram _ | PostTelegramTest => AnyGrant PermSystemSettings
  | GetReleases | PostReleases _ | PatchRelease _ _ | PostReleasesSync _ => AnyGrant PermAgentUpdate
  | PostUpdate id _ => OnDevice id [PermAgentUpdate]
  | GetUsers | PostUsers _ _ | PatchUser _ _ | PostRevokeSessions _ => AnyGrant PermUserManage
  end.

Section api.
Context `{UuidText, Backend, Argon2, AEAD, TelegramAPI, Totp, !Json Envelope, !Json InventoryRequestPayload,
  !Json DeviceCommandPayload, !Json CommandResultPayload, !Json ServiceActionParams, !Json ProcessTerminateParams,
  !Json FilesListParams, !Json FilesMkdirParams, !Json FilesRenameParams, !Json FilesDeleteParams,
  !Json FilesDownloadParams, !Json FilesUploadParams, !Json LogsQueryParams, !Json AgentUpdateParams}.
(** What GitHub serves. *)
Context (http_get : string → option http_response).
Implicit Types (cx : authctx) (e : env) (h : handlers).

Definition service_path (id service action : string) : string :=
  "/api/v1/devices/" +:+ id +:+ "/services/" +:+ service +:+ "/" +:+ action.

Definition change_password h cx e (body : option (string * string)) (ent : entropy) : H Reply :=
  resp ← via se_svc set_svc (λ _, internal) (handleChangePassword (h_svc h) cx body ent (en_now e));
  mret (if (rs_Status resp =? 200)%Z then answer (DState (rs_Code resp)) else refuse (rs_Status resp) (rs_Code resp)).

(* internal/httpapi/router.go:249-343 NewRouter *)
Definition serve h cx e (r : api_request) : H Reply :=
  match r with
  | GetMe => handleMe h cx
  | PostChangePassword body ent => change_password h cx e body ent
  | PostEnrollments body => handleCreateEnrollment cx e body
  | GetEnrollments => handleListEnrollments cx e
  | DeleteEnrollment id => handleRevokeEnrollment cx e id
  | GetDevices q => handleListDevices cx q
  | GetDevice id => handleGetDevice cx id
  | PatchDevice id body => handlePatchDevice cx e id body
  | PostStatusRequest id => handleStatusRequest cx e id
  | GetHealth id => handleDeviceHealth cx id
  | GetIPHistory id hours => handleDeviceIPHistory cx e id hours
  | GetMetrics id q => handleDeviceMetrics cx e id q
  | GetNetworkMetrics id q => handleDeviceNetworkMetrics cx e id q
  | GetNetworkUsage hours => handleNetworkUsageSummary cx e hours
  | PostRevokeDevice id reauth => handleRevokeDevice cx e id reauth
  | DeleteDevice id reauth => handleDeleteDevice cx e id reauth
  | GetDeviceAudit id => handleDeviceAuditLog cx e id
  | GetAudit q => handleAuditLog cx e q
  | GetAuditExport q => handleExportAuditLog cx e q
  | PostAuditVerify => handleVerifyAuditChain cx e
  | PostSessions id kind => handleCreateSession cx e id kind
  | GetSession_ id => handleGetSession cx id
  | DeleteSession id => handleCloseSession cx e id
  | GetSessionStream id accepted events => handleSessionStream cx e id accepted events
  | PostPrivilege id body => handleGrantPrivilege h cx e id body
  | DeletePrivilege id => handleRevokePrivilege cx e id
  | PostTunnels id target => handleCreateTunnel h cx e id target
  | GetServices id => handleListServices cx e id
  | PostServiceStart id service => handleServiceAction cx e id service (service_path id service "start")
  | PostServiceStop id service => handleServiceAction cx e id service (service_path id service "stop")
  | PostServiceRestart id service => handleServiceAction cx e id service (service_path id service "restart")
  | GetProcesses id => handleListProcesses cx e id
  | PostTerminate id pid startTime => handleTerminateProcess cx e id pid startTime
  | GetLogs id q => handleQueryLogs cx e id q
  | GetFiles id path => handleFilesList cx e id path
  | GetFilesDownload id path turns => handleFilesDownload cx e id path turns
  | PostFilesUpload id path chunks ok => handleFilesUpload cx e id path chunks ok
  | PostFilesMkdir id body => handleFilesMkdir cx e id body
  | PostFilesRename id body => handleFilesRename cx e id body
  | DeleteFiles id path => handleFilesDelete cx e id path
  | GetCustomers => handleListCustomers cx
  | PostCustomers body => handleCreateCustomer cx e body
  | PatchCustomer id body => handleUpdateCustomer cx e id body
  | GetGroups customer => handleListGroups cx customer
  | PostGroups body => handleCreateGroup cx e body
  | PatchGroup id name => handleRenameGroup cx e id name
  | DeleteGroup_ id => handleDeleteGroup cx e id
  | GetMaintenance id => handleListMaintenance cx id
  | GetAlertRules => handleListAlertRules cx
  | PostAlertRules body => handleCreateAlertRule cx e body
  | PatchAlertRule id enabled => handleSetAlertRuleEnabled cx id enabled
  | DeleteAlertRule id => handleDeleteAlertRule cx id
  | GetAlerts state device => handleListAlerts cx state device
  | GetAlertsOpenCount => handleAlertsOpenCount cx
  | GetSupportCredential_ id => handleGetSupportCredential h cx e id
  | PostSupportRotate id => handleRotateSupportCredential cx e id
  | GetRetention => handleGetRetentionSettings h cx
  | PatchRetention body => handleSetRetentionSettings cx e body
  | GetNetworkRetention => handleGetNetworkRetentionSettings h cx
  | PatchNetworkRetention body => handleSetNetworkRetentionSettings cx e body
  | GetRotation => handleGetRotationSettings cx
  | PatchRotation days => handleSetRotationSettings cx e days
  | GetTelegram => handleGetTelegramSettings cx
  | PatchTelegram body => handleSetTelegramSettings h cx e body
  | PostTelegramTest => handleTestTelegramSettings h cx
  | PostAcknowledge id => handleAcknowledgeAlert cx e id
  | PostResolve id => handleResolveAlert cx e id
  | DeleteAlert_ id => handleDeleteAlert cx e id
  | GetReleases => handleListReleases cx
  | PostReleases body => handleCreateRelease h cx e body
  | PatchRelease id blocked => handleSetReleaseBlocked cx id blocked
  | PostReleasesSync releases => handleSyncGitHubReleases http_get h cx e releases
  | PostUpdate id channel => handleTriggerDeviceUpdate cx e id channel
  | PostEnrollmentsRevokeAll => handleRevokeAllEnrollments cx e
  | GetUsers => handleListUsers cx
  | PostUsers rand body => handleCreateUser h cx e rand body
  | PatchUser id body => handleSetUserStatus cx e id body
  | PostRevokeSessions id => handleRevokeUserSessions cx e id
  | GetHelpIndex => handleHelpIndex h
  | GetHelpPage slug => handleHelpPage h slug
  end.

(** [withCSRF(cfg, auth.RequireSession(authSvc)(next))]. *)
Definition guarded {A} h e (req : Request) (next : authctx → H A) : H A :=
  when (negb (csrf_ok (CSRFEnabled (Security (h_cfg h))) req)) not_permitted;;
  cx ← via se_svc set_svc (λ resp, refuse (rs_Status resp) (rs_Code resp)) (CheckSession (h_svc h) req (en_now e));
  next cx.
(* internal/httpapi/router.go:345-345 NewRouter *)
Definition protected h e (req : Request) (r : api_request) : H Reply :=
  guarded h e req (λ cx, serve h cx e r).

(** ** Complete mediation *)

Definition granted_on cx (permissions : list string) (d : Device) : bool :=
  existsb (λ p, HasPermission (cx_Grants cx) p (deviceResource d)) permissions.
Definition device_at (s : server) (id : string) : option Device :=
  k ← uuid_parse id; devices (se_registry s) !! k.
Definition session_at (s : server) (id : string) : option RemoteSession :=
  k ← uuid_parse id; rd_sessions (se_rs s) !! k.
Definition may_use_session cx (s : server) (sess : RemoteSession) : bool :=
  (rs_UserID sess =? (cx_User cx).1)%N ||
  match devices (se_registry s) !! rs_DeviceID sess with
  | Some d => granted_on cx [PermDeviceManage] d
  | None => false
  end.
(** An id in a body: absent when missing or empty, and [None] when it does
    not parse. *)
Definition scope_id (v : option string) : option (option uuid) :=
  if String.eqb (default ""%string v) "" then Some None else Some <$> uuid_parse (default ""%string v).

Definition authorized cx (s : server) (q : requirement) : bool :=
  match q with
  | Anyone => true
  | AnyGrant p => HasAnyGrant (cx_Grants cx) p
  | OnScope c g p =>
      match scope_id c, scope_id g with
      | Some c, Some g => HasPermission (cx_Grants cx) p (mkResource c g)
      | _, _ => false
      end
  | OnDevice id ps => match device_at s id with Some d => granted_on cx ps d | None => false end
  | OnSession id => match session_at s id with Some sess => may_use_session cx s sess | None => false end
  | OnSessionWith id p =>
      match session_at s id with
      | Some sess =>
          may_use_session cx s sess &&
          match devices (se_registry s) !! rs_DeviceID sess with Some d => granted_on cx [p] d | None => false end
      | None => false
      end
  end.

(** A reply that carries nothing but an error. *)
Definition refusal (y : Reply) : Prop := (400 ≤ ry_Status y)%Z ∧ ry_Data y = DNone.
(** Whatever fails, the program refuses and leaves the server as it was. *)
Definition denied {A} (m : H A) (s : server) : Prop :=
  always m (λ r s', s' = s ∧ ∃ y, r = Err y ∧ refusal y) s.
(** The program only looks, and what it finds satisfies [P]. *)
Definition looks {A} (m : H A) (s : server) (P : A → Prop) : Prop :=
  always m (λ r s', s' = s ∧ match r with Ok a => P a | Err y => refusal y end) s.

Lemma denied_fail {A} y s : refusal y → denied (A := A) (mfail y) s.
Proof. intros Hy. apply always_mfail. eauto. Qed.
Lemma denied_looks {A B} (m : H A) (k : A → H B) s P :
  looks m s P → (∀ a, P a → denied (k a) s) → denied (m ≫= k) s.
Proof.
  intros Hm Hk. apply always_mbind. eapply always_mono; [exact Hm|].
  intros [a|y] s' [-> Hr]; [by apply Hk|eauto].
Qed.
Lemma denied_when {A} b y (k : H A) s : refusal y → b = true → denied (when b y;; k) s.
Proof. intros Hy ->. apply always_mbind, always_mfail. eauto. Qed.

Lemma looks_when b y s : refusal y → looks (when b y) s (λ _, b = false).
Proof. intros Hy. unfold when. destruct b; [by apply always_mfail|by apply always_mret]. Qed.
Lemma looks_path_id id s : looks (path_id id) s (λ k, uuid_parse id = Some k).
Proof. unfold path_id. destruct (uuid_parse id); [by apply always_mret|by apply always_mfail]. Qed.
Lemma looks_bind {A B} (m : H A) (k : A → H B) s P Q :
  looks m s P → (∀ a, P a → looks (k a) s Q) → looks (m ≫= k) s Q.
Proof.
  intros Hm Hk. apply always_mbind. eapply always_mono; [exact Hm|].
  intros [a|y] s' [-> Hr]; [by apply Hk|done].
Qed.
Lemma looks_ret {A} (a : A) s (P : A → Prop) : P a → looks (mret a) s P.
Proof. intros Ha. by apply always_mret. Qed.
Lemma looks_mono {A} (m : H A) s (P Q : A → Prop) : looks m s P → (∀ a, P a → Q a) → looks m s Q.
Proof. intros Hm HPQ. eapply always_mono; [exact Hm|]. intros [a|y] s' [? ?]; auto. Qed.

(** A query of one component. *)
Lemma looks_via {T E A} (get : server → T) set f (m : M T E A) s (P : A → Prop) :
  set (get s) s = s → (∀ err, refusal (f err)) →
  always m (λ r t, t = get s ∧ match r with Ok a => P a | Err _ => True end) (get s) →
  looks (via get set f m) s P.
Proof.
  intros Hset Hf Hm. apply always_mwrap, always_mzoom. eapply always_mono; [exact Hm|].
  intros [a|err] t [-> Hr]; rewrite Hset; auto.
Qed.
Lemma looks_try_via {T E A} (get : server → T) set (m : M T E A) s (P : res E A → Prop) :
  set (get s) s = s → always m (λ r t, t = get s ∧ P r) (get s) → looks (try_via get set m) s P.
Proof.
  intros Hset Hm. apply always_mtry, always_mzoom. eapply always_mono; [exact Hm|].
  intros r t [-> Hr]. by rewrite Hset.
Qed.

Lemma set_registry_same s : set_registry (se_registry s) s = s.
Proof. by destruct s as [? []]. Qed.
Lemma set_rs_same s : set_rs (se_rs s) s = s.
Proof. by destruct s. Qed.

Lemma GetByID_looks id d :
  always (Device.GetByID id) (λ r t, t = d ∧ match r with Ok (k, x) => k = id ∧ devices d !! id = Some x | Err _ => True end) d.
Proof. unfold Device.GetByID. always_steps; eauto. Qed.
Lemma GetSession_looks id d :
  always (GetSession id) (λ r t, t = d ∧ match r with Ok (k, x) => k = id ∧ rd_sessions d !! id = Some x | Err _ => True end) d.
Proof. unfold GetSession. always_steps; eauto. Qed.

Lemma looks_load_device id s : looks (load_device id) s (λ kd, device_at s id = Some kd.2).
Proof.
  unfold load_device. eapply looks_bind; [apply looks_path_id|]. intros k Hk.
  apply looks_via; [apply set_registry_same|done|].
  eapply always_mono; [apply GetByID_looks|]. intros [[k' d]|] t [-> Hr]; [|done].
  destruct Hr as [-> Hd]. split; [done|]. unfold device_at. by rewrite Hk.
Qed.

Lemma looks_load_device_access cx id p s :
  looks (loadDeviceWithAccess cx id p) s (λ kd, device_at s id = Some kd.2 ∧ granted_on cx [p] kd.2 = true).
Proof.
  unfold loadDeviceWithAccess. eapply looks_bind; [apply looks_load_device|]. intros [k d] Hd.
  eapply looks_bind; [by apply looks_when|]. intros _ Hp%negb_false_iff. apply looks_ret.
  split; [done|]. unfold granted_on. simpl. by rewrite Hp.
Qed.

Lemma looks_load_session cx id s :
  looks (loadSessionWithAccess cx id) s (λ ks, session_at s id = Some ks.2 ∧ may_use_session cx s ks.2 = true).
Proof.
  unfold loadSessionWithAccess. eapply looks_bind; [apply looks_path_id|]. intros k Hk.
  eapply looks_bind; [apply looks_via; [apply set_rs_same|done|apply GetSession_looks]|].
  intros [k' sess] [_ Hs].
  eapply looks_bind; [apply looks_try_via; [apply set_registry_same|apply GetByID_looks]|]. intros dr Hdr.
  eapply looks_bind; [by apply looks_when|]. intros [] Hok. apply looks_ret. simpl. split.
  - unfold session_at. by rewrite Hk.
  - unfold may_use_session. apply orb_true_iff.
    destruct (rs_UserID sess =? _)%N eqn:Eo; [by left|right]. simpl in Hok. apply negb_false_iff in Hok.
    destruct dr as [[k2 d]|]; [|done]. destruct Hdr as [_ ->]. unfold granted_on. simpl. by rewrite Hok.
Qed.

Lemma looks_body_id v s : looks (body_id v) s (λ c, scope_id v = Some c).
Proof.
  unfold body_id, optional_id, scope_id. destruct (String.eqb _ _); [by apply looks_ret|].
  eapply looks_bind; [apply looks_path_id|]. intros k ->. by apply looks_ret.
Qed.
Lemma looks_body_of {A} (b : option A) s : looks (body_of b) s (λ x, b = Some x).
Proof. destruct b; [by apply looks_ret|by apply always_mfail]. Qed.

(** A check that finds nothing acceptable ends the handler. *)
Lemma denied_never {A B} (m : H A) (k : A → H B) s P : looks m s P → (∀ a, ¬ P a) → denied (m ≫= k) s.
Proof. intros Hm Hno. eapply denied_looks; [exact Hm|]. intros a Ha. by destruct (Hno a). Qed.

Lemma denied_any {A} cx p (k : H A) s : authorized cx s (AnyGrant p) = false → denied (require_any cx p;; k) s.
Proof. simpl. intros Hno. unfold require_any. rewrite Hno. by apply denied_when. Qed.

Lemma denied_device {A} cx id p (k : uuid * Device → H A) s :
  authorized cx s (OnDevice id [p]) = false → denied (loadDeviceWithAccess cx id p ≫= k) s.
Proof.
  unfold authorized. intros Hno. eapply denied_never; [apply looks_load_device_access|].
  intros a [Hd Hp]. rewrite Hd in Hno. congruence.
Qed.

Lemma denied_session {A} cx id (k : uuid * RemoteSession → H A) s :
  authorized cx s (OnSession id) = false → denied (loadSessionWithAccess cx id ≫= k) s.
Proof.
  unfold authorized. intros Hno. eapply denied_never; [apply looks_load_session|].
  intros a [Hs Hu]. rewrite Hs in Hno. congruence.
Qed.

Lemma denied_support {A} cx id (k : uuid → Device → H A) s :
  authorized cx s (OnDevice id [PermRemoteTunnelSSH; PermRemoteTunnelRDP]) = false →
  denied ('(i, d) ← load_device id; when (negb (may_tunnel cx d)) not_permitted;; k i d) s.
Proof.
  simpl. intros Hno. eapply denied_looks; [apply looks_load_device|]. intros [i d] Hd. simpl in Hd.
  rewrite Hd in Hno. apply denied_when; [done|]. apply negb_true_iff. rewrite <-Hno.
  unfold granted_on, may_tunnel. simpl. by rewrite orb_false_r.
Qed.

Lemma denied_enrollment cx e body s :
  authorized cx s (requirement_of (PostEnrollments body)) = false → denied (handleCreateEnrollment cx e body) s.
Proof.
  unfold handleCreateEnrollment. intros Hno.
  eapply denied_looks; [by apply looks_when|]. intros _ Hany%negb_false_iff.
  destruct body as [req|]; [|simpl in Hno; congruence]. simpl in Hno.
  eapply denied_looks; [apply looks_body_of|]. intros ? [= <-].
  eapply denied_looks; [apply looks_body_id|]. intros c Hc. rewrite Hc in Hno.
  eapply denied_looks; [apply looks_body_id|]. intros g Hg. rewrite Hg in Hno.
  apply denied_when; [done|]. by rewrite Hno.
Qed.

Lemma denied_privilege h cx e id body s :
  authorized cx s (OnSessionWith id PermPrivilegeRequest) = false → denied (handleGrantPrivilege h cx e id body) s.
Proof.
  simpl. intros Hno. unfold handleGrantPrivilege. eapply denied_looks; [apply looks_load_session|].
  intros [k sess] [Hs Hu]. simpl in Hs, Hu. rewrite Hs, Hu in Hno. simpl in Hno.
  eapply denied_looks; [apply looks_via; [apply set_registry_same|done|apply GetByID_looks]|].
  intros [k' d] [-> Hd]. rewrite Hd in Hno. unfold granted_on in Hno. simpl in Hno. rewrite orb_false_r in Hno.
  apply denied_when; [done|]. by rewrite Hno.
Qed.

Lemma denied_tunnel h cx e id target s :
  authorized cx s (requirement_of (PostTunnels id target)) = false → denied (handleCreateTunnel h cx e id target) s.
Proof.
  simpl. intros Hno. unfold handleCreateTunnel. eapply denied_looks; [apply looks_load_device|].
  intros [k d] Hd. simpl in Hd. rewrite Hd in Hno.
  destruct target as [t|]; simpl; [|by apply denied_fail]. unfold target_of.
  destruct (String.eqb t "ssh_local"); [|destruct (String.eqb t "rdp_local"); [|by apply denied_fail]];
    unfold granted_on in Hno; simpl in Hno; rewrite orb_false_r in Hno; (apply denied_when; [done|]); by rewrite Hno.
Qed.

Lemma serve_denied h cx e r s : authorized cx s (requirement_of r) = false → denied (serve h cx e r) s.
Proof.
  destruct r; try done; cbn [serve];
    first [ exact (denied_any _ _ _ _) | exact (denied_device _ _ _ _ _) | exact (denied_session _ _ _ _)
          | exact (denied_support _ _ _ _) | exact (denied_enrollment _ _ _ _) | exact (denied_privilege _ _ _ _ _ _)
          | exact (denied_tunnel _ _ _ _ _ _) ].
Qed.

(** Behind the guard: a request that does not pass is refused and changes at
    most the idle expiry of a session. *)
Lemma guarded_always {A} h e req (next : authctx → H A) (Q : res Reply A → server → Prop) s :
  (∀ y s1, refusal y → only_slid (h_svc h) (en_now e) (se_svc s) s1 → Q (Err y) (set_svc s1 s)) →
  (∀ cx s1, csrf_ok (CSRFEnabled (Security (h_cfg h))) req = true →
     only_slid (h_svc h) (en_now e) (se_svc s) s1 → entitled (h_svc h) req (en_now e) (se_svc s) cx s1 →
     always (next cx) Q (set_svc s1 s)) →
  always (guarded h e req next) Q s.
Proof.
  intros Hrefuse Hnext. unfold guarded. destruct (csrf_ok _ _) eqn:Ecsrf.
  2:{ apply always_mbind, always_mfail. assert (Q (Err not_permitted) (set_svc (se_svc s) s)) as HQ; [|by destruct s].
      apply Hrefuse; [done|]. split; [by exists ""%string, (Err ErrDB)|by destruct (se_svc s)]. }
  apply always_mbind, always_mret, always_mbind, always_mwrap, always_mzoom.
  eapply always_mono; [apply CheckSession_always|]. intros [cx|resp] s1 [Hslid Hr]; [auto|].
  apply Hrefuse; [|done]. split; [|done]. simpl. destruct Hr; lia.
Qed.

(** Complete mediation: whatever a client sends to any of the protected
    routes, and whatever statements fail on the way, either the request
    passed the CSRF check, carries a live session of an active user, and that
    user's current role assignments meet the route's entry in the
    access-control matrix; or the reply is an error without data and nothing
    has changed but the idle expiry of a session. *)
Theorem api_complete_mediation h e req r s :
  always (protected h e req r) (λ y s',
    (∃ cx s1, csrf_ok (CSRFEnabled (Security (h_cfg h))) req = true ∧
       entitled (h_svc h) req (en_now e) (se_svc s) cx s1 ∧ authorized cx s (requirement_of r) = true) ∨
    (refusal (reply_of y) ∧ ∃ s1, only_slid (h_svc h) (en_now e) (se_svc s) s1 ∧ s' = set_svc s1 s)) s.
Proof.
  apply guarded_always; [intros y s1 Hy Hslid; right; eauto|]. intros cx s1 Hcsrf Hslid Hent.
  destruct (authorized cx s (requirement_of r)) eqn:Ea; [apply always_any; intros; left; eauto|].
  change (authorized cx (set_svc s1 s) (requirement_of r) = false) in Ea.
  eapply always_mono; [apply serve_denied, Ea|]. intros y s' (-> & y' & -> & Hy). right. eauto.
Qed.
End api.
