(* ===== verification/Routes.v ===== *)
(** The two listeners ([internal/httpapi/router.go]): the route tables of the
    public and the admin side as [HandleFunc] registers them, from the method,
    path, query and body of a request to the handler's program; and that there
    is no way around the guards. *)
From S2P Require Import Prelude AgentUpdate Base64 Sha256 Rbac RateLimit Password AuthStore Sessions Mfa.
From S2P Require Import AuthService Device Enrollment AuditLog Metrics Monitoring Alerting Protocol.
From S2P Require Import Messages Codec Hub Relay RemoteSession AgentRelease Settings Support Customers.
From S2P Require Import Config Notify Help Paths ServeMux Server HttpDevices HttpRemote HttpSessions HttpAdmin Api.

(** ** Requests *)

(** What a handler draws from elsewhere than the request's text: random
    bytes, the WebSocket of a stream with its events, how the upload body
    arrives, what GitHub lists, and the agent's WebSocket. *)
Record surroundings : Type := mkSurroundings {
  su_ent : entropy;
  su_csrf : bytes;
  su_rand : supply;
  su_accepted : bool;
  su_events : list (time * stream_event);
  su_turns : nat;
  su_chunks : list bytes * bool;
  su_releases : option (list ghRelease);
  su_agent : M hub hub_error unit }.
(** Method, cookies, CSRF header and address; the path as written; the query
    values ([Query().Get]); the body. *)
Record raw_request : Type := mkRaw {
  rw_req : Request;
  rw_path : bytes;
  rw_query : string → string;
  rw_body : bytes;
  rw_su : surroundings }.

(** [encoding/json] into the request types, with [DisallowUnknownFields]; the
    decoder reads the first value of its input.  [js_partial] is a field as
    far as a decoding whose error is dropped got. *)
Class RequestJSON : Type := {
  js_strings : list string → bytes → option (list string);
  js_partial : string → bytes → string;
  js_partial_int : string → bytes → Z;
  js_int : string → bytes → option Z;
  js_bool : string → bytes → option bool;
  js_retention : bytes → option retentionRequest;
  js_enrollment : bytes → option createEnrollmentRequest;
  js_patchDevice : bytes → option patchDeviceRequest;
  js_privilege : bytes → option privilegeRequest;
  js_group : bytes → option groupRequest;
  js_rule : bytes → option ruleRequest;
  js_release : bytes → option releaseRequest;
  js_status : bytes → option statusRequest }.

(** [http.MaxBytesReader] cuts the body at 1 MiB. *)
(* internal/httpapi/handlers.go:78-82 decodeJSON *)
Definition decodeJSON {T} (dec : bytes → T) (r : raw_request) : T := dec (take (Z.to_nat (2 ^ 20)) (rw_body r)).

Section routes.
Context `{RequestJSON}.

(** A body of string fields. *)
Definition one (names : list string) (r : raw_request) : option string :=
  match decodeJSON (js_strings names) r with Some [a] => Some a | _ => None end.
Definition two (names : list string) (r : raw_request) : option (string * string) :=
  match decodeJSON (js_strings names) r with Some [a; b] => Some (a, b) | _ => None end.
Definition three (names : list string) (r : raw_request) : option (string * string * string) :=
  match decodeJSON (js_strings names) r with Some [a; b; c] => Some (a, b, c) | _ => None end.

(** [r.PathValue], by position. *)
Definition val (v : list string) (i : nat) : string := default ""%string (v !! i).
Definition query (r : raw_request) (name : string) : string := rw_query r name.

Definition device_query_of (r : raw_request) : device_query :=
  mkDeviceQuery (query r "status") (query r "health") (query r "tag") (query r "q") (query r "customer_id")
    (query r "group_id") (query r "page") (query r "page_size").
Definition metrics_query_of (r : raw_request) : metrics_query :=
  mkMetricsQuery (query r "resolution") (query r "from") (query r "to").
Definition audit_query_of (r : raw_request) : audit_query :=
  mkAuditQuery (query r "event_type") (query r "actor_id") (query r "device_id") (query r "from") (query r "to")
    (query r "format").
Definition logs_query_of (r : raw_request) : logs_query :=
  mkLogsRequest (query r "query") (query r "level") (query r "since") (query r "until") (query r "limit").
Definition customer_of (r : raw_request) : option createCustomerRequest :=
  '(a, b, c) ← three ["name"; "customer_number"; "notes"]%string r; Some (mkCreateCustomer a b c).
Definition customer_patch_of (r : raw_request) : option updateCustomerRequest :=
  match decodeJSON (js_strings ["name"; "customer_number"; "notes"; "status"]%string) r with
  | Some [a; b; c; d] => Some (mkUpdateCustomer a b c d)
  | _ => None
  end.
Definition user_of (r : raw_request) : option userRequest :=
  '(a, b, c) ← three ["username"; "display_name"; "role"]%string r; Some (mkUserRequest a b c).
Definition agent_enroll_of (r : raw_request) : option agentEnrollRequest :=
  match decodeJSON (js_strings ["token"; "install_id"; "public_key"; "agent_version"; "os"; "arch"; "hostname"]%string) r with
  | Some [a; b; c; d; e; f; g] => Some (mkAgentEnroll a b c d e f g)
  | _ => None
  end.

(** ** The protected table *)

Definition route : Type := pattern * (list string → raw_request → api_request).
Definition on (text : string) (k : list string → raw_request → api_request) : route := (parse_pattern text, k).

(* internal/httpapi/router.go:255-269 NewRouter *)
Definition devices_routes : list route := [
  on "GET /api/v1/devices" (λ _ r, GetDevices (device_query_of r));
  on "GET /api/v1/devices/{id}" (λ v _, GetDevice (val v 0));
  on "PATCH /api/v1/devices/{id}" (λ v r, PatchDevice (val v 0) (decodeJSON js_patchDevice r));
  on "POST /api/v1/devices/{id}/status-request" (λ v _, PostStatusRequest (val v 0));
  on "GET /api/v1/devices/{id}/health" (λ v _, GetHealth (val v 0));
  on "GET /api/v1/devices/{id}/ip-history" (λ v r, GetIPHistory (val v 0) (query r "hours"));
  on "GET /api/v1/devices/{id}/metrics" (λ v r, GetMetrics (val v 0) (metrics_query_of r));
  on "GET /api/v1/devices/{id}/network-metrics" (λ v r, GetNetworkMetrics (val v 0) (metrics_query_of r));
  on "GET /api/v1/network-usage" (λ _ r, GetNetworkUsage (query r "hours"));
  on "POST /api/v1/devices/{id}/revoke" (λ v r, PostRevokeDevice (val v 0) (decodeJSON (js_partial "reauth_id") r));
  on "DELETE /api/v1/devices/{id}" (λ v r, DeleteDevice (val v 0) (decodeJSON (js_partial "reauth_id") r));
  on "GET /api/v1/devices/{id}/audit" (λ v _, GetDeviceAudit (val v 0));
  on "GET /api/v1/audit" (λ _ r, GetAudit (audit_query_of r));
  on "GET /api/v1/audit/export" (λ _ r, GetAuditExport (audit_query_of r));
  on "POST /api/v1/audit/verify" (λ _ _, PostAuditVerify)]%string.

(* internal/httpapi/router.go:271-281 NewRouter *)
Definition session_routes : list route := [
  on "POST /api/v1/devices/{id}/sessions" (λ v r, PostSessions (val v 0) (one ["kind"] r));
  on "GET /api/v1/sessions/{id}" (λ v _, GetSession_ (val v 0));
  on "DELETE /api/v1/sessions/{id}" (λ v _, DeleteSession (val v 0));
  on "GET /api/v1/sessions/{id}/stream"
    (λ v r, GetSessionStream (val v 0) (su_accepted (rw_su r)) (su_events (rw_su r)));
  on "POST /api/v1/sessions/{id}/privilege" (λ v r, PostPrivilege (val v 0) (decodeJSON js_privilege r));
  on "DELETE /api/v1/sessions/{id}/privilege" (λ v _, DeletePrivilege (val v 0));
  on "POST /api/v1/devices/{id}/tunnels" (λ v r, PostTunnels (val v 0) (one ["target_type"] r))]%string.

(* internal/httpapi/router.go:283-298 NewRouter *)
Definition remote_routes : list route := [
  on "GET /api/v1/devices/{id}/services" (λ v _, GetServices (val v 0));
  on "POST /api/v1/devices/{id}/services/{service}/start" (λ v _, PostServiceStart (val v 0) (val v 1));
  on "POST /api/v1/devices/{id}/services/{service}/stop" (λ v _, PostServiceStop (val v 0) (val v 1));
  on "POST /api/v1/devices/{id}/services/{service}/restart" (λ v _, PostServiceRestart (val v 0) (val v 1));
  on "GET /api/v1/devices/{id}/processes" (λ v _, GetProcesses (val v 0));
  on "POST /api/v1/devices/{id}/processes/{pid}/terminate"
    (λ v r, PostTerminate (val v 0) (val v 1) (decodeJSON (js_partial_int "start_time_unix_ms") r));
  on "GET /api/v1/devices/{id}/logs" (λ v r, GetLogs (val v 0) (logs_query_of r));
  on "GET /api/v1/devices/{id}/files" (λ v r, GetFiles (val v 0) (query r "path"));
  on "GET /api/v1/devices/{id}/files/download" (λ v r, GetFilesDownload (val v 0) (query r "path") (su_turns (rw_su r)));
  on "POST /api/v1/devices/{id}/files/upload"
    (λ v r, PostFilesUpload (val v 0) (query r "path") (su_chunks (rw_su r)).1 (su_chunks (rw_su r)).2);
  on "POST /api/v1/devices/{id}/files/mkdir" (λ v r, PostFilesMkdir (val v 0) (one ["path"] r));
  on "POST /api/v1/devices/{id}/files/rename" (λ v r, PostFilesRename (val v 0) (two ["from"; "to"] r));
  on "DELETE /api/v1/devices/{id}/files" (λ v r, DeleteFiles (val v 0) (query r "path"))]%string.

(* internal/httpapi/router.go:300-307 NewRouter *)
Definition customer_routes : list route := [
  on "GET /api/v1/customers" (λ _ _, GetCustomers);
  on "POST /api/v1/customers" (λ _ r, PostCustomers (customer_of r));
  on "PATCH /api/v1/customers/{id}" (λ v r, PatchCustomer (val v 0) (customer_patch_of r));
  on "GET /api/v1/groups" (λ _ r, GetGroups (query r "customer_id"));
  on "POST /api/v1/groups" (λ _ r, PostGroups (decodeJSON js_group r));
  on "PATCH /api/v1/groups/{id}" (λ v r, PatchGroup (val v 0) (one ["name"] r));
  on "DELETE /api/v1/groups/{id}" (λ v _, DeleteGroup_ (val v 0));
  on "GET /api/v1/devices/{id}/maintenance" (λ v _, GetMaintenance (val v 0))]%string.

(* internal/httpapi/router.go:309-328 NewRouter *)
Definition alert_routes : list route := [
  on "GET /api/v1/alert-rules" (λ _ _, GetAlertRules);
  on "POST /api/v1/alert-rules" (λ _ r, PostAlertRules (decodeJSON js_rule r));
  on "PATCH /api/v1/alert-rules/{id}" (λ v r, PatchAlertRule (val v 0) (decodeJSON (js_bool "enabled") r));
  on "DELETE /api/v1/alert-rules/{id}" (λ v _, DeleteAlertRule (val v 0));
  on "GET /api/v1/alerts" (λ _ r, GetAlerts (query r "state") (query r "device_id"));
  on "GET /api/v1/alerts/open-count" (λ _ _, GetAlertsOpenCount);
  on "GET /api/v1/devices/{id}/support-credential" (λ v _, GetSupportCredential_ (val v 0));
  on "POST /api/v1/devices/{id}/support-credential/rotate" (λ v _, PostSupportRotate (val v 0));
  on "GET /api/v1/settings/retention" (λ _ _, GetRetention);
  on "PATCH /api/v1/settings/retention" (λ _ r, PatchRetention (decodeJSON js_retention r));
  on "GET /api/v1/settings/network-retention" (λ _ _, GetNetworkRetention);
  on "PATCH /api/v1/settings/network-retention" (λ _ r, PatchNetworkRetention (decodeJSON js_retention r));
  on "GET /api/v1/settings/support-credential-rotation" (λ _ _, GetRotation);
  on "PATCH /api/v1/settings/support-credential-rotation" (λ _ r, PatchRotation (decodeJSON (js_int "rotation_days") r));
  on "GET /api/v1/settings/telegram" (λ _ _, GetTelegram);
  on "PATCH /api/v1/settings/telegram" (λ _ r, PatchTelegram (two ["bot_token"; "chat_id"] r));
  on "POST /api/v1/settings/telegram/test" (λ _ _, PostTelegramTest);
  on "POST /api/v1/alerts/{id}/acknowledge" (λ v _, PostAcknowledge (val v 0));
  on "POST /api/v1/alerts/{id}/resolve" (λ v _, PostResolve (val v 0));
  on "DELETE /api/v1/alerts/{id}" (λ v _, DeleteAlert_ (val v 0))]%string.

(* internal/httpapi/router.go:330-343 NewRouter *)
Definition admin_routes : list route := [
  on "GET /api/v1/agent/releases" (λ _ _, GetReleases);
  on "POST /api/v1/agent/releases" (λ _ r, PostReleases (decodeJSON js_release r));
  on "PATCH /api/v1/agent/releases/{id}" (λ v r, PatchRelease (val v 0) (decodeJSON (js_bool "blocked") r));
  on "POST /api/v1/agent/releases/sync" (λ _ r, PostReleasesSync (su_releases (rw_su r)));
  on "POST /api/v1/devices/{id}/update" (λ v r, PostUpdate (val v 0) (decodeJSON (js_partial "channel") r));
  on "POST /api/v1/enrollments/revoke-all" (λ _ _, PostEnrollmentsRevokeAll);
  on "GET /api/v1/users" (λ _ _, GetUsers);
  on "POST /api/v1/users" (λ _ r, PostUsers (su_rand (rw_su r)) (user_of r));
  on "PATCH /api/v1/users/{id}" (λ v r, PatchUser (val v 0) (decodeJSON js_status r));
  on "POST /api/v1/users/{id}/revoke-sessions" (λ v _, PostRevokeSessions (val v 0));
  on "GET /api/v1/help/index" (λ _ _, GetHelpIndex);
  on "GET /api/v1/help/{slug}" (λ v _, GetHelpPage (val v 0))]%string.

(* internal/httpapi/router.go:249-343 NewRouter *)
Definition protected_mux : list route := [
  on "GET /api/v1/me" (λ _ _, GetMe);
  on "POST /api/v1/auth/change-password"
    (λ _ r, PostChangePassword (two ["reauth_id"; "new_password"] r) (su_ent (rw_su r)));
  on "POST /api/v1/enrollments" (λ _ r, PostEnrollments (decodeJSON js_enrollment r));
  on "GET /api/v1/enrollments" (λ _ _, GetEnrollments);
  on "DELETE /api/v1/enrollments/{id}" (λ v _, DeleteEnrollment (val v 0))]%string ++
  devices_routes ++ session_routes ++ remote_routes ++ customer_routes ++ alert_routes ++ admin_routes.
End routes.

(** ** Pages outside the API *)

(** A tilde stands for a double quote. *)
Definition text_of (s : string) : bytes := map (λ c, if Ascii.eqb c "~" then ascii_of_nat 34 else c) (raw s).

(* internal/httpapi/router.go:373-382 deterrentCSS *)
Definition deterrentCSS : bytes := raw "
  html, body { height:100%; margin:0; }
  body { background:#0b0e14; color:#c9d1d9; font-family:system-ui,-apple-system,Segoe UI,sans-serif;
         display:flex; align-items:center; justify-content:center; text-align:center; }
  .box { max-width:420px; padding:2rem; margin:0 auto; }
  h1 { font-size:1.4rem; margin-bottom:0.5rem; }
  p { color:#8b949e; line-height:1.5; }
  a { color:#58a6ff; text-decoration:none; }
  a:hover { text-decoration:underline; }
".
(** The template before and after its [%s]. *)
(* internal/httpapi/router.go:384-398 deterrentHTMLTemplate *)
Definition deterrentHTMLTemplate : bytes * bytes :=
  (text_of "<!DOCTYPE html>
<html lang=~en~>
<head>
<meta charset=~utf-8~>
<title>Nothing here</title>
<style>" ++ deterrentCSS ++ text_of "</style>
</head>
<body>
  <div class=~box~>
    <h1>Looks like you took a wrong turn.</h1>
    <p>There's nothing to see at this address.</p>
    ", text_of "
  </div>
</body>
</html>").
(* internal/httpapi/router.go:400-403 deterrentCSPStyleHash *)
Definition deterrentCSPStyleHash : string := "'sha256-" +:+ std_encode (Sum256 deterrentCSS) +:+ "'".

(** [template.HTMLEscapeString]: as [html.EscapeString], and the replacement
    character for NUL. *)
Definition HTMLEscapeString (u : bytes) : bytes :=
  flat_map (λ c, if Ascii.eqb c zero then map byte_of [239; 191; 189]%N else escape_byte c) u.

Definition header : Type := string * string.
(** [Header.Set] replaces. *)
Definition set_header (k v : string) (hs : list header) : list header :=
  filter (λ kv, kv.1 ≠ k) hs ++ [(k, v)].

(** Status, headers beyond the common ones, body. *)
Record static_page : Type := mkPage { pg_Status : Z; pg_Headers : list header; pg_Body : bytes }.

(* internal/httpapi/router.go:412-429 handleDeterrent *)
Definition handleDeterrent (cfg : ServerConfig) : static_page :=
  let u := str_bytes (DeterrentContactURL (Public cfg)) in
  let contact :=
    if bool_decide (u = []) then text_of "<p>There's nothing to see at this address.</p>"
    else let escaped := HTMLEscapeString u in
         text_of "<p>Questions? <a href=~" ++ escaped ++ text_of "~>" ++ escaped ++ text_of "</a></p>" in
  mkPage 403
    [("Content-Security-Policy", "default-src 'self'; style-src " +:+ deterrentCSPStyleHash +:+
        "; frame-ancestors 'none'; base-uri 'none'"); ("Content-Type", "text/html; charset=utf-8")]%string
    (deterrentHTMLTemplate.1 ++ contact ++ deterrentHTMLTemplate.2).

(* internal/httpapi/security.go:14-27 withSecurityHeaders *)
Definition security_headers (cfg : ServerConfig) : list header :=
  [("X-Content-Type-Options", "nosniff"); ("Referrer-Policy", "no-referrer");
   ("Content-Security-Policy", "default-src 'self'; frame-ancestors 'none'; base-uri 'none'");
   ("X-Frame-Options", "DENY")]%string ++
  (if HSTSEnabled (Security cfg) then [("Strict-Transport-Security", "max-age=63072000; includeSubDomains")]%string else []).

(** ** The listeners *)

Inductive page : Type :=
| PReply (y : Reply)
| PAuth (resp : Response)
| PHealth (version : string)
| PStatic (p : static_page)
| PSocket
| PMoved (to : bytes)
| PMux (status : Z).

Inductive open_endpoint : Type := EHealth | ELogin | ETOTP | EMFASetup | ELogout | EReauth.
Inductive admin_handler : Type := Open (x : open_endpoint) | Guarded.
(* internal/httpapi/router.go:241-247 NewRouter *)
Definition open_mux : list (pattern * admin_handler) := [
  (parse_pattern "GET /health", Open EHealth);
  (parse_pattern "POST /api/v1/auth/login", Open ELogin);
  (parse_pattern "POST /api/v1/auth/totp", Open ETOTP);
  (parse_pattern "POST /api/v1/auth/mfa-setup", Open EMFASetup);
  (parse_pattern "POST /api/v1/auth/logout", Open ELogout);
  (parse_pattern "POST /api/v1/auth/reauth", Open EReauth)]%string.
(* internal/httpapi/router.go:345-345 NewRouter *)
Definition admin_mux : list (pattern * admin_handler) := open_mux ++ [(parse_pattern "/api/v1/", Guarded)].

Inductive public_handler : Type := PubHealth | PubEnroll | PubControl | PubDeterrent | PubTunnel.
(* internal/httpapi/router.go:226-239 NewRouter *)
Definition public_mux : list (pattern * public_handler) := [
  (parse_pattern "GET /health", PubHealth);
  (parse_pattern "POST /api/v1/agent/enroll", PubEnroll);
  (parse_pattern "GET /api/v1/agent/control", PubControl);
  (parse_pattern "/", PubDeterrent);
  (parse_pattern "GET /api/v1/tunnels/stream", PubTunnel)]%string.

Section listeners.
Context `{UuidText, Backend, Argon2, AEAD, TelegramAPI, Totp, RequestJSON, !Json Envelope, !Json InventoryRequestPayload,
  !Json DeviceCommandPayload, !Json CommandResultPayload, !Json ServiceActionParams, !Json ProcessTerminateParams,
  !Json FilesListParams, !Json FilesMkdirParams, !Json FilesRenameParams, !Json FilesDeleteParams,
  !Json FilesDownloadParams, !Json FilesUploadParams, !Json LogsQueryParams, !Json AgentUpdateParams}.
Context (http_get : string → option http_response).
Implicit Types (cx : authctx) (e : env) (h : handlers) (r : raw_request).

Definition mux_page {A} (o : outcome A) (k : A → list string → H page) : H page :=
  match o with
  | Found x v => k x v
  | Moved p => mret (PMoved p)
  | NotAllowed => mret (PMux 405)
  | Missing => mret (PMux 404)
  end.
Definition find {A} (mux : list (pattern * A)) r : outcome A := find_handler mux (rq_Method (rw_req r)) (rw_path r).
Definition api_page (m : H Reply) : H page := y ← mtry (F := Reply) m; mret (PReply (reply_of y)).
Definition auth_page (m : SvcM Response) : H page :=
  y ← mtry (F := Reply) (mzoom se_svc set_svc m);
  mret (match y with Ok resp => PAuth resp | Err _ => PMux 500 end).

(* internal/httpapi/router.go:355-358 handleHealth *)
Definition handleHealth h : page := PHealth (h_version h).

Definition open_page h e r (x : open_endpoint) : H page :=
  let su := rw_su r in
  match x with
  | EHealth => mret (handleHealth h)
  | ELogin => auth_page (handleLogin be_citext (h_svc h) (rw_req r) (two ["username"; "password"]%string r) (su_ent su)
                (su_csrf su) (en_now e))
  | ETOTP => auth_page (handleTOTP (h_svc h) (rw_req r) (two ["challenge_id"; "code"]%string r) (su_ent su) (su_csrf su) (en_now e))
  | EMFASetup => auth_page (handleMFASetupConfirm be_citext (h_svc h) (rw_req r)
                   (three ["username"; "password"; "code"]%string r) (su_ent su) (su_csrf su) (en_now e))
  | ELogout => auth_page (handleLogout (h_svc h) (rw_req r) (en_now e))
  | EReauth => auth_page (handleReauth (h_svc h) (rw_req r) (two ["password"; "code"]%string r) (su_ent su) (en_now e))
  end.

(** The protected mux behind the guard. *)
Definition protected_page h e r : H page :=
  y ← mtry (F := Reply) (guarded h e (rw_req r) (λ cx,
        mux_page (find protected_mux r) (λ k v, api_page (serve http_get h cx e (k v r)))));
  mret (match y with Ok p => p | Err y => PReply y end).

(* internal/httpapi/router.go:241-345 NewRouter *)
Definition admin h e r : H page :=
  mux_page (find admin_mux r) (λ x _,
    match x with Open x => open_page h e r x | Guarded => protected_page h e r end).

(* internal/httpapi/handlers_enrollment.go:203-209 handleAgentControl *)
Definition handleAgentControl e (serveAgentWS : M hub hub_error unit) : H page :=
  ok ← mstate (λ s, let '(ok, l) := Allow (se_controlLimiter s) ("control:" +:+ en_ip e) (en_now e) in
                    (ok, set_limiters (se_enrollLimiter s) l (se_ticketLimiter s) s));
  if negb ok then mret (PReply (refuse 429 "rate_limited"))
  else mignore (E := hub_error) (mzoom se_hub set_hub serveAgentWS);; mret PSocket.

(* internal/httpapi/router.go:226-239 NewRouter *)
Definition public h e r : H page :=
  mux_page (find public_mux r) (λ x _,
    match x with
    | PubHealth => mret (handleHealth h)
    | PubEnroll => api_page (handleAgentEnroll e (agent_enroll_of r))
    | PubControl => handleAgentControl e (su_agent (rw_su r))
    | PubDeterrent => mret (PStatic (handleDeterrent (h_cfg h)))
    | PubTunnel => api_page (handleTunnelStream e (query r "ticket") (su_accepted (rw_su r)) (su_events (rw_su r)))
    end).

(** The headers of a response: the common ones, replaced by the page's own. *)
Definition page_headers (p : page) : list header :=
  match p with
  | PStatic s => pg_Headers s
  | PReply _ | PAuth _ => [("Content-Type", "application/json"); ("X-Content-Type-Options", "nosniff")]%string
  | PHealth _ => [("Content-Type", "application/json")]%string
  | _ => []
  end.
Definition headers_of (cfg : ServerConfig) (p : page) : list header :=
  fold_left (λ hs kv, set_header kv.1 kv.2 hs) (page_headers p) (security_headers cfg).

(** ** No way around the guards *)

(** The method and the path of an open endpoint. *)
Definition entry (x : open_endpoint) : string * list string :=
  match x with
  | EHealth => ("GET", ["health"])
  | ELogin => ("POST", ["api"; "v1"; "auth"; "login"])
  | ETOTP => ("POST", ["api"; "v1"; "auth"; "totp"])
  | EMFASetup => ("POST", ["api"; "v1"; "auth"; "mfa-setup"])
  | ELogout => ("POST", ["api"; "v1"; "auth"; "logout"])
  | EReauth => ("POST", ["api"; "v1"; "auth"; "reauth"])
  end%string.
Definition asks_for r (x : open_endpoint) : Prop :=
  path_segs (rw_path r) = (entry x).2 ∧
  (rq_Method (rw_req r) = (entry x).1 ∨ ((entry x).1 = "GET" ∧ rq_Method (rw_req r) = "HEAD")%string).

Lemma fits_lits l path v : fits (map Lit l) path v → path = l ∧ v = [].
Proof.
  revert path v. induction l as [|s l IH]; intros path v Hf; inversion_clear Hf as [|? ? ? ? Ht| |]; [done|].
  by apply IH in Ht as [-> ->].
Qed.

Lemma open_exact r x v : find admin_mux r = Found (Open x) v → asks_for r x.
Proof using Type.
  intros (p & Hin & Hfit & _ & Hm)%find_handler_sound.
  assert (p = mkPattern (entry x).1 (map Lit (entry x).2)) as ->.
  { unfold admin_mux in Hin. apply elem_of_app in Hin as [Hin|Hin]; [|by apply list_elem_of_singleton in Hin].
    unfold open_mux in Hin. repeat (apply list.elem_of_cons in Hin as [[= -> ->]|Hin]; [vm_compute; reflexivity|]).
    by apply not_elem_of_nil in Hin. }
  apply fits_lits in Hfit as [Hp _]. split; [done|]. cbn [pt_Method] in Hm.
  destruct Hm as [<-|[Hm|[? ?]]]; [by left| |by right]. by destruct x.
Qed.

(** A page that carries nothing. *)
Definition empty_page (p : page) : Prop :=
  match p with
  | PReply y => refusal y
  | PMux status => (400 ≤ status)%Z
  | PMoved _ => True
  | _ => False
  end.
(** Nothing but the idle expiry of a session has changed. *)
Definition untouched h e (s s' : server) : Prop :=
  ∃ s1, only_slid (h_svc h) (en_now e) (se_svc s) s1 ∧ s' = set_svc s1 s.

Lemma untouched_refl h e s : untouched h e s s.
Proof.
  exists (se_svc s). split; [|by destruct s]. split; [by exists ""%string, (Err ErrDB)|by destruct (se_svc s)].
Qed.

Lemma mux_page_always {A} (o : outcome A) k (Q : res Reply page → server → Prop) s :
  (∀ p, empty_page p → Q (Ok p) s) → (∀ x v, o = Found x v → always (k x v) Q s) → always (mux_page o k) Q s.
Proof using Type.
  intros Hnone Hfound. destruct o as [p|x v| |]; [by apply always_mret, Hnone|by apply Hfound|..]; by apply always_mret, Hnone.
Qed.

(** C1: there is no way around the guards of the admin listener, whatever text
    a request consists of: either it asks, by method and path, for one of the
    six endpoints that are open by design; or it passed the CSRF check,
    carries a live session of an active user whose role assignments meet the
    access-control matrix for the handler its method and path select; or the
    answer is a redirect or an error without data and nothing has changed but
    the idle expiry of a session. *)
Theorem no_way_around h e r s :
  always (admin h e r) (λ y s', ∃ p, y = Ok p ∧
    ((∃ x, asks_for r x) ∨
     (∃ cx s1 k v, csrf_ok (CSRFEnabled (Security (h_cfg h))) (rw_req r) = true ∧
        entitled (h_svc h) (rw_req r) (en_now e) (se_svc s) cx s1 ∧
        find protected_mux r = Found k v ∧ authorized cx s (requirement_of (k v r)) = true) ∨
     (empty_page p ∧ untouched h e s s'))) s.
Proof using Type.
  unfold admin. apply mux_page_always; [intros p Hp; exists p; split; [done|]; right; right; by split; [|apply untouched_refl]|].
  intros [x|] v Hfind.
  { apply open_exact in Hfind. eapply always_mono with (P := λ y _, ∃ p, y = Ok p); [|intros y s' [p ->]; eauto 6].
    destruct x; cbn [open_page]; [apply always_mret; eauto|..];
      (apply always_mbind, always_mtry, always_any; intros y ?; apply always_mret; eauto). }
  apply always_mbind, always_mtry, guarded_always.
  { intros y s1 Hy Hslid. apply always_mret. eexists. split; [done|]. right; right. split; [done|]. by exists s1. }
  intros cx s1 Hcsrf Hslid Hent. apply mux_page_always.
  { intros p Hp. apply always_mret. exists p. split; [done|]. right; right. split; [done|]. by exists s1. }
  intros k w Hk. apply always_mbind, always_mtry.
  destruct (authorized cx s (requirement_of (k w r))) eqn:Ea.
  { apply always_any. intros y s2. do 2 apply always_mret. eexists. split; [done|]. right; left. by exists cx, s1, k, w. }
  change (authorized cx (set_svc s1 s) (requirement_of (k w r)) = false) in Ea.
  eapply always_mono; [apply serve_denied, Ea|]. intros y s2 (-> & y' & -> & Hy).
  do 2 apply always_mret. eexists. split; [done|]. right; right. split; [done|]. by exists s1.
Qed.

(** The public listener offers three endpoints that do anything; whatever
    else is asked of it leaves the server exactly as it was. *)
Definition public_entry (x : public_handler) : option (string * list string) :=
  match x with
  | PubEnroll => Some ("POST", ["api"; "v1"; "agent"; "enroll"])
  | PubControl => Some ("GET", ["api"; "v1"; "agent"; "control"])
  | PubTunnel => Some ("GET", ["api"; "v1"; "tunnels"; "stream"])
  | PubHealth | PubDeterrent => None
  end%string.
Theorem public_surface h e r s :
  always (public h e r) (λ _ s', s' = s ∨
    ∃ x m path, public_entry x = Some (m, path) ∧ path_segs (rw_path r) = path ∧
      (rq_Method (rw_req r) = m ∨ m = "GET" ∧ rq_Method (rw_req r) = "HEAD")%string) s.
Proof using Type.
  unfold public. apply mux_page_always; [by left|]. intros x v Hfind.
  destruct (public_entry x) as [[m path]|] eqn:Ex; [|destruct x; try done; apply always_mret; by left].
  apply always_any. intros y s'. right. exists x, m, path. split; [done|].
  apply find_handler_sound in Hfind as (p & Hin & Hfit & _ & Hm).
  assert (p = mkPattern m (map Lit path)) as ->.
  { unfold public_mux in Hin. repeat (apply list.elem_of_cons in Hin as [[= -> ->]|Hin];
      [first [discriminate Ex|injection Ex as <- <-; vm_compute; reflexivity]|]). by apply not_elem_of_nil in Hin. }
  apply fits_lits in Hfit as [Hp _]. split; [done|]. cbn [pt_Method] in Hm.
  destruct Hm as [<-|[->|[? ?]]]; [by left| |by right]. by destruct x.
Qed.

(** ** Every route is reachable *)

Definition words : list string :=
  omap (λ x, match x with Lit t => Some t | _ => None end) (concat (map (λ p, pt_Segs p.1) protected_mux)).

Lemma words_spec t p : p ∈ protected_mux → Lit t ∈ pt_Segs p.1 → t ∈ words.
Proof using Type.
  intros Hp Ht. unfold words. apply list_elem_of_omap. exists (Lit t). split; [|done].
  apply list_elem_of_In, in_concat. exists (pt_Segs p.1). split; [|by apply list_elem_of_In].
  apply list_elem_of_In in Hp. by apply (in_map (λ p, pt_Segs p.1)).
Qed.

Lemma protected_distinct : NoDup (protected_mux.*1).
Proof using Type. refine (bool_decide_eq_true_1 _ _); vm_compute; reflexivity. Qed.
Lemma protected_single : Forall (λ p, Multi ∉ pt_Segs p.1) protected_mux.
Proof using Type.
  assert (Forall (λ p, Multi ∉ pt_Segs p) (protected_mux.*1)) as Hp by (refine (bool_decide_eq_true_1 _ _); vm_compute; reflexivity).
  exact (proj1 (Forall_fmap _ _ _) Hp).
Qed.

(** No route is shadowed: a request whose method and path are those of a
    registered pattern, filled with any values that are plain path elements
    and no words of the route table, reaches exactly the handler registered
    for that pattern, and the handler sees exactly these values. *)
Theorem routes_reachable p k path v r :
  (p, k) ∈ protected_mux → fits (pt_Segs p) path v → Forall (λ x, x ∉ words) v → Forall elem_ok path →
  rq_Method (rw_req r) = pt_Method p → rw_path r = path_text path →
  find protected_mux r = Found k v.
Proof using Type.
  intros Hin Hfit Hv Hok Hm Hpath. unfold find. rewrite Hm, Hpath.
  assert (Multi ∉ pt_Segs p) as Hp by (exact (proj1 (list.Forall_forall _ _) protected_single _ Hin)).
  apply find_handler_fill; [done|done|done|apply protected_distinct| |  |done].
  - intros t pa Ht Hpa Hl. apply (proj1 (list.Forall_forall _ _) Hv t Ht). by eapply words_spec.
  - intros ->. inversion Hfit as [Hs| | |]. unfold protected_mux in Hin.
    assert (Forall (λ q, pt_Segs q ≠ []) (protected_mux.*1)) as Hne by (refine (bool_decide_eq_true_1 _ _); vm_compute; reflexivity).
    apply (proj1 (list.Forall_forall _ _) Hne p); [|done]. apply list_elem_of_fmap. by exists (p, k).
Qed.

End listeners.

(** Every response of either listener forbids framing and content sniffing
    and restricts the sources of content; with HSTS on it pins HTTPS. *)
Definition hardened_headers (hsts : bool) (hs : list header) : bool :=
  bool_decide (("X-Content-Type-Options", "nosniff")%string ∈ hs) &&
  bool_decide (("X-Frame-Options", "DENY")%string ∈ hs) &&
  bool_decide (("Referrer-Policy", "no-referrer")%string ∈ hs) &&
  existsb (λ kv, String.eqb kv.1 "Content-Security-Policy" && HasPrefix kv.2 "default-src 'self'; ") hs &&
  (negb hsts || bool_decide (("Strict-Transport-Security", "max-age=63072000; includeSubDomains")%string ∈ hs)).
Theorem responses_hardened cfg pg :
  (∀ q, pg = PStatic q → q = handleDeterrent cfg) →
  hardened_headers (HSTSEnabled (Security cfg)) (headers_of cfg pg) = true.
Proof.
  intros Hpg. unfold headers_of, security_headers.
  assert (page_headers pg ∈ [[("Content-Type", "application/json"); ("X-Content-Type-Options", "nosniff")]; [];
    [("Content-Type", "application/json")]; pg_Headers (handleDeterrent cfg)]%string) as Hin.
  { destruct pg as [y|y|y|q| |y|y]; cbn [page_headers]; [| | |rewrite (Hpg q eq_refl)|..]; set_solver. }
  change (pg_Headers (handleDeterrent cfg)) with (pg_Headers (handleDeterrent (mkServerConfig "" (mkPublic "" "" "")
    (Admin cfg) (Agent cfg) (RelayCfg cfg) (Security cfg) (MetricsCfg cfg) "" (SecretsOf cfg)))) in Hin.
  destruct (HSTSEnabled (Security cfg)); repeat (apply list.elem_of_cons in Hin as [->|Hin]; [vm_compute; reflexivity|]);
    by apply not_elem_of_nil in Hin.
Qed.

(** ** Concrete requests *)

Section demo.
#[local] Instance demo_json : RequestJSON := {|
  js_strings _ _ := None; js_partial _ _ := ""%string; js_partial_int _ _ := 0%Z; js_int _ _ := None; js_bool _ _ := None;
  js_retention _ := None; js_enrollment _ := None; js_patchDevice _ := None; js_privilege _ := None; js_group _ := None;
  js_rule _ := None; js_release _ := None; js_status _ := None |}.
Definition demo_raw (method path : string) : raw_request :=
  mkRaw (mkRequest method [] "" "") (str_bytes path) (λ _, ""%string) []
    (mkSurroundings (mkEntropy None 0 None None [] None) [] [] false [] 0 ([], false) None (mret tt)).

(** An escaped path reaches the same open endpoint, the wrong method the
    guard; paths that are not clean are redirected. *)
Example demo_routing :
  find admin_mux (demo_raw "POST" "/api/v1/auth/login") = Found (Open ELogin) [] ∧
  find admin_mux (demo_raw "POST" "/api/v1/auth/%6cogin") = Found (Open ELogin) [] ∧
  find admin_mux (demo_raw "GET" "/api/v1/auth/login") = Found Guarded [] ∧
  find admin_mux (demo_raw "GET" "/api/v1//auth/../me") = Moved (str_bytes "/api/v1/me") ∧
  find admin_mux (demo_raw "GET" "/api/v1") = Moved (str_bytes "/api/v1/") ∧
  find admin_mux (demo_raw "GET" "/") = Missing ∧
  find admin_mux (demo_raw "POST" "/health") = NotAllowed ∧
  find public_mux (demo_raw "POST" "/health") = Found PubDeterrent [].
Proof. split_and!; vm_compute; reflexivity. Qed.

Lemma routes_reachable_witness :
  ∃ k, find protected_mux (demo_raw "POST" "/api/v1/devices/dev-7/services/sshd/stop") = Found k ["dev-7"; "sshd"]%string ∧
    k ["dev-7"; "sshd"]%string (demo_raw "POST" "") = PostServiceStop "dev-7" "sshd".
Proof.
  exists (λ v _, PostServiceStop (val v 0) (val v 1)). split; [|reflexivity].
  apply (routes_reachable (parse_pattern "POST /api/v1/devices/{id}/services/{service}/stop")
    (λ v _, PostServiceStop (val v 0) (val v 1))
    ["api"; "v1"; "devices"; "dev-7"; "services"; "sshd"; "stop"]%string).
  - unfold protected_mux. rewrite !elem_of_app. right; right; right; left. unfold remote_routes.
    apply list.elem_of_cons; right. apply list.elem_of_cons; right. apply list.elem_of_cons; left. reflexivity.
  - vm_compute. repeat (apply fits_lit || (apply fits_wild; [discriminate|]) || apply fits_nil).
  - refine (bool_decide_eq_true_1 _ _). vm_compute. reflexivity.
  - repeat (apply Forall_cons; [split; [repeat split; try discriminate|]; refine (bool_decide_eq_true_1 _ _); vm_compute; reflexivity|]).
    apply Forall_nil.
  - reflexivity.
  - vm_compute. reflexivity.
Defined.
End demo.
