(* ===== verification/ApiSafety.v ===== *)
(** Safety of single endpoints of the protected API: fresh
    re-authentication in front of the irreversible operations, listings cut
    to the caller's scope, disabled accounts, and streams that end with their
    session. *)
From S2P Require Import Prelude AgentUpdate Base64 Rbac RateLimit Password AuthStore Sessions Mfa.
From S2P Require Import AuthService Device Enrollment AuditLog Metrics Monitoring Alerting Protocol.
From S2P Require Import Messages Codec Hub Relay RemoteSession AgentRelease Settings Support Customers.
From S2P Require Import Config Notify Server HttpDevices HttpRemote HttpSessions HttpAdmin Api.

(** ** Re-authentication *)

(** The re-authentication a request presents, for the operations that need
    one. *)
Definition reauth_of (r : api_request) : option string :=
  match r with
  | PostRevokeDevice _ reauth | DeleteDevice _ reauth => Some reauth
  | PostPrivilege _ (Some b) => Some (pq_ReauthID b)
  | _ => None
  end.

Section safety.
Context `{UuidText, Backend, Argon2, AEAD, TelegramAPI, Totp, !Json Envelope, !Json InventoryRequestPayload,
  !Json DeviceCommandPayload, !Json CommandResultPayload, !Json ServiceActionParams, !Json ProcessTerminateParams,
  !Json FilesListParams, !Json FilesMkdirParams, !Json FilesRenameParams, !Json FilesDeleteParams,
  !Json FilesDownloadParams, !Json FilesUploadParams, !Json LogsQueryParams, !Json AgentUpdateParams}.
Context (http_get : string → option http_response).
Implicit Types (cx : authctx) (e : env) (h : handlers).

(** The caller holds an unconsumed, unexpired re-authentication of that id. *)
Definition reauth_fresh cx (s : server) (reauthID : string) (now : time) : Prop :=
  ∃ id t, uuid_parse reauthID = Some id ∧ reauth_tokens (se_authdb s) !! id = Some t ∧
    ra_UserID t = (cx_User cx).1 ∧ ra_ConsumedAt t = None ∧ (now < ra_ExpiresAt t)%Z.

Lemma set_authdb_same s : set_authdb (se_authdb s) s = s.
Proof. by destruct s as [[]]. Qed.

Lemma ConsumeReauth_stale cx s reauthID now :
  ¬ reauth_fresh cx s reauthID now →
  always (ConsumeReauth (cx_User cx).1 reauthID now) (λ r d, d = se_authdb s ∧ r ≠ Ok true) (se_authdb s).
Proof.
  intros Hno. unfold ConsumeReauth. destruct (uuid_parse reauthID) as [id|] eqn:Ep; [|by apply always_mret].
  assert (∀ k t, reauth_tokens (se_authdb s) !! k = Some t →
    fresh_reauth id (cx_User cx).1 now k t = false) as Hnone.
  { intros k t Hk. destruct (fresh_reauth _ _ _ _ _) eqn:E; [|done]. exfalso. apply Hno.
    unfold fresh_reauth, After in E. reflect_bools. subst k. exists id, t.
    destruct (ra_ConsumedAt t) eqn:Ec; [done|]. done. }
  apply always_mbind, always_mstmt; [done|]. cbn [fst snd]. apply always_mret.
  rewrite (proj2 (count_where_zero _ _)) by done. split; [|done].
  unfold on_reauth. rewrite update_where_none by done. by destruct (se_authdb s).
Qed.

Lemma looks_consume_stale cx e reauthID s :
  ¬ reauth_fresh cx s reauthID (en_now e) → looks (consume_reauth cx e reauthID) s (λ _, False).
Proof.
  intros Hno. unfold consume_reauth. eapply looks_bind.
  - apply looks_try_via; [apply set_authdb_same|by apply ConsumeReauth_stale].
  - intros v Hv. simpl in Hv. destruct v as [[]|]; [done|by apply always_mfail..].
Qed.

(** C16: revoking a device's credential, deleting a device and granting
    elevated rights each demand a fresh re-authentication of the caller: with
    an id that is unknown, expired, already used or another user's, the
    request is refused and the server is left exactly as it was. *)
Theorem dangerous_needs_reauth h cx e r reauthID s :
  reauth_of r = Some reauthID → ¬ reauth_fresh cx s reauthID (en_now e) → denied (serve http_get h cx e r) s.
Proof.
  intros Hr Hno. destruct r; try discriminate Hr; cbn [serve].
  - injection Hr as ->. eapply denied_looks; [apply looks_load_device_access|]. intros [k d] _.
    eapply denied_never; [by apply looks_consume_stale|naive_solver].
  - injection Hr as ->. eapply denied_looks; [apply looks_load_device_access|]. intros [k d] _.
    eapply denied_looks; [by apply looks_when|]. intros [] _.
    eapply denied_never; [by apply looks_consume_stale|naive_solver].
  - destruct body as [b|]; [|discriminate Hr]. injection Hr as <-.
    eapply denied_looks; [apply looks_load_session|]. intros [k sess] _.
    eapply denied_looks; [apply looks_via; [apply set_registry_same|done|apply GetByID_looks]|]. intros [k' d] _.
    eapply denied_looks; [by apply looks_when|]. intros [] _.
    eapply denied_looks; [by apply looks_when|]. intros [] _.
    eapply denied_never; [by apply looks_consume_stale|naive_solver].
Qed.

(** ** Listings *)

Lemma global_covers cx p d :
  HasPermission (cx_Grants cx) p GlobalResource = true → HasPermission (cx_Grants cx) p (deviceResource d) = true.
Proof.
  unfold GlobalResource. rewrite !HasPermission_iff. unfold covers. simpl. naive_solver.
Qed.

Lemma looks_optional_id v s : looks (optional_id v) s (λ _, True).
Proof.
  unfold optional_id. destruct (String.eqb _ _); [by apply looks_ret|].
  eapply looks_bind; [apply looks_path_id|]. intros. by apply looks_ret.
Qed.

Lemma List_looks f d :
  always (Device.List be_ilike be_collate f) (λ r t, t = d ∧
    match r with Ok (rows, _) => ∀ kd, kd ∈ rows → devices d !! kd.1 = Some kd.2 | Err _ => True end) d.
Proof.
  unfold Device.List. apply always_mbind, always_mquery; [done|].
  apply always_mbind, always_mstmt; [done|]. destruct (_ <? 0)%Z; [done|]. apply always_mret.
  split; [done|]. intros [k x] Hk. apply elem_of_take in Hk as (i & Hi & _).
  rewrite lookup_drop in Hi. apply list_elem_of_lookup_2, elem_of_order_by, elem_of_select_where in Hi. tauto.
Qed.

(** The device list never shows a device outside the caller's scope:
    every entry is a registered device on which one of the caller's grants
    gives [device.read], whatever filter, page or page size is asked for, and
    listing changes nothing. *)
Theorem device_list_scoped cx q s :
  looks (handleListDevices cx q) s (λ y, ∀ items total page size,
    ry_Data y = DDevices items total page size →
    ∀ x, x ∈ items → ∃ k d, devices (se_registry s) !! k = Some d ∧ x = summary_of (k, d) ∧
      HasPermission (cx_Grants cx) PermDeviceRead (deviceResource d) = true).
Proof.
  eapply looks_bind; [by apply looks_when|]. intros [] _.
  eapply looks_bind; [apply looks_optional_id|]. intros c _.
  eapply looks_bind; [apply looks_optional_id|]. intros g _. cbv zeta.
  eapply looks_bind; [apply looks_via; [apply set_registry_same|done|apply List_looks]|].
  intros [found n] Hfound. destruct (if filter_known q then _ else _) as [rows total] eqn:Er.
  assert (∀ kd, kd ∈ rows → devices (se_registry s) !! kd.1 = Some kd.2) as Hrows.
  { destruct (filter_known q); injection Er as <- <-; [done|]. intros kd Hkd. by apply not_elem_of_nil in Hkd. }
  apply looks_ret. intros items ? ? ? [= <- _ _ _] x Hx.
  apply list_elem_of_fmap in Hx as ([k d] & -> & Hk). exists k, d.
  destruct (HasPermission _ _ GlobalResource) eqn:Eg.
  - split_and!; [by apply Hrows in Hk|done|by apply global_covers].
  - apply list_elem_of_In, List.filter_In in Hk as [Hk Hp]. apply list_elem_of_In, Hrows in Hk. done.
Qed.

(** ** Disabled accounts *)

Definition inactive (k : uuid) (d : auth_db) : Prop :=
  ∀ u, users d !! k = Some u → u_Status u ≠ UserActive.

Lemma update_user_inactive k j f d :
  (∀ u, u_Status u ≠ UserActive → u_Status (f u) ≠ UserActive) → inactive k d →
  always (update_user j f) (λ _ d', inactive k d') d.
Proof.
  intros Hf Hd. unfold update_user. apply always_mbind, always_mstmt; [done|]. cbn [fst snd].
  assert (inactive k (on_users (update_id j f) d)) as Hd'.
  { intros u Hu. cbn [users on_users] in Hu. apply update_id_inv in Hu as (u0 & Hu0 & [->|[_ ->]]); auto. }
  destruct (_ =? 0); [by apply always_mfail|by apply always_mret].
Qed.

Lemma SetStatus_inactive k st d :
  st ≠ UserActive → always (SetStatus k st) (λ r d', r = Ok tt → inactive k d') d.
Proof.
  intros Hst. unfold SetStatus, update_user. apply always_mbind, always_mstmt; [done|]. cbn [fst snd].
  destruct (_ =? 0); [by apply always_mfail|]. apply always_mret. intros _ u Hu. cbn [users on_users] in Hu.
  rewrite lookup_update_id, decide_True in Hu by done. apply fmap_Some in Hu as (u0 & _ & ->). done.
Qed.

Lemma audit_inactive k e n ev s : inactive k (se_authdb s) → always (audit e n ev) (λ _ s', inactive k (se_authdb s')) s.
Proof. intros Hs. apply always_mignore, always_mzoom, always_any. done. Qed.

Lemma change_status_inactive cx e k text st s :
  user_status_of text = Some st → st ≠ UserActive →
  always (change_status cx e k text) (λ r s', r = Ok tt → k ≠ (cx_User cx).1 ∧ inactive k (se_authdb s')) s.
Proof.
  intros Ht Hst. unfold change_status. rewrite Ht.
  rewrite (bool_decide_eq_false_2 _ Hst). simpl. rewrite andb_true_r.
  destruct (N.eqb_spec k (cx_User cx).1) as [|Hk]; [by apply always_mbind, always_mfail|].
  apply always_mbind, always_mret, always_mbind, always_mwrap, always_mzoom.
  eapply always_mono; [by apply SetStatus_inactive|]. intros [[]|err] d' Hd'; [|done].
  apply always_mbind, always_mignore, always_mzoom.
  assert (inactive k d') as Hin by auto.
  apply always_mexec; (eapply always_mono; [apply audit_inactive; exact Hin|auto]).
Qed.

(** No cookie authenticates the user, whatever statements fail. *)
Definition locked_out (k : uuid) (s : server) : Prop :=
  ∀ svc req now, always (CheckSession svc req now) (λ r _, ∀ cx', r = Ok cx' → (cx_User cx').1 ≠ k) (se_svc s).

(** C17: disabling or locking an account takes effect at once, even where
    revoking its sessions fails: after a successful request no cookie
    authenticates that user any more, on whatever later statements fail; and
    nobody can do it to their own account. *)
Theorem disabled_user_locked_out h cx e id k b text st s :
  uuid_parse id = Some k → sq_Status b = Some text → user_status_of text = Some st → st ≠ UserActive →
  always (serve http_get h cx e (PatchUser id (Some b))) (λ y s', is_ok y = true →
    k ≠ (cx_User cx).1 ∧ locked_out k s') s.
Proof.
  intros Hid Htext Hst Hact. cbn [serve]. unfold handleSetUserStatus, path_id, body_of. rewrite Hid.
  eapply always_mono with (P := λ y s', is_ok y = true → k ≠ (cx_User cx).1 ∧ inactive k (se_authdb s')).
  - unfold require_any. destruct (negb _); [by apply always_mbind, always_mfail|].
    do 3 apply always_mbind, always_mret. rewrite Htext. apply always_mbind, always_mret, always_mbind.
    eapply always_mono; [by eapply change_status_inactive|]. intros [[]|err] s1 Hs1; [|done].
    destruct (Hs1 eq_refl) as [Hk Hin]. destruct (sq_MFARequired b) as [req|].
    + apply always_mbind, always_mbind, always_mwrap, always_mzoom.
      eapply always_mono; [by apply (update_user_inactive k)|]. intros [[]|err] d Hd; [|done].
      eapply always_mono; [by apply audit_inactive|]. intros [[]|err] s2 Hs2; [by apply always_mret|done].
    + by apply always_mbind, always_mret, always_mret.
  - intros y s' Hy Hok. destruct (Hy Hok) as [Hk Hin]. split; [done|]. intros svc req now.
    eapply always_mono; [apply CheckSession_always|]. intros r s1 [_ Hr] cx' -> E.
    destruct Hr as (token & _ & _ & _ & Hu & Ha & _). rewrite E in Hu. by apply Hin in Hu.
Qed.

(** ** Streams end with their session *)

(** Nothing typed after a remote session's expiry reaches the agent, and
    nothing the agent sends then reaches the browser: from the first event at
    or after the session's deadline on, the loop behaves as if the connection
    had ended before that event, whatever follows. *)
Theorem stream_ends_at_expiry e id sess a before t ev after out up down w :
  (rs_ExpiresAt sess ≤ t)%Z →
  stream_loop e id sess a (before ++ (t, ev) :: after) out up down w = stream_loop e id sess a before out up down w.
Proof.
  intros Ht. revert out up down w. induction before as [|[t' ev'] before IH]; intros out up down w; simpl.
  { by rewrite (proj2 (Z.leb_le _ _) Ht). }
  destruct (_ <=? _)%Z; [done|].
  destruct ev' as [data|[[cols rows]|]|wr|n]; try apply IH; apply mbind_ext; intros x w2; try apply IH.
  destruct x; try apply IH. destruct wr; apply IH.
Qed.

End safety.

(** ** A concrete server *)

Section demo.
#[local] Existing Instances demo_uuid toy_IDKey demo_aead demo_totp.
#[local] Instance any_json T : Json T | 100 := no_json T.
#[local] Instance demo_telegram : TelegramAPI :=
  {| tg_marshal _ _ := Some []; tg_url_ok _ := true; tg_post _ _ := Some 200%Z |}.
#[local] Instance demo_backend : Backend :=
  {| be_inet := Some; be_jsonb := Some; be_meta _ := Some (str_bytes "{}"); be_citext := String.eqb; be_ilike _ _ := true;
     be_collate _ _ := true; be_rule_le _ _ := true; be_enrollText _ := ""%string; be_syncText _ := ""%string;
     be_parseTime _ := None; be_parseHours _ := None; be_verify _ _ _ := false;
     be_number b _ := Atoi (bytes_str b) |}.

Definition offline (_ : string) : option http_response := None.
Definition id_text (n : N) : string := hex_encode (be_bytes 16 n).

(** User 5 administrates everything, user 6 reads the devices of customer 1;
    device 7 belongs to customer 1 and device 8 to nobody. *)
Definition accounts : auth_db :=
  mkAuthDB {[5%N := demo_user; 6%N := mkUser "guest" "" "" UserActive true 0 None 0 None]} ∅
    {[2%N := mkSession 5 (Sessions.hashToken "live") 0 0 (12 * Hour) (30 * Minute) None;
      4%N := mkSession 6 (Sessions.hashToken "guest") 0 0 (12 * Hour) (30 * Minute) None]} ∅
    {[3%N := mkReauth 5 (5 * Minute) None]} {[1%N := "admin"%string; 2%N := "read_only"%string]}
    [(1%N, PermDeviceRead); (1%N, PermUserManage); (1%N, PermCredentialRevoke); (2%N, PermDeviceRead)]
    [mkUserRole 5 1 ScopeGlobal None; mkUserRole 6 2 ScopeCustomer (Some 1%N)].
Definition machine (install : uuid) (customer : option uuid) : Device :=
  mkDevice install customer None "pc" "pc" "" "" "" "" "0.2.0" StatusUnknown HealthUnknown [] [] "" None "" None
    CredActive None 0.
Definition fleet : dev_db := on_devices (λ _, {[7%N := machine 1 (Some 1%N); 8%N := machine 2 None]}) empty_dev_db.
Definition start : server :=
  mkServer (NewLimiters accounts) (NewHub fleet) empty_rs_db ∅ ∅ ∅ ∅ ∅ ∅ ∅ (mkNotifyDB None []) []
    (NewRateLimiter 20 Minute) (NewRateLimiter 120 Minute) (NewRateLimiter 30 Minute).
Definition now_env : env :=
  mkEnv 10 20 "192.0.2.1" (λ _, ""%string) (λ n, N.of_nat (100 + n)) (λ _, None) (λ n, Z.of_nat n)
    (answers (Err tt)) (λ _ s, s) (λ _, true).
Definition demo_handlers : handlers := mkHandlers Default demo_service "1.0" [].
Definition browser (cookie : string) (method : string) : Request :=
  mkRequest method [("__Host-session", cookie); ("wr_csrf", "c")]%string "c" "192.0.2.1".
Definition admin_cx : authctx :=
  mkCtx (2%N, mkSession 5 (Sessions.hashToken "live") 0 0 (12 * Hour) (30 * Minute) None) (5%N, demo_user)
    (grants_of accounts 5).

Definition ask_api (cookie method : string) (r : api_request) : res Reply Reply * server :=
  run (protected offline demo_handlers now_env (browser cookie method) r) start.
Definition listed_ids (y : res Reply Reply) : list uuid :=
  match ry_Data (reply_of y) with DDevices l _ _ _ => map ds_id l | _ => [] end.
Definition everything : device_query := mkDeviceQuery "" "" "" "" "" "" "" "".

(** Each of them sees their devices; the guest may not revoke, the
    administrator may, with a fresh re-authentication. *)
Example demo_admin_lists : listed_ids (ask_api "live" "GET" (GetDevices everything)).1 = [8; 7]%N.
Proof. vm_compute. reflexivity. Qed.
Example demo_guest_lists : listed_ids (ask_api "guest" "GET" (GetDevices everything)).1 = [7]%N.
Proof. vm_compute. reflexivity. Qed.
Example demo_guest_refused :
  ry_Status (reply_of (ask_api "guest" "POST" (PostRevokeDevice (id_text 7) (id_text 3))).1) = 403%Z.
Proof. vm_compute. reflexivity. Qed.
Example demo_admin_revokes :
  let '(y, s) := ask_api "live" "POST" (PostRevokeDevice (id_text 7) (id_text 3)) in
  ry_Status (reply_of y) = 200%Z ∧ length (se_audit s) = 1 ∧
  (dv_Status <$> devices (se_registry s) !! 7%N) = Some StatusRevoked.
Proof. vm_compute. split_and!; reflexivity. Qed.

Lemma dangerous_needs_reauth_witness :
  denied (serve offline demo_handlers admin_cx now_env (DeleteDevice (id_text 8) (id_text 9))) start.
Proof.
  apply (dangerous_needs_reauth offline demo_handlers admin_cx now_env _ (id_text 9)); [reflexivity|].
  intros (i & t & Hi & Ht & _). vm_compute in Hi. injection Hi as <-. vm_compute in Ht. discriminate Ht.
Defined.

Definition disable_guest : statusRequest := mkStatusRequest (Some "disabled"%string) None.
Lemma disabled_user_locked_out_witness :
  always (CheckSession demo_service (browser "guest" "GET") 30) (λ r _, ∀ cx', r = Ok cx' → (cx_User cx').1 ≠ 6%N)
    (se_svc (run (serve offline demo_handlers admin_cx now_env (PatchUser (id_text 6) (Some disable_guest))) start).2).
Proof.
  assert (always (serve offline demo_handlers admin_cx now_env (PatchUser (id_text 6) (Some disable_guest)))
    (λ y s', is_ok y = true → 6%N ≠ (cx_User admin_cx).1 ∧
      ∀ svc req now, always (CheckSession svc req now) (λ r _, ∀ cx', r = Ok cx' → (cx_User cx').1 ≠ 6%N) (se_svc s')) start)
    as Hd.
  { apply (disabled_user_locked_out offline demo_handlers admin_cx now_env (id_text 6) 6 disable_guest "disabled"
      UserDisabled start); [vm_compute; reflexivity|reflexivity|reflexivity|discriminate]. }
  pose proof (always_run _ _ _ Hd) as Hr.
  assert (is_ok (run (serve offline demo_handlers admin_cx now_env (PatchUser (id_text 6) (Some disable_guest))) start).1 = true)
    as Hok by (vm_compute; reflexivity).
  destruct (run _ start) as [y s1]. exact (proj2 (Hr Hok) demo_service (browser "guest" "GET") 30%Z).
Defined.

Lemma stream_ends_at_expiry_witness :
  let sess := mkRemoteSession 7 5 KindTerminal StateActive 0 None 50 None None in
  stream_loop now_env 9 sess 0 [(10%Z, WsBinary ["a"%char]); (60%Z, WsBinary ["b"%char])] [] 0 0 (World start []) =
  stream_loop now_env 9 sess 0 [(10%Z, WsBinary ["a"%char])] [] 0 0 (World start []).
Proof.
  intros sess. exact (stream_ends_at_expiry now_env 9 sess 0 [(10%Z, WsBinary ["a"%char])] 60 (WsBinary ["b"%char]) []
    [] 0 0 (World start []) ltac:(discriminate)).
Defined.

(** User management is guarded by the coarse check only: a user who may
    manage users of one customer creates a super administrator with a global
    assignment, and so gets every permission on every device. *)
Definition scoped_accounts : auth_db :=
  mkAuthDB {[6%N := mkUser "guest" "" "" UserActive true 0 None 0 None]} ∅
    {[4%N := mkSession 6 (Sessions.hashToken "guest") 0 0 (12 * Hour) (30 * Minute) None]} ∅ ∅
    {[1%N := "super_admin"%string; 2%N := "local"%string]} [(1%N, PermCredentialRevoke); (2%N, PermUserManage)]
    [mkUserRole 6 2 ScopeCustomer (Some 1%N)].
Definition salted_env : env :=
  mkEnv 10 20 "192.0.2.1" (λ _, ""%string) (λ n, N.of_nat (100 + n)) (λ _, Some (replicate 16 "s"%char))
    (λ n, Z.of_nat n) (answers (Err tt)) (λ _ s, s) (λ _, true).
Definition scoped_creates : res Reply Reply * server :=
  run (protected offline demo_handlers salted_env (browser "guest" "POST")
         (PostUsers (replicate 60 (Some 0%N)) (Some (mkUserRequest "mine" "" "super_admin"))))
    (set_svc (NewLimiters scoped_accounts) start).
Theorem scoped_admin_creates_super_admin :
  ry_Status (reply_of scoped_creates.1) = 200%Z ∧
  grants_of scoped_accounts 6 = [mkGrant PermUserManage ScopeCustomer (Some 1%N)] ∧
  grants_of (se_authdb scoped_creates.2) 100 = [mkGrant PermCredentialRevoke ScopeGlobal None].
Proof. vm_compute. split_and!; reflexivity. Qed.
End demo.
