(* ===== verification/AgentEnroll.v ===== *)
(** The agent's side of enrolment ([internal/agentcore/enroll.go]), run
    against the server's endpoint, and the first administrator
    ([cmd/wr-core/createadmin.go]). *)
From S2P Require Import Prelude AgentUpdate Help Base64 Rbac RateLimit Password AuthStore Sessions.
From S2P Require Import Mfa AuthService Device Enrollment AuditLog Metrics Monitoring Alerting Protocol.
From S2P Require Import Messages Codec Hub AgentSession Relay RemoteSession AgentRelease Settings.
From S2P Require Import Support Customers Config Notify Server HttpDevices HttpAdmin ApiSafety.

(** ** The client *)

(** The agent's host and the server it talks to: the token file, the
    credential store, the server. *)
Record site : Type := mkSite { st_token : option bytes; st_store : option bytes; st_server : server }.
Definition set_token (x : option bytes) (s : site) : site := mkSite x (st_store s) (st_server s).
Definition set_store (x : option bytes) (s : site) : site := mkSite (st_token s) x (st_server s).
Definition set_server (x : server) (s : site) : site := mkSite (st_token s) (st_store s) x.

Inductive client_error : Type :=
| EcTokenFile | EcKeys | EcMarshal | EcNetwork | EcDecode | EcRejected (status : Z) | EcBadID | EcStore (e : agent_error).

(** [enrollRequest] has the members of the server's [agentEnrollRequest]
    under the same names, so both share one JSON form. *)
(* internal/agentcore/enroll.go:27-35 enrollResponse *)
Record enrollResponse : Type := mkEnrollResponse { rs_DeviceID : string; rs_Error : option (string * string) }.

Section enroll.
Context `{UuidText, Backend, !Json agentEnrollRequest, !Json enrollResponse, !Json storedIdentity}.

(** The server's reply on the wire. *)
Definition enroll_body (y : Reply) : enrollResponse :=
  match ry_Data y with
  | DEnrolled id => mkEnrollResponse (uuid_string id) None
  | _ => mkEnrollResponse "" (Some (ry_Code y, ""%string))
  end.

(** One POST: the request may not arrive, and the answer may be lost after
    the server has acted. *)
Definition post_enroll (e : env) (body : bytes) : M site client_error (Z * option bytes) :=
  mexec EcNetwork (λ s, s);;
  r ← mtry (mzoom st_server set_server (handleAgentEnroll e (json_unmarshal body)));
  mexec EcNetwork (λ s, s);;
  mret (ry_Status (reply_of r), json_marshal (enroll_body (reply_of r))).

(** [keys] is the generated key pair (public, private), [install] the new
    installation id. *)
(* internal/agentcore/enroll.go:41-106 Enroll *)
Definition Enroll (e : env) (keys : option (bytes * bytes)) (install : uuid) (agentVersion osName arch hostname : string)
    : M site client_error Identity :=
  f ← mquery EcTokenFile st_token;
  match f with
  | None => mfail EcTokenFile
  | Some tokenBytes =>
      let token := bytes_str (TrimSpace tokenBytes) in
      match keys with
      | None => mfail EcKeys
      | Some (pub, priv) =>
          match json_marshal (mkAgentEnroll token (uuid_string install) (std_encode pub) agentVersion osName arch hostname) with
          | None => mfail EcMarshal
          | Some reqBody =>
              '(status, body) ← post_enroll e reqBody;
              match body ≫= json_unmarshal with
              | None => mfail EcDecode
              | Some out =>
                  if negb (status =? 201)%Z || negb (is_null (rs_Error out)) then mfail (EcRejected status) else
                  match uuid_parse (rs_DeviceID out) with
                  | None => mfail EcBadID
                  | Some deviceID =>
                      let identity := mkIdentity deviceID install pub priv in
                      mwrap EcStore (mzoom st_store set_store (Persist identity));;
                      mignore (E := client_error) (mexec EcTokenFile (set_token None));;
                      mret identity
                  end
              end
          end
      end
  end.

(** ** Both sides agree *)

(** The device the hub lets in under an identity: registered for the
    installation, not revoked, with an active credential, and with the
    identity's public key as the one the hub checks signatures against, at
    any time from now on. *)
Definition recognised (id : Identity) (reg : dev_db) : Prop :=
  (∃ d, devices reg !! id_DeviceID id = Some d ∧ dv_InstallID d = id_InstallID id ∧
     dv_Status d ≠ StatusRevoked ∧ dv_CredentialStatus d = CredActive) ∧
  ∀ t, ActiveCredentialPublicKey (id_DeviceID id) t (World reg []) = (Ok (id_PublicKey id), World reg []).

Lemma usable_new reg id pub t :
  dev_inv reg → devices reg !! id = None →
  filter (λ c, usable id t c = true) (credentials reg ++ [mkCredential id pub None None 1]) =
    [mkCredential id pub None None 1].
Proof.
  intros Hinv Hnew.
  assert (Forall (λ c, usable id t c ≠ true) (credentials reg)) as Hnone.
  { apply Forall_forall. intros c Hc Hu. unfold usable in Hu. reflect_bools.
    destruct (inv_cred_device _ Hinv c) as [x Hx]; [by apply list_elem_of_In|congruence]. }
  induction Hnone as [|c cs Hc _ IH]; simpl app.
  - rewrite filter_cons_True; [done|]. unfold usable. simpl. by rewrite N.eqb_refl.
  - by rewrite filter_cons_False.
Qed.

Lemma enrolled_recognised req id tid tok now reg priv :
  dev_inv reg → devices reg !! id = None →
  recognised (mkIdentity id (er_InstallID req) (er_PublicKey req) priv) (enrolled req id tid tok now reg).
Proof.
  intros Hinv Hnew. split; [eexists; split; [apply lookup_insert_eq|done]|].
  intros t. pose proof (usable_new reg id (er_PublicKey req) t Hinv Hnew) as E.
  change (credentials reg ++ _) with (credentials (enrolled req id tid tok now reg)) in E.
  unfold ActiveCredentialPublicKey. run_unfold. cbn -[enrolled filter usable]. by rewrite E.
Qed.

Lemma audit_registry e n ev s (P : dev_db → Prop) :
  P (se_registry s) → always (audit e n ev) (λ r s', r = Ok tt ∧ P (se_registry s')) s.
Proof. intros HP. apply always_mignore, always_mzoom, always_any. done. Qed.

(** What the endpoint has done when it answers 201. *)
Definition enrolled_by (e : env) (body : option agentEnrollRequest) (y : Reply) (reg : dev_db) : Prop :=
  ∃ req install pub, body = Some req ∧ uuid_parse (ae_InstallID req) = Some install ∧
    std_decode (ae_PublicKey req) = Some pub ∧ ry_Data y = DEnrolled (en_id e 0) ∧
    ∀ priv, recognised (mkIdentity (en_id e 0) install pub priv) reg.

Lemma handleAgentEnroll_always e body s :
  dev_inv (se_registry s) → always (handleAgentEnroll e body) (λ r s', ry_Status (reply_of r) = 201%Z →
    enrolled_by e body (reply_of r) (se_registry s')) s.
Proof.
  intros Hinv. unfold handleAgentEnroll. apply always_mbind, always_mstate. destruct (Allow _ _ _) as [ok l]. cbn [fst snd].
  destruct ok; simpl; [|by apply always_mbind, always_mfail]. apply always_mbind, always_mret, always_mbind.
  unfold body_of. destruct body as [req|]; [apply always_mret|by apply always_mfail].
  apply always_mbind. unfold path_id.
  destruct (uuid_parse _) as [install|] eqn:Ei; [apply always_mret|by apply always_mfail].
  destruct (std_decode _) as [pub|] eqn:Ep; [|by apply always_mfail].
  apply always_mbind. unfold when. destruct (negb _); [by apply always_mfail|apply always_mret].
  apply always_mbind. destruct (fields_too_long req); [by apply always_mfail|apply always_mret].
  apply always_mbind, always_mtry, always_mzoom. eapply always_mono; [apply Consume_always|].
  intros [id|err] reg Hreg.
  - destruct Hreg as (hash & tid & t & -> & _ & _ & _ & _ & _ & Hnew & _ & ->).
    apply always_mbind. eapply always_mono; [eapply (audit_registry _ _ _ _ (λ reg,
      ∀ priv, recognised (mkIdentity (en_id e 0) install pub priv) reg))|].
    + intros priv. by apply (enrolled_recognised (mkEnrollRequest _ install pub _ _)).
    + intros r s' [-> Hs']. apply always_mret. intros _. by exists req, install, pub.
  - apply always_mbind, always_mignore, always_mzoom, always_any. intros r' d'. apply always_mfail.
    destruct err; done.
Qed.

Lemma Enroll_always `{!UuidLaws, !JsonLaws agentEnrollRequest, !JsonLaws enrollResponse}
    e pub priv install version osName arch hostname s :
  valid_uuid install = true → valid_uuid (en_id e 0) = true → dev_inv (se_registry (st_server s)) →
  (∀ tok, st_token s = Some tok → json_faithful (mkAgentEnroll (bytes_str (TrimSpace tok)) (uuid_string install)
     (std_encode pub) version osName arch hostname)) →
  json_faithful (mkEnrollResponse (uuid_string (en_id e 0)) None) →
  always (Enroll e (Some (pub, priv)) install version osName arch hostname) (λ r s', ∀ id, r = Ok id →
    id = mkIdentity (en_id e 0) install pub priv ∧ recognised id (se_registry (st_server s')) ∧
    st_store s' = json_marshal (mkStored (uuid_string (id_DeviceID id)) (uuid_string install) priv)) s.
Proof.
  intros Hinst Hid Hinv Hfreq Hfresp. unfold Enroll. apply always_mbind, always_mquery; [done|].
  destruct (st_token s) as [tok|]; [specialize (Hfreq tok eq_refl)|by apply always_mfail].
  destruct (json_marshal _) as [reqBody|] eqn:Ereq; [|by apply always_mfail].
  apply json_roundtrip in Ereq; [|done]. apply always_mbind. unfold post_enroll.
  apply always_mbind, always_mexec; [done|]. apply always_mbind, always_mtry, always_mzoom. rewrite Ereq.
  eapply always_mono; [by apply handleAgentEnroll_always|]. intros y sv Hsv.
  apply always_mbind, always_mexec; [done|]. apply always_mret.
  destruct (_ ≫= json_unmarshal) as [out|] eqn:Eout; [|by apply always_mfail]. cbv zeta.
  destruct (negb (ry_Status (reply_of y) =? 201)%Z || _) eqn:Est; [by apply always_mfail|].
  apply orb_false_iff in Est as [Est _]. apply negb_false_iff, Z.eqb_eq in Est.
  destruct (Hsv Est) as (req & install' & pub' & [= <-] & Hi & Hp & Hd & Hrec). simpl in Hi, Hp.
  rewrite uuid_parse_string in Hi by done. injection Hi as <-. rewrite std_decode_encode in Hp. injection Hp as <-.
  assert (out = mkEnrollResponse (uuid_string (en_id e 0)) None) as ->.
  { unfold enroll_body in Eout. rewrite Hd in Eout. destruct (json_marshal _) as [body|] eqn:Ebody; [|done].
    apply json_roundtrip in Ebody; [|done]. simpl in Eout. rewrite Ebody in Eout. by injection Eout. }
  simpl. rewrite uuid_parse_string by done.
  apply always_mbind, always_mwrap, always_mzoom. unfold Persist. simpl.
  destruct (json_marshal (mkStored _ _ _)) as [blob|] eqn:Eblob; [|by apply always_mfail].
  apply always_mexec; [done|]. apply always_mbind, always_mignore.
  apply always_mexec; apply always_mret; intros id [= <-]; simpl; auto.
Qed.

(** C31: agent and server agree on an enrolment. Whenever [Enroll] reports
    success, whatever statements or messages failed on the way, the identity it
    returns (the server's new id, its own installation and keys) is the one in
    the credential store, and on the server the device is registered for this
    installation, not revoked, with an active credential, and
    [ActiveCredentialPublicKey] gives the agent's own public key at any later
    time: what the handshake asks for. The registry satisfies its invariant
    [dev_inv] beforehand, and the request with the token of the file and the
    answer have a faithful JSON form. *)
Theorem enrolled_agent_recognised `{!UuidLaws, !JsonLaws agentEnrollRequest, !JsonLaws enrollResponse}
    e pub priv install version osName arch hostname s :
  valid_uuid install = true → valid_uuid (en_id e 0) = true → dev_inv (se_registry (st_server s)) →
  (∀ tok, st_token s = Some tok → json_faithful (mkAgentEnroll (bytes_str (TrimSpace tok)) (uuid_string install)
     (std_encode pub) version osName arch hostname)) →
  json_faithful (mkEnrollResponse (uuid_string (en_id e 0)) None) →
  always (Enroll e (Some (pub, priv)) install version osName arch hostname) (λ r s', ∀ id, r = Ok id →
    id = mkIdentity (en_id e 0) install pub priv ∧ recognised id (se_registry (st_server s')) ∧
    st_store s' = json_marshal (mkStored (uuid_string (id_DeviceID id)) (uuid_string install) priv)) s.
Proof. apply Enroll_always. Qed.

(** ** From enrolment to the first connection *)

Section first_connection.
Context `{!Json Envelope, !Json ControlChallengePayload, !Json HelloPayload, !Json HelloAckPayload}.
Context `{!UuidLaws, !JsonLaws agentEnrollRequest, !JsonLaws enrollResponse, !JsonLaws storedIdentity, !JsonLaws Envelope,
  !JsonLaws ControlChallengePayload, !JsonLaws HelloPayload, !JsonLaws HelloAckPayload}.
Context (ed25519_sign : bytes → bytes → bytes) (ed25519_verify : bytes → bytes → bytes → bool) (cfg : hub_config).
Hypothesis sign_verifies : ∀ priv m, length priv = 64 →
  ed25519_verify (ed25519_public priv) m (ed25519_sign priv m) = true.

Lemma stored_loads id :
  valid_uuid (id_DeviceID id) = true → valid_uuid (id_InstallID id) = true → length (id_PrivateKey id) = 64 →
  id_PublicKey id = ed25519_public (id_PrivateKey id) →
  json_faithful (mkStored (uuid_string (id_DeviceID id)) (uuid_string (id_InstallID id)) (id_PrivateKey id)) →
  (run AgentSession.Load
     (json_marshal (mkStored (uuid_string (id_DeviceID id)) (uuid_string (id_InstallID id)) (id_PrivateKey id)))).1 = Ok id.
Proof.
  intros Hd Hi Hl Hp Hf. destruct (json_total _ Hf) as [body Hb]. rewrite Hb. apply json_roundtrip in Hb; [|done].
  unfold AgentSession.Load. run_unfold. simpl. rewrite Hb. simpl.
  rewrite !uuid_parse_string by done. rewrite Hl. simpl. rewrite <-Hp. by destruct id.
Qed.

End first_connection.
End enroll.

(** ** The first administrator *)

Inductive admin_error : Type := AdUsage | AdPasswordFile | AdTooShort | AdConfig | AdNoDSN | AdConnect | AdHash | AdRepo (e : auth_error).

(** [strings.TrimRight(s, "\r\n")]. *)
Definition trim_eol (b : bytes) : bytes :=
  rev ((fix go (l : bytes) : bytes :=
    match l with
    | c :: rest => if Ascii.eqb c "013" || Ascii.eqb c "010" then go rest else l
    | [] => []
    end) (rev b)).

Section createadmin.
Context `{Argon2} (citext_eq : string → string → bool).

(** [file] is the password file's content, [cfg] what [config.LoadServer]
    gave, [devDSN] the environment's fallback, [connected] whether the
    database could be reached. *)
(* cmd/wr-core/createadmin.go:21-95 runCreateAdmin *)
Definition runCreateAdmin (username displayName passwordFile : string) (file : option bytes) (cfg : option ServerConfig)
    (devDSN : string) (connected : bool) (salt : option bytes) (new_id : uuid) (now : time)
    : M auth_db admin_error uuid :=
  if String.eqb username "" || String.eqb passwordFile "" then mfail AdUsage else
  match file with
  | None => mfail AdPasswordFile
  | Some passwordBytes =>
      let password := bytes_str (trim_eol passwordBytes) in
      if String.length password <? 12 then mfail AdTooShort else
      match cfg with
      | None => mfail AdConfig
      | Some cfg =>
          let dsn := if String.eqb (DatabaseURL (SecretsOf cfg)) "" then devDSN else DatabaseURL (SecretsOf cfg) in
          if String.eqb dsn "" then mfail AdNoDSN else
          if negb connected then mfail AdConnect else
          match HashPassword password (argon2_of cfg) salt with
          | Err _ => mfail AdHash
          | Ok hash =>
              userID ← mwrap AdRepo (CreateUser citext_eq username displayName hash new_id now);
              roleID ← mwrap AdRepo (RoleIDByName "super_admin");
              mwrap AdRepo (AssignRole userID roleID ScopeGlobal None);;
              mret userID
          end
      end
  end.

(** The bootstrap works as documented: a successful run has created an
    active account that must set up a second factor and holds every
    permission of the super administrator role everywhere; a run that stops
    earlier, for whatever reason, has not handed out any role. *)
Theorem create_admin_outcome username displayName passwordFile file cfg devDSN connected salt new_id now d :
  always (runCreateAdmin username displayName passwordFile file cfg devDSN connected salt new_id now) (λ r d',
    match r with
    | Err _ => user_roles d' = user_roles d
    | Ok id => ∃ u role, users d' !! id = Some u ∧ u_Username u = username ∧
        u_Status u = UserActive ∧ u_MFARequired u = true ∧ roles d !! role = Some "super_admin"%string ∧
        ∀ perm r, (role, perm) ∈ role_permissions d → HasPermission (grants_of d' id) perm r = true
    end) d.
Proof.
  unfold runCreateAdmin.
  destruct (_ || _); [by apply always_mfail|]. destruct file as [b|]; [|by apply always_mfail].
  cbv zeta. destruct (_ <? 12); [by apply always_mfail|]. destruct cfg as [c|]; [|by apply always_mfail].
  destruct (String.eqb _ _); [by apply always_mfail|]. destruct (negb connected); [by apply always_mfail|].
  destruct (HashPassword _ _ _) as [hash|] eqn:Eh; [|by apply always_mfail].
  apply always_mbind, always_mwrap. unfold CreateUser. apply always_mstmt; [done|].
  destruct (_ && _); [|done]. cbn [fst snd].
  apply always_mbind, always_mwrap. unfold RoleIDByName. apply always_mbind, always_mquery; [done|].
  destruct (select_one _ _) as [[role name]|] eqn:Er; [|by apply always_mfail].
  apply select_one_Some in Er as [Hr Hn]. apply String.eqb_eq in Hn as ->. apply always_mret.
  apply always_mbind, always_mwrap. unfold AssignRole. apply always_mexec; [done|]. apply always_mret.
  set (d1 := on_users _ d). set (d2 := if existsb _ _ then d1 else _).
  assert (∃ ur, ur ∈ user_roles d2 ∧ ur_UserID ur = new_id ∧ ur_RoleID ur = role ∧ ur_Scope ur = ScopeGlobal)
    as (ur & Hur & Hu & Hro & Hs).
  { unfold d2. destruct (existsb _ _) eqn:Ex.
    - apply existsb_exists in Ex as (ur & Hin & Hsame). unfold same_assignment in Hsame.
      cbn [ur_UserID ur_RoleID ur_Scope ur_ScopeID] in Hsame. rewrite !andb_true_iff in Hsame.
      destruct Hsame as [[[H1 H2] H3] _].
      exists ur. rewrite list_elem_of_In. apply N.eqb_eq in H1, H2. apply String.eqb_eq in H3. done.
    - eexists. split; [apply elem_of_app; right; by left|done]. }
  eexists _, role. split; [unfold d2; case_match; apply lookup_insert_eq|]. split_and!; [done..|].
  intros perm r Hperm. apply HasPermission_iff. exists (mkGrant perm ScopeGlobal (ur_ScopeID ur)).
  split; [|split; [done|by left]]. apply elem_of_grants_of. exists ur.
  assert (role_permissions d2 = role_permissions d) as -> by (unfold d2; by case_match).
  rewrite Hro. auto.
Qed.
End createadmin.

(** ** A concrete enrolment *)

Section demo.
#[local] Existing Instances demo_uuid_text demo_uuid_laws demo_backend wire_stored.
#[local] Instance wire_agent_enroll : Wire agentEnrollRequest.
Proof.
  refine (wire_iso (λ r, (ae_Token r, ae_InstallID r, ae_PublicKey r, ae_AgentVersion r, ae_OS r, ae_Arch r, ae_Hostname r))
                   (λ '(a, b, c, d, e, f, g), mkAgentEnroll a b c d e f g) _). by intros [].
Defined.
#[local] Instance wire_enroll_response : Wire enrollResponse.
Proof. refine (wire_iso (λ r, (rs_DeviceID r, rs_Error r)) (λ '(a, b), mkEnrollResponse a b) _). by intros []. Defined.
#[local] Instance demo_req_json : Json agentEnrollRequest := wire_json agentEnrollRequest.
#[local] Instance demo_resp_json : Json enrollResponse := wire_json enrollResponse.
#[local] Instance demo_stored_json : Json storedIdentity := wire_json storedIdentity.

Definition demo_site : site := mkSite (Some (str_bytes (demo_token +:+ " "))) None (set_registry demo_created start).
Definition demo_enrolling : res client_error Identity * site :=
  run (Enroll now_env (Some (demo_key, replicate 32 (byte_of 9) ++ demo_key)) 8 "0.2.0" "linux" "amd64" "pc") demo_site.
Lemma demo_created_inv : dev_inv demo_created.
Proof.
  refine (proj1 (@registry_inv demo_ids _ _)). eapply reach_step; [by apply reach_init|].
  eapply (Enrollment.rs_create (demo_params false) (Some demo_raw) 10 0).
  exact (effect_run (Create (demo_params false) (Some demo_raw) 10 0) empty_dev_db).
Qed.
Lemma enrolled_agent_recognised_witness :
  ∃ id, demo_enrolling.1 = Ok id ∧ recognised id (se_registry (st_server demo_enrolling.2)).
Proof.
  assert (is_ok demo_enrolling.1 = true) as Hok by (vm_compute; reflexivity).
  pose proof (always_run _ _ _ (enrolled_agent_recognised (JsonLaws0 := wire_json_laws agentEnrollRequest)
    (JsonLaws1 := wire_json_laws enrollResponse) now_env demo_key
    (replicate 32 (byte_of 9) ++ demo_key) 8 "0.2.0" "linux" "amd64" "pc" demo_site eq_refl eq_refl
    demo_created_inv (λ _ _, I) I)) as Hr.
  unfold demo_enrolling in *. destruct (run _ demo_site) as [[id|err] s']; [|discriminate Hok].
  exists id. split; [reflexivity|]. exact (proj1 (proj2 (Hr id eq_refl))).
Defined.

End demo.
