(* ===== verification/Guarantee.v ===== *)
(** What every goroutine of the server guarantees to all others: one relation
    on server states that the whole API, the control connections, the sweeps
    and a restart stay within ([ApiGuarantee], [System]), built from the relations
    of the components. *)
From S2P Require Import Prelude AgentUpdate Base64 Rbac RateLimit Password AuthStore Sessions Mfa.
From S2P Require Import AuthService Device Enrollment AuditLog Metrics Monitoring Alerting Protocol.
From S2P Require Import Messages Codec Hub Relay RemoteSession AgentRelease Settings Support Customers.
From S2P Require Import Config Notify Server HttpDevices HttpRemote HttpAdmin.

(** ** The relation *)

(** The hub changes the database by the registry's operations only. *)
Definition hub_le (s s' : hub) : Prop := reg_rel (hb_registry s) (hb_registry s').
#[export] Instance hub_le_preorder : PreOrder hub_le.
Proof. split; [intros s; unfold hub_le; reflexivity|]. intros s1 s2 s3. unfold hub_le. apply transitivity. Qed.

(** The five parts of the relation, where one is given. *)
Ltac keeps_parts := intros; split; first [done|reflexivity|by apply keeps_unique_same].

Section guarantee.
Context `{UuidText, Backend} (st : SessionStore) (key : bytes).

(** [d'] extends [d], and every chain [d] carries is still one in [d']. *)
Record audit_le (d d' : audit_db) : Prop := {
  le_prefix : d `prefix_of` d';
  le_chain old : Forall pre_chain old → log_ok be_inet be_jsonb old d → log_ok be_inet be_jsonb old d' }.
#[export] Instance audit_le_preorder : PreOrder audit_le.
Proof.
  split; [by intros d|]. intros d1 d2 d3 [P1 C1] [P2 C2]. split; [by etrans|]. auto.
Qed.

(** The audit log grows along its chain; sessions, second factors, challenges
    and re-authentications only move towards their end; revoked devices and
    used tokens stay so; no alert is doubled; no unsigned release appears. *)
Record keeps (s s' : server) : Prop := {
  kp_audit : audit_le (se_audit s) (se_audit s');
  kp_auth : auth_rel st (se_authdb s) (se_authdb s');
  kp_registry : reg_rel (se_registry s) (se_registry s');
  kp_alerts : keeps_unique (alert_view s) (alert_view s');
  kp_manifest : keeps_signed be_verify key (se_manifest s) (se_manifest s') }.
#[export] Instance keeps_preorder : PreOrder keeps.
Proof.
  split; [intros s; split; reflexivity|]. intros s1 s2 s3 [A1 B1 C1 D1 E1] [A2 B2 C2 D2 E2]. split; by etrans.
Qed.

(** ** One component at a time *)

(** [s'] differs from [s] in one component at most. *)
Lemma keeps_same s s' :
  se_audit s' = se_audit s → se_authdb s' = se_authdb s → se_registry s' = se_registry s →
  se_alerts s' = se_alerts s → se_manifest s' = se_manifest s → keeps s s'.
Proof using Type.
  intros Ea Eb Ec Ed Ee. split; [by rewrite Ea|by rewrite Eb|by rewrite Ec|by apply keeps_unique_same|].
  unfold keeps_signed. by rewrite Ee.
Qed.
Lemma keeps_set_audit x s : audit_le (se_audit s) x → keeps s (set_audit x s).
Proof using Type. keeps_parts. Qed.
Lemma keeps_set_authdb x s : auth_rel st (se_authdb s) x → keeps s (set_authdb x s).
Proof using Type. keeps_parts. Qed.
Lemma keeps_set_svc x s : svc_rel st (se_svc s) x → keeps s (set_svc x s).
Proof using Type. keeps_parts. Qed.
Lemma keeps_set_hub x s : hub_le (se_hub s) x → keeps s (set_hub x s).
Proof using Type. keeps_parts. Qed.
Lemma keeps_set_registry x s : reg_rel (se_registry s) x → keeps s (set_registry x s).
Proof using Type. keeps_parts. Qed.
Lemma keeps_set_manifest x s : keeps_signed be_verify key (se_manifest s) x → keeps s (set_manifest x s).
Proof using Type. keeps_parts. Qed.

Definition alert_le (d d' : alert_db) : Prop := keeps_unique d d' ∧ ad_registry d' = ad_registry d.
#[export] Instance alert_le_preorder : PreOrder alert_le.
Proof.
  split; [intros d; split; reflexivity|]. intros d1 d2 d3 [A1 B1] [A2 B2]. split; [by etrans|congruence].
Qed.
Lemma keeps_set_alerts x s : alert_le (alert_view s) x → keeps s (set_alert_view x s).
Proof using Type.
  intros [Hu Hr]. split; try reflexivity.
  - change (reg_rel (se_registry s) (ad_registry x)). by rewrite Hr.
  - intros Hs. apply Hu in Hs. done.
Qed.
Definition cust_le (d d' : cust_db) : Prop := reg_rel (cd_registry d) (cd_registry d').
#[export] Instance cust_le_preorder : PreOrder cust_le.
Proof. split; [intros d; unfold cust_le; reflexivity|]. intros d1 d2 d3. unfold cust_le. apply transitivity. Qed.
Lemma keeps_set_customers x s : cust_le (cust_view s) x → keeps s (set_cust_view x s).
Proof using Type. keeps_parts. Qed.

(** A component the relation does not look at. *)
Definition anything {T} (x y : T) : Prop := True.
Lemma keeps_anything {T E A} (m : M T E A) : preserves anything m.
Proof using Type. intros t. by apply always_any. Qed.

(** Calls into a component. *)
Lemma keeps_zoom {T E A} (get : server → T) set (Q : T → T → Prop) (m : M T E A) :
  (∀ x s, Q (get s) x → keeps s (set x s)) → preserves Q m → preserves keeps (mzoom get set m).
Proof using Type. intros Hset Hm. eapply preserves_mzoom; [exact Hm|]. intros s t Ht. by apply Hset. Qed.
Lemma keeps_via {T E A} (get : server → T) set (f : E → Reply) (Q : T → T → Prop) (m : M T E A) :
  (∀ x s, Q (get s) x → keeps s (set x s)) → preserves Q m → preserves keeps (via get set f m).
Proof using Type. intros. by eapply preserves_mwrap, keeps_zoom. Qed.
Lemma keeps_try_via {T E A} (get : server → T) set (Q : T → T → Prop) (m : M T E A) :
  (∀ x s, Q (get s) x → keeps s (set x s)) → preserves Q m → preserves keeps (try_via get set m).
Proof using Type. intros. by eapply preserves_mtry, keeps_zoom. Qed.
Lemma keeps_drop_via {T E A} (get : server → T) set (Q : T → T → Prop) (m : M T E A) :
  (∀ x s, Q (get s) x → keeps s (set x s)) → preserves Q m → preserves keeps (drop_via get set m).
Proof using Type. intros. by eapply preserves_mignore, keeps_zoom. Qed.
Lemma keeps_state {A} (f : server → A * server) :
  (∀ s, keeps s (f s).2) → preserves keeps (E := Reply) (mstate f).
Proof using Type. apply preserves_mstate. Qed.
End guarantee.
#[export] Hint Resolve keeps_anything : preserve.

(** ** The registry *)

Section registry.
Context `{UuidText}.

(** An operation of [registry_step]. *)
Lemma registry_op {E A} (m : M dev_db E A) :
  (∀ d d', effect m d d' → registry_step d d') → preserves reg_rel m.
Proof. intros Hm. apply preserves_effect. intros d d' Hd. by apply registry_step_rel, Hm. Qed.
(** A statement on the other tables. *)
Lemma registry_other {E A} (e : E) (f : dev_db → res E A * dev_db) :
  (∀ d, devices (f d).2 = devices d ∧ credentials (f d).2 = credentials d ∧
        enrollment_tokens (f d).2 = enrollment_tokens d) → preserves reg_rel (mstmt e f).
Proof.
  intros Hf. apply preserves_mstmt; [apply _|]. intros d. destruct (Hf d) as (? & ? & ?).
  by apply registry_step_rel, rs_other.
Qed.
Lemma registry_other_exec {E} (e : E) (f : dev_db → dev_db) :
  (∀ d, devices (f d) = devices d ∧ credentials (f d) = credentials d ∧
        enrollment_tokens (f d) = enrollment_tokens d) → preserves reg_rel (mexec e f).
Proof.
  intros Hf. apply preserves_mexec; [apply _|]. intros d. destruct (Hf d) as (? & ? & ?).
  by apply registry_step_rel, rs_other.
Qed.

Lemma reg_GetByID id : preserves reg_rel (Device.GetByID id).
Proof. unfold Device.GetByID. preserve_steps. Qed.
Lemma reg_List ilike collate f : preserves reg_rel (Device.List ilike collate f).
Proof. unfold Device.List. preserve_steps. apply registry_other. intros d. by destruct (_ <? _)%Z. Qed.
Lemma reg_ListAll collate : preserves reg_rel (ListAll collate).
Proof. unfold ListAll. preserve_steps. Qed.
Lemma reg_Create p rnd id now : preserves reg_rel (Enrollment.Create p rnd id now).
Proof. apply Create_reg. Qed.
Lemma reg_RevokeToken id now : preserves reg_rel (RevokeToken id now).
Proof. apply registry_op. intros d d'. apply rs_revoke_token. Qed.
Lemma reg_RevokeAll now : preserves reg_rel (RevokeAllOutstanding now).
Proof. apply registry_op. intros d d'. apply Enrollment.rs_revoke_tokens. Qed.
Lemma reg_ListOutstanding now : preserves reg_rel (ListOutstanding now).
Proof. unfold ListOutstanding. preserve_steps. Qed.
Lemma reg_Patch id i : preserves reg_rel (Patch id i).
Proof. apply registry_op. intros d d'. apply rs_patch. Qed.
Lemma reg_Revoke id now : preserves reg_rel (Device.Revoke id now).
Proof. apply registry_op. intros d d'. apply Enrollment.rs_revoke. Qed.
Lemma reg_Delete id : preserves reg_rel (Device.Delete id).
Proof. apply registry_op. intros d d'. apply Enrollment.rs_delete. Qed.
Lemma reg_UpdateConnectivity id s ip now : preserves reg_rel (UpdateConnectivity id s ip now).
Proof. apply registry_op. intros d d'. apply rs_connectivity. Qed.
Lemma reg_UpdateStatusOnly id s : preserves reg_rel (UpdateStatusOnly id s).
Proof. apply registry_op. intros d d'. apply rs_status. Qed.
Lemma reg_UpdateHealth id h rs : preserves reg_rel (UpdateHealth id h rs).
Proof. apply registry_op. intros d d'. apply rs_health. Qed.
Lemma reg_ApplyInventory id h f n v a g : preserves reg_rel (ApplyInventory id h f n v a g).
Proof. apply registry_op. intros d d'. apply rs_inventory. Qed.
Lemma reg_UpdateTransport id b : preserves reg_rel (UpdateTransportSecurity id b).
Proof. apply registry_op. intros d d'. apply rs_transport. Qed.
Lemma reg_ActiveCredential id now : preserves reg_rel (ActiveCredentialPublicKey id now).
Proof. unfold ActiveCredentialPublicKey. preserve_steps. Qed.
Lemma reg_LatestMetrics id : preserves reg_rel (LatestMetrics id).
Proof. unfold LatestMetrics. preserve_steps. Qed.
Lemma reg_RecentMetrics id a b n : preserves reg_rel (RecentMetrics id a b n).
Proof. unfold RecentMetrics. preserve_steps. Qed.
Lemma reg_RecordNetwork id ip now : preserves reg_rel (RecordNetwork id ip now).
Proof. apply registry_other. intros d. by destruct (has_device _ _). Qed.
Lemma reg_RecordMetrics id c u t fs up now : preserves reg_rel (RecordMetrics id c u t fs up now).
Proof. unfold RecordMetrics. preserve_steps. apply registry_other. intros d. by destruct (_ && _). Qed.
Lemma reg_RecordBatch id l : preserves reg_rel (RecordNetworkMetricsBatch id l).
Proof. unfold RecordNetworkMetricsBatch. preserve_steps. apply registry_other. intros d. by destruct (has_device _ _). Qed.
Lemma reg_insert_capabilities id caps : preserves reg_rel (insert_capabilities id caps).
Proof.
  induction caps as [|c caps IH]; cbn [insert_capabilities]; [preserve_steps|]. preserve_step; [|apply IH].
  apply registry_other. intros d. by destruct (has_device _ _).
Qed.
Lemma reg_SetCapabilities id caps : preserves reg_rel (SetCapabilities id caps).
Proof.
  unfold SetCapabilities. preserve_steps; [by apply registry_other_exec|apply reg_insert_capabilities].
Qed.
Lemma reg_Rollup `{PgFloat} now : preserves reg_rel (RollupHourlyMetrics now).
Proof. by apply registry_other_exec. Qed.
Lemma reg_RollupNetwork `{PgFloat} now : preserves reg_rel (RollupHourlyNetworkMetrics now).
Proof. by apply registry_other_exec. Qed.
Lemma reg_Retention raw hourly now : preserves reg_rel (ApplyMetricsRetention raw hourly now).
Proof. unfold ApplyMetricsRetention. preserve_steps; by apply registry_other_exec. Qed.
Lemma reg_RetentionNetwork raw hourly now : preserves reg_rel (ApplyNetworkMetricsRetention raw hourly now).
Proof. unfold ApplyNetworkMetricsRetention. preserve_steps; by apply registry_other_exec. Qed.
Lemma reg_read {E A} (e : E) (f : dev_db → A) : preserves reg_rel (mquery e f).
Proof. apply preserves_mquery, _. Qed.
End registry.
#[export] Hint Resolve reg_GetByID reg_List reg_ListAll reg_Create reg_RevokeToken reg_RevokeAll
  reg_ListOutstanding reg_Patch reg_Revoke reg_Delete reg_UpdateConnectivity reg_UpdateStatusOnly reg_UpdateHealth
  reg_ApplyInventory reg_UpdateTransport reg_ActiveCredential reg_LatestMetrics reg_RecentMetrics Consume_reg
  reg_RecordNetwork reg_RecordMetrics reg_RecordBatch reg_SetCapabilities reg_Rollup reg_RollupNetwork reg_Retention
  reg_RetentionNetwork reg_read : preserve.

(** ** The hub *)

Lemma hub_le_same {E A} (f : hub → A * hub) :
  (∀ s, hb_registry (f s).2 = hb_registry s) → preserves hub_le (E := E) (mstate f).
Proof. intros Hf. apply preserves_mstate. intros s. unfold hub_le. by rewrite Hf. Qed.
Lemma hub_le_registry {A} (m : DevM A) : preserves reg_rel m → preserves hub_le (Hub.registry m).
Proof. intros Hm. apply preserves_mwrap. eapply preserves_mzoom; [exact Hm|]. by intros s t. Qed.
Lemma hub_le_write ws m : preserves hub_le (write ws m).
Proof. apply preserves_mexec; [apply _|]. intros s. unfold hub_le. reflexivity. Qed.
Lemma hub_le_call c : preserves hub_le (call c).
Proof. by apply hub_le_same. Qed.
Lemma hub_le_do f : (∀ s, hb_registry (f s) = hb_registry s) → preserves hub_le (do_ f).
Proof. intros Hf. by apply hub_le_same. Qed.
Lemma hub_le_getConn dev : preserves hub_le (getConn dev).
Proof. unfold getConn. preserve_steps. by apply hub_le_same. Qed.
Lemma hub_le_closeConn dev : preserves hub_le (closeConn dev).
Proof. unfold closeConn, close_take, close_cancel. preserve_steps; [by apply hub_le_same|by apply hub_le_do]. Qed.
Lemma hub_le_release ws id ch : preserves hub_le (release_waiter ws id ch).
Proof. by apply hub_le_do. Qed.
Lemma hub_le_register ws id : preserves hub_le (register_waiter ws id).
Proof. by apply hub_le_same. Qed.
Lemma hub_le_deliver ws env : preserves hub_le (tryDeliver ws env).
Proof. apply hub_le_same. intros s. repeat case_match; done. Qed.
#[export] Hint Resolve hub_le_registry hub_le_write hub_le_call hub_le_getConn hub_le_closeConn hub_le_release
  hub_le_register hub_le_deliver : preserve.

Section hub.
Context `{!UuidText, !Json Envelope}.
Lemma hub_le_encode {P} `{!Json P} ty req (p : P) mid now : preserves hub_le (encode ty req p mid now).
Proof. apply preserves_mwrap, preserves_mlift. apply _. Qed.
Hint Resolve hub_le_encode : preserve.
Lemma hub_le_start {P} `{!Json P} ws ty (p : P) mid now : preserves hub_le (sendAndWait_start ws ty p mid now).
Proof. unfold sendAndWait_start, encodeWithID. preserve_steps. Qed.
Lemma hub_le_finish ws id ch deadline : preserves hub_le (sendAndWait_finish ws id ch deadline).
Proof. unfold sendAndWait_finish, await. preserve_steps. by apply hub_le_same. Qed.
Lemma hub_le_SendMessage {P} `{!Json P} dev ty (p : P) mid now : preserves hub_le (SendMessage dev ty p mid now).
Proof. unfold SendMessage. preserve_steps. Qed.
Lemma hub_le_Frame dev kind id p : preserves hub_le (SendBinaryFrame dev kind id p).
Proof. unfold SendBinaryFrame. preserve_steps. Qed.
Lemma hub_le_Inventory `{!Json InventoryRequestPayload} dev mid now : preserves hub_le (RequestInventory dev mid now).
Proof. unfold RequestInventory. preserve_steps. Qed.
Lemma hub_le_wait ws id : preserves hub_le (waitForID_start ws id).
Proof. unfold waitForID_start. preserve_steps. Qed.

Context `{!Json ControlChallengePayload, !Json HelloPayload, !Json HelloAckPayload, !Json HeartbeatPayload,
  !Json InventoryResponsePayload, !Json MetricsReportPayload, !Json NetworkMetricsBatchPayload,
  !Json SupportCredentialReportPayload, !Json SessionClosePayload, !Json ProtocolErrorPayload}.
Context (ed25519_verify : bytes → bytes → bytes → bool) (render : reason → string) (th : Thresholds) (cfg : hub_config).
Lemma reg_Evaluate dev now : preserves reg_rel (Evaluate render th dev now).
Proof. unfold Evaluate. preserve_steps. Qed.
Hint Resolve reg_Evaluate : preserve.
Lemma hub_le_connect ws ip nonce reply mid1 mid2 connID now later :
  preserves hub_le (connect ed25519_verify render th cfg ws ip nonce reply mid1 mid2 connID now later).
Proof.
  unfold connect, handshake, record_hello. preserve_steps. apply hub_le_do. intros s. by destruct (hb_conns s !! _).
Qed.
Lemma hub_le_disconnect ws : preserves hub_le (disconnect cfg ws).
Proof.
  unfold disconnect, leave, return_. preserve_steps; [by apply hub_le_same| |by apply hub_le_do].
  apply hub_le_do. intros s. by destruct (bool_decide _).
Qed.
Lemma hub_le_error ws code msg mid now : preserves hub_le (protocolError ws code msg mid now).
Proof. unfold protocolError. preserve_steps. Qed.
Hint Resolve hub_le_error : preserve.
Lemma hub_le_read ws m mid now : preserves hub_le (readLoop_turn render th cfg ws m mid now).
Proof. unfold readLoop_turn, handleBinaryFrame, handleMessage. preserve_steps. by apply hub_le_same. Qed.
Lemma hub_le_sweep order now : preserves hub_le (Hub.sweep render th cfg order now).
Proof.
  unfold Hub.sweep. preserve_step; [by apply hub_le_same|]. induction a as [|id ids IH]; cbn [sweep_ids]; [preserve_steps|].
  preserve_step; [|apply IH]. unfold sweep_one. preserve_steps.
Qed.
End hub.
#[export] Hint Resolve @hub_le_encode @hub_le_start @hub_le_finish @hub_le_SendMessage @hub_le_Frame @hub_le_Inventory
  @hub_le_wait : preserve.

(** ** Alerts *)

Lemma alert_op {A} (m : AlertM A) :
  preserves keeps_unique m → preserves (λ d d', ad_registry d' = ad_registry d) m → preserves alert_le m.
Proof. intros Hu Hr d. apply always_and; [apply Hu|apply Hr]. Qed.
#[local] Instance same_registry_preorder : PreOrder (λ d d' : alert_db, ad_registry d' = ad_registry d).
Proof. split; [done|]. intros d1 d2 d3 H1 H2. congruence. Qed.
Lemma alert_le_Acknowledge id : preserves alert_le (Acknowledge id).
Proof. apply alert_op; [apply Acknowledge_unique|]. unfold Acknowledge. preserve_steps. by apply preserves_mstmt; [apply _|]. Qed.
Lemma alert_le_Resolve id now : preserves alert_le (Resolve id now).
Proof. apply alert_op; [apply Resolve_unique|]. unfold Resolve. preserve_steps. by apply preserves_mstmt; [apply _|]. Qed.
Lemma alert_le_Delete id : preserves alert_le (DeleteAlert id).
Proof. apply alert_op; [apply DeleteAlert_unique|]. unfold DeleteAlert. preserve_steps. by apply preserves_mstmt; [apply _|]. Qed.
Lemma alert_le_CreateRule r : preserves alert_le (CreateRule r).
Proof. apply alert_op; [apply CreateRule_unique|]. by apply preserves_mstmt; [apply _|]. Qed.
Lemma alert_le_Enable id b : preserves alert_le (SetRuleEnabled id b).
Proof. apply alert_op; [apply SetRuleEnabled_unique|]. unfold SetRuleEnabled. preserve_steps. by apply preserves_mstmt; [apply _|]. Qed.
Lemma alert_le_DeleteRule id : preserves alert_le (DeleteRule id).
Proof. apply alert_op; [apply DeleteRule_unique|]. unfold DeleteRule. preserve_steps. by apply preserves_mstmt; [apply _|]. Qed.
Lemma alert_le_Open dev rule c text now : preserves alert_le (OpenIfNotExists dev rule c text now).
Proof.
  apply alert_op; [apply OpenIfNotExists_unique|]. unfold OpenIfNotExists. preserve_steps.
  apply preserves_mstmt; [apply _|]. intros d. by destruct (_ && _).
Qed.
Lemma alert_le_AutoResolve dev rule now : preserves alert_le (AutoResolveIfOpen dev rule now).
Proof. apply alert_op; [apply AutoResolve_unique|]. unfold AutoResolveIfOpen. preserve_steps. by apply preserves_mstmt; [apply _|]. Qed.
Lemma alert_le_read {E A} (e : E) (f : alert_db → A) : preserves alert_le (mquery e f).
Proof. apply preserves_mquery, _. Qed.
#[export] Hint Resolve alert_le_Acknowledge alert_le_Resolve alert_le_Delete alert_le_CreateRule alert_le_Enable
  alert_le_DeleteRule alert_le_Open alert_le_AutoResolve alert_le_read : preserve.

(** ** Customers and groups *)

Lemma fmap_device_rel d (f : Device → Device) :
  (∀ x, dv_InstallID (f x) = dv_InstallID x ∧ dv_CredentialStatus (f x) = dv_CredentialStatus x ∧
        dv_LastSeenAt (f x) = dv_LastSeenAt x) →
  dev_rel d (on_devices (fmap f) d).
Proof.
  intros Hf. split.
  - intros [I1 I2 I3]. split; simpl.
    + intros c Hc. destruct (I1 c Hc) as [x Hx]. rewrite lookup_fmap, Hx. eauto.
    + intros i j x y. rewrite !lookup_fmap_Some. intros (x0 & <- & Hx) (y0 & <- & Hy) E.
      apply (I2 i j x0 y0); [done..|]. destruct (Hf x0) as (<- & _), (Hf y0) as (<- & _). done.
    + intros c x Hc. rewrite lookup_fmap_Some. intros (x0 & <- & Hx). destruct (Hf x0) as (_ & -> & _). eauto.
  - intros i x Hx. left. exists (f x). simpl. rewrite lookup_fmap, Hx. split; [done|].
    destruct (Hf x) as (? & E & E'). unfold row_rel. rewrite E, E'. auto.
Qed.
Lemma ungroup_reg id d : reg_rel d (ungroup id d).
Proof.
  split.
  - apply (transitivity (R := dev_rel) (y := on_devices (fmap (leave_group id)) d)).
    + apply fmap_device_rel. intros x. unfold leave_group. by case_bool_decide.
    + by apply dev_rel_same.
  - apply tok_rel_pointwise; intros i; simpl; rewrite lookup_fmap; [by intros ->|].
    intros t ->. simpl. eexists. split; [done|]. unfold token_leaves_group. case_bool_decide; by split_and!.
Qed.
Lemma cust_stmt {A} (f : cust_db → res cust_error A * cust_db) :
  (∀ d, reg_rel (cd_registry d) (cd_registry (f d).2)) → preserves cust_le (mstmt CustDB f).
Proof. intros Hf. apply preserves_mstmt; [apply _|exact Hf]. Qed.
Lemma cust_le_Create name number notes id : preserves cust_le (CreateCustomer name number notes id).
Proof. apply cust_stmt. intros d. destruct (is_null _); reflexivity. Qed.
Lemma cust_le_Update id name number notes s : preserves cust_le (UpdateCustomer id name number notes s).
Proof. unfold UpdateCustomer. preserve_steps. apply cust_stmt. intros d. repeat case_match; reflexivity. Qed.
Lemma cust_le_Group c name id : preserves cust_le (CreateGroup c name id).
Proof. apply cust_stmt. intros d. destruct (_ && _); reflexivity. Qed.
Lemma cust_le_Rename id name : preserves cust_le (RenameGroup id name).
Proof. unfold RenameGroup. preserve_steps. apply cust_stmt. intros d. reflexivity. Qed.
Lemma cust_le_Delete id : preserves cust_le (DeleteGroup id).
Proof. unfold DeleteGroup. preserve_steps. apply cust_stmt. intros d. case_match; [apply ungroup_reg|reflexivity]. Qed.
Lemma cust_le_read {E A} (e : E) (f : cust_db → A) : preserves cust_le (mquery e f).
Proof. apply preserves_mquery, _. Qed.
#[export] Hint Resolve cust_le_Create cust_le_Update cust_le_Group cust_le_Rename cust_le_Delete cust_le_read : preserve.

(** ** Accounts and releases *)

Section accounts.
Context `{Argon2, AEAD, Totp, UuidText} (st : SessionStore).
Lemma auth_le_CreateUser citext u n p id now : preserves (auth_rel st) (CreateUser citext u n p id now).
Proof. apply preserves_mstmt; [apply _|]. intros d. destruct (_ && _); [by apply auth_rel_same|reflexivity]. Qed.
Lemma auth_le_RoleIDByName name : preserves (auth_rel st) (RoleIDByName name).
Proof. unfold RoleIDByName. preserve_steps. Qed.
Lemma auth_le_SetStatus id s : preserves (auth_rel st) (SetStatus id s).
Proof. apply update_user_rel. Qed.
Lemma auth_le_SetMFA id b : preserves (auth_rel st) (SetMFARequired id b).
Proof. apply update_user_rel. Qed.
Lemma auth_le_read {E A} (e : E) (f : auth_db → A) : preserves (auth_rel st) (mquery e f).
Proof. apply preserves_mquery, _. Qed.
Lemma svc_le_CheckSession svc req now : st = sv_Sessions svc → preserves (svc_rel st) (CheckSession svc req now).
Proof.
  intros ->. unfold CheckSession. preserve_steps; apply repo_preserves;
    [apply Validate_rel|apply GetByID_rel|apply PermissionsForUser_rel].
Qed.
Lemma svc_le_ChangePassword svc cx body ent now :
  st = sv_Sessions svc → preserves (svc_rel st) (handleChangePassword svc cx body ent now).
Proof.
  intros ->. unfold handleChangePassword. preserve_steps; try apply repo_preserves; try apply record_rel;
    [apply ConsumeReauth_rel|apply ChangeOwnPassword_rel].
Qed.
End accounts.
#[export] Hint Resolve auth_le_CreateUser auth_le_RoleIDByName auth_le_SetStatus auth_le_SetMFA auth_le_read
  RevokeAllForUser_rel AssignRole_rel ConsumeReauth_rel IsConfirmed_rel : preserve.

Lemma manifest_read {E A} verify key (e : E) (f : manifest → A) : preserves (keeps_signed verify key) (mquery e f).
Proof. apply preserves_mquery, _. Qed.
Lemma Latest_signed verify key os arch ch : preserves (keeps_signed verify key) (Latest os arch ch).
Proof. unfold Latest. preserve_steps. Qed.
#[export] Hint Resolve manifest_read Latest_signed CreateRelease_signed SetBlocked_signed SyncOnce_signed : preserve.

(** ** Walking through a handler *)

Section handlers.
Context `{UuidText, Backend} (st : SessionStore) (key : bytes).
#[local] Abbreviation keeps := (keeps st key).
Implicit Types (cx : authctx) (e : env) (h : handlers).

(** The other goroutines give the same guarantee. *)
Definition env_ok e : Prop := ∀ n s, keeps s (en_others e n s).

Lemma Record_le ev id now : preserves audit_le (Record_ be_inet be_jsonb ev id now).
Proof.
  intros d fs. pose proof (Record_always be_inet be_jsonb ev id now d fs) as Hr.
  destruct (Record_ _ _ _ _ _ _) as [r w] eqn:E.
  split.
  - destruct Hr as [[-> _]|(row & -> & _)]; [done|by apply prefix_app_r].
  - intros old Hold Hok. eapply Record_log_ok; [exact Hold|exact Hok|].
    econstructor. exists fs. by rewrite E.
Qed.
Lemma keeps_audit e n ev : preserves keeps (audit e n ev).
Proof. eapply keeps_drop_via; [apply keeps_set_audit|apply Record_le]. Qed.

(** Reading the log leaves it alone. *)
Lemma keeps_read {E A} (e : E) (f : AuditLog.audit_db → A) g : preserves keeps (via se_audit set_audit g (mquery e f)).
Proof. eapply keeps_via; [apply keeps_set_audit|]. apply preserves_mquery, _. Qed.

Lemma keeps_when b y : preserves keeps (when b y).
Proof. unfold when. destruct b; intros s; [by apply always_mfail|by apply always_mret]. Qed.
Lemma keeps_path_id id : preserves keeps (path_id id).
Proof. unfold path_id. destruct (uuid_parse id); intros s; [by apply always_mret|by apply always_mfail]. Qed.
Lemma keeps_look {A} (f : server → A) : preserves keeps (look f).
Proof. apply keeps_state. intros s. reflexivity. Qed.
Lemma keeps_others e n : env_ok e → preserves keeps (others e n).
Proof. intros Ho. apply preserves_mstate. intros s. apply Ho. Qed.
Lemma keeps_broker {A} (f : Broker → A * Broker) : preserves keeps (broker f).
Proof. apply keeps_state. intros s. destruct (f _). by apply keeps_same. Qed.
End handlers.
#[export] Hint Resolve @keeps_when @keeps_path_id @keeps_look @keeps_broker @keeps_audit : preserve.

(** One step through a handler: a call into a component, by the part of the
    state it works on; a record; a wait; a known lemma; or a construct of the
    language. *)
Ltac lift_with lem :=
  first [eapply keeps_via; [apply lem|] | eapply keeps_try_via; [apply lem|] | eapply keeps_drop_via; [apply lem|]].
Ltac lift_other :=
  first [eapply (keeps_via _ _ _ _ _ anything) | eapply (keeps_try_via _ _ _ _ anything) | eapply (keeps_drop_via _ _ _ _ anything)];
    [intros ? ? _; by apply keeps_same|apply keeps_anything].
Ltac component get :=
  lazymatch get with
  | se_registry => lift_with keeps_set_registry
  | se_hub => lift_with keeps_set_hub
  | se_authdb => lift_with keeps_set_authdb
  | se_svc => lift_with keeps_set_svc
  | se_manifest => lift_with keeps_set_manifest
  | alert_view => lift_with keeps_set_alerts
  | cust_view => lift_with keeps_set_customers
  | _ => lift_other
  end.
Ltac keep_step He :=
  lazymatch goal with
  | |- preserves _ (via se_audit _ _ _) => apply keeps_read
  | |- preserves _ (via ?get _ _ _) => component get
  | |- preserves _ (try_via ?get _ _) => component get
  | |- preserves _ (drop_via ?get _ _) => component get
  | |- preserves _ (audit _ _ _) => apply keeps_audit
  | |- preserves _ (others _ _) => apply (keeps_others _ _ _ _ He)
  | |- preserves _ (mstate _) => apply keeps_state; intros; by apply keeps_same
  | |- _ => preserve_step || solve [eauto with preserve typeclass_instances]
  end.
Ltac keep_steps He := cbv zeta; repeat (keep_step He; cbv zeta).
