(* ===== verification/ApiGuarantee.v ===== *)
(** The handlers of the HTTP API stay within the guarantee of [Guarantee]: each
    touches the components by their operations only, and the audit log by
    [Record] only, whatever fails and whatever the others do meanwhile. *)
From S2P Require Import Prelude AgentUpdate Base64 Rbac RateLimit Password AuthStore Sessions Mfa.
From S2P Require Import AuthService Device Enrollment AuditLog Metrics Monitoring Alerting Protocol.
From S2P Require Import Messages Codec Hub Relay RemoteSession AgentRelease Settings Support Customers.
From S2P Require Import Config Notify Server HttpDevices HttpRemote HttpSessions HttpAdmin Api Guarantee.

Section api.
Context `{UuidText, Backend, Argon2, AEAD, TelegramAPI, Totp, !Json Envelope, !Json InventoryRequestPayload,
  !Json DeviceCommandPayload, !Json CommandResultPayload, !Json ServiceActionParams, !Json ProcessTerminateParams,
  !Json FilesListParams, !Json FilesMkdirParams, !Json FilesRenameParams, !Json FilesDeleteParams,
  !Json FilesDownloadParams, !Json FilesUploadParams, !Json LogsQueryParams, !Json AgentUpdateParams}.
Context (http_get : string → option http_response).
Implicit Types (cx : authctx) (e : env) (h : handlers).

Context (st : SessionStore) (key : bytes).
#[local] Abbreviation keeps := (keeps st key).

(** The handlers run with the session lifetimes and the release key of one
    configuration. *)
Record handlers_ok h : Prop := {
  h_sessions : st = sv_Sessions (h_svc h);
  h_key : key = ReleasePublicKey (SecretsOf (h_cfg h)) }.

Lemma keeps_load_device id : preserves keeps (load_device id).
Proof. unfold load_device. keep_steps I. Qed.
Hint Resolve keeps_load_device : preserve.
Lemma keeps_device cx id p : preserves keeps (loadDeviceWithAccess cx id p).
Proof. unfold loadDeviceWithAccess. keep_steps I. Qed.
Lemma keeps_session cx id : preserves keeps (loadSessionWithAccess cx id).
Proof. unfold loadSessionWithAccess. keep_steps I. Qed.
Lemma keeps_consume_reauth cx e r : preserves keeps (consume_reauth cx e r).
Proof. unfold consume_reauth. keep_steps I. Qed.
Lemma keeps_optional_id v : preserves keeps (optional_id v).
Proof. unfold optional_id. keep_steps I. Qed.
Lemma keeps_patch_id v : preserves keeps (patch_id v).
Proof. unfold patch_id. keep_steps I. Qed.
Lemma keeps_body_of {A} (b : option A) : preserves keeps (body_of b).
Proof. unfold body_of. keep_steps I. Qed.
Hint Resolve keeps_device keeps_session keeps_consume_reauth keeps_optional_id keeps_patch_id keeps_body_of : preserve.

Section request.
Context (e : env) (He : env_ok st key e).

Lemma keeps_send_and_wait {P} `{!Json P} n dev ty (payload : P) : preserves keeps (send_and_wait e n dev ty payload).
Proof using He. unfold send_and_wait. keep_steps He. Qed.
Hint Resolve keeps_send_and_wait : preserve.
Lemma keeps_runCommand dev ty params : preserves keeps (runCommand e dev ty params).
Proof using He. unfold runCommand. keep_steps He. Qed.
Lemma keeps_stream_send a p : preserves keeps (stream_send a p).
Proof. unfold stream_send. keep_steps I. Qed.
Lemma keeps_from_agent a : preserves keeps (from_agent a).
Proof. unfold from_agent. keep_steps I. Qed.
Lemma keeps_unregister id : preserves keeps (unregister id).
Proof. unfold unregister. keep_steps I. Qed.
Hint Resolve keeps_runCommand keeps_stream_send keeps_from_agent keeps_unregister : preserve.
Lemma keeps_with_stream id dev kind (body : nat → H Reply) :
  (∀ a, preserves keeps (body a)) → preserves keeps (with_stream id dev kind body).
Proof. intros Hb. unfold with_stream. keep_steps I; auto. Qed.
Lemma keeps_still_active id : preserves keeps (still_active id).
Proof. unfold still_active. keep_steps I. Qed.

Lemma keeps_download cx dev path a limit turns n out : preserves keeps (download_loop cx e dev path a limit turns n out).
Proof using He.
  revert n out. induction turns as [|turns IH]; intros n out; cbn [download_loop]; unfold auditFileOp;
    keep_steps He; apply IH.
Qed.
Lemma keeps_upload a chunks ok total : preserves keeps (upload_loop a chunks ok total).
Proof. revert total. induction chunks as [|c chunks IH]; intros total; cbn [upload_loop]; keep_steps I; apply IH. Qed.
Lemma keeps_stream id sess a events out up down : preserves keeps (stream_loop e id sess a events out up down).
Proof using He.
  revert out up down. induction events as [|[t ev] events IH]; intros out up down; cbn [stream_loop];
    [keep_steps He|]. destruct ev as [?|[[]|]| |]; keep_steps He; apply IH.
Qed.
Hint Resolve keeps_still_active keeps_download keeps_upload keeps_stream : preserve.

Lemma keeps_forget id s : keeps s (forget_device id s).
Proof.
  split; try reflexivity.
  apply (keeps_unique_sub (alert_view s) (delete_where (λ _ a, (al_DeviceID a =? id)%N) (se_alerts s))).
  intros i a Ha. rewrite lookup_delete_where in Ha. simpl. destruct (se_alerts s !! i); [|done].
  simpl in Ha. by case_match.
Qed.
Lemma keeps_serve h cx r : handlers_ok h → preserves keeps (serve http_get h cx e r).
Proof using He.
  intros [Hst Hkey].
  destruct r; cbn [serve];
    unfold handleMe, change_password, handleCreateEnrollment, handleListEnrollments, handleRevokeEnrollment,
      handleRevokeAllEnrollments, handleListDevices, handleGetDevice, handlePatchDevice, handleStatusRequest,
      handleDeviceHealth, handleDeviceIPHistory, handleDeviceMetrics, handleDeviceNetworkMetrics,
      handleNetworkUsageSummary, handleRevokeDevice, handleDeleteDevice, handleDeviceAuditLog, handleAuditLog,
      handleExportAuditLog, handleVerifyAuditChain, parseAuditFilter, AuditLog.List, VerifyChain, handleCreateSession,
      handleGetSession, handleCloseSession, handleSessionStream, handleGrantPrivilege, handleRevokePrivilege,
      handleCreateTunnel, handleListServices, handleServiceAction, handleListProcesses, handleTerminateProcess,
      handleQueryLogs, handleFilesList, handleFilesDownload, handleFilesUpload, upload_confirmed, handleFilesMkdir, handleFilesRename,
      handleFilesDelete, auditFileOp, handleListCustomers, handleCreateCustomer, handleUpdateCustomer, named,
      handleListGroups, handleCreateGroup, body_id, handleRenameGroup, handleDeleteGroup, handleListMaintenance,
      handleListAlertRules, handleCreateAlertRule, handleSetAlertRuleEnabled, handleDeleteAlertRule, handleListAlerts,
      handleAlertsOpenCount, handleGetSupportCredential, handleRotateSupportCredential, handleGetRetentionSettings,
      handleSetRetentionSettings, retention_body, handleGetNetworkRetentionSettings, handleSetNetworkRetentionSettings,
      handleGetRotationSettings, handleSetRotationSettings, handleGetTelegramSettings, handleSetTelegramSettings,
      handleTestTelegramSettings, handleAcknowledgeAlert, handleResolveAlert, handleDeleteAlert, handleListReleases,
      handleCreateRelease, handleSyncGitHubReleases, handleSetReleaseBlocked, handleTriggerDeviceUpdate,
      handleListUsers, handleCreateUser, handleSetUserStatus, change_status, handleRevokeUserSessions, handleHelpIndex,
      handleHelpPage, require_any;
    keep_steps He; unfold named, retention_body;
    try (apply keeps_with_stream; intros ?; cbv beta); keep_steps He.
  - by apply svc_le_ChangePassword.
  - apply keeps_state. intros s. apply keeps_forget.
  - rewrite <-Hkey. apply CreateRelease_signed.
  - rewrite <-Hkey. apply SyncOnce_signed.
Qed.

Lemma keeps_enroll body : preserves keeps (handleAgentEnroll e body).
Proof using He.
  unfold handleAgentEnroll, allow_enroll. keep_steps He. apply keeps_state. intros s. destruct (Allow _ _ _). by apply keeps_same.
Qed.
Lemma keeps_tunnel ticket accepted events : preserves keeps (handleTunnelStream e ticket accepted events).
Proof using He.
  unfold handleTunnelStream. keep_steps He. apply keeps_state. intros s. destruct (Allow _ _ _). by apply keeps_same.
Qed.
Lemma keeps_protected h req r : handlers_ok h → preserves keeps (protected http_get h e req r).
Proof using He.
  intros Hh. unfold protected, guarded. keep_steps He; [by apply svc_le_CheckSession, h_sessions|by apply keeps_serve].
Qed.
End request.

End api.
