(* ===== verification/Startup.v ===== *)
(** The start of the server: what [NewRouter] does to the state a previous
    process left ([internal/httpapi/router.go]), the connection to the
    database ([internal/db/db.go]), and the program around it with its
    command line ([cmd/wr-core/main.go]). *)
From S2P Require Import Prelude Flags Help Base64 Rbac RateLimit Password AuthStore Sessions Mfa AuthService.
From S2P Require Import Device Enrollment AuditLog Metrics Monitoring Alerting Protocol Messages.
From S2P Require Import Codec Hub Relay RemoteSession AgentRelease Settings Support Customers Config.
From S2P Require Import Notify Migrate Server HttpDevices HttpAdmin ApiSafety.

(** ** What survives a restart *)

(** The tables are in the database; connections, streams, pending answers,
    rate limiters and the traces of calls are the process's own. *)
(* internal/httpapi/router.go:73-106 NewRouter *)
Definition fresh_process (s : server) : server :=
  mkServer (NewLimiters (se_authdb s)) (NewHub (se_registry s))
    (mkRsDB (rd_sessions (se_rs s)) (rd_privileges (se_rs s)) (rd_tunnels (se_rs s)) (rd_maintenance (se_rs s))
       (rd_events (se_rs s)) NewBroker [])
    (se_rules s) (se_alerts s) (se_manifest s) (se_settings s) (se_support s) (se_customers s) (se_groups s)
    (se_notify s) (se_audit s)
    (NewRateLimiter 20 Minute) (NewRateLimiter 120 Minute) (NewRateLimiter 60 Minute).

(* internal/audit/audit.go:54-54 ActorSystem *)
Definition ActorSystem : string := "system".

(** [service_of] are the parts of [auth.NewService] the handlers use. *)
(* internal/httpapi/router.go:77-86 NewRouter *)
Definition service_of (c : ServerConfig) : Service :=
  mkService
    (mkSessionStore (SessionCookieName (Security c)) (SessionAbsoluteTTL (Admin c)) (SessionIdleTTL (Admin c)))
    (mkMFAStore (TOTPEncryptionKey (SecretsOf c))) (argon2_of c) (RequireMFA (Admin c)).

Section router.
Context `{NetIP, UuidText, Backend}.

(** The audit record of an interrupted session. *)
Definition interrupted_event (id : uuid) : Event :=
  mkEvent ActorSystem None (Some id) None None "remote_session.interrupted" ResultSuccess "" None
    (be_meta [("reason", "server_restart")]%string).

(* internal/httpapi/router.go:118-130 NewRouter *)
Fixpoint close_interrupted (ids : nat → Z) (now : time) (n : nat) (l : list (uuid * option uuid)) : M server unit unit :=
  match l with
  | [] => mret tt
  | (id, maint) :: rest =>
      match maint with
      | Some m => mignore (mzoom se_rs set_rs (MaintClose m "interrupted" "Server restarted while session was active" now))
      | None => mret tt
      end;;
      mignore (mzoom se_audit set_audit (Record_ be_inet be_jsonb (interrupted_event id) (ids n) now));;
      close_interrupted ids now (S n) rest
  end.

(** [helpFile] is the content [help.Load] read, [ids] the sequence of the
    audit table.  The only failure is a proxy list that does not parse; every
    statement's error is dropped. *)
(* internal/httpapi/router.go:62-131 NewRouter *)
Definition NewRouter (cfg : ServerConfig) (version : string) (helpFile : option string) (ids : nat → Z) (now : time)
    : M server unit handlers :=
  match ParseTrustedProxies (TrustedProxyEntries (Security cfg)) with
  | None => mfail tt
  | Some _ =>
      mstate (λ s, (tt, fresh_process s));;
      mignore (mzoom se_rs set_rs InvalidateAllOutstanding);;
      r ← mtry (mzoom se_rs set_rs (InterruptAllActive now));
      match r with
      | Ok interrupted => close_interrupted ids now 0 interrupted
      | Err _ => mret tt
      end;;
      mret (mkHandlers cfg (service_of cfg) version (match Help.Load helpFile with Ok l => l | Err _ => [] end))
  end.

(** ** A restart leaves nothing half open *)

(** What start-up may change of the tables: sessions, tunnels and maintenance
    records as below, and the audit log grows. *)
Definition after_start (sessions : gmap uuid RemoteSession) (tunnels : gmap uuid TunnelSession)
    (maint : gmap uuid Maintenance) (log : list AuditRow) (s : server) : server :=
  set_audit (se_audit s ++ log)
    (set_rs (on_maintenance (λ _, maint) (on_tunnels (λ _, tunnels) (on_sessions (λ _, sessions) (se_rs (fresh_process s)))))
       (fresh_process s)).

Definition ended_by_restart (now : time) : Maintenance → Maintenance :=
  ended "interrupted" "Server restarted while session was active" now.
(** Every record is as it was, or ended as interrupted. *)
Definition only_ended (now : time) (old new : gmap uuid Maintenance) : Prop :=
  ∀ m, new !! m = old !! m ∨ new !! m = ended_by_restart now <$> old !! m.

Lemma ended_twice now m : ended_by_restart now (ended_by_restart now m) = ended_by_restart now m.
Proof using Type. done. Qed.
Lemma only_ended_refl now t : only_ended now t t.
Proof using Type. by left. Qed.
Lemma only_ended_step now old t m :
  only_ended now old t → only_ended now old (update_id m (ended_by_restart now) t).
Proof using Type.
  intros Ht k. unfold update_id. destruct (decide (k = m)) as [->|Hk].
  - rewrite lookup_alter_eq. right. destruct (Ht m) as [->| ->]; [done|].
    by destruct (old !! m).
  - rewrite lookup_alter_ne by done. apply Ht.
Qed.

Lemma Record_appends ev id now d :
  always (Record_ be_inet be_jsonb ev id now) (λ _ d', ∃ log, d' = d ++ log) d.
Proof using Type.
  unfold Record_. destruct (ev_Metadata ev); [|apply always_mfail; exists []; by rewrite app_nil_r].
  assert (∃ log, d = d ++ log) as Hsame by (exists []; by rewrite app_nil_r).
  apply always_mtx; [done|]. apply always_mbind, always_mexec; [done|]. apply always_mbind, always_mquery; [done|].
  apply always_mstmt; [done|]. destruct (stored _ _ _); [|done]. destruct (forallb _ _); [|done].
  split; [done|]. eexists. done.
Qed.

Lemma close_interrupted_always ids now n l sessions tunnels maint log old s :
  only_ended now old maint →
  always (close_interrupted ids now n l) (λ r s', r = Ok tt ∧
    ∃ maint' log', s' = after_start sessions tunnels maint' log' s ∧ only_ended now old maint')
    (after_start sessions tunnels maint log s).
Proof using Type.
  revert n maint log. induction l as [|[id m] l IH]; intros n maint log Hm; cbn [close_interrupted].
  { apply always_mret. eauto. }
  assert (∀ maint1 log1, only_ended now old maint1 →
    always (mignore (mzoom se_audit set_audit (Record_ be_inet be_jsonb (interrupted_event id) (ids n) now));;
            close_interrupted ids now (S n) l) (λ r s', r = Ok tt ∧
      ∃ maint' log', s' = after_start sessions tunnels maint' log' s ∧ only_ended now old maint')
      (after_start sessions tunnels maint1 log1 s)) as Hrest.
  { intros maint1 log1 Hm1. apply always_mbind, always_mignore, always_mzoom.
    eapply always_mono; [apply Record_appends|]. intros r d (rows & ->).
    replace (set_audit _ _) with (after_start sessions tunnels maint1 (log1 ++ rows) s); [by apply IH|].
    unfold after_start. simpl. by rewrite app_assoc. }
  apply always_mbind. destruct m as [m|]; [|apply always_mret; by apply Hrest].
  apply always_mignore, always_mzoom. unfold MaintClose. apply always_mexec; [by apply (Hrest maint log)|].
  apply (Hrest (update_id m (ended_by_restart now) maint) log). by apply only_ended_step.
Qed.

(** The fault-free loop ends every maintenance record of the list and writes
    one audit record per session. *)
Definition interruption (row : AuditRow) : string * option uuid :=
  (cf_EventType (ar_Fields row), cf_SessionID (ar_Fields row)).
Definition auditable (ids : nat → Z) (log : list AuditRow) : Prop :=
  (∃ meta, be_meta [("reason", "server_restart")]%string = Some meta ∧ is_Some (be_jsonb meta)) ∧
  (∀ i j, i < j → (ids i < ids j)%Z) ∧ Forall (λ r, (ar_ID r < ids 0%nat)%Z) log.

Lemma Record_ideal ids n now id d :
  auditable ids [] → Forall (λ r, (ar_ID r < ids n)%Z) d →
  ideal (Record_ be_inet be_jsonb (interrupted_event id) (ids n) now) (λ _ d', ∃ row, d' = d ++ [row] ∧
    ar_ID row = ids n ∧ interruption row = ("remote_session.interrupted"%string, Some id)) d.
Proof using Type.
  intros ((meta & Hmeta & Hjson) & _) Hd. eapply ideal_mono.
  { apply Record_writes; [by exists meta|by left|exact Hd]. }
  intros r d' (_ & row & -> & Hid & Hsays). exists row. split_and!; [done..|]. unfold interruption.
  by injection Hsays as -> _ _ -> _.
Qed.

Lemma close_interrupted_ideal ids now n l sessions tunnels maint log s :
  auditable ids [] → Forall (λ r, (ar_ID r < ids n)%Z) (se_audit s ++ log) →
  ideal (close_interrupted ids now n l) (λ r s', r = Ok tt ∧
    ∃ maint' rows, s' = after_start sessions tunnels maint' (log ++ rows) s ∧
      map interruption rows = map (λ x, ("remote_session.interrupted"%string, Some x.1)) l ∧
      (∀ m row, maint !! m = Some row → (∃ id, (id, Some m) ∈ l) → maint' !! m = Some (ended_by_restart now row)) ∧
      (∀ m row, maint !! m = Some (ended_by_restart now row) → maint' !! m = Some (ended_by_restart now row)))
    (after_start sessions tunnels maint log s).
Proof using Type.
  intros Hau. revert n maint log. induction l as [|[id m] l IH]; intros n maint log Hlog; cbn [close_interrupted].
  { apply ideal_mret. split; [done|]. exists maint, []. rewrite app_nil_r. split_and!; [done..| |auto].
    intros ? ? _ (? & []%not_elem_of_nil). }
  apply ideal_mbind.
  assert (ideal (match m with
                 | Some m => mignore (mzoom se_rs set_rs
                     (MaintClose m "interrupted" "Server restarted while session was active" now))
                 | None => mret (M := M server unit) tt
                 end) (λ r s', r = Ok tt ∧ s' = after_start sessions tunnels
                    (match m with Some m => update_id m (ended_by_restart now) maint | None => maint end) log s)
          (after_start sessions tunnels maint log s)) as Hfirst.
  { destruct m; [apply ideal_mignore, ideal_mzoom, ideal_mexec|apply ideal_mret]; done. }
  eapply ideal_mono; [exact Hfirst|]. intros r s1 [-> ->]. clear Hfirst.
  apply ideal_mbind, ideal_mignore, ideal_mzoom.
  eapply ideal_mono; [by apply Record_ideal|]. intros r d (row & -> & Hid & Hrow).
  set (maint1 := match m with Some m => update_id m (ended_by_restart now) maint | None => maint end).
  replace (set_audit _ _) with (after_start sessions tunnels maint1 (log ++ [row]) s)
    by (unfold after_start; simpl; by rewrite app_assoc).
  eapply ideal_mono.
  { apply (IH (S n)). rewrite app_assoc. apply Forall_app. split.
    - eapply list.Forall_impl; [exact Hlog|]. intros x Hx. pose proof (proj1 (proj2 Hau) n (S n) ltac:(lia)). simpl in Hx. lia.
    - apply Forall_singleton. rewrite Hid. apply (proj1 (proj2 Hau)). lia. }
  intros r1 s2 (-> & maint' & rows & -> & Hrows & Hend & Hkeep). split; [done|].
  exists maint', (row :: rows). rewrite <-app_assoc. split_and!; [done| |..].
  - cbn [map]. by rewrite Hrow, Hrows.
  - intros k r0 Hk [id' Hin].
    assert (∀ m', m = Some m' → maint1 !! m' = ended_by_restart now <$> maint !! m') as Hm1
      by (intros m' ->; apply lookup_alter_eq).
    destruct (decide (m = Some k)) as [Em|Em].
    + apply Hkeep. rewrite (Hm1 _ Em), Hk. done.
    + apply Hend.
      * unfold maint1. destruct m as [m|]; [|done]. unfold update_id. rewrite lookup_alter_ne; [done|congruence].
      * apply list.elem_of_cons in Hin as [[= -> <-]|Hin]; [done|]. eauto.
  - intros k r0 Hk. apply Hkeep. unfold maint1. destruct m as [m|]; [|done]. unfold update_id.
    destruct (decide (m = k)) as [->|Hne]; [by rewrite lookup_alter_eq, Hk|by rewrite lookup_alter_ne].
Qed.

Definition expired_tickets : gmap uuid TunnelSession → gmap uuid TunnelSession :=
  update_where (λ _ t, bool_decide (tn_State t = TnTicketIssued)) (tunnel_state TnExpired).
Definition interrupted_sessions (now : time) : gmap uuid RemoteSession → gmap uuid RemoteSession :=
  update_where (λ _ x, is_live (rs_State x) && true) (with_close StateInterrupted "server_restart" now).

Lemma no_ticket_left t id row : expired_tickets t !! id = Some row → tn_State row ≠ TnTicketIssued.
Proof using Type.
  unfold expired_tickets. rewrite lookup_update_where. destruct (t !! id) as [r|]; [|done]. simpl.
  case_bool_decide; intros [= <-]; done.
Qed.
Lemma no_session_left now t id row : interrupted_sessions now t !! id = Some row → is_live (rs_State row) = false.
Proof using Type.
  unfold interrupted_sessions. rewrite lookup_update_where. destruct (t !! id) as [r|]; [|done]. simpl.
  rewrite andb_true_r. destruct (is_live (rs_State r)) eqn:E; by intros [= <-].
Qed.

(** Start-up under faults: it always comes up, with nothing of the old
    process in memory, and each of the two statements was run or was not. *)
Definition restarted (cfg : ServerConfig) (now : time) (s : server) (r : res unit handlers) (s' : server) : Prop :=
  (∃ h, r = Ok h ∧ h_cfg h = cfg ∧ h_svc h = service_of cfg) ∧
  ∃ sessions tunnels maint log, s' = after_start sessions tunnels maint log s ∧
    (sessions = rd_sessions (se_rs s) ∨ sessions = interrupted_sessions now (rd_sessions (se_rs s))) ∧
    (tunnels = rd_tunnels (se_rs s) ∨ tunnels = expired_tickets (rd_tunnels (se_rs s))) ∧
    only_ended now (rd_maintenance (se_rs s)) maint.

Lemma NewRouter_always cfg version helpFile ids now s :
  is_Some (ParseTrustedProxies (TrustedProxyEntries (Security cfg))) →
  always (NewRouter cfg version helpFile ids now) (restarted cfg now s) s.
Proof using Type.
  intros [tp Htp]. unfold NewRouter. rewrite Htp. apply always_mbind, always_mstate. cbn [fst snd].
  set (rest := λ _ : unit, mtry (mzoom se_rs set_rs (InterruptAllActive now)) ≫= _).
  assert (∀ tunnels, tunnels = rd_tunnels (se_rs s) ∨ tunnels = expired_tickets (rd_tunnels (se_rs s)) →
    always (rest tt) (restarted cfg now s)
      (after_start (rd_sessions (se_rs s)) tunnels (rd_maintenance (se_rs s)) [] s)) as Hrest.
  { intros tunnels Ht. apply always_mbind, always_mtry, always_mzoom. unfold InterruptAllActive, interrupt_where.
    apply always_mstmt.
    - apply always_mbind, always_mret, always_mret. split; [eauto|].
      exists (rd_sessions (se_rs s)), tunnels, (rd_maintenance (se_rs s)), []. split_and!; auto using only_ended_refl.
    - cbn [fst snd]. apply always_mbind. eapply always_mono.
      { apply (close_interrupted_always ids now 0 _ (interrupted_sessions now (rd_sessions (se_rs s))) tunnels
          (rd_maintenance (se_rs s)) [] (rd_maintenance (se_rs s))), only_ended_refl. }
      intros r s1 (-> & maint & log & -> & Hm). apply always_mret. split; [eauto|].
      exists (interrupted_sessions now (rd_sessions (se_rs s))), tunnels, maint, log. split_and!; auto. }
  replace (fresh_process s) with
    (after_start (rd_sessions (se_rs s)) (rd_tunnels (se_rs s)) (rd_maintenance (se_rs s)) [] s)
    by (unfold after_start; simpl; by rewrite app_nil_r).
  apply always_mbind, always_mignore, always_mzoom. unfold InvalidateAllOutstanding. apply always_mexec.
  - apply (Hrest (rd_tunnels (se_rs s))). by left.
  - apply (Hrest (expired_tickets (rd_tunnels (se_rs s)))). by right.
Qed.

(** The fault-free start. *)
Lemma NewRouter_ideal cfg version helpFile ids now s :
  is_Some (ParseTrustedProxies (TrustedProxyEntries (Security cfg))) → auditable ids (se_audit s) →
  ideal (NewRouter cfg version helpFile ids now) (λ r s', is_ok r = true ∧ ∃ maint rows,
    s' = after_start (interrupted_sessions now (rd_sessions (se_rs s))) (expired_tickets (rd_tunnels (se_rs s)))
           maint rows s ∧
    (∀ id x, rd_sessions (se_rs s) !! id = Some x → is_live (rs_State x) = true →
       ("remote_session.interrupted"%string, Some id) ∈ map interruption rows ∧
       ∀ m row, rs_MaintenanceSessionID x = Some m → rd_maintenance (se_rs s) !! m = Some row →
         maint !! m = Some (ended_by_restart now row))) s.
Proof using Type.
  intros [tp Htp] (Hmeta & Hids & Hlog). unfold NewRouter. rewrite Htp.
  apply ideal_mbind, ideal_mstate. cbn [fst snd].
  apply ideal_mbind, ideal_mignore, ideal_mzoom, ideal_mexec, ideal_mbind, ideal_mtry, ideal_mzoom.
  unfold InterruptAllActive, interrupt_where. apply ideal_mstmt. cbn [fst snd]. apply ideal_mbind.
  set (l := map _ (select_where _ _)).
  match goal with |- ideal _ _ ?st => replace st with
    (after_start (interrupted_sessions now (rd_sessions (se_rs s))) (expired_tickets (rd_tunnels (se_rs s)))
       (rd_maintenance (se_rs s)) [] s) by (unfold after_start; simpl; by rewrite app_nil_r) end.
  eapply ideal_mono.
  { apply close_interrupted_ideal; [by repeat split|]. by rewrite app_nil_r. }
  intros r s' (-> & maint & rows & -> & Hrows & Hend & _). apply ideal_mret. split; [done|].
  exists maint, rows. split; [done|]. intros id x Hx Hlive.
  assert ((id, rs_MaintenanceSessionID x) ∈ l) as Hin.
  { apply list_elem_of_fmap. exists (id, x). split; [done|]. apply elem_of_select_where. simpl.
    rewrite Hlive. done. }
  split.
  - rewrite Hrows. apply list_elem_of_fmap. by exists (id, rs_MaintenanceSessionID x).
  - intros m row Hm Hrow. apply Hend; [done|]. exists id. by rewrite <-Hm.
Qed.

(** C20: a restart leaves nothing half open: whatever statements fail, the
    server comes up with its configuration and with no connection, stream or
    rate-limit memory of the old process, sessions and tickets are either
    untouched or all interrupted and expired, and nothing else in the
    database changes but ended maintenance records and new audit records; and
    when no statement fails, no remote session is live any more, no tunnel
    ticket issued before can be redeemed, and every interrupted session has
    its audit record and its maintenance record ended. *)
Theorem restart_leaves_nothing_open cfg version helpFile ids now s :
  is_Some (ParseTrustedProxies (TrustedProxyEntries (Security cfg))) → auditable ids (se_audit s) →
  always (NewRouter cfg version helpFile ids now) (restarted cfg now s) s ∧
  ideal (NewRouter cfg version helpFile ids now) (λ r s', is_ok r = true ∧
    (∀ id x, rd_sessions (se_rs s') !! id = Some x → is_live (rs_State x) = false) ∧
    (∀ ticket later, always (ConsumeTicket ticket later) (λ r _, is_ok r = false) (se_rs s')) ∧
    hb_conns (se_hub s') = ∅ ∧ rd_broker (se_rs s') = NewBroker ∧
    ∀ id x, rd_sessions (se_rs s) !! id = Some x → is_live (rs_State x) = true →
      (∃ row, row ∈ se_audit s' ∧ interruption row = ("remote_session.interrupted"%string, Some id)) ∧
      ∀ m row, rs_MaintenanceSessionID x = Some m → rd_maintenance (se_rs s) !! m = Some row →
        rd_maintenance (se_rs s') !! m = Some (ended_by_restart now row)) s.
Proof using Type.
  intros Htp Hau. split; [by apply NewRouter_always|].
  eapply ideal_mono; [by apply NewRouter_ideal|].
  intros r s' (Hr & maint & rows & -> & Hlive). split; [done|]. split_and!; [|intros ticket later|done..|].
  - intros id x. apply no_session_left.
  - eapply always_mono; [apply ConsumeTicket_always|]. intros [[id t]|e] d' Hd; [|done].
    destruct Hd as (h & t0 & _ & Ht0 & _ & Hst & _). by apply no_ticket_left in Ht0.
  - intros id x Hx Hl. destruct (Hlive id x Hx Hl) as [Hin Hm]. split; [|done].
    apply list_elem_of_fmap in Hin as (row & Hrow & Hin). exists row. split; [|done].
    apply elem_of_app. by right.
Qed.
End router.

(** ** The program *)

Inductive db_error : Type := DbParse | DbCreate | DbPing.

(** [pgxpool.ParseConfig] decides whether a DSN is well formed; creating the
    pool and the first ping can fail. *)
(* internal/db/db.go:14-35 Connect *)
Definition Connect {S} (parse_dsn : string → bool) (dsn : string) : M S db_error unit :=
  if negb (parse_dsn dsn) then mfail DbParse else
  mexec DbCreate (λ s, s);;
  mexec DbPing (λ s, s).

(** What the process does to the outside, in order. *)
Inductive core_event : Type :=
| EvConnected (dsn : string)
| EvClosed (dsn : string)
| EvListen (public : bool) (addr : string).

Record core_site : Type := mkCore { co_db : mig_db server; co_log : list core_event }.
Definition set_co_db (x : mig_db server) (c : core_site) : core_site := mkCore x (co_log c).
Definition co_server (c : core_site) : server := mg_schema (co_db c).
Definition set_co_server (x : server) (c : core_site) : core_site :=
  mkCore (mkMig x (mg_applied (co_db c))) (co_log c).

Inductive core_error : Type :=
| CoConfig (e : config_error) | CoNoDSN | CoMigConnect (e : db_error) | CoMigrate (e : mig_error)
| CoConnect (e : db_error) | CoRouter | CoShutdown (public admin : bool).

(** How the serving phase ends: by a signal or by an error of a listener, and
    whether each server shuts down within its time. *)
Record fate : Type := mkFate { ft_listener : option string; ft_public : bool; ft_admin : bool }.

Section core.
Context `{NetIP, UuidText, Backend}.
Context (Getenv : string → string) (ReadFile : string → file_result).
Context (yaml : bytes → ServerConfig → option ServerConfig) (rnd1 rnd2 : option bytes).
Context (parse_dsn : string → bool).
Context (exec : bytes → server → option server) (dir : option (gmap string bool)) (read : string → option bytes).

Definition core_version : string := "0.2.0".
Definition emit (ev : core_event) : M core_site core_error unit :=
  mstate (λ c, (tt, mkCore (co_db c) (co_log c ++ [ev]))).

(* cmd/wr-core/main.go:148-151 run *)
Definition config_path : string :=
  if String.eqb (Getenv "WR_CONFIG_FILE") "" then "server.yaml" else Getenv "WR_CONFIG_FILE".
(* cmd/wr-core/main.go:161-164 run *)
Definition runtime_dsn (c : ServerConfig) : string :=
  if String.eqb (DatabaseURL (SecretsOf c)) "" then Getenv "WR_DATABASE_URL_DEV" else DatabaseURL (SecretsOf c).
(* cmd/wr-core/main.go:174-177 run *)
Definition migration_dsn (c : ServerConfig) : string :=
  if String.eqb (MigrationDatabaseURL (SecretsOf c)) "" then runtime_dsn c else MigrationDatabaseURL (SecretsOf c).

(** A listener's error is logged and not returned. *)
(* cmd/wr-core/main.go:144-263 run *)
Definition core_run (help : string → option string) (ids : nat → Z) (now : time) (f : fate)
    : M core_site core_error unit :=
  cfg ← mwrap CoConfig (mlift (LoadServer Getenv ReadFile yaml rnd1 rnd2 config_path));
  let dsn := runtime_dsn cfg in
  if String.eqb dsn "" then mfail CoNoDSN else
  let migrationDSN := migration_dsn cfg in
  mwrap CoMigConnect (Connect parse_dsn migrationDSN);;
  emit (EvConnected migrationDSN);;
  migrateErr ← mtry (mzoom co_db set_co_db (Migrate exec dir read));
  emit (EvClosed migrationDSN);;
  match migrateErr with
  | Err e => mfail (CoMigrate e)
  | Ok _ =>
      mwrap CoConnect (Connect parse_dsn dsn);;
      emit (EvConnected dsn);;
      r ← mtry (mzoom co_server set_co_server (NewRouter cfg core_version (help (HelpContentDir cfg)) ids now));
      match r with
      | Err _ => emit (EvClosed dsn);; mfail CoRouter
      | Ok _ =>
          emit (EvListen true (PublicListen (Public cfg)));;
          emit (EvListen false (AdminListen (Admin cfg)));;
          emit (EvClosed dsn);;
          if ft_public f && ft_admin f then mret tt else mfail (CoShutdown (ft_public f) (ft_admin f))
      end
  end.

(** ** Serving only when ready *)

Definition load : res config_error ServerConfig := LoadServer Getenv ReadFile yaml rnd1 rnd2 config_path.

(** The state a listener may be opened in. *)
Record ready (c : ServerConfig) (s s' : core_site) : Prop := {
  rdy_config : sane c ∧ (Mode c = "production"%string → hardened c);
  rdy_migrated : ∀ entries name, dir = Some entries → name ∈ sql_files entries → name ∈ mg_applied (co_db s');
  rdy_closed : ∃ rest, co_log s' = co_log s ++ EvConnected (migration_dsn c) :: EvClosed (migration_dsn c) ::
      EvConnected (runtime_dsn c) :: EvListen true (PublicListen (Public c)) ::
      EvListen false (AdminListen (Admin c)) :: rest;
  rdy_router : ∃ now s1 h, restarted c now s1 (Ok h) (co_server s') }.

Lemma LoadServer_valid path c :
  LoadServer Getenv ReadFile yaml rnd1 rnd2 path = Ok c → sane c ∧ (Mode c = "production"%string → hardened c).
Proof using Type.
  unfold LoadServer. intros H3.
  apply bind_res_ok in H3 as (c1 & _ & H3). apply bind_res_ok in H3 as (x & _ & H3).
  apply bind_res_ok in H3 as (c2 & _ & H3). apply bind_res_ok in H3 as ([] & Hv & [= <-]). by apply Validate_ok.
Qed.

Lemma Migrate_complete d :
  always (Migrate exec dir read) (λ r d', r = Ok tt →
    ∀ entries name, dir = Some entries → name ∈ sql_files entries → name ∈ mg_applied d') d.
Proof using Type.
  unfold Migrate. do 3 (apply always_mbind, always_mexec; [done|]).
  destruct dir as [entries|]; [|by apply always_mfail].
  eapply always_mono; [apply apply_files_always, sql_files_NoDup|].
  intros r d' (ran & _ & Happ & _ & Hok) Hr entries' name [= <-] Hin. rewrite Happ, (Hok Hr).
  destruct (decide (name ∈ mg_applied d)); apply elem_of_app; [by left|right].
  apply list_elem_of_filter. done.
Qed.

Lemma Connect_always {S} dsn (Q : res db_error unit → S → Prop) s :
  (∀ e, Q (Err e) s) → Q (Ok tt) s → always (Connect parse_dsn dsn) Q s.
Proof using Type.
  intros He Hok. unfold Connect. destruct (negb _); [by apply always_mfail|].
  apply always_mbind, always_mexec; [done|]. by apply always_mexec.
Qed.

(** C14: the server accepts requests only when it is ready: whatever the
    configuration, the environment, the files and the database do, a run that
    opens a listener has loaded a configuration that passed validation (in
    production: MFA, HSTS, CSRF protection, full-size keys), has applied
    every migration file, has closed the connection with schema rights before
    opening the runtime one, has restarted the router's state, and listens on
    exactly the two configured addresses; a run that stops earlier opens no
    listener. *)
Theorem serves_only_when_ready help ids now f s :
  always (core_run help ids now f) (λ r s',
    (∃ log, co_log s' = co_log s ++ log ∧ ∀ public addr, EvListen public addr ∉ log) ∨
    (∃ c, load = Ok c ∧ ready c s s' ∧
       (r = Ok tt ∨ r = Err (CoShutdown (ft_public f) (ft_admin f))))) s.
Proof using Type.
  unfold core_run. fold load. apply always_mbind, always_mwrap, always_mlift.
  assert (∃ log, co_log s = co_log s ++ log ∧ ∀ public addr, EvListen public addr ∉ log) as Hnone.
  { exists []. rewrite app_nil_r. split; [done|]. intros ? ?. apply not_elem_of_nil. }
  destruct load as [cfg|e] eqn:Eload; [|by left]. pose proof (LoadServer_valid _ _ Eload) as Hvalid.
  cbv zeta. destruct (String.eqb _ _); [by apply always_mfail; left|].
  apply always_mbind, always_mwrap, Connect_always; [by left|].
  apply always_mbind, always_mstate. cbn [fst snd].
  apply always_mbind, always_mtry, always_mzoom. eapply always_mono; [apply Migrate_complete|].
  intros migrateErr d Hmig. apply always_mbind, always_mstate. cbn [fst snd].
  destruct migrateErr as [[]|e].
  2: { apply always_mfail. left. eexists. simpl. rewrite <-app_assoc. split; [done|]. set_solver. }
  specialize (Hmig eq_refl). apply always_mbind, always_mwrap, Connect_always.
  { intros e. left. eexists. simpl. rewrite <-app_assoc. split; [done|]. set_solver. }
  apply always_mbind, always_mstate. cbn [fst snd]. apply always_mbind, always_mtry, always_mzoom.
  eapply always_mono; [apply NewRouter_always, Hvalid|]. intros r sv Hr.
  destruct r as [h|[]]; [|destruct Hr as [(h & [=] & _) _]].
  do 3 (apply always_mbind, always_mstate; cbn [fst snd]).
  assert (ready cfg s (mkCore (mkMig sv (mg_applied d)) (co_log s ++ [EvConnected (migration_dsn cfg);
    EvClosed (migration_dsn cfg); EvConnected (runtime_dsn cfg); EvListen true (PublicListen (Public cfg));
    EvListen false (AdminListen (Admin cfg)); EvClosed (runtime_dsn cfg)]))) as Hready.
  { split; [done|done|by eexists|]. by eexists now, _, h. }
  destruct (ft_public f && ft_admin f); [apply always_mret|apply always_mfail]; right; exists cfg;
    (split; [done|]); (split; [|by auto]); simpl; rewrite <-!app_assoc; exact Hready.
Qed.

(** The error of a listener never reaches the caller: where the two servers
    then shut down in time, [run] reports success. *)
Theorem listener_error_lost help ids now msg s :
  core_run help ids now (mkFate (Some msg) true true) s = core_run help ids now (mkFate None true true) s.
Proof using Type. done. Qed.
End core.

(** ** The command line *)

(** The path flags: the flag's name and the variable it falls back to and is
    exported as. *)
Definition path_flags : list (string * string) :=
  [("config", "WR_CONFIG_FILE"); ("database-url-file", "WR_DATABASE_URL_FILE");
   ("migration-database-url-file", "WR_MIGRATION_DATABASE_URL_FILE");
   ("session-pepper-file", "WR_SESSION_PEPPER_FILE"); ("totp-key-file", "WR_TOTP_ENCRYPTION_KEY_FILE");
   ("internal-service-key-file", "WR_INTERNAL_SERVICE_KEY_FILE")]%string.

(* cmd/wr-core/main.go:58-64 main *)
Definition core_formal : formal := ("service"%string, FString) :: map (λ fv, (fv.1, FString)) path_flags.

(** The values of the path flags in the order of [path_flags], and the
    action. *)
Record core_flags : Type := mkCoreFlags { cl_action : string; cl_paths : list string }.

(* cmd/wr-core/main.go:58-65 main *)
Definition core_parse (Getenv : string → string) (args : list string) : res flag_error core_flags :=
  match Flags.Parse (λ _, None) core_formal ∅ args with
  | Err e => Err e
  | Ok (set, _) =>
      Ok (mkCoreFlags (default ""%string (set !! "service"%string))
            (map (λ fv, default (Getenv fv.2) (set !! fv.1)) path_flags))
  end.

(* cmd/wr-core/main.go:138-142 setEnvIfSet *)
Definition setEnvIfSet (key value : string) (Getenv : string → string) : string → string :=
  if String.eqb value "" then Getenv else λ k, if String.eqb k key then value else Getenv k.
(* cmd/wr-core/main.go:72-77 main *)
Definition export (f : core_flags) (Getenv : string → string) : string → string :=
  foldl (λ g vp, setEnvIfSet vp.1 vp.2 g) Getenv (zip (map snd path_flags) (cl_paths f)).

(* cmd/wr-core/main.go:79-97 main *)
Definition svcArgs (f : core_flags) : list string :=
  concat (map (λ np, if String.eqb np.2 "" then [] else [("--" +:+ np.1)%string; np.2])
    (zip (map fst path_flags) (cl_paths f))).

(** What the command line asks for: the bootstrap command, an exit, an action
    of the service manager with the arguments the service will get, or the
    server in the given environment. *)
Inductive core_action : Type :=
| CaCreateAdmin (args : list string)
| CaExit (code : Z)
| CaControl (action : string) (arguments : list string)
| CaRun (Getenv : string → string).

(* cmd/wr-core/main.go:49-136 main *)
Definition core_main (Getenv : string → string) (args : list string) : core_action :=
  if match args with a :: _ => String.eqb a "createadmin" | [] => false end then CaCreateAdmin (tl args) else
  match core_parse Getenv args with
  | Err FlHelp => CaExit 0
  | Err _ => CaExit 2
  | Ok f =>
      if bool_decide (cl_action f ∈ ["install"; "uninstall"; "start"; "stop"; "restart"]%string)
      then CaControl (cl_action f) (svcArgs f)
      else if bool_decide (cl_action f ∈ ["run"; ""]%string) then CaRun (export f Getenv)
      else CaExit 1
  end.

(** The exit code once [run] has returned, [None] while the process stays: the
    service's goroutine only logs the error. *)
(* cmd/wr-core/main.go:31-41 Start *)
Definition core_exit (interactive : bool) (r : res core_error unit) : option Z :=
  if interactive then Some (if is_ok r then 0 else 1)%Z else None.

(** ** An installed service runs with the configuration it was installed with *)

Lemma core_parse_length Getenv args f : core_parse Getenv args = Ok f → length (cl_paths f) = length path_flags.
Proof. unfold core_parse. destruct (Flags.Parse _ _ _ _) as [[set ?]|]; [|done]. by intros [= <-]. Qed.

(** The arguments of the service, parsed by the service. *)
Lemma svcArgs_parse Getenv f :
  length (cl_paths f) = length path_flags →
  core_parse Getenv (svcArgs f) = Ok (mkCoreFlags ""
    (zip_with (λ fv p, if String.eqb p "" then Getenv fv.2 else p) path_flags (cl_paths f))).
Proof.
  destruct f as [act paths]. cbn [cl_paths]. intros Hlen.
  do 6 (destruct paths as [|? paths]; [discriminate Hlen|]). destruct paths; [|discriminate Hlen].
  unfold svcArgs, core_parse. cbn [path_flags map fst snd cl_paths zip zip_with concat app].
  repeat match goal with |- context[String.eqb ?x ""] => destruct (String.eqb x "") end; vm_compute; reflexivity.
Qed.

Lemma svcArgs_not_bootstrap f a rest : svcArgs f = a :: rest → String.eqb a "createadmin" = false.
Proof.
  unfold svcArgs. induction (zip _ _) as [|[n p] l IH]; [done|]. cbn [map concat fst snd].
  destruct (String.eqb p ""); [exact IH|]. by intros [= <- _].
Qed.

(** Two environments that differ only in variables the flags set. *)
Lemma export_agree (l : list (string * string)) g g' :
  (∀ k, g k = g' k ∨ ∃ p, p ≠ ""%string ∧ (k, p) ∈ l) →
  ∀ k, foldl (λ g vp, setEnvIfSet vp.1 vp.2 g) g l k = foldl (λ g vp, setEnvIfSet vp.1 vp.2 g) g' l k.
Proof.
  revert g g'. induction l as [|[v p] l IH]; intros g g' Hg; cbn [foldl fst snd].
  { intros k. destruct (Hg k) as [?|(? & _ & []%not_elem_of_nil)]; done. }
  apply IH. intros k. unfold setEnvIfSet. destruct (String.eqb_spec p "") as [->|Hp].
  - destruct (Hg k) as [?|(q & Hq & Hin)]; [by left|].
    apply list.elem_of_cons in Hin as [[= -> ->]|Hin]; [done|right; eauto].
  - destruct (String.eqb_spec k v) as [->|Hk]; [by left|].
    destruct (Hg k) as [?|(q & Hq & Hin)]; [by left|].
    apply list.elem_of_cons in Hin as [[= -> ->]|Hin]; [done|right; eauto].
Qed.

(** Loading the configuration reads the environment only by [os.Getenv]. *)
Lemma load_agree `{NetIP} g g' ReadFile yaml rnd1 rnd2 :
  (∀ k, g k = g' k) → load g ReadFile yaml rnd1 rnd2 = load g' ReadFile yaml rnd1 rnd2.
Proof.
  intros Hg. unfold load, LoadServer, config_path, loadSecrets, readSecretFile. by rewrite !Hg.
Qed.

(** An installed service runs with the configuration it was installed
    with: the arguments [--service install] records are parsed by the service
    into the same paths, whatever they contain, so that a service started
    with none of the six path variables of its own ends up with the
    environment, and loads the configuration, that the same command line
    would have used in the foreground, provided no flag was given an empty
    value to hide a variable. *)
Theorem service_keeps_configuration `{NetIP} env env' args f ReadFile yaml rnd1 rnd2 :
  core_parse env args = Ok f →
  (∀ i var, map snd path_flags !! i = Some var → cl_paths f !! i = Some ""%string → env var = ""%string) →
  (∀ k, env' k = if bool_decide (k ∈ map snd path_flags) then ""%string else env k) →
  ∃ senv, core_main env' (svcArgs f) = CaRun senv ∧ (∀ k, senv k = export f env k) ∧
    load senv ReadFile yaml rnd1 rnd2 = load (export f env) ReadFile yaml rnd1 rnd2.
Proof.
  intros Hf Hhide Henv'. pose proof (core_parse_length _ _ _ Hf) as Hlen.
  assert (zip_with (λ fv p, if String.eqb p "" then env' fv.2 else p) path_flags (cl_paths f) = cl_paths f) as Hsame.
  { apply list_eq_same_length with (n := 6); [by rewrite Hlen|by rewrite length_zip_with, Hlen|].
    intros i x y Hi Hx Hy. rewrite lookup_zip_with, Hy in Hx. destruct (path_flags !! i) as [fv|] eqn:Ei; [|done].
    injection Hx as <-. simpl. destruct (String.eqb_spec y "") as [->|]; [|done].
    rewrite Henv', bool_decide_eq_true_2; [done|]. apply list_elem_of_fmap. exists fv. split; [done|].
    by eapply list_elem_of_lookup_2. }
  exists (export (mkCoreFlags "" (cl_paths f)) env'). split.
  { unfold core_main. destruct (svcArgs f) as [|a rest] eqn:Ea.
    - pose proof (svcArgs_parse env' f Hlen) as Hp. rewrite Ea, Hsame in Hp. by rewrite Hp.
    - rewrite (svcArgs_not_bootstrap f a rest Ea), <-Ea, svcArgs_parse, Hsame by done. done. }
  assert (∀ k, export (mkCoreFlags "" (cl_paths f)) env' k = export f env k) as Hexp.
  { apply export_agree. intros k. rewrite Henv'. case_bool_decide as Hk; [|by left].
    apply list_elem_of_lookup_1 in Hk as [i Hi].
    assert (is_Some (cl_paths f !! i)) as [p Hp].
    { apply lookup_lt_is_Some. rewrite Hlen. apply lookup_lt_Some in Hi. by rewrite length_map in Hi. }
    destruct (decide (p = ""%string)) as [->|Hne]; [left; symmetry; eauto|]. right. exists p. split; [done|].
    apply list_elem_of_lookup_2 with i. apply lookup_zip_with_Some. by exists k, p. }
  split; [done|]. by apply load_agree.
Qed.

(** ** Concrete runs *)

Section demo.
#[local] Existing Instances demo_netip demo_uuid_text demo_backend.

(** A process died with session 3 active and ticket 4 outstanding. *)
Definition left_over : server :=
  set_rs (mkRsDB {[3%N := mkRemoteSession 7 5 KindTerminal StateActive 0 None (8 * Hour) None (Some 9%N)]} ∅
    {[4%N := mkTunnel 3 7 5 TargetSSHLocal TnTicketIssued [] (8 * Hour) 0 0]}
    {[9%N := mkMaintenance 7 None 5 0 None "" ""]} [] NewBroker []) start.
Definition demo_restarted : server := (run (NewRouter Default "0.2.0" None Z.of_nat 100) left_over).2.

Lemma restart_leaves_nothing_open_witness :
  (∀ id x, rd_sessions (se_rs demo_restarted) !! id = Some x → is_live (rs_State x) = false) ∧
  rd_maintenance (se_rs demo_restarted) !! 9%N =
    Some (ended_by_restart 100 (mkMaintenance 7 None 5 0 None "" "")) ∧ length (se_audit demo_restarted) = 1.
Proof.
  assert (auditable Z.of_nat (se_audit left_over)) as Hau.
  { split; [by exists (str_bytes "{}")|]. split; [lia|constructor]. }
  destruct (restart_leaves_nothing_open Default "0.2.0" None Z.of_nat 100 left_over ltac:(by eexists) Hau) as [_ Hi].
  apply ideal_run in Hi as (_ & Hlive & _ & _ & _ & Hx).
  split; [exact Hlive|]. split.
  - by apply (proj2 (Hx 3%N _ eq_refl eq_refl) 9%N _ eq_refl eq_refl).
  - vm_compute. reflexivity.
Defined.

(** Under an empty migrations directory, with and without the secrets of
    production. *)
Definition demo_boot (Getenv : string → string) (f : fate) : res core_error unit * core_site :=
  run (core_run Getenv demo_files (λ _ _, None) None None (λ _, true) (λ _ s, Some s) (Some ∅) (λ _, None)
    (λ _, None) Z.of_nat 100 f) (mkCore (mkMig left_over []) []).
Example demo_core :
  (demo_boot demo_env (mkFate None true true)).1 = Ok tt ∧
  co_log (demo_boot demo_env (mkFate None true true)).2 =
    [EvConnected "postgres"; EvClosed "postgres"; EvConnected "postgres"; EvListen true "0.0.0.0:8443";
     EvListen false "127.0.0.1:9443"; EvClosed "postgres"] ∧
  demo_boot (λ _, ""%string) (mkFate None true true) =
    (Err (CoConfig (CfgInvalid "WR_DATABASE_URL_FILE")), mkCore (mkMig left_over []) []) ∧
  core_exit true (demo_boot demo_env (mkFate (Some "address already in use"%string) true true)).1 = Some 0%Z ∧
  core_exit false (demo_boot (λ _, ""%string) (mkFate None true true)).1 = None.
Proof. split_and!; vm_compute; reflexivity. Qed.

(** Installing with two flags and one variable. *)
Definition demo_install : list string :=
  ["--service"; "install"; "-config=C:\server.yaml"; "--session-pepper-file"; "--odd"]%string.
Definition demo_vars (k : string) : string := if String.eqb k "WR_DATABASE_URL_FILE" then "/db" else "".
Definition demo_service_flags : core_flags :=
  mkCoreFlags "install" ["C:\server.yaml"; "/db"; ""; "--odd"; ""; ""]%string.

Example demo_svcArgs :
  core_main demo_vars demo_install = CaControl "install"
    ["--config"; "C:\server.yaml"; "--database-url-file"; "/db"; "--session-pepper-file"; "--odd"]%string ∧
  core_main demo_vars ["createadmin"; "--username"; "root"]%string = CaCreateAdmin ["--username"; "root"]%string ∧
  core_main demo_vars ["--service"; "reload"]%string = CaExit 1 ∧ core_main demo_vars ["--verbose"]%string = CaExit 2.
Proof. split_and!; vm_compute; reflexivity. Qed.

Lemma service_keeps_configuration_witness :
  ∃ senv, core_main (λ _, ""%string) (svcArgs demo_service_flags) = CaRun senv ∧
    senv "WR_DATABASE_URL_FILE"%string = "/db"%string ∧ senv "WR_CONFIG_FILE"%string = "C:\server.yaml"%string.
Proof.
  destruct (service_keeps_configuration demo_vars (λ _, ""%string) demo_install demo_service_flags
    demo_files (λ _ _, None) None None) as (senv & Hm & Henv & _).
  - vm_compute. reflexivity.
  - intros i var Hi Hp. do 6 (destruct i as [|i]; [injection Hi as <-; by vm_compute in Hp |- *|]). discriminate Hi.
  - intros k. unfold demo_vars. case_bool_decide as Hk; [done|].
    destruct (String.eqb_spec k "WR_DATABASE_URL_FILE") as [->|]; [|done]. exfalso. apply Hk. right. left.
  - exists senv. split; [exact Hm|]. split; rewrite Henv; vm_compute; reflexivity.
Defined.

(** The release key and the GitHub token have no flag: a service without
    variables of its own runs without the key the foreground server has. *)
Definition key_vars (k : string) : string :=
  if String.eqb k "WR_RELEASE_PUBLIC_KEY_FILE" then "/totp" else demo_env k.
Theorem release_key_not_passed :
  ∃ f senv, core_parse key_vars [] = Ok f ∧ core_main (λ _, ""%string) (svcArgs f) = CaRun senv ∧
    length ∘ ReleasePublicKey ∘ SecretsOf <$> (match load (export f key_vars) demo_files (λ _ _, None) None None with
       Ok c => Some c | Err _ => None end) = Some 32 ∧
    ReleasePublicKey ∘ SecretsOf <$> (match load senv demo_files (λ _ _, None) None None with
       Ok c => Some c | Err _ => None end) = Some [].
Proof. eexists _, _. split; [vm_compute; reflexivity|]. split; [reflexivity|]. split; vm_compute; reflexivity. Qed.
End demo.
