(* ===== verification/AgentMain.v ===== *)
(** The agent program: default paths ([internal/agentcore/paths.go]), its
    configuration ([internal/config/agent.go]), its command line, log file and
    start-up sequence ([cmd/wr-agent/main.go]). *)
From S2P Require Import Prelude Flags AgentUpdate Help Base64 Rbac RateLimit Password AuthStore Sessions.
From S2P Require Import Mfa AuthService Device Enrollment AuditLog Metrics Monitoring Alerting Protocol.
From S2P Require Import Messages Codec Hub AgentSession AgentCore Relay RemoteSession AgentRelease Settings.
From S2P Require Import Support Customers Config Notify Server HttpDevices HttpAdmin ApiSafety AgentEnroll.

(** ** Configuration *)

(* internal/agentcore/paths.go:11-15 Paths *)
Record Paths : Type := mkPaths { pa_ConfigFile : string; pa_DataDir : string; pa_LogDir : string }.

(** [join] is [filepath.Join] as Windows defines it, [programData] the
    variable of that name. *)
(* internal/agentcore/paths.go:17-35 DefaultPaths *)
Definition DefaultPaths (join : list string → string) (windows : bool) (programData : string) : Paths :=
  if windows then
    let base := if String.eqb programData "" then "C:\ProgramData"%string else programData in
    let root := join [base; "WartungsRemote"%string] in
    mkPaths (join [root; "config"; "agent.yaml"]%string) (join [root; "data"%string]) (join [root; "logs"%string])
  else mkPaths "/etc/wartungsremote/agent.yaml" "/var/lib/wartungsremote" "/var/log/wartungsremote".

(** The directories are not read from the file. *)
(* internal/config/agent.go:27-35 AgentConfig *)
Record AgentConfig : Type := mkAgentConfig {
  ac_ServerURL : string;
  ac_UpdateChannel : string;
  ac_LogLevel : string;
  ac_Policy : AgentPolicy }.

(* internal/config/agent.go:40-56 DefaultAgent *)
Definition DefaultAgent : AgentConfig :=
  mkAgentConfig "" "stable" "info" (mkPolicy true true true true true true true true true).

Inductive load_error : Type :=
| LdNotFound (path : string) | LdRead (path : string) | LdParse (path : string) | LdNoServer.

(** [yaml.Unmarshal] of a file laid over a configuration. *)
(* internal/config/agent.go:59-75 LoadAgent *)
Definition LoadAgent (yaml : bytes → AgentConfig → option AgentConfig) (path : string) : M fsys load_error AgentConfig :=
  r ← mtry (AgentUpdate.ReadFile path);
  match r with
  | Err ErrNotExist => mfail (LdNotFound path)
  | Err ErrIO => mfail (LdRead path)
  | Ok body =>
      match yaml body DefaultAgent with
      | None => mfail (LdParse path)
      | Some c => if String.eqb (ac_ServerURL c) "" then mfail LdNoServer else mret c
      end
  end.

(** ** The command line *)

(* cmd/wr-agent/main.go:56-59 main *)
Definition agent_formal : formal := [("config", FString); ("service", FString)]%string.

Inductive agent_action : Type :=
| AaExit (code : Z)
| AaControl (action : string) (arguments : list string)
| AaRun.

(** [args] are the arguments after the program's name. *)
(* cmd/wr-agent/main.go:55-106 main *)
Definition agent_main (paths : Paths) (args : list string) : agent_action :=
  match Flags.Parse (λ _, None) agent_formal ∅ args with
  | Err FlHelp => AaExit 0
  | Err _ => AaExit 2
  | Ok (set, _) =>
      let configPath := default ""%string (set !! "config"%string) in
      let configPath := if String.eqb configPath "" then pa_ConfigFile paths else configPath in
      let action := default ""%string (set !! "service"%string) in
      if bool_decide (action ∈ ["install"; "uninstall"; "start"; "stop"; "restart"]%string)
      then AaControl action ["--config"%string; configPath]
      else if bool_decide (action ∈ ["run"; ""]%string) then AaRun
      else AaExit 1
  end.

(** [runAgent] looks for the path itself: the argument after the last
    ["--config"]. *)
(* cmd/wr-agent/main.go:142-147 runAgent *)
Fixpoint scan_config (args : list string) (configPath : string) : string :=
  match args with
  | a :: ((next :: _) as rest) => scan_config rest (if String.eqb a "--config" then next else configPath)
  | _ => configPath
  end.

(** A service is started with the path it was installed with, whatever it
    is. *)
Theorem agent_service_config paths exe args action svc :
  agent_main paths args = AaControl action svc →
  ∃ path, svc = ["--config"; path]%string ∧ (exe ≠ "--config"%string → scan_config (exe :: svc) (pa_ConfigFile paths) = path) ∧
    agent_main paths svc = AaRun.
Proof.
  unfold agent_main at 1. destruct (Flags.Parse _ _ _ args) as [[set rest]|[]]; try done. cbv zeta.
  case_bool_decide; [|case_bool_decide; done]. intros [= _ <-]. eexists. split; [done|]. split.
  - intros Hexe. cbn [scan_config]. destruct (String.eqb_spec exe "--config"); [done|]. done.
  - reflexivity.
Qed.

(** The flag package accepts the path in one argument, where [runAgent] does
    not find it. *)
Theorem config_spelling_ignored paths exe p :
  exe ≠ "--config"%string →
  agent_main paths [("--config=" +:+ p)%string] = AaRun ∧
  Flags.Parse (λ _, None) agent_formal ∅ [("--config=" +:+ p)%string] = Ok ({["config" := p]}%string, []) ∧
  scan_config [exe; ("--config=" +:+ p)%string] (pa_ConfigFile paths) = pa_ConfigFile paths.
Proof.
  intros Hexe.
  assert (Flags.Parse (λ _, None) agent_formal ∅ [("--config=" +:+ p)%string] = Ok ({["config" := p]}%string, [])) as Hp.
  { change ("--config=" +:+ p)%string with ("--" +:+ "config" +:+ "=" +:+ p)%string. by rewrite Parse_equals. }
  split; [|split; [done|]].
  - unfold agent_main. rewrite Hp. simpl. done.
  - cbn [scan_config]. by destruct (String.eqb_spec exe "--config").
Qed.

(** ** The log file *)

Definition maxLogSize : Z := (10 * 1024 * 1024)%Z.

(** Whether the log goes to a file besides standard output.  Directories are
    not part of the file system; the calls can fail.  [path] is [agent.log]
    in the log directory. *)
(* cmd/wr-agent/main.go:116-138 openLogWriter *)
Definition openLogWriter (logDir path : string) : M fsys os_error bool :=
  if String.eqb logDir "" then mret false else
  d ← mtry (F := os_error) (mexec ErrIO (λ fs, fs));
  match d with
  | Err _ => mret false
  | Ok _ =>
      size ← mtry (F := os_error) (mstmt ErrIO (λ fs, (match fs !! path with
        | Some b => Ok (Z.of_nat (length b)) | None => Err ErrNotExist end, fs)));
      match size with
      | Ok n => if (maxLogSize <? n)%Z then mignore (Rename path (path +:+ ".old")) else mret tt
      | Err _ => mret tt
      end;;
      o ← mtry (F := os_error) (mexec ErrIO (λ fs, match fs !! path with Some _ => fs | None => <[path := []]> fs end));
      mret (is_ok o)
  end.

(** The log is opened for appending without losing a byte of the last one:
    whatever fails, it is still there under its own name or, then intact,
    under [.old], no other file changes, and the start goes on; without
    failures the file the agent appends to has at most ten megabytes. *)
Lemma openLogWriter_always logDir path fs :
  always (openLogWriter logDir path) (λ r fs', is_ok r = true ∧
    (∀ p, p ≠ path → p ≠ (path +:+ ".old")%string → fs' !! p = fs !! p) ∧
    (∀ b, fs !! path = Some b → fs' !! path = Some b ∨
       (fs' !! (path +:+ ".old")%string = Some b ∧ (maxLogSize < Z.of_nat (length b))%Z))) fs.
Proof.
  assert (∀ r : res os_error bool, is_ok r = true → is_ok r = true ∧
    (∀ p, p ≠ path → p ≠ (path +:+ ".old")%string → fs !! p = fs !! p) ∧
    (∀ b, fs !! path = Some b → fs !! path = Some b ∨
       (fs !! (path +:+ ".old")%string = Some b ∧ (maxLogSize < Z.of_nat (length b))%Z))) as Hsame by auto.
  unfold openLogWriter. destruct (String.eqb logDir ""); [by apply always_mret, Hsame|].
  apply always_mbind, always_mtry, always_mexec; [by apply always_mret, Hsame|].
  apply always_mbind, always_mtry, always_mstmt; cbn [fst snd].
  { apply always_mbind, always_mret, always_mbind, always_mtry, always_mexec; apply always_mret; [by apply Hsame|].
    split; [done|]. destruct (fs !! path) as [b|] eqn:Eb; split; [done| |intros p Hp _; by rewrite lookup_insert_ne|done].
    intros b0 [= <-]. left. by rewrite ?Eb. }
  destruct (fs !! path) as [b|] eqn:Eb.
  - apply always_mbind. destruct (maxLogSize <? Z.of_nat (length b))%Z eqn:En.
    + apply Z.ltb_lt in En.
      assert (path ≠ (path +:+ ".old")%string) as Hne by (symmetry; by apply append_ne).
      apply always_mignore. fs_step.
      * apply always_mbind, always_mtry, always_mexec; apply always_mret; rewrite ?Eb; split_and!; auto.
      * congruence.
      * assert (∀ fs', fs' = <[(path +:+ ".old")%string:=d]> (delete path fs) ∨
            fs' = <[path := []]> (<[(path +:+ ".old")%string:=d]> (delete path fs)) →
          (∀ p, p ≠ path → p ≠ (path +:+ ".old")%string → fs' !! p = fs !! p) ∧
          (∀ b0, Some b = Some b0 → fs' !! path = Some b0 ∨
             (fs' !! (path +:+ ".old")%string = Some b0 ∧ (maxLogSize < Z.of_nat (length b0))%Z))) as Hmoved.
        { intros fs' Hfs'. assert (d = b) as -> by congruence. split.
          - intros p Hp Hpo. destruct Hfs' as [-> | ->]; rewrite ?lookup_insert_ne, ?lookup_delete_ne by done; done.
          - intros b0 [= <-]. right. split; [|done].
            destruct Hfs' as [-> | ->]; [by rewrite lookup_insert_eq|].
            rewrite lookup_insert_ne by done. by rewrite lookup_insert_eq. }
        apply always_mbind, always_mtry, always_mexec; apply always_mret; (split; [done|]); apply Hmoved; [by left|].
        rewrite lookup_insert_ne, lookup_delete_eq by done. by right.
    + apply always_mret, always_mbind, always_mtry, always_mexec; apply always_mret; rewrite ?Eb; split_and!; auto.
  - apply always_mbind, always_mret, always_mbind, always_mtry, always_mexec; apply always_mret; split_and!; try done.
    intros p Hp _. by rewrite Eb, lookup_insert_ne.
Qed.

Lemma openLogWriter_bounded logDir path fs :
  ideal (openLogWriter logDir path) (λ r fs', r = Ok true → ∃ b, fs' !! path = Some b ∧ (Z.of_nat (length b) ≤ maxLogSize)%Z) fs.
Proof.
  unfold openLogWriter. destruct (String.eqb logDir ""); [by apply ideal_mret|].
  apply ideal_mbind, ideal_mtry, ideal_mexec, ideal_mbind, ideal_mtry, ideal_mstmt. cbn [fst snd].
  apply ideal_mbind. destruct (fs !! path) as [b|] eqn:Eb.
  - destruct (maxLogSize <? Z.of_nat (length b))%Z eqn:En.
    + apply ideal_mignore, ideal_mstmt. rewrite Eb. cbn [fst snd].
      apply ideal_mbind, ideal_mtry, ideal_mexec, ideal_mret. intros _.
      assert (path ≠ (path +:+ ".old")%string) as Hne by (symmetry; by apply append_ne).
      rewrite lookup_insert_ne, lookup_delete_eq by done. exists []. rewrite lookup_insert_eq. split; [done|].
      done.
    + apply ideal_mret, ideal_mbind, ideal_mtry, ideal_mexec, ideal_mret. intros _. rewrite Eb. exists b.
      split; [done|]. by apply Z.ltb_ge in En.
  - apply ideal_mret, ideal_mbind, ideal_mtry, ideal_mexec, ideal_mret. intros _. rewrite Eb. exists [].
    rewrite lookup_insert_eq. by split.
Qed.

(* cmd/wr-agent/main.go:252-263 parseLevel *)
Definition parseLevel (level : string) : Z :=
  if String.eqb level "debug" then -4 else if String.eqb level "warn" then 4 else if String.eqb level "error" then 8 else 0.

(** ** Start-up *)

(** The agent's machine and the server: the token, the credential and the
    server as in [AgentEnroll], the other files, and with which identity,
    policy and address the agent has served so far. *)
Record agent_host : Type := mkHost {
  ah_site : site;
  ah_fs : fsys;
  ah_ran : list (Identity * AgentPolicy * string) }.
Definition set_ah_site (x : site) (h : agent_host) : agent_host := mkHost x (ah_fs h) (ah_ran h).
Definition set_ah_fs (x : fsys) (h : agent_host) : agent_host := mkHost (ah_site h) x (ah_ran h).

Inductive start_error : Type :=
| RaConfig (e : load_error) | RaNoToken | RaEnroll (e : client_error) | RaIdentity (e : agent_error).

Definition agentVersion : string := "0.2.2".

Section start.
Context `{UuidText, Backend, !Json agentEnrollRequest, !Json enrollResponse, !Json storedIdentity, !Json Marker}.
Context (yaml : bytes → AgentConfig → option AgentConfig).
Context (torn : bytes → bytes) (os_executable : option string) (PathSeparator : string).
Context (paths : Paths) (logFile : string).

(** What one start draws from its surroundings: the arguments with the
    program's name, and what an enrolment uses. *)
Record boot : Type := mkBoot {
  bt_args : list string; bt_env : env; bt_keys : option (bytes * bytes); bt_install : uuid;
  bt_os : string; bt_arch : string; bt_hostname : string }.

Definition start_config (b : boot) : string := scan_config (bt_args b) (pa_ConfigFile paths).

(** [store.Exists]: any error of the call counts as absent. *)
Definition store_exists : M agent_host start_error bool :=
  r ← mtry (F := start_error) (mquery RaNoToken (λ h, negb (is_null (st_store (ah_site h)))));
  mret (match r with Ok b => b | Err _ => false end).

(* cmd/wr-agent/main.go:166-180 runAgent *)
Definition ensure_enrolled (b : boot) : M agent_host start_error unit :=
  exists_ ← store_exists;
  if exists_ : bool then mret tt else
  token ← mquery RaNoToken (λ h, st_token (ah_site h));
  match token with
  | None => mfail RaNoToken
  | Some _ =>
      mwrap RaEnroll (mzoom ah_site set_ah_site
        (Enroll (bt_env b) (bt_keys b) (bt_install b) agentVersion (bt_os b) (bt_arch b) (bt_hostname b)));;
      mret tt
  end.

(** [Exits] is the exit after a rollback; a failed reconciliation is logged. *)
(* cmd/wr-agent/main.go:140-198 runAgent *)
Definition runAgent (b : boot) : M agent_host start_error boot_outcome :=
  mignore (mzoom ah_fs set_ah_fs (openLogWriter (pa_LogDir paths) logFile));;
  cfg ← mwrap RaConfig (mzoom ah_fs set_ah_fs (LoadAgent yaml (start_config b)));
  ensure_enrolled b;;
  identity ← mwrap RaIdentity (mzoom (st_store ∘ ah_site) (λ x h, set_ah_site (set_store x (ah_site h)) h)
    AgentSession.Load);
  r ← mtry (mzoom ah_fs set_ah_fs (reconcilePendingUpdate torn os_executable PathSeparator (pa_DataDir paths)));
  match r with
  | Ok Exits => mret Exits
  | _ =>
      mstate (λ h, (tt, mkHost (ah_site h) (ah_fs h)
        (ah_ran h ++ [(identity, ac_Policy cfg, ac_ServerURL cfg)])));;
      mret Continues
  end.

(** The sessions of one process, each by whether it got connected and whether
    it ended in a shutdown: the first connection commits a pending update,
    once per process, and anything but a shutdown is followed by the next
    session. *)
(* internal/agentcore/agent.go:35-89 Run *)
Fixpoint agent_sessions (fired : bool) (l : list (bool * bool)) : M fsys update_error unit :=
  match l with
  | [] => mret tt
  | (connected, shutdown) :: rest =>
      (if connected && negb fired then commitPendingUpdate PathSeparator (pa_DataDir paths) else mret tt);;
      if shutdown then mret tt else agent_sessions (fired || connected) rest
  end.

(** The exit code of the process: the service's goroutine ends it on an
    error. *)
(* cmd/wr-agent/main.go:44-53 run *)
Definition agent_exit (r : res start_error boot_outcome) : option Z :=
  match r with Err _ => Some 1%Z | Ok Exits => Some 1%Z | Ok Continues => None end.

(** ** What a start does *)

Lemma LoadAgent_always path fs :
  always (LoadAgent yaml path) (λ r fs', fs' = fs ∧ ∀ c, r = Ok c →
    ∃ body, fs !! path = Some body ∧ yaml body DefaultAgent = Some c ∧ ac_ServerURL c ≠ ""%string) fs.
Proof using Type.
  unfold LoadAgent. apply always_mbind, always_mtry. fs_step; [by apply always_mfail..|].
  destruct (yaml d DefaultAgent) as [c|] eqn:Ey; [|by apply always_mfail].
  destruct (String.eqb_spec (ac_ServerURL c) "") as [|Hurl]; [by apply always_mfail|]. apply always_mret.
  split; [done|]. intros c' [= <-]. eauto.
Qed.

Lemma Load_always st :
  always AgentSession.Load (λ r st', st' = st ∧ ∀ id, r = Ok id → (run AgentSession.Load st).1 = Ok id) st.
Proof using Type.
  unfold AgentSession.Load at 1. apply always_mbind, always_mquery; [done|].
  unfold run, AgentSession.Load. run_unfold. run_simpl.
  destruct st as [body|]; [|by apply always_mfail]. destruct (json_unmarshal body) as [s|]; [|by apply always_mfail].
  destruct (uuid_parse (si_DeviceID s)); [|by apply always_mfail].
  destruct (uuid_parse (si_InstallID s)); [|by apply always_mfail].
  destruct (negb _); [by apply always_mfail|]. apply always_mret. split; [done|]. by intros ? [= <-].
Qed.

(** Enrolling touches neither the other files nor what has run, and happens
    only to an agent that has a token. *)
Lemma ensure_enrolled_always b h :
  always (ensure_enrolled b) (λ _ h', ah_fs h' = ah_fs h ∧ ah_ran h' = ah_ran h ∧
    (st_store (ah_site h) ≠ None → st_token (ah_site h) = None → h' = h)) h.
Proof using Type.
  unfold ensure_enrolled, store_exists.
  assert (always (token ← mquery RaNoToken (λ h, st_token (ah_site h));
    match token with
    | None => mfail RaNoToken
    | Some _ => mwrap RaEnroll (mzoom ah_site set_ah_site
        (Enroll (bt_env b) (bt_keys b) (bt_install b) agentVersion (bt_os b) (bt_arch b) (bt_hostname b)));; mret tt
    end) (λ _ h', ah_fs h' = ah_fs h ∧ ah_ran h' = ah_ran h ∧
      (st_store (ah_site h) ≠ None → st_token (ah_site h) = None → h' = h)) h) as Htry.
  { apply always_mbind, always_mquery; [done|]. destruct (st_token _) as [tok|]; [|by apply always_mfail].
    apply always_mbind, always_mwrap, always_mzoom, always_any. intros [id|e] s'; [apply always_mret|]; done. }
  apply always_mbind, always_mbind, always_mtry, always_mquery; apply always_mret; [exact Htry|].
  destruct (negb _); [by apply always_mret|exact Htry].
Qed.

Definition log_file (p : string) : Prop := p = logFile ∨ p = (logFile +:+ ".old")%string.
Lemma log_opened h :
  always (mignore (mzoom ah_fs set_ah_fs (openLogWriter (pa_LogDir paths) logFile)) : M agent_host start_error unit)
    (λ r h', r = Ok tt ∧ ∃ fs, h' = set_ah_fs fs h ∧ ∀ p, ¬ log_file p → fs !! p = ah_fs h !! p) h.
Proof using Type.
  apply always_mignore, always_mzoom. eapply always_mono; [apply openLogWriter_always|].
  intros r fs (_ & Hfs & _). split; [done|]. exists fs. split; [done|]. intros p Hp. apply Hfs; intros ->; apply Hp; [by left|by right].
Qed.

(** The configuration a start will load. *)
Definition configured (b : boot) (c : AgentConfig) (h : agent_host) : Prop :=
  ∃ body, ah_fs h !! start_config b = Some body ∧ yaml body DefaultAgent = Some c ∧ ac_ServerURL c ≠ ""%string.

(** What a start did: it served, as the stored identity and as configured,
    or it did not; without a configuration it changed nothing but the log. *)
Record started (b : boot) (h : agent_host) (r : res start_error boot_outcome) (h' : agent_host) : Prop := {
  sd_ran : ah_ran h' = ah_ran h ∧ r ≠ Ok Continues ∨
    ∃ id c, ah_ran h' = ah_ran h ++ [(id, ac_Policy c, ac_ServerURL c)] ∧ r = Ok Continues ∧ configured b c h ∧
      (run AgentSession.Load (st_store (ah_site h'))).1 = Ok id;
  sd_config : (∀ c, ¬ configured b c h) →
    ah_site h' = ah_site h ∧ ∀ p, ¬ log_file p → ah_fs h' !! p = ah_fs h !! p;
  sd_kept : st_store (ah_site h) ≠ None → st_token (ah_site h) = None → ah_site h' = ah_site h }.

Lemma runAgent_always b h :
  ¬ log_file (start_config b) → always (runAgent b) (started b h) h.
Proof using Type.
  intros Hcfg. unfold runAgent. apply always_mbind. eapply always_mono; [apply log_opened|].
  intros r h1 (-> & fs & -> & Hfs). apply always_mbind, always_mwrap, always_mzoom.
  eapply always_mono; [apply LoadAgent_always|]. intros [c|e] fs1 [-> Hc]; [|by split; [left| |]].
  specialize (Hc c eq_refl). cbn [ah_fs set_ah_fs] in Hc. rewrite Hfs in Hc by done.
  assert (configured b c h) as Hconf by exact Hc.
  assert (∀ r h', (ah_ran h' = ah_ran h ∧ r ≠ Ok Continues ∨
      ∃ id, ah_ran h' = ah_ran h ++ [(id, ac_Policy c, ac_ServerURL c)] ∧ r = Ok Continues ∧
        (run AgentSession.Load (st_store (ah_site h'))).1 = Ok id) →
    (st_store (ah_site h) ≠ None → st_token (ah_site h) = None → ah_site h' = ah_site h) → started b h r h') as Hend.
  { intros r h' Hr Hk. split; [naive_solver|intros Hn; by destruct (Hn c)|done]. }
  apply always_mbind. eapply always_mono; [apply ensure_enrolled_always|]. cbn [ah_fs ah_ran ah_site set_ah_fs].
  intros [[]|e] h2 (Hfs2 & Hran2 & Hkeep2); [|apply Hend; [by left|intros Hs Ht; by rewrite Hkeep2]].
  apply always_mbind, always_mwrap, always_mzoom. eapply always_mono; [apply Load_always|].
  assert (∀ x : site, set_store (st_store x) x = x) as Heta by by intros [].
  intros [id|e] st [-> Hid]; cbn [compose ah_ran ah_site ah_fs set_ah_site]; rewrite Heta.
  2: { apply Hend; [by left|intros Hs Ht; simpl; by rewrite Hkeep2]. }
  apply always_mbind, always_mtry, always_mzoom, always_any. intros out fs3.
  assert (always (mstate (λ h, (tt, mkHost (ah_site h) (ah_fs h)
      (ah_ran h ++ [(id, ac_Policy c, ac_ServerURL c)])));; mret Continues) (started b h)
    (set_ah_fs fs3 (mkHost (ah_site h2) (ah_fs h2) (ah_ran h2)))) as Hserve.
  { apply always_mbind, always_mstate, always_mret, Hend; cbn [fst snd ah_ran ah_site set_ah_fs].
    - right. exists id. split_and!; [by rewrite Hran2|done|by apply Hid].
    - intros Hs Ht. by rewrite Hkeep2. }
  destruct out as [[]|e]; [exact Hserve| |exact Hserve].
  apply always_mret, Hend; [by left|intros Hs Ht; simpl; by rewrite Hkeep2].
Qed.

(** C21: the agent only ever serves as itself and under its own policy:
    whatever fails during a start, it connects only with the identity in its
    credential store, to the server and with the policy its configuration
    file names; a file that is missing, broken or names no server ends the
    start before anything but the log is touched; and an agent that is
    enrolled and has no enrolment token keeps its identity. *)
Theorem agent_serves_as_itself b h :
  ¬ log_file (start_config b) → always (runAgent b) (started b h) h.
Proof using Type. apply runAgent_always. Qed.

(** A start that cannot load its configuration never counts as a failed boot
    of a pending update: however often it is repeated, the marker stays, so
    the update is not rolled back. *)
Theorem broken_config_never_rolls_back b h :
  ¬ log_file (start_config b) → ¬ log_file (markerPath PathSeparator (pa_DataDir paths)) → (∀ c, ¬ configured b c h) →
  ∀ hs, hs !! 0 = Some h →
  (∀ i x y, hs !! i = Some x → hs !! S i = Some y → effect (runAgent b) x y) →
  ∀ y, list.last hs = Some y → ah_fs y !! markerPath PathSeparator (pa_DataDir paths) =
    ah_fs h !! markerPath PathSeparator (pa_DataDir paths).
Proof using Type.
  intros Hcfg Hmark Hconf hs H0' Hstep.
  assert (∀ i x, hs !! i = Some x → ∀ p, ¬ log_file p → ah_fs x !! p = ah_fs h !! p) as Hall.
  { induction i as [|i IH]; intros x Hx; [by simplify_eq|].
    destruct (hs !! i) as [w|] eqn:Ew.
    - intros p Hp. rewrite <-(IH w eq_refl p Hp).
      assert (∀ c, ¬ configured b c w) as Hw.
      { intros c (body & Hb & Hy). apply (Hconf c). exists body. by rewrite <-(IH w eq_refl _ Hcfg). }
      pose proof (effect_always _ (λ x, ∀ p, ¬ log_file p → ah_fs x !! p = ah_fs w !! p) _ _
        (always_mono _ _ _ _ (runAgent_always b w Hcfg) (λ r s' Hs, proj2 (sd_config _ _ _ _ Hs Hw))) (Hstep i w x Ew Hx)) as Hx'.
      by apply Hx'.
    - apply lookup_ge_None in Ew. apply lookup_lt_Some in Hx. lia. }
  intros y Hy. rewrite last_lookup in Hy. by eapply Hall.
Qed.

(** ** Updates are committed by the first connection *)

(** Whether a connection is made before the process is told to stop. *)
Fixpoint connects (l : list (bool * bool)) : bool :=
  match l with [] => false | (c, shutdown) :: rest => c || negb shutdown && connects rest end.

Lemma agent_sessions_fired l w : agent_sessions true l w = (Ok tt, w).
Proof using Type.
  induction l as [|[c b] l IH]; [done|]. cbn [agent_sessions orb negb]. rewrite andb_false_r.
  unfold mbind, M_bind. cbn. destruct b; [done|exact IH].
Qed.
Lemma commit_succeeds w : ∃ w', commitPendingUpdate PathSeparator (pa_DataDir paths) w = (Ok tt, w').
Proof using Type.
  unfold commitPendingUpdate. destruct (String.eqb _ _); [by exists w|]. unfold mbind, M_bind, mtry, mignore. simpl.
  destruct (LoadMarker _ w) as [[[m|]|e] w1]; [|by exists w1..].
  destruct (Remove _ w1) as [? w2]. destruct (DeleteMarker _ w2) as [? w3]. by exists w3.
Qed.

(** A pending update is committed by the first connection of the process and
    by nothing else; reconnecting does not run it again. *)
Theorem update_committed_once l w :
  agent_sessions false l w = (if connects l then commitPendingUpdate PathSeparator (pa_DataDir paths) w else (Ok tt, w)).
Proof using Type.
  induction l as [|[c b] l IH]; [done|]. cbn [agent_sessions connects orb negb]. rewrite andb_true_r.
  destruct c; cbn [orb]; unfold mbind, M_bind at 1.
  - destruct (commit_succeeds w) as (w' & Hc). rewrite Hc. destruct b; [done|]. apply agent_sessions_fired.
  - cbn. destruct b; cbn; [done|exact IH].
Qed.

(** The first start of a new agent, end to end: if it gets as far as serving,
    it serves as a device the server knows, under the key it generated. *)
Theorem first_start_recognised `{!UuidLaws, !JsonLaws agentEnrollRequest, !JsonLaws enrollResponse, !JsonLaws storedIdentity}
    b h pub priv :
  bt_keys b = Some (pub, priv) → ed25519_public priv = pub → length priv = 64 →
  valid_uuid (bt_install b) = true → valid_uuid (en_id (bt_env b) 0) = true →
  dev_inv (se_registry (st_server (ah_site h))) →
  (∀ tok, st_token (ah_site h) = Some tok → json_faithful (mkAgentEnroll (bytes_str (TrimSpace tok))
     (uuid_string (bt_install b)) (std_encode pub) agentVersion (bt_os b) (bt_arch b) (bt_hostname b))) →
  json_faithful (mkEnrollResponse (uuid_string (en_id (bt_env b) 0)) None) →
  json_faithful (mkStored (uuid_string (en_id (bt_env b) 0)) (uuid_string (bt_install b)) priv) →
  st_store (ah_site h) = None →
  always (runAgent b) (λ r h', r = Ok Continues → ∃ id pol url, ah_ran h' = ah_ran h ++ [(id, pol, url)] ∧
    id = mkIdentity (en_id (bt_env b) 0) (bt_install b) pub priv ∧ recognised id (se_registry (st_server (ah_site h')))) h.
Proof using Type.
  intros Hkeys Hpub Hlen Hinst Hid Hinv Hfreq Hfresp Hfstored Hnone. unfold runAgent. apply always_mbind.
  eapply always_mono; [apply log_opened|]. intros r h1 (-> & fs & -> & _). apply always_mbind, always_mwrap, always_mzoom.
  eapply always_mono; [apply LoadAgent_always|]. intros [c|e] fs1 [-> _]; [|done].
  apply always_mbind. unfold ensure_enrolled, store_exists.
  set (id := mkIdentity (en_id (bt_env b) 0) (bt_install b) pub priv).
  set (blob := json_marshal (mkStored (uuid_string (en_id (bt_env b) 0)) (uuid_string (bt_install b)) priv)).
  set (h2 := set_ah_fs _ _).
  assert (always (ensure_enrolled b) (λ r h', ah_ran h' = ah_ran h ∧ (r = Ok tt →
    st_store (ah_site h') = blob ∧ recognised id (se_registry (st_server (ah_site h'))))) h2) as Henrol.
  { unfold ensure_enrolled, store_exists. apply always_mbind, always_mbind, always_mtry, always_mquery; apply always_mret;
      cbn [ah_site set_ah_fs h2]; rewrite ?Hnone; cbn [is_null negb];
      (apply always_mbind, always_mquery; [done|]; case_match; [|by apply always_mfail]);
      apply always_mbind, always_mwrap, always_mzoom; rewrite Hkeys;
      (eapply always_mono; [apply Enroll_always; [done..|exact Hinv|exact Hfreq|exact Hfresp]|]);
      intros [id'|e] s' Hs; [apply always_mret|done|apply always_mret|done]; (split; [done|]); intros _;
      destruct (Hs id' eq_refl) as (-> & Hrec & Hst); (split; [exact Hst|exact Hrec]). }
  eapply always_mono; [exact Henrol|]. intros [[]|e] h3 [Hran Hen]; [|done]. destruct (Hen eq_refl) as [Hst Hrec].
  apply always_mbind, always_mwrap, always_mzoom. eapply always_mono; [apply Load_always|].
  intros [id'|e] st [-> Hload]; [|done]. specialize (Hload id' eq_refl).
  assert (id' = id) as ->.
  { cbn [compose] in Hload. rewrite Hst in Hload. unfold blob in Hload.
    destruct (json_marshal _) as [body|] eqn:Ebody; [|done]. apply json_roundtrip in Ebody; [|done].
    unfold run, AgentSession.Load in Hload. revert Hload. run_unfold. run_simpl. rewrite Ebody. simpl.
    rewrite !uuid_parse_string by done. rewrite Hlen. simpl. rewrite Hpub. by intros [= <-]. }
  apply always_mbind, always_mtry, always_mzoom, always_any. intros out fs3.
  destruct out as [[]|e]; [|by apply always_mret|];
    apply always_mbind, always_mstate, always_mret; intros _; exists id, (ac_Policy c), (ac_ServerURL c); simpl;
    by rewrite Hran.
Qed.
End start.

(** ** A concrete start *)

Section demo.
#[local] Existing Instances demo_uuid_text demo_uuid_laws demo_backend wire_stored wire_marker.
#[local] Existing Instances demo_req_json demo_resp_json demo_stored_json demo_marker_json.

Definition demo_paths : Paths := DefaultPaths (String.concat "\") false "".
Definition demo_log : string := "/var/log/wartungsremote/agent.log".
(** A file that is the server's address. *)
Definition demo_yaml (b : bytes) (c : AgentConfig) : option AgentConfig :=
  Some (mkAgentConfig (bytes_str b) (ac_UpdateChannel c) (ac_LogLevel c) (ac_Policy c)).
Definition demo_host : agent_host :=
  mkHost demo_site {["/etc/a.yaml"%string := str_bytes "https://wr.example"]} [].
Definition demo_start (args : list string) : boot :=
  mkBoot args now_env (Some (demo_key, replicate 32 (byte_of 9) ++ demo_key)) 8 "linux" "amd64" "pc".
Definition demo_agent (args : list string) : res start_error boot_outcome * agent_host :=
  run (runAgent demo_yaml (λ b, b) (Some "/usr/bin/wr-agent"%string) "/" demo_paths demo_log (demo_start args)) demo_host.

Definition demo_args : list string := ["wr-agent"; "--config"; "/etc/a.yaml"]%string.
Example demo_starts :
  agent_exit (demo_agent demo_args).1 = None ∧
  (demo_agent ["wr-agent"; "--config=/etc/a.yaml"]%string).1 = Err (RaConfig (LdNotFound "/etc/wartungsremote/agent.yaml")) ∧
  agent_main demo_paths ["--service"; "install"; "--config=/etc/a.yaml"]%string =
    AaControl "install" ["--config"; "/etc/a.yaml"]%string.
Proof. split_and!; vm_compute; reflexivity. Qed.

Lemma agent_serves_as_itself_witness :
  ∃ id, ah_ran (demo_agent demo_args).2 = [(id, ac_Policy DefaultAgent, "https://wr.example"%string)] ∧
    (run AgentSession.Load (st_store (ah_site (demo_agent demo_args).2))).1 = Ok id.
Proof.
  assert ((demo_agent demo_args).1 = Ok Continues) as Hok by (vm_compute; reflexivity).
  assert (¬ log_file demo_log (start_config demo_paths (demo_start demo_args))) as Hlog
    by (intros [Hl|Hl]; vm_compute in Hl; discriminate Hl).
  pose proof (always_run _ _ _ (agent_serves_as_itself demo_yaml (λ b, b) (Some "/usr/bin/wr-agent"%string) "/"
    demo_paths demo_log (demo_start demo_args) demo_host Hlog)) as Hs.
  unfold demo_agent in *. destruct (run _ demo_host) as [r h'].
  destruct (sd_ran _ _ _ _ _ _ _ Hs) as [[_ Hr]|(id & c & Hran & _ & (body & Hb & Hy & _) & Hload)]; [done|].
  exists id. split; [|exact Hload]. vm_compute in Hb. injection Hb as <-. injection Hy as <-. exact Hran.
Defined.
End demo.
