(* ===== verification/TunnelHelper.v ===== *)
(** The tunnel client on the technician's machine ([cmd/wr-helper/main.go]):
    its command line, the address it binds, the relay's address, and the two
    goroutines that copy between the local connection and the relay. *)
From S2P Require Import Prelude Flags Protocol Messages Codec Hub AgentRelease.

(** ** Addresses *)

(** [strings.TrimRight(s, "/")] and [strings.Replace(s, old, new, 1)] for a
    non-empty [old]. *)
Fixpoint trim_slashes (s : string) : string :=
  match s with
  | EmptyString => EmptyString
  | String c rest =>
      match trim_slashes rest with
      | EmptyString => if Ascii.eqb c "/" then EmptyString else String c EmptyString
      | rest' => String c rest'
      end
  end.
Fixpoint replace_first (old new s : string) : string :=
  match strip_prefix old s with
  | Some rest => (new +:+ rest)%string
  | None => match s with EmptyString => EmptyString | String c rest => String c (replace_first old new rest) end
  end.

(** The agent builds the address of its control channel the same way. *)
(* cmd/wr-helper/main.go:79-81 pipeTunnel *)
Definition ws_base (serverURL : string) : string :=
  replace_first "http://" "ws://" (replace_first "https://" "wss://" (trim_slashes serverURL)).
(* internal/agentcore/session.go:83-85 runSession *)
Definition control_url (serverURL : string) : string := (ws_base serverURL +:+ "/api/v1/agent/control")%string.
(* cmd/wr-helper/main.go:81-81 pipeTunnel *)
Definition tunnel_url (serverURL ticket : string) : string :=
  (ws_base serverURL +:+ "/api/v1/tunnels/stream?ticket=" +:+ ticket)%string.
(* internal/agentcore/session.go:96-96 runSession *)
Definition is_secure (wsURL : string) : bool := HasPrefix wsURL "wss://".

Lemma strip_prefix_app p s : strip_prefix p (p +:+ s) = Some s.
Proof. induction p as [|c p IH]; [done|]. simpl. by rewrite Ascii.eqb_refl. Qed.
Lemma replace_first_head old new s : replace_first old new (old +:+ s) = (new +:+ s)%string.
Proof. destruct (old +:+ s)%string eqn:E; simpl; by rewrite <-E, strip_prefix_app. Qed.

(** Nothing of [old] can begin inside a [p] that shares no character with
    its beginning. *)
Lemma replace_first_skip c old new p s :
  Forall (λ x, x ≠ c) (String.list_ascii_of_string p) →
  replace_first (String c old) new (p +:+ s) = (p +:+ replace_first (String c old) new s)%string.
Proof.
  induction p as [|x p IH]; intros Hp; [done|]. apply list.Forall_cons in Hp as [Hx Hp].
  change (String x p +:+ s)%string with (String x (p +:+ s)). cbn [replace_first strip_prefix].
  destruct (Ascii.eqb_spec c x) as [->|]; [done|]. by rewrite IH.
Qed.

Lemma trim_slashes_cons c s : trim_slashes s ≠ ""%string → trim_slashes (String c s) = String c (trim_slashes s).
Proof. intros Hs. simpl. by destruct (trim_slashes s). Qed.
Lemma trim_slashes_scheme p s :
  trim_slashes s ≠ ""%string → trim_slashes (p +:+ s) = (p +:+ trim_slashes s)%string.
Proof.
  intros Hs. induction p as [|c p IH]; [done|].
  change (String c p +:+ s)%string with (String c (p +:+ s)). rewrite trim_slashes_cons, IH; [done|].
  rewrite IH. by destruct p, (trim_slashes s).
Qed.

(** An address configured with TLS is dialled with TLS, whatever follows. *)
Theorem tls_never_dropped host :
  trim_slashes host ≠ ""%string →
  ∃ rest, ws_base ("https://" +:+ host) = ("wss://" +:+ rest)%string ∧
    is_secure (control_url ("https://" +:+ host)) = true.
Proof.
  intros Hh. unfold control_url, is_secure, ws_base. rewrite trim_slashes_scheme by done.
  rewrite replace_first_head, replace_first_skip by (repeat constructor; discriminate).
  eexists. split; [reflexivity|]. unfold HasPrefix. 
  set (x := replace_first _ _ _). change ((("wss://" +:+ x) +:+ "/api/v1/agent/control"))%string
    with ("wss://" +:+ (x +:+ "/api/v1/agent/control"))%string. by rewrite strip_prefix_app.
Qed.

Example demo_urls :
  tunnel_url "https://remote.example.de/" "wr_tunnel_AA" =
    "wss://remote.example.de/api/v1/tunnels/stream?ticket=wr_tunnel_AA"%string ∧
  control_url "http://10.0.0.2:8443" = "ws://10.0.0.2:8443/api/v1/agent/control"%string ∧
  is_secure (control_url "http://10.0.0.2:8443") = false.
Proof. split_and!; vm_compute; reflexivity. Qed.

(** ** The program *)

(* cmd/wr-helper/main.go:25-28 main *)
Definition helper_formal : formal := [("server", FString); ("ticket", FString); ("port", FInt)]%string.

(** What [main] goes on to do. *)
Inductive helper_action : Type := HaExit (code : Z) | HaRun (serverURL ticket : string) (port : Z).

(* cmd/wr-helper/main.go:24-39 main *)
Definition helper_main (ParseInt : string → option Z) (args : list string) : helper_action :=
  match Flags.Parse ParseInt helper_formal ∅ args with
  | Err FlHelp => HaExit 0
  | Err _ => HaExit 2
  | Ok (set, _) =>
      let serverURL := default ""%string (set !! "server"%string) in
      let ticket := default ""%string (set !! "ticket"%string) in
      let port := default 0%Z (set !! "port"%string ≫= ParseInt) in
      if String.eqb serverURL "" || String.eqb ticket "" then HaExit 1 else HaRun serverURL ticket port
  end.

Inductive helper_error : Type := HpBind | HpAccept | HpDial.

(** The outside's answers to the program's calls: binding the local address,
    the first local connection or the interrupt before it, and the relay. *)
Record surroundings : Type := mkAround {
  ar_bind : string → bool;
  ar_accept : option bool;
  ar_dial : string → bool }.

Definition local_addr (Itoa : Z → string) (port : Z) : string := ("127.0.0.1:" +:+ Itoa port)%string.

(** The relay address a tunnel was opened to, [None] where the program ends
    before; after one connection the listener is not used again. *)
(* cmd/wr-helper/main.go:41-88 run *)
Definition helper_run (Itoa : Z → string) (serverURL ticket : string) (port : Z) (a : surroundings)
    : res helper_error (option string) :=
  if negb (ar_bind a (local_addr Itoa port)) then Err HpBind else
  match ar_accept a with
  | None => Ok None
  | Some false => Err HpAccept
  | Some true => let u := tunnel_url serverURL ticket in if ar_dial a u then Ok (Some u) else Err HpDial
  end.

(** ** The two pumps *)

(** [pu_in] is what the local client will still send, [pu_up] the messages
    written to the relay; [pu_relay] is what the relay will still send,
    [pu_out] what the local client received. *)
Record pumps : Type := mkPumps {
  pu_in : bytes;
  pu_up : list bytes;
  pu_upRunning : bool;
  pu_relay : list ws_message;
  pu_out : bytes;
  pu_downRunning : bool;
  pu_closed : bool }.
Definition start_pumps (local : bytes) (relay : list ws_message) : pumps := mkPumps local [] true relay [] true false.

Definition buffer_size : nat := Z.to_nat (32 * 1024).

(** What happens next: a local read of [n] bytes (at most the buffer) with or
    without an error beside it, and whether the relay takes the message; a
    local read that fails; a message of the relay of which the local
    connection takes [taken] bytes, all of them when [None]; a relay read that
    fails; the main goroutine noticing the first error or the interrupt. *)
Inductive pump_event : Type :=
| UpRead (n : nat) (last accepted : bool)
| UpFails
| DownMessage (taken : option nat)
| DownFails
| Finish (interrupt : bool).

(* cmd/wr-helper/main.go:95-111 pipeTunnel *)
Definition up_turn (n : nat) (last accepted : bool) (s : pumps) : pumps :=
  let n := Nat.min (Nat.min n buffer_size) (length (pu_in s)) in
  if negb (pu_upRunning s) then s else
  mkPumps (drop n (pu_in s))
    (if (0 <? n) && accepted then pu_up s ++ [take n (pu_in s)] else pu_up s)
    (negb ((0 <? n) && negb accepted) && negb last)
    (pu_relay s) (pu_out s) (pu_downRunning s) (pu_closed s).

(* cmd/wr-helper/main.go:114-130 pipeTunnel *)
Definition down_turn (taken : option nat) (s : pumps) : pumps :=
  if negb (pu_downRunning s) then s else
  match pu_relay s with
  | [] => s
  | Text _ :: rest => mkPumps (pu_in s) (pu_up s) (pu_upRunning s) rest (pu_out s) true (pu_closed s)
  | Binary data :: rest =>
      mkPumps (pu_in s) (pu_up s) (pu_upRunning s) rest
        (pu_out s ++ match taken with None => data | Some k => take k data end)
        (is_null taken) (pu_closed s)
  end.

(** Once closed, nothing moves any more. *)
(* cmd/wr-helper/main.go:92-139 pipeTunnel *)
Definition pump (ev : pump_event) (s : pumps) : pumps :=
  if pu_closed s then s else
  match ev with
  | UpRead n last accepted => up_turn n last accepted s
  | UpFails => mkPumps (pu_in s) (pu_up s) false (pu_relay s) (pu_out s) (pu_downRunning s) false
  | DownMessage taken => down_turn taken s
  | DownFails => mkPumps (pu_in s) (pu_up s) (pu_upRunning s) (pu_relay s) (pu_out s) false false
  | Finish interrupt =>
      if interrupt || negb (pu_upRunning s) || negb (pu_downRunning s)
      then mkPumps (pu_in s) (pu_up s) (pu_upRunning s) (pu_relay s) (pu_out s) (pu_downRunning s) true
      else s
  end.

(** The bytes of the binary messages, in order. *)
Definition payload (l : list ws_message) : bytes :=
  concat (map (λ m, match m with Binary b => b | Text _ => [] end) l).

(** ** The tunnel is transparent *)

(** Each direction after the events [evs]: what arrived, then what a failing
    write swallowed, then what is still to come, is what was sent.  Only a
    stopped direction has swallowed anything: the bytes of one local read whose
    message the relay did not take, or the end of one message of which the
    local connection took the first [k] bytes. *)
Record transparent (local : bytes) (relay : list ws_message) (evs : list pump_event) (s : pumps) : Prop := {
  tr_up : ∃ lost, local = concat (pu_up s) ++ lost ++ pu_in s ∧ (pu_upRunning s = true → lost = []) ∧
    (lost = [] ∨ ∃ n last, UpRead n last false ∈ evs ∧ length lost ≤ Nat.min n buffer_size);
  tr_down : ∃ cut, payload relay = pu_out s ++ cut ++ payload (pu_relay s) ∧ (pu_downRunning s = true → cut = []) ∧
    (cut = [] ∨ ∃ k data before, DownMessage (Some k) ∈ evs ∧ relay = before ++ Binary data :: pu_relay s ∧ cut = drop k data);
  tr_rest : pu_relay s `suffix_of` relay;
  tr_size : Forall (λ m, 0 < length m ≤ buffer_size) (pu_up s) }.

Lemma transparent_later local relay evs ev s : transparent local relay evs s → transparent local relay (evs ++ [ev]) s.
Proof.
  intros [(lost & H1 & H2 & H3) (cut & H4 & H5 & H6) H7 H8]. split; [exists lost|exists cut|done..]; split_and!; try done.
  - destruct H3 as [->|(n & last & ? & ?)]; [by left|right]. exists n, last. rewrite elem_of_app. auto.
  - destruct H6 as [->|(k & data & before & ? & ?)]; [by left|right]. exists k, data, before. rewrite elem_of_app. auto.
Qed.

Lemma up_turn_transparent local relay evs n last accepted s :
  transparent local relay evs s → transparent local relay (evs ++ [UpRead n last accepted]) (up_turn n last accepted s).
Proof.
  intros Ht. destruct (transparent_later _ _ _ (UpRead n last accepted) _ Ht) as [(lost & Hup & Hl & Hw) Hd Hr Hs].
  unfold up_turn. set (k := Nat.min _ _).
  destruct (pu_upRunning s) eqn:Er; cbn [negb]; [|by apply transparent_later].
  rewrite (Hl eq_refl) in Hup. simpl in Hup.
  assert (k ≤ Nat.min n buffer_size ∧ k ≤ length (pu_in s)) as Hk by (subst k; lia). clearbody k.
  destruct (Nat.ltb_spec 0 k) as [Hpos|Hpos]; [destruct accepted|]; split;
    cbn [pu_up pu_in pu_upRunning andb negb]; try done.
  - exists []. rewrite concat_app. simpl. rewrite app_nil_r, <-app_assoc, take_drop. auto.
  - apply Forall_app. split; [done|]. apply Forall_singleton. rewrite length_take. lia.
  - exists (take k (pu_in s)). simpl. rewrite take_drop. split_and!; [done..|]. right. exists n, last.
    rewrite elem_of_app, list_elem_of_singleton, length_take. split; [by right|lia].
  - exists []. simpl. replace k with 0 by lia. auto.
Qed.

Lemma down_turn_transparent local relay evs taken s :
  transparent local relay evs s → transparent local relay (evs ++ [DownMessage taken]) (down_turn taken s).
Proof.
  intros Ht. destruct (transparent_later _ _ _ (DownMessage taken) _ Ht) as [Hu (cut & Hd & Hc & _) [before Hr] Hs].
  unfold down_turn. destruct (pu_downRunning s) eqn:Er'; cbn [negb]; [|by apply transparent_later].
  rewrite (Hc eq_refl) in Hd. simpl in Hd.
  destruct (pu_relay s) as [|[t|data] rest] eqn:Er; [by apply transparent_later|split..]; cbn [pu_out pu_relay pu_downRunning]; try done.
  - exists []. auto.
  - exists (before ++ [Text t]). by rewrite <-app_assoc.
  - unfold payload in Hd |- *. cbn [map concat] in Hd. destruct taken as [k|]; cbn [is_null].
    + exists (drop k data). rewrite <-!app_assoc. split_and!; [|done|].
      * rewrite (app_assoc (take k data)), take_drop. done.
      * right. exists k, data, before. rewrite elem_of_app, list_elem_of_singleton. auto.
    + exists []. rewrite <-app_assoc. auto.
  - exists (before ++ [Binary data]). by rewrite <-app_assoc.
Qed.

Lemma pumps_transparent local relay evs :
  transparent local relay evs (foldl (λ s ev, pump ev s) (start_pumps local relay) evs).
Proof.
  apply (rev_ind (λ evs, transparent local relay evs (foldl _ _ evs))).
  - split; simpl; [exists []; auto|exists []; auto|done|constructor].
  - intros ev l IH. rewrite foldl_app. cbn [foldl]. set (s := foldl _ _ l) in *. unfold pump.
    pose proof (transparent_later _ _ _ ev _ IH) as Hl. destruct (pu_closed s); [done|]. destruct ev.
    + by apply up_turn_transparent.
    + destruct Hl as [(lost & ? & ? & ?) ? ? ?]. split; [by exists lost|done..].
    + by apply down_turn_transparent.
    + destruct Hl as [? (cut & ? & ? & ?) ? ?]. split; [done|by exists cut|done..].
    + destruct (_ || _); [|done]. by destruct Hl.
Qed.

(** C26: a tunnel is transparent: whatever the two connections do, the bytes the
    helper forwards in each direction are the bytes it was given, in order
    and without gaps or additions (control messages aside), as long as the
    direction runs.  A direction that has ended has lost nothing but the bytes
    of one write that failed: one local read of at most the buffer's size that
    the relay refused, or the end of one relay message that the local
    connection took only in part; what came after is untouched.  No message to
    the relay is empty or longer than the buffer. *)
Theorem tunnel_transparent local relay evs :
  transparent local relay evs (foldl (λ s ev, pump ev s) (start_pumps local relay) evs).
Proof. apply pumps_transparent. Qed.

(** A tunnel the local client ended in order has delivered all it sent. *)
Corollary tunnel_complete local relay evs s :
  foldl (λ s ev, pump ev s) (start_pumps local relay) evs = s →
  pu_upRunning s = true → pu_in s = [] → concat (pu_up s) = local.
Proof.
  intros <- Hr Hi. destruct (tr_up _ _ _ _ (pumps_transparent local relay evs)) as (lost & Hl & Hnil & _).
  rewrite (Hnil Hr), Hi, !app_nil_r in Hl. by symmetry.
Qed.

Example demo_tunnel :
  let s := foldl (λ s ev, pump ev s) (start_pumps (str_bytes "SSH-2.0") [Text []; Binary (str_bytes "ok")])
    [UpRead 4 false true; DownMessage None; DownMessage None; UpRead 99 true true; Finish false; UpFails] in
  pu_up s = [str_bytes "SSH-"; str_bytes "2.0"] ∧ pu_out s = str_bytes "ok" ∧ pu_closed s = true.
Proof. split_and!; vm_compute; reflexivity. Qed.
Example demo_helper :
  helper_main (λ _, None) ["--server"; "https://r.example"; "-ticket=t"]%string = HaRun "https://r.example" "t" 0 ∧
  helper_main (λ _, None) ["--server"; "https://r.example"]%string = HaExit 1.
Proof. split; vm_compute; reflexivity. Qed.
