(* ===== verification/Wiring.v ===== *)
(** How [NewRouter] wires the components together
    ([internal/httpapi/router.go]): the callbacks of the hub, the messages and
    audit records the components ask for, and the sweeps that run beside the
    requests, as programs over the whole server.

    The components leave what they ask of others in their traces ([hb_calls],
    [rd_calls], [sv_audit]); [deliver] empties the traces and does it. *)
From S2P Require Import Prelude AgentUpdate Help Base64 Rbac RateLimit Password AuthStore Sessions Mfa AuthService.
From S2P Require Import Device Enrollment AuditLog Metrics Monitoring Alerting Protocol Messages.
From S2P Require Import Codec Hub Relay RemoteSession AgentRelease Settings Support Customers Config.
From S2P Require Import Notify Server HttpDevices HttpRemote HttpSessions HttpAdmin Api Routes Startup.

Fixpoint carry {C} (f : nat → C → H unit) (n : nat) (l : list C) : H unit :=
  match l with [] => mret tt | c :: rest => f n c;; carry f (S n) rest end.

(** The zero [time.Time]. *)
Definition zero_time : time := (-62135596800 * Second)%Z.

(** ** Calls of the hub, the session service and the login handlers *)

Section wiring.
Context `{UuidText, Backend, AEAD, !Json Envelope, !Json SessionClosePayload, !Json TerminalResizePayload,
  !Json SessionPrivilegeUpdatePayload}.
Implicit Types (e : env) (h : handlers).

Definition system_event (dev sess : option uuid) (ty : string) (meta : list (string * string)) : Event :=
  mkEvent ActorSystem None sess dev None ty ResultSuccess "" None (be_meta meta).
Definition channel_event (dev : uuid) (ty result ip : string) (meta : list (string * string)) : Event :=
  mkEvent ActorAgent None None (Some dev) None ty result ip None (be_meta meta).

(* internal/httpapi/router.go:150-198 NewRouter *)
Definition on_hub_call h e (n : nat) (c : hub_call) : H unit :=
  match c with
  | AuditConnected dev ip => audit e n (channel_event dev "device.connected" ResultSuccess ip [])
  | AuditDisconnected dev => audit e n (channel_event dev "device.disconnected" ResultSuccess "" [])
  | AuditProtocolError dev ty => audit e n (channel_event dev "protocol.error" ResultFailure "" [("type", ty)%string])
  | OnBinaryFrame dev kind streamID payload => broker (λ b, (tt, handleInbound dev kind streamID payload b))
  | OnSessionClose dev sessionID reason =>
      drop_via se_rs set_rs (on_session_close dev (uuid_parse sessionID) reason (en_now e))
  | OnDisconnect dev => drop_via se_rs set_rs (on_device_disconnect dev (en_now e))
  | OnSupportCredential dev username password =>
      drop_via se_support set_support
        (Upsert (TOTPEncryptionKey (SecretsOf (h_cfg h))) dev username password (en_rnd e n) (en_now e))
  end.

(* internal/remotesession/session.go:249-269 Close, Resize *)
Definition on_rs_call e (n : nat) (c : rs_call) : H unit :=
  match c with
  | SendSessionClose dev sess reason =>
      drop_via se_hub set_hub (SendMessage dev TypeSessionClose (mkSessionClose (uuid_string sess) reason) (en_mid e n) (en_now e))
  | SendResize dev sess cols rows =>
      drop_via se_hub set_hub (SendMessage dev TypeTerminalResize (mkResize (uuid_string sess) cols rows) (en_mid e n) (en_now e))
  | SendPrivilege dev sess privileged until authorization =>
      drop_via se_hub set_hub (SendMessage dev TypeSessionPrivilegeUpdate
        (mkPrivilegeUpdate (uuid_string sess) privileged (default zero_time until)
           (match authorization with Some id => uuid_string id | None => "" end)) (en_mid e n) (en_now e))
  | AuditPrivilegeExpired dev sess privilege =>
      audit e n (system_event (Some dev) (Some sess) "privilege.expired" [("privilege_session_id", uuid_string privilege)%string])
  | AuditInterrupted dev sess reason =>
      audit e n (system_event (Some dev) (Some sess) "remote_session.interrupted" [("reason", reason)%string])
  end.

(** What the login handlers add: [username] is the one of the request. *)
(* internal/httpapi/handlers_auth.go:38-50 handleLogin *)
Definition auth_meta (username : string) (c : audit_call) : list (string * string) :=
  if bool_decide (ac_EventType c ∈ ["auth.login.failure"; "auth.login.lockout"]%string) then [("username", username)%string]
  else if String.eqb (ac_EventType c) "auth.login.success" && is_null (ac_ActorID c)
  then [("stage", "mfa_setup_required"); ("username", username)]%string
  else [].
(* internal/httpapi/handlers_auth.go:52-64 auditLoginFailure *)
Definition on_auth_call e (username : string) (n : nat) (c : audit_call) : H unit :=
  audit e n (mkEvent ActorUser (ac_ActorID c) (ac_SessionID c) None None (ac_EventType c)
    (if ac_Success c then ResultSuccess else ResultFailure) (en_ip e) None (be_meta (auth_meta username c))).

(** Take the calls out of the traces. *)
Definition hub_outbox : H (list hub_call) :=
  mstate (λ s, (hb_calls (se_hub s), set_hub (on_calls (λ _, []) (se_hub s)) s)).
Definition rs_outbox : H (list rs_call) :=
  mstate (λ s, let d := se_rs s in (rd_calls d, set_rs (mkRsDB (rd_sessions d) (rd_privileges d) (rd_tunnels d)
    (rd_maintenance d) (rd_events d) (rd_broker d) []) s)).
Definition auth_outbox : H (list audit_call) :=
  mstate (λ s, let v := se_svc s in
    (sv_audit v, set_svc (mkSvc (sv_db v) (sv_LoginLimiter v) (sv_MFALimiter v) []) s)).

Definition deliver h e (username : string) : H unit :=
  hs ← hub_outbox; carry (on_hub_call h e) 0 hs;;
  rs ← rs_outbox; carry (on_rs_call e) (length hs) rs;;
  cs ← auth_outbox; carry (on_auth_call e username) (length hs + length rs) cs.

(** All handlers of the hub are registered; [down] tells that the version
    check's query fails. *)
(* internal/httpapi/router.go:88-95 NewRouter *)
Definition hub_config_of h (m : manifest) (down : bool) : hub_config :=
  let c := Agent (h_cfg h) in
  mkHubConfig (mkTiming (HeartbeatInterval c) (ConnectionLostAfter c) (OfflineAfter c) (StatusInterval c) (NetworkUploadInterval c))
    true true true true
    (Some (λ os arch version,
       if down then Err tt else match (run (IsVersionBlocked os arch version) m).1 with Ok b => Ok b | Err _ => Err tt end)).
End wiring.

(** ** The sweeps *)

(* internal/alerting/alerting.go:22-29 RuleOffline *)
Definition rule_type_text (t : RuleType) : string :=
  match t with
  | RuleOffline => "offline" | RuleCPU => "cpu" | RuleRAM => "ram" | RuleDisk => "disk" | RuleService => "service"
  | RuleAgentVersion => "agent_version" | RuleOther name => name
  end.

Section sweeps.
Context `{UuidText, Backend, AEAD, TelegramAPI, RuleConfig, PgFloat, !Json Envelope, !Json DeviceCommandPayload}.
(** The text of an alert; the services in a command result: the [json] decoding
    into status and data. *)
Context (render : trigger → string) (services_of : bytes → option (string * list (string * string))).
Context (http_get : string → option http_response).
Implicit Types (e : env) (h : handlers).

(* internal/alerting/engine.go:244-256 evaluateRule *)
Definition ask_services e (n : nat) (id : uuid) : H (option (list (string * string))) :=
  r ← send_and_wait e n id TypeDeviceCommand (mkCommand "" CmdServicesList []);
  mret (match r with
        | Err _ => None
        | Ok env_ =>
            match services_of (env_Payload env_) with
            | Some (status, l) => if String.eqb status "success" then Some l else None
            | None => None
            end
        end).
(** What one evaluation sees of the hub. *)
(* internal/alerting/engine.go:232-249 evaluateRule *)
Definition fleet_for e (n : nat) (rule : Rule) (id : uuid) : H fleet :=
  match rl_RuleType rule, cfg_service (rl_Config rule) with
  | RuleService, Some name =>
      online ← look (λ s, IsOnline id (se_hub s));
      if String.eqb name "" || negb online then mret (mkFleet (λ _, online) (λ _, None))
      else l ← ask_services e n id; mret (mkFleet (λ _, true) (λ _, l))
  | _, _ => mret (mkFleet (λ _, false) (λ _, None))
  end.

Definition severity_text (critical : bool) : string := if critical then "critical" else "warning".

(* internal/alerting/engine.go:73-109 Evaluate *)
Definition evaluate_one h e (n : nat) (p : (uuid * Rule) * (uuid * Device)) : H unit :=
  let '((ruleID, rule), (id, d)) := p in
  fl ← fleet_for e n rule id;
  r ← try_via alert_view set_alert_view (evaluateRule fl rule id d);
  match r with
  | Err _ => mret tt
  | Ok (Some t) =>
      let severity := severity_text (tr_critical t) in
      o ← try_via alert_view set_alert_view (OpenIfNotExists id ruleID (tr_critical t) (render t) (en_now e));
      match o with
      | Ok true =>
          audit e n (system_event (Some id) None "alert.opened"
            [("rule_type", rule_type_text (rl_RuleType rule)); ("severity", severity); ("summary", render t)]%string);;
          drop_via se_notify set_notify
            (notifyOpened (TOTPEncryptionKey (SecretsOf (h_cfg h))) true (dv_DisplayName d) severity (render t))
      | _ => mret tt
      end
  | Ok None =>
      o ← try_via alert_view set_alert_view (AutoResolveIfOpen id ruleID (en_now e));
      match o with
      | Ok true =>
          audit e n (system_event (Some id) None "alert.resolved"
            [("reason", "condition_cleared"); ("rule_type", rule_type_text (rl_RuleType rule))]%string)
      | _ => mret tt
      end
  end.

(** The pairs the two loops go through. *)
Definition alert_pairs (rules : list (uuid * Rule)) (devices : list (uuid * Device)) : list ((uuid * Rule) * (uuid * Device)) :=
  flat_map (λ r, if rl_Enabled r.2 then map (λ d, (r, d)) (scopedDevices devices r.2) else []) rules.
(* internal/alerting/engine.go:55-112 Evaluate *)
Definition alert_tick h e : H unit :=
  rules ← try_via alert_view set_alert_view (ListRules be_rule_le);
  match rules with
  | Err _ => mret tt
  | Ok rules =>
      devices ← try_via se_registry set_registry (ListAll be_collate);
      match devices with
      | Err _ => mret tt
      | Ok devices => carry (evaluate_one h e) 0 (alert_pairs rules devices)
      end
  end.

(* internal/httpapi/router.go:130-130 NewRouter *)
Definition retention_tick h e : H unit :=
  let c := MetricsCfg (h_cfg h) in
  let outcome := λ r : res settings_error (duration * duration), match r with Ok x => Ok x | Err _ => Err tt end in
  m ← try_via se_settings set_settings (MetricsRetention (RawRetention c) (HourlyRetention c));
  n ← try_via se_settings set_settings (NetworkMetricsRetention (NetworkRawRetention c) (NetworkHourlyRetention c));
  drop_via se_registry set_registry
    (Metrics.sweep (RawRetention c, HourlyRetention c) (NetworkRawRetention c, NetworkHourlyRetention c)
       (outcome m) (outcome n) (en_now e)).

Definition rotation_view (s : server) : rotation_state := mkRotation (se_settings s) (se_support s) (se_hub s).
Definition set_rotation_view (x : rotation_state) (s : server) : server :=
  set_hub (ro_hub x) (set_support (ro_support x) (set_settings (ro_settings x) s)).
(* internal/support/rotation.go:25-58 RunRotationSweeper *)
Definition rotation_turn e : H unit := drop_via rotation_view set_rotation_view (rotation_tick (en_mid e) (en_now e)).

(* internal/httpapi/router.go:141-147 NewRouter *)
Definition github_tick h e (releases : option (list ghRelease)) : H unit :=
  if has_release_key h && (0 <? GitHubReleaseSyncEvery (Agent (h_cfg h)))%Z then
    drop_via se_manifest set_manifest
      (SyncOnce be_verify (ReleasePublicKey (SecretsOf (h_cfg h))) http_get (en_id e) (λ _, en_now e) releases)
  else mret tt.

(* internal/httpapi/router.go:104-104 NewRouter *)
Definition privilege_tick e : H unit := drop_via se_rs set_rs (privilege_sweep (en_now e)).
End sweeps.
