(* ===== verification/System.v ===== *)
(** The whole server over its life: requests on both listeners, the control
    connections of the agents, the sweeps, the bootstrap command and restarts,
    in any order and with anything failing; and what holds through all of it.

    A crash in the middle of a program is the run in which every later
    statement fails, followed by a restart, which forgets what was in memory. *)
From S2P Require Import Prelude AgentUpdate Help Base64 Rbac RateLimit Password AuthStore Sessions Mfa AuthService.
From S2P Require Import Device Enrollment AuditLog Metrics Monitoring Alerting Protocol Messages.
From S2P Require Import Codec Hub Relay RemoteSession AgentRelease Settings Support Customers Config.
From S2P Require Import Sha256 Notify Server HttpDevices HttpRemote HttpSessions HttpAdmin Api ServeMux Routes Startup AgentEnroll ApiSafety.
From S2P Require Import Guarantee ApiGuarantee Wiring.

Section system.
Context `{NetIP, UuidText, Backend, Argon2, AEAD, TelegramAPI, Totp, RequestJSON, RuleConfig, PgFloat, !Json Envelope,
  !Json InventoryRequestPayload, !Json DeviceCommandPayload, !Json CommandResultPayload, !Json ServiceActionParams,
  !Json ProcessTerminateParams, !Json FilesListParams, !Json FilesMkdirParams, !Json FilesRenameParams,
  !Json FilesDeleteParams, !Json FilesDownloadParams, !Json FilesUploadParams, !Json LogsQueryParams,
  !Json AgentUpdateParams}.
Context `{!Json ControlChallengePayload, !Json HelloPayload, !Json HelloAckPayload, !Json HeartbeatPayload,
  !Json InventoryResponsePayload, !Json MetricsReportPayload, !Json NetworkMetricsBatchPayload,
  !Json SupportCredentialReportPayload, !Json SessionClosePayload, !Json ProtocolErrorPayload,
  !Json TerminalResizePayload, !Json SessionPrivilegeUpdatePayload}.
Context (http_get : string → option http_response) (render : reason → string) (render_alert : trigger → string).
Context (services_of : bytes → option (string * list (string * string))).
(** The configuration, and what goes with it. *)
Context (cfg : ServerConfig).
Implicit Types (e : env) (h : handlers) (r : raw_request) (s : server).

Definition lifetimes : SessionStore := sv_Sessions (service_of cfg).
Definition release_key : bytes := ReleasePublicKey (SecretsOf cfg).
(** The handlers of a server that runs with it. *)
Definition running h : Prop := h_cfg h = cfg ∧ h_svc h = service_of cfg.

(** ** Steps *)

(** The calls left behind are carried out. *)
Definition delivered h e (username : string) s s' : Prop :=
  effect (deliver h e username) s s'.

Definition login_name r : string := default ""%string (fst <$> two ["username"; "password"]%string r).

(** The socket an agent opens in state [s]: the first part of [ServeAgentWS]
    on a fresh connection object. *)
Definition agent_socket h s (m : M hub hub_error unit) : Prop :=
  ∃ ws ip nonce reply mid1 mid2 connID now later down,
    hb_objects (se_hub s) !! ws = None ∧
    m = connect be_verify render DefaultThresholds (hub_config_of h (se_manifest s) down) ws ip nonce reply mid1 mid2
          connID now later.
Definition serving s (ws : nat) : Prop := ∃ c, hb_objects (se_hub s) !! ws = Some c ∧ cn_serving c = true.

Inductive evolves : server → server → Prop :=
| ev_idle s : evolves s s
| ev_then s1 s2 s3 : evolves s1 s2 → evolves s2 s3 → evolves s1 s3
| ev_admin h e e' r s s1 s2 :
    running h → (∀ n s, evolves s (en_others e n s)) →
    effect (admin http_get h e r) s s1 → delivered h e' (login_name r) s1 s2 → evolves s s2
| ev_public h e e' r s s1 s2 :
    running h → (∀ n s, evolves s (en_others e n s)) → agent_socket h s (su_agent (rw_su r)) →
    effect (public h e r) s s1 → delivered h e' "" s1 s2 → evolves s s2
| ev_message h e' ws m mid now down s s1 s2 :
    running h → serving s ws →
    effect (drop_via se_hub set_hub
      (readLoop_turn render DefaultThresholds (hub_config_of h (se_manifest s) down) ws m mid now)) s s1 →
    delivered h e' "" s1 s2 → evolves s s2
| ev_disconnect h e' ws down s s1 s2 :
    running h → serving s ws →
    effect (drop_via se_hub set_hub (disconnect (hub_config_of h (se_manifest s) down) ws)) s s1 →
    delivered h e' "" s1 s2 → evolves s s2
| ev_hub_sweep h order now down s s' :
    running h →
    effect (drop_via se_hub set_hub
      (Hub.sweep render DefaultThresholds (hub_config_of h (se_manifest s) down) order now)) s s' → evolves s s'
| ev_alerts h e s s' :
    running h → (∀ n s, evolves s (en_others e n s)) →
    effect (alert_tick render_alert services_of h e) s s' → evolves s s'
| ev_privileges h e e' s s1 s2 :
    running h → effect (privilege_tick e) s s1 → delivered h e' "" s1 s2 → evolves s s2
| ev_retention h e s s' : running h → effect (retention_tick h e) s s' → evolves s s'
| ev_rotation e s s' : effect (rotation_turn e) s s' → evolves s s'
| ev_github h e releases s s' : running h → effect (github_tick http_get h e releases) s s' → evolves s s'
| ev_create_admin username displayName passwordFile file devDSN connected salt new_id now s s' :
    effect (mzoom se_authdb set_authdb
      (runCreateAdmin be_citext username displayName passwordFile file (Some cfg) devDSN connected salt new_id now)) s s' →
    evolves s s'
| ev_restart version helpFile ids now s s' :
    effect (NewRouter cfg version helpFile ids now) s s' → evolves s s'.

(** ** Every step stays within the guarantee *)

#[local] Abbreviation keeps := (keeps lifetimes release_key).
#[local] Abbreviation env_ok := (env_ok lifetimes release_key).

Lemma running_ok h : running h → handlers_ok lifetimes release_key h.
Proof using Type. intros [Hc Hs]. split; unfold lifetimes, release_key; [by rewrite Hs|by rewrite Hc]. Qed.

Lemma keeps_mux {A} (o : outcome A) (k : A → list string → H page) :
  (∀ x v, preserves keeps (k x v)) → preserves keeps (mux_page o k).
Proof using Type. intros Hk. destruct o; simpl; first [apply Hk|preserve_step]. Qed.
Lemma keeps_api_page (m : H Reply) : preserves keeps m → preserves keeps (api_page m).
Proof using Type. intros Hm. unfold api_page. preserve_steps. Qed.
Lemma keeps_auth_page (m : SvcM Response) : preserves (svc_rel lifetimes) m → preserves keeps (auth_page m).
Proof using Type. intros Hm. unfold auth_page. preserve_steps. by eapply keeps_zoom; [apply keeps_set_svc|]. Qed.

Section request.
Context (h : handlers) (Hh : running h) (e : env) (He : env_ok e).

(** The login endpoints are requests of [auth_step]. *)
Lemma keeps_auth_serve (q : request) (m : SvcM Response) :
  m = AuthService.serve be_citext (h_svc h) q → preserves keeps (auth_page m).
Proof using Hh.
  intros ->. apply keeps_auth_page. rewrite (h_sessions _ _ _ (running_ok h Hh)). apply serve_rel.
Qed.
Lemma keeps_open r x : preserves keeps (open_page h e r x).
Proof using Hh.
  destruct x; cbn [open_page]; [preserve_steps|..].
  - by apply (keeps_auth_serve (RqLogin (rw_req r) (two ["username"; "password"]%string r) (su_ent (rw_su r)) (su_csrf (rw_su r)) (en_now e))).
  - by apply (keeps_auth_serve (RqTOTP (rw_req r) (two ["challenge_id"; "code"]%string r) (su_ent (rw_su r)) (su_csrf (rw_su r)) (en_now e))).
  - by apply (keeps_auth_serve (RqMFASetup (rw_req r) (three ["username"; "password"; "code"]%string r) (su_ent (rw_su r)) (su_csrf (rw_su r)) (en_now e))).
  - by apply (keeps_auth_serve (RqLogout (rw_req r) (en_now e))).
  - by apply (keeps_auth_serve (RqReauth (rw_req r) (two ["password"; "code"]%string r) (su_ent (rw_su r)) (en_now e))).
Qed.

Lemma keeps_guarded {A} req (next : authctx → H A) :
  (∀ cx, preserves keeps (next cx)) → preserves keeps (guarded h e req next).
Proof using Hh.
  intros Hn. unfold guarded. keep_steps He. by eapply svc_le_CheckSession, h_sessions, running_ok.
Qed.
Lemma keeps_admin r : preserves keeps (admin http_get h e r).
Proof using Hh He.
  apply keeps_mux. intros [x|] v; [apply keeps_open|]. unfold protected_page. preserve_steps.
  apply keeps_guarded. intros cx. apply keeps_mux. intros k v'. apply keeps_api_page.
  by apply keeps_serve; [|apply running_ok].
Qed.
Lemma keeps_public r s : agent_socket h s (su_agent (rw_su r)) → preserves keeps (public h e r).
Proof using Hh He.
  intros (ws & ip & nonce & reply & mid1 & mid2 & connID & now & later & down & _ & Hm).
  apply keeps_mux. intros [] v; try (apply keeps_api_page); try preserve_step.
  - by apply keeps_enroll.
  - unfold handleAgentControl. preserve_steps.
    + apply keeps_state. intros s1. destruct (Allow _ _ _). by apply keeps_same.
    + rewrite Hm. eapply keeps_zoom; [apply keeps_set_hub|apply hub_le_connect].
  - by apply keeps_tunnel.
Qed.

(** The alert sweep. *)
Lemma alert_le_registry {A} (m : DevM A) : preserves eq m → preserves alert_le (Alerting.registry m).
Proof using Type.
  intros Hm. apply preserves_mwrap. eapply preserves_mzoom; [exact Hm|]. intros d t <-. by destruct d.
Qed.
Lemma alert_le_evaluate fl rule id d : preserves alert_le (evaluateRule fl rule id d).
Proof using Type.
  unfold evaluateRule. preserve_steps; apply alert_le_registry; unfold LatestMetrics; intros t; by apply always_mquery.
Qed.
Lemma keeps_alert_tick : preserves keeps (alert_tick render_alert services_of h e).
Proof using He.
  unfold alert_tick. preserve_step; [unfold ListRules; keep_steps He|]. destruct a as [rules|]; [|preserve_steps].
  preserve_step; [keep_steps He|]. destruct a as [devices|]; [|preserve_steps]. generalize 0.
  induction (alert_pairs rules devices) as [|p l IH]; intros n; cbn [carry]; [preserve_steps|].
  preserve_step; [|apply IH]. destruct p as [[rid rule] [id d]].
  unfold evaluate_one, fleet_for, ask_services, system_event. keep_steps He;
    solve [by apply keeps_send_and_wait|apply alert_le_evaluate].
Qed.
End request.

(** The other sweeps. *)
Lemma keeps_privileges e : preserves keeps (privilege_tick e).
Proof using Type. unfold privilege_tick. keep_steps I. Qed.
Lemma keeps_retention h e : preserves keeps (retention_tick h e).
Proof using Type. unfold retention_tick, Metrics.sweep. keep_steps I. Qed.
Lemma keeps_set_rotation x s : hub_le (se_hub s) (ro_hub x) → keeps s (set_rotation_view x s).
Proof using Type. keeps_parts. Qed.
Definition rotation_le (x y : rotation_state) : Prop := hub_le (ro_hub x) (ro_hub y).
#[local] Instance rotation_le_preorder : PreOrder rotation_le.
Proof. split; [intros x; unfold rotation_le; reflexivity|]. intros x y z. unfold rotation_le. apply transitivity. Qed.
Lemma rotate_due_le mid ids n now : preserves rotation_le (rotate_due mid ids n now).
Proof using Type.
  revert n. induction ids as [|id ids IH]; intros n; cbn [rotate_due]; [preserve_steps|].
  preserve_step; [apply preserves_mstate; intros x; reflexivity|]. preserve_steps.
  eapply preserves_mzoom; [apply hub_le_SendMessage|]. done.
Qed.
Lemma keeps_rotation e : preserves keeps (rotation_turn e).
Proof using Type.
  eapply (keeps_drop_via _ _ _ _ rotation_le); [intros x s; apply keeps_set_rotation|]. unfold rotation_tick.
  preserve_steps; try apply rotate_due_le;
    apply (preserves_mzoom _ _ _ anything); try apply keeps_anything; intros x t _; unfold rotation_le; reflexivity.
Qed.
Lemma keeps_github h e releases : running h → preserves keeps (github_tick http_get h e releases).
Proof using Type.
  intros Hh. unfold github_tick. preserve_step; [|preserve_steps]. rewrite <-(h_key _ _ _ (running_ok h Hh)).
  eapply keeps_drop_via; [apply keeps_set_manifest|apply SyncOnce_signed].
Qed.
Lemma keeps_create_admin username displayName passwordFile file c devDSN connected salt id now :
  preserves keeps (mzoom se_authdb set_authdb
    (runCreateAdmin be_citext username displayName passwordFile file c devDSN connected salt id now)).
Proof using Type.
  eapply keeps_zoom; [apply keeps_set_authdb|]. unfold runCreateAdmin. preserve_steps.
Qed.

(** The calls between the components. *)
Lemma keeps_carry {C} (f : nat → C → H unit) n l :
  (∀ n c, c ∈ l → preserves keeps (f n c)) → preserves keeps (carry f n l).
Proof using Type.
  revert n. induction l as [|c l IH]; intros n Hf; cbn [carry]; [preserve_steps|].
  preserve_step; [apply Hf; left|]. apply IH. intros n' c' Hc. apply Hf. by right.
Qed.
Lemma keeps_hub_call h e n c : preserves keeps (on_hub_call h e n c).
Proof using Type. destruct c; cbn [on_hub_call]; unfold channel_event; keep_steps I. Qed.
Lemma keeps_rs_call e n c : preserves keeps (on_rs_call e n c).
Proof using Type. destruct c; cbn [on_rs_call]; unfold system_event; keep_steps I. Qed.
Lemma keeps_auth_call e u n c : preserves keeps (on_auth_call e u n c).
Proof using Type. unfold on_auth_call. keep_steps I. Qed.
Lemma delivered_keeps h e username s s' : delivered h e username s s' → keeps s s'.
Proof using Type.
  apply (effect_always _ (keeps s)). unfold deliver, hub_outbox.
  apply always_mbind, always_mstate. cbn [fst snd]. set (s1 := set_hub _ s).
  assert (keeps s s1) as Hs1 by by apply keeps_same. set (hs := hb_calls (se_hub s)) in *.
  match goal with |- always ?m _ _ => enough (preserves keeps m) as Hm end.
  { eapply always_mono; [apply Hm|]. intros ? s2 Hs2. by etrans. }
  preserve_step; [apply keeps_carry; intros n c _; apply keeps_hub_call|].
  preserve_step; [apply keeps_state; intros s2; by apply keeps_same|].
  preserve_step; [apply keeps_carry; intros n c _; by apply keeps_rs_call|].
  preserve_step; [apply keeps_state; intros s2; by apply keeps_same|].
  apply keeps_carry. intros n c _. by apply keeps_auth_call.
Qed.

(** A restart. *)
Lemma keeps_close_interrupted ids now n l :
  preserves keeps (close_interrupted ids now n l).
Proof using Type.
  revert n. induction l as [|[id m] l IH]; intros n; cbn [close_interrupted]; [preserve_steps|].
  preserve_step.
  - destruct m; preserve_steps. apply (keeps_zoom _ _ _ _ anything); [|apply keeps_anything].
    intros x s _. by apply keeps_same.
  - preserve_step; [|apply IH]. preserve_step. eapply keeps_zoom; [apply keeps_set_audit|]. apply Record_le.
Qed.
Lemma keeps_restart version helpFile ids now :
  preserves keeps (NewRouter cfg version helpFile ids now).
Proof using Type.
  unfold NewRouter. destruct (ParseTrustedProxies _); [|preserve_steps].
  assert (∀ E A (m : M rs_db E A), preserves keeps (mzoom se_rs set_rs m)) as Hrs.
  { intros E A m. apply (keeps_zoom _ _ _ _ anything); [|apply keeps_anything]. intros x s _. by apply keeps_same. }
  preserve_step; [apply preserves_mstate; intros s; by apply keeps_same|]. preserve_steps.
  apply keeps_close_interrupted.
Qed.

Lemma evolves_keeps s s' : evolves s s' → keeps s s'.
Proof using Type.
  induction 1 as [s|s1 s2 s3 _ IH1 _ IH2|h e e' r s s1 s2 Hh Ho IH Hm Hd|h e e' r s s1 s2 Hh Ho IH Ha Hm Hd
    |h e' ws m mid now down s s1 s2 Hh Hws Hm Hd|h e' ws down s s1 s2 Hh Hws Hm Hd|h order now down s s' Hh Hm
    |h e s s' Hh Ho IH Hm|h e e' s s1 s2 Hh Hm Hd|h e s s' Hh Hm|e s s' Hm|h e rels s s' Hh Hm
    |u dn pf f dsn c salt id now s s' Hm|v hf ids now s s' Hm].
  1: reflexivity.
  1: by etrans.
  all: try (apply delivered_keeps in Hd; etrans; [clear Hd|exact Hd]); revert Hm; apply (effect_always _ (keeps _)).
  - by apply keeps_admin.
  - by eapply keeps_public.
  - eapply keeps_drop_via; [apply keeps_set_hub|apply hub_le_read].
  - eapply keeps_drop_via; [apply keeps_set_hub|apply hub_le_disconnect].
  - eapply keeps_drop_via; [apply keeps_set_hub|apply hub_le_sweep].
  - by apply keeps_alert_tick.
  - apply keeps_privileges.
  - apply keeps_retention.
  - apply keeps_rotation.
  - by apply keeps_github.
  - apply keeps_create_admin.
  - by apply keeps_restart.
Qed.

(** ** What holds through the life of the server *)

(** C4: the audit trail is append-only and linked for the life of the server:
    whatever requests arrive on either listener, whatever agents do, whichever
    sweeps run, whatever statements fail and however often the server crashes
    and restarts, every entry recorded so far is still in its place, and every
    entry links to the one before it and carries the hash of what was recorded.
    [VerifyChain] covers all of them; it reports a valid chain, or as broken
    the first entry whose address or metadata the [inet] or [jsonb] column
    gave back differently from what was hashed, and nothing else. *)
Theorem system_audit_trail old s0 s :
  Forall pre_chain old → log_ok be_inet be_jsonb old (se_audit s0) → evolves s0 s →
  se_audit s0 `prefix_of` se_audit s ∧
  ∃ rows v, se_audit s = old ++ rows ∧ recorded be_inet be_jsonb [] rows ∧
    run VerifyChain (se_audit s) = (Ok v, se_audit s) ∧ verdict be_inet be_jsonb (Z.of_nat (length old)) 0 rows v.
Proof using Type.
  intros Hold Hok He. destruct (kp_audit _ _ _ _ (evolves_keeps _ _ He)) as [Hp Hc].
  split; [done|]. apply log_ok_verdict; auto.
Qed.

(** C12: revocation is final: once a browser session, a device's credential (of
    a device that has ever connected) or an enrolment token has been revoked,
    then whatever the server goes through afterwards, restarts included, the
    session's token is never accepted again, the device stays revoked without
    a key the control channel would accept, and the enrolment token enrols
    nothing. *)
Theorem revocation_is_final s s' :
  sessions_ok lifetimes (se_authdb s) → dev_inv (se_registry s) → tokens_ok (se_registry s) → evolves s s' →
  (∀ i a token now fs, user_sessions (se_authdb s) !! i = Some a → s_RevokedAt a ≠ None →
     Sessions.hashToken token = s_TokenHash a → is_ok (Sessions.Validate lifetimes token now (World (se_authdb s') fs)).1 = false) ∧
  (∀ id x now fs, devices (se_registry s) !! id = Some x → dv_CredentialStatus x = CredRevoked → dv_LastSeenAt x ≠ None →
     (∃ x', devices (se_registry s') !! id = Some x' ∧ dv_CredentialStatus x' = CredRevoked) ∧
     is_ok (ActiveCredentialPublicKey id now (World (se_registry s') fs)).1 = false) ∧
  (∀ tid t req id now fs, enrollment_tokens (se_registry s) !! tid = Some t → et_RevokedAt t ≠ None →
     Enrollment.hashToken (er_Token req) = Ok (et_TokenHash t) →
     is_ok (Consume req id now (World (se_registry s') fs)).1 = false).
Proof using Type.
  intros Hs Hd Ht He. destruct (evolves_keeps _ _ He) as [_ Ha [Hr1 Hr2] _ _]. split_and!.
  - intros. by eapply revoked_session_rel.
  - intros. by eapply revoked_device_rel.
  - intros. eapply dead_token_rel; eauto.
Qed.

(** C24: what works once works once: a consumed single-use enrolment token, a
    consumed re-authentication and a login challenge that was completed or has
    failed five times are dead through everything the server goes through
    afterwards. *)
Theorem one_time_secrets h s s' :
  running h → tokens_ok (se_registry s) → evolves s s' →
  (∀ tid t req id now fs, enrollment_tokens (se_registry s) !! tid = Some t → et_ConsumedAt t ≠ None →
     Enrollment.hashToken (er_Token req) = Ok (et_TokenHash t) →
     is_ok (Consume req id now (World (se_registry s') fs)).1 = false) ∧
  (∀ id t u reauthID now fs, uuid_parse reauthID = Some id → reauth_tokens (se_authdb s) !! id = Some t →
     ra_ConsumedAt t ≠ None → (ConsumeReauth u reauthID now (World (se_authdb s') fs)).1 ≠ Ok true) ∧
  (∀ challengeID cid c code ent now fs, uuid_parse challengeID = Some cid →
     mfa_challenges (se_authdb s) !! cid = Some c → c_ConsumedAt c ≠ None ∨ (5 ≤ c_Attempts c)%Z →
     is_ok (CompleteMFA (h_svc h) challengeID code ent now (World (se_svc s') fs)).1 = false).
Proof using Type.
  intros Hh Ht He. destruct (evolves_keeps _ _ He) as [_ Ha [_ Hr2] _ _]. split_and!.
  - intros. eapply dead_token_rel; eauto.
  - intros. by eapply spent_reauth_rel.
  - intros ch cid c code ent now fs Hp Hc Hdead.
    pose proof (spent_challenge_rel (h_svc h) (se_svc s) (se_svc s') ch cid c code ent now fs Hp Hc Hdead) as Hx.
    rewrite <-(h_sessions _ _ _ (running_ok h Hh)) in Hx. specialize (Hx Ha).
    destruct (CompleteMFA _ _ _ _ _ _) as [r w]. by destruct Hx.
Qed.

(** C25: alerts are not doubled: through the life of the server each device has
    at most one active alert per rule. *)
Theorem alerts_stay_unique s s' :
  alerts_unique (alert_view s) → evolves s s' → alerts_unique (alert_view s').
Proof using Type. intros Hu He. exact (kp_alerts _ _ _ _ (evolves_keeps _ _ He) Hu). Qed.

(** C18: only signed software is offered: from an empty manifest on, whatever
    administrators submit, GitHub lists and the server goes through, a release
    it offers for a platform and channel is the newest unblocked one there, and
    an agent built with the server's key accepts, under the texts of that
    release, exactly the artifacts whose SHA-256 is the registered one. *)
Theorem offered_software_signed s0 s os arch ch rl db' :
  se_manifest s0 = ∅ → evolves s0 s → run (Latest os arch ch) (se_manifest s) = (Ok rl, db') →
  ∃ row, se_manifest s !! rl_ID rl = Some row ∧ offered os arch ch row ∧
    (∀ id' row', se_manifest s !! id' = Some row' → offered os arch ch row' → (vr_published row' ≤ vr_published row)%Z) ∧
    rl_Version rl = vr_version row ∧ rl_ArtifactURL rl = vr_url row ∧
    ∀ data, VerifyArtifact be_verify release_key data (rl_ArtifactSHA256Hex rl) (rl_SignatureBase64 rl) = Ok tt ↔
      Sum256 data = vr_sha256 row.
Proof using Type.
  intros Hempty He. apply signed_offer. apply (kp_manifest _ _ _ _ (evolves_keeps _ _ He)). by rewrite Hempty.
Qed.
End system.

(** ** A lost agent *)

Section lost.
Context `{UuidText, Backend, AEAD, !Json Envelope, !Json SessionClosePayload, !Json TerminalResizePayload,
  !Json SessionPrivilegeUpdatePayload}.
Implicit Types (e : env) (h : handlers) (s : server).

(** The columns take the metadata, and the sequence is ahead of the log. *)
Definition recordable e (log : audit_db) : Prop :=
  (∀ l, ∃ meta, be_meta l = Some meta ∧ is_Some (be_jsonb meta)) ∧
  (∀ i j, i < j → (en_auditID e i < en_auditID e j)%Z) ∧ Forall (λ row, (ar_ID row < en_auditID e 0)%Z) log.

(** A record without an address. *)
Lemma audit_ideal e n ev l s :
  recordable e [] → ev_Metadata ev = be_meta l → ev_SourceIP ev = ""%string →
  Forall (λ row, (ar_ID row < en_auditID e n)%Z) (se_audit s) →
  ideal (audit e n ev) (λ y s', y = Ok tt ∧ ∃ row, s' = set_audit (se_audit s ++ [row]) s ∧
    ar_ID row = en_auditID e n ∧ says (ar_Fields row) = says_of ev) s.
Proof using Type.
  intros (Hmeta & _) Hl Hip Hlog. apply ideal_mignore, ideal_mzoom. eapply ideal_mono.
  { apply Record_writes; [rewrite Hl; apply Hmeta|by left|exact Hlog]. }
  intros y d (_ & row & -> & Hid & Hsays). split; [done|]. by exists row.
Qed.

Lemma ahead_next e n (log : audit_db) row :
  recordable e [] → Forall (λ row, (ar_ID row < en_auditID e n)%Z) log → ar_ID row = en_auditID e n →
  Forall (λ row, (ar_ID row < en_auditID e (S n))%Z) (log ++ [row]).
Proof using Type.
  intros (_ & Hinc & _) Hlog Hrow. pose proof (Hinc n (S n) ltac:(lia)). apply Forall_app. split.
  - eapply list.Forall_impl; [exact Hlog|]. simpl. lia.
  - apply Forall_singleton. lia.
Qed.

Definition interruption_says (dev id : uuid) :=
  ("remote_session.interrupted"%string, ResultSuccess, @None uuid, Some id, Some dev).
Lemma carry_interrupted e dev n ids s :
  recordable e [] → Forall (λ row, (ar_ID row < en_auditID e n)%Z) (se_audit s) →
  ideal (carry (on_rs_call e) n (map (λ id, AuditInterrupted dev id "agent_disconnected") ids)) (λ y s', y = Ok tt ∧
    ∃ rows, s' = set_audit (se_audit s ++ rows) s ∧ map (λ row, says (ar_Fields row)) rows = map (interruption_says dev) ids) s.
Proof using Type.
  intros Hrec. revert n s. induction ids as [|id ids IH]; intros n s Hlog; cbn [map carry].
  { apply ideal_mret. split; [done|]. exists []. rewrite app_nil_r. by destruct s. }
  apply ideal_mbind. eapply ideal_mono; [by eapply audit_ideal|]. intros y s1 (-> & row & -> & Hid & Hsays).
  eapply ideal_mono; [apply IH; by apply ahead_next|]. intros y s2 (-> & rows & -> & Hrows). split; [done|].
  exists (row :: rows). split; [unfold set_audit; simpl; by rewrite <-app_assoc|]. cbn [map]. by rewrite Hsays, Hrows.
Qed.

Lemma disconnect_ideal hc ws c (x : hub) :
  hb_objects x !! ws = Some c → hc_disconnectHandler hc = true →
  ideal (disconnect hc ws) (λ _ x',
    hb_calls x' = hb_calls x ++ [AuditDisconnected (cn_deviceID c); OnDisconnect (cn_deviceID c)] ∧
    hb_conns x' = (if bool_decide (hb_conns x !! cn_deviceID c = Some ws) then delete (cn_deviceID c) (hb_conns x) else hb_conns x)) x.
Proof using Type.
  intros Hc Hh. unfold disconnect, leave, return_. apply ideal_mbind, ideal_mstate. cbn [fst snd]. rewrite Hc, Hh.
  unfold call, do_, Hub.registry, UpdateStatusOnly. ideal_steps. rewrite <-app_assoc. split; by case_bool_decide.
Qed.

End lost.

(** ** A concrete server *)

Section demo.
#[local] Existing Instances demo_netip demo_uuid toy_IDKey demo_aead demo_totp any_json demo_telegram Alerting.demo_config demo_float.
(** The body of a request is its one text field; a signature is the signed
    digest itself. *)
#[local] Instance text_json : RequestJSON := {|
  js_strings _ _ := None; js_partial _ b := bytes_str b; js_partial_int _ _ := 0%Z; js_int _ _ := None; js_bool _ _ := None;
  js_retention _ := None; js_enrollment _ := None; js_patchDevice _ := None; js_privilege _ := None; js_group _ := None;
  js_rule _ := None; js_release _ := None; js_status _ := None |}.
#[local] Instance sys_backend : Backend :=
  {| be_inet := Some; be_jsonb := Some; be_meta _ := Some (str_bytes "{}"); be_citext := String.eqb; be_ilike _ _ := true;
     be_collate _ _ := true; be_rule_le _ _ := true; be_enrollText _ := ""%string; be_syncText _ := ""%string;
     be_parseTime _ := None; be_parseHours _ := None; be_verify := demo_check;
     be_number _ _ := None |}.

(** Releases are synchronised every hour. *)
Definition sys_cfg : ServerConfig :=
  mkServerConfig "production" (mkPublic "https://localhost:8443" "0.0.0.0:8443" "")
    (mkAdmin "127.0.0.1:9443" (12 * Hour) (30 * Minute) (15 * Minute) true)
    (mkAgentTiming (45 * Second) (120 * Second) (300 * Second) (5 * Minute) (5 * Minute) (30 * Minute) (5 * Minute)
       "mrder/wartungsremote" Hour)
    (RelayCfg Default) (mkSecurity "__Host-session" true true (19 * 1024) 2 1 []) (MetricsCfg Default) "docs"
    (mkSecrets "" "" [] (replicate 32 "k"%char) [] demo_release_key "").
Definition sys_handlers : handlers := mkHandlers sys_cfg (service_of sys_cfg) "1.0" [].
Lemma sys_running : running sys_cfg sys_handlers.
Proof. done. Qed.

Abbreviation sys_evolves :=
  (evolves demo_hub (λ _, ""%string) (λ _, ""%string) (λ _, None) sys_cfg).
Definition sys_router : M server unit handlers := NewRouter sys_cfg "1.0" None (λ n, Z.of_nat (20 + n)) 100.
Definition restarted (s : server) : server := (run sys_router s).2.
Lemma sys_restart s : sys_evolves s (restarted s).
Proof.
  apply (ev_restart _ _ _ _ _ "1.0" None (λ n, Z.of_nat (20 + n)) 100).
  exact (effect_run sys_router s).
Qed.

(** The administrator revokes device 7 while device 8 has an open terminal;
    then the server restarts. *)
Definition revoke_request : raw_request :=
  mkRaw (browser "live" "POST") (str_bytes ("/api/v1/devices/" +:+ id_text 7 +:+ "/revoke")) (λ _, ""%string)
    (str_bytes (id_text 3))
    (mkSurroundings (mkEntropy None 0 None None [] None) [] [] false [] 0 ([], false) None (mret tt)).
Definition terminal_open : rs_db :=
  mkRsDB {[3%N := mkRemoteSession 8 5 KindTerminal StateActive 0 None (8 * Hour) None (Some 9%N)]} ∅ ∅
    {[9%N := mkMaintenance 8 None 5 0 None "" ""]} [] NewBroker [].
Definition sys0 : server := set_rs terminal_open start.
Definition sys1 : server := (run (admin demo_hub sys_handlers now_env revoke_request) sys0).2.
Definition later_env : env :=
  mkEnv 11 21 "192.0.2.1" (λ _, ""%string) (λ n, N.of_nat (200 + n)) (λ _, None) (λ n, Z.of_nat (10 + n))
    (answers (Err tt)) (λ _ s, s) (λ _, true).
Definition sys2 : server := (run (deliver sys_handlers later_env "") sys1).2.
Definition sys3 : server := restarted sys2.
Lemma sys3_evolves : sys_evolves sys0 sys3.
Proof.
  apply (ev_then _ _ _ _ _ sys0 sys2 sys3).
  - apply (ev_admin _ _ _ _ _ sys_handlers now_env later_env revoke_request sys0 sys1 sys2).
    + exact sys_running.
    + intros n s. apply ev_idle.
    + exact (effect_run (admin demo_hub sys_handlers now_env revoke_request) sys0).
    + exact (effect_run (deliver sys_handlers later_env "") sys1).
  - apply sys_restart.
Qed.
Lemma sys_unaltered r : ¬ altered be_inet be_jsonb r.
Proof.
  intros (f & Hs & Hne & _). unfold stored in Hs. simpl in Hs.
  destruct (String.eqb_spec (cf_SourceIP f) ""); simpl in Hs; injection Hs as Hs; rewrite <-Hs in Hne; simpl in Hne; destruct Hne; congruence.
Qed.
Lemma system_audit_trail_witness :
  map (λ row, (says (ar_Fields row)).1.1.1.1) (se_audit sys3) =
    ["device.revoked"; "remote_session.interrupted"]%string ∧
  run VerifyChain (se_audit sys3) = (Ok (mkVerification true 2 0 None), se_audit sys3).
Proof.
  assert (map (λ row, (says (ar_Fields row)).1.1.1.1) (se_audit sys3) =
    ["device.revoked"; "remote_session.interrupted"]%string) as Hsays by (vm_compute; reflexivity).
  assert (length (se_audit sys3) = 2) as Hlen by (vm_compute; reflexivity).
  split; [exact Hsays|].
  destruct (system_audit_trail demo_hub (λ _, ""%string) (λ _, ""%string) (λ _, None) sys_cfg [] sys0 sys3)
    as [_ (rows & v & Hrows & _ & Hv & Hd)].
  - constructor.
  - exists []. split; [exact eq_refl|exact I].
  - exact sys3_evolves.
  - change (se_audit sys3 = rows) in Hrows. rewrite Hv. rewrite <-Hrows in Hd.
    destruct Hd as [[_ ->]|(k & r & _ & Hr & _)]; [rewrite Hlen; exact eq_refl|]. destruct (sys_unaltered r Hr).
Defined.

(** Session 1 is revoked, re-authentication 3 consumed, challenge 8 has failed
    five times; device 20 was enrolled with a single-use token, came online and
    was revoked; a second token was revoked unused. *)
Definition spent_accounts : auth_db :=
  mkAuthDB {[5%N := demo_user]} ∅ (user_sessions demo_db) {[8%N := AuthStore.mkChallenge 5 (5 * Minute) None 5]}
    {[3%N := mkReauth 5 (5 * Minute) (Some 4%Z)]} ∅ [] [].
Definition spent_raw : bytes := replicate 32 "u"%char.
Definition spent_token : string := token_prefix +:+ raw_encode url_alphabet spent_raw.
Definition with_second_token : dev_db := (run (Create (demo_params false) (Some spent_raw) 11 10) demo_locked).2.
Definition spent_registry : dev_db := (run (RevokeToken 11 12) with_second_token).2.
Lemma spent_registry_ok : dev_inv spent_registry ∧ tokens_ok spent_registry.
Proof.
  apply (@registry_inv demo_ids). eapply reach_step; [eapply reach_step; [apply demo_locked_reachable|]|].
  - apply (Enrollment.rs_create (demo_params false) (Some spent_raw) 11 10).
    exact (effect_run (Create (demo_params false) (Some spent_raw) 11 10) demo_locked).
  - eapply rs_revoke_token. exact (effect_run (RevokeToken 11 12) with_second_token).
Qed.
Definition spent : server := set_hub (NewHub spent_registry) (set_svc (NewLimiters spent_accounts) sys0).
Definition later : server := restarted spent.

Lemma revocation_is_final_witness :
  is_ok (Sessions.Validate (lifetimes sys_cfg) "old" 5 (World (se_authdb later) [])).1 = false ∧
  is_ok (ActiveCredentialPublicKey 20 200 (World (se_registry later) [])).1 = false ∧
  is_ok (Consume (mkEnrollRequest spent_token 9 (replicate 32 "p"%char) "0.2.0" "host") 21 200
    (World (se_registry later) [])).1 = false.
Proof.
  destruct (revocation_is_final demo_hub (λ _, ""%string) (λ _, ""%string) (λ _, None) sys_cfg spent later)
    as (Hs & Hd & Ht).
  - exact demo_sessions_ok.
  - exact (proj1 spent_registry_ok).
  - exact (proj2 spent_registry_ok).
  - apply sys_restart.
  - split_and!.
    + eapply (Hs 1%N); [vm_compute; reflexivity|discriminate|reflexivity].
    + refine (proj2 (Hd 20%N _ 200%Z [] _ _ _)); [vm_compute; reflexivity|reflexivity|discriminate].
    + eapply (Ht 11%N); [vm_compute; reflexivity|discriminate|vm_compute; reflexivity].
Defined.

Lemma one_time_secrets_witness :
  is_ok (Consume (demo_enroll 8) 21 200 (World (se_registry later) [])).1 = false ∧
  (ConsumeReauth 5 (hex_encode (be_bytes 16 3)) 6 (World (se_authdb later) [])).1 ≠ Ok true ∧
  is_ok (CompleteMFA (h_svc sys_handlers) (hex_encode (be_bytes 16 8)) "s" demo_entropy 6 (World (se_svc later) [])).1 = false.
Proof.
  destruct (one_time_secrets demo_hub (λ _, ""%string) (λ _, ""%string) (λ _, None) sys_cfg sys_handlers spent later)
    as (Ht & Hr & Hc).
  - exact sys_running.
  - exact (proj2 spent_registry_ok).
  - apply sys_restart.
  - split_and!.
    + eapply (Ht 10%N); [vm_compute; reflexivity|discriminate|vm_compute; reflexivity].
    + eapply (Hr 3%N); [vm_compute; reflexivity|vm_compute; reflexivity|discriminate].
    + eapply (Hc _ 8%N); [vm_compute; reflexivity|vm_compute; reflexivity|right; vm_compute; discriminate].
Defined.

(** An alert sweep finds device 7 offline with an open alert. *)
Definition alarmed : server := set_alert_view (demo_alerts RuleOffline StatusOffline) start.
Definition swept : server := (run (alert_tick (λ _, ""%string) (λ _, None) sys_handlers now_env) alarmed).2.
Lemma alerts_stay_unique_witness : alerts_unique (alert_view swept) ∧ size (se_alerts swept) = 1.
Proof.
  split; [|vm_compute; reflexivity].
  apply (alerts_stay_unique demo_hub (λ _, ""%string) (λ _, ""%string) (λ _, None) sys_cfg alarmed swept).
  - apply demo_alerts_unique.
  - apply (ev_alerts _ _ _ _ _ sys_handlers now_env); [exact sys_running|intros n s; apply ev_idle|].
    exact (effect_run (alert_tick (λ _, ""%string) (λ _, None) sys_handlers now_env) alarmed).
Defined.

(** The synchronisation imports a release, and the server restarts. *)
Definition synced : server := (run (github_tick demo_hub sys_handlers now_env (Some [demo_gh "agent-v1.2.0"])) start).2.
Definition sys_latest : res release_error Release * manifest := run (Latest "linux" "amd64" "stable") (se_manifest (restarted synced)).
Definition sys_offer : Release :=
  match sys_latest.1 with Ok rl => rl | Err _ => import_of "" "" "" "" "" "" "" end.
Lemma offered_software_signed_witness :
  rl_Version sys_offer = "1.2.0"%string ∧
  VerifyArtifact demo_check demo_release_key demo_artifact (rl_ArtifactSHA256Hex sys_offer) (rl_SignatureBase64 sys_offer) = Ok tt.
Proof.
  assert (run (Latest "linux" "amd64" "stable") (se_manifest (restarted synced)) = (Ok sys_offer, sys_latest.2)) as Hrun
    by (vm_compute; reflexivity).
  destruct (offered_software_signed demo_hub (λ _, ""%string) (λ _, ""%string) (λ _, None) sys_cfg start (restarted synced)
    "linux" "amd64" "stable" sys_offer sys_latest.2) as (r & Hr & _ & _ & Hv & _ & Hd).
  - reflexivity.
  - apply (ev_then _ _ _ _ _ start synced); [|apply sys_restart].
    apply (ev_github _ _ _ _ _ sys_handlers now_env (Some [demo_gh "agent-v1.2.0"])); [exact sys_running|].
    exact (effect_run (github_tick demo_hub sys_handlers now_env (Some [demo_gh "agent-v1.2.0"])) start).
  - exact Hrun.
  - assert (se_manifest (restarted synced) !! rl_ID sys_offer =
      Some (row_of (import_of "1.2.0" "linux" "amd64" "stable" "bin" "" "") demo_sum demo_sum 10)) as Hr'
      by (vm_compute; reflexivity).
    rewrite Hr' in Hr. injection Hr as <-. split; [exact Hv|]. apply Hd. reflexivity.
Defined.

(** The agent of device 8 is lost during its terminal session. *)
Definition lost_conn : connection := mkConn 8 1 "192.0.2.8" ∅ false true.
Definition losing : server :=
  set_hub (on_objects (insert 1 lost_conn) (on_conns (insert 8%N 1) (NewHub fleet))) sys0.
End demo.
