(* ===== verification/EndToEnd.v ===== *)
(** Server and agent together: what a request of a browser does on the
    customer's machine and what comes back over a live connection.  The
    handler's program, the hub's correlation of answers, the encodings of both
    sides, the agent's read loop under its local policy and the relay are the
    definitions of the components.

    A handler that waits lets other goroutines run ([en_others]).  Here these
    are the two read loops of one control connection: the agent reads what the
    hub wrote to it, and the hub reads what the agent wrote. *)
From S2P Require Import Prelude AgentUpdate Base64 Rbac RateLimit Password AuthStore Sessions Mfa AuthService.
From S2P Require Import Device Enrollment AuditLog Metrics Monitoring Alerting Protocol Messages.
From S2P Require Import Codec Hub Relay RemoteSession AgentRelease Settings Support Customers Config.
From S2P Require Import Notify Server HttpDevices HttpRemote HttpSessions HttpAdmin Api AgentCore ApiSafety Wiring.

(** ** The connection *)

Section link.
Context `{UuidText, Backend, Argon2, AEAD, TelegramAPI, Totp, !Json Envelope, !Json Marker, !Json DeviceCommandPayload, !Json CommandResultPayload,
  !Json ServiceActionParams, !Json ProcessTerminateParams, !Json FilesListParams, !Json FilesMkdirParams,
  !Json FilesRenameParams, !Json FilesDeleteParams, !Json FilesDownloadParams, !Json FilesUploadParams,
  !Json LogsQueryParams, !Json AgentUpdateParams, !Json SessionOpenPayload, !Json SessionOpenResultPayload,
  !Json TerminalResizePayload, !Json SessionClosePayload}.
Context `{!Json HeartbeatPayload, !Json InventoryRequestPayload, !Json InventoryResponsePayload, !Json MetricsReportPayload,
  !Json NetworkMetricsBatchPayload, !Json SupportCredentialReportPayload, !Json ProtocolErrorPayload,
  !Json SessionPrivilegeUpdatePayload}.
(** The agent: its policy and the machine it runs on. *)
Context (policy : AgentPolicy) (dataDir : string) (os_result : list os_action → os_action → res string bytes)
  (credential_of : bytes → SupportCredentialReportPayload)
  (stream_takes : stream → bytes → bytes) (file_takes : writer → bytes → bytes)
  (write_fails : writer → bytes → bool) (close_fails : writer → option string)
  (ed25519_verify : bytes → bytes → bytes → bool) (torn : bytes → bytes)
  (os_executable : option string) (PathSeparator : string) (http_get : string → option http_response)
  (ReleasePublicKeyHex : string) (update_text : update_error → string).
(** The hub, and the ids and clock readings of the messages of both. *)
Context (render : reason → string) (hc : hub_config) (hmid : string) (hnow : time) (amid : nat → string) (anow : nat → time).
Implicit Types (a : agent) (s : server) (e : env) (ws seen : nat) (m : ws_message).

#[local] Abbreviation agent_reads := (AgentCore.readLoop_turn policy dataDir os_result credential_of stream_takes file_takes
  write_fails close_fails ed25519_verify torn os_executable PathSeparator http_get ReleasePublicKeyHex update_text).
#[local] Abbreviation agent_command := (AgentCore.handleDeviceCommand policy dataDir os_result credential_of ed25519_verify torn
  os_executable PathSeparator http_get ReleasePublicKeyHex update_text).

(** One message off the agent's socket. *)
Definition hears a m : agent :=
  (run match m with Text raw => agent_reads false raw | Binary raw => agent_reads true raw end a).2.
(** What the hub wrote to a socket, and the agent once it has read all of it
    but the first [seen] messages. *)
Definition sent_to ws s : list ws_message :=
  omap (λ p : nat * ws_message, if p.1 =? ws then Some p.2 else None) (hb_sent (se_hub s)).
Definition agent_at a seen ws s : agent := foldl hears a (drop seen (sent_to ws s)).

(** What the agent writes, as messages: [protocol.Encode] of its payload. *)
(* internal/agentcore/session.go:60-75 writeEnvelope, writeBinaryFrame *)
Definition wire (mid : string) (now : time) (o : outgoing) : option ws_message :=
  let text := λ r : res codec_error bytes, match r with Ok raw => Some (Text raw) | Err _ => None end in
  match o with
  | OutBinary frame => Some (Binary frame)
  | OutText ty req (PResult p) => text (Encode ty req p mid now)
  | OutText ty req (POpenResult p) => text (Encode ty req p mid now)
  | OutText ty req (PClose p) => text (Encode ty req p mid now)
  | OutText ty req (PCredential p) => text (Encode ty req p mid now)
  | OutText ty req (PHeartbeat p) => text (Encode ty req p mid now)
  | OutText ty req (PReport json) => Text <$> json_marshal (mkEnvelope Version ty mid req now json)
  end.
Definition spoken a : list (option ws_message) := imap (λ i, wire (amid i) (anow i)) (ag_sent a).

(** One message off the hub's socket; the hub reads what the agent wrote
    since [a], from the [k]-th message on. *)
Definition hub_hears ws s m : server :=
  (run (drop_via se_hub set_hub (Hub.readLoop_turn render DefaultThresholds hc ws m hmid hnow)) s).2.
Definition hub_reads a seen ws (k : nat) s : server :=
  foldl (hub_hears ws) s (omap id (drop (length (ag_sent a) + k) (spoken (agent_at a seen ws s)))).

(** ** Commands *)

(** The commands whose whole effect is one action, with their action and
    whether its output is part of the answer. *)
Inductive command : string → bytes → os_action → bool → Prop :=
| cm_services raw : command CmdServicesList raw ListServices true
| cm_start raw p : decodeParams raw = Ok p → command CmdServiceStart raw (StartService (sa_Name p)) false
| cm_stop raw p : decodeParams raw = Ok p → command CmdServiceStop raw (StopService (sa_Name p)) false
| cm_restart raw p : decodeParams raw = Ok p → command CmdServiceRestart raw (RestartService (sa_Name p)) false
| cm_processes raw : command CmdProcessesList raw ListProcesses true
| cm_terminate raw p :
    decodeParams raw = Ok p → command CmdProcessTerminate raw (TerminateProcess (pt_PID p) (pt_StartTimeUnixMS p)) false
| cm_list raw p : decodeParams raw = Ok p → command CmdFilesList raw (ListDir (fl_Path p)) true
| cm_mkdir raw p : decodeParams raw = Ok p → command CmdFilesMkdir raw (Mkdir (fm_Path p)) false
| cm_rename raw p : decodeParams raw = Ok p → command CmdFilesRename raw (RenamePath (fr_From p) (fr_To p)) false
| cm_delete raw p : decodeParams raw = Ok p → command CmdFilesDelete raw (DeletePath (fd_Path p)) false
| cm_logs raw p : decodeParams raw = Ok p → command CmdLogsQuery raw (QueryLogs p) true.

(** A local call under the policy: what the action gives, or a refusal. *)
Definition denial (act : os_action) : string :=
  match act with
  | ListServices | StartService _ | StopService _ | RestartService _ => "service control disabled by local agent policy"
  | TerminateProcess _ _ => "process termination disabled by local agent policy"
  | ListDir _ => "file access disabled by local agent policy"
  | QueryLogs _ => "log access disabled by local agent policy"
  | _ => "file write disabled by local agent policy"
  end.
Definition local_result a (act : os_action) (keep : bool) : CommandResultPayload :=
  if permitted policy act then
    match os_result (ag_actions a ++ [act]) act with
    | Ok data => mkResult "success" CodeOK "" (if keep then Some data else None)
    | Err msg => mkResult "error" CodeInternalError msg None
    end
  else mkResult "error" CodePermissionDenied (denial act) None.
(** The agent afterwards: the action is on its record, the result sent. *)
Definition acted a (act : os_action) : agent := if permitted policy act then on_actions (λ l, l ++ [act]) a else a.
Definition replied a (id : string) (r : CommandResultPayload) : agent :=
  AgentCore.on_sent (λ l, l ++ [OutText TypeCommandResult (Some id) (PResult r)]) a.

Lemma command_performed env a ty raw act keep :
  DecodePayload env = Ok (mkCommand "" ty raw) → command ty raw act keep →
  (run (agent_command env) a).2 = replied (acted a act) (env_MessageID env) (local_result a act keep).
Proof using Type.
  intros Hd Hc. unfold handleDeviceCommand. rewrite Hd. cbn [dc_CommandType dc_Params].
  unfold local_result, acted, permitted, with_params.
  destruct Hc as [raw|raw p Hp|raw p Hp|raw p Hp|raw|raw p Hp|raw p Hp|raw p Hp|raw p Hp|raw p Hp|raw p Hp];
    cbn -[run]; try rewrite Hp; destruct policy as [b1 b2 b3 b4 b5 b6 b7 b8 b9]; cbn [ap_ServiceControl
      ap_ProcessTerminate ap_FilesRead ap_FilesWrite];
    repeat match goal with |- context [if ?b then _ else _] => is_var b; destruct b; cbn -[run] end;
    unfold perform_and_reply, deny, replyResult, replyCommand, AgentCore.act, upd, writeEnvelope; run_unfold; run_simpl;
    cbn [ag_actions on_actions]; try destruct (os_result _ _); reflexivity.
Qed.

(** ** One question and its answer *)

(** What travels: a message with a faithful text form and not beyond the read
    limit both ends set on the socket (1 MiB). *)
Definition carried {P} `{!Json P} (ty : string) (req : option string) (p : P) (mid : string) (now : time) : Prop :=
  sendable ty req p mid now ∧ ∀ raw, Encode ty req p mid now = Ok raw → too_long raw MaxInventoryBytes = false.
(** The hub's command, and the agent's result, its [i]-th message. *)
Definition asks e (n : nat) (cmd : DeviceCommandPayload) : Prop := carried TypeDeviceCommand None cmd (en_mid e n) (en_now e).
Definition returns (i : nat) (id : string) (r : CommandResultPayload) : Prop :=
  carried TypeCommandResult (Some id) r (amid i) (anow i).
(** The hub's side of the connection of a device. *)
Definition linked ws (dev : uuid) (x : hub) : Prop := hb_conns x !! dev = Some ws ∧ is_Some (hb_objects x !! ws).

Context `{!JsonLaws Envelope, !JsonLaws DeviceCommandPayload, !JsonLaws CommandResultPayload}.

Lemma hears_command a raw env :
  too_long raw MaxInventoryBytes = false → Decode raw = Ok env → env_Type env = TypeDeviceCommand → hears a (Text raw) = (run (agent_command env) a).2.
Proof using Type.
  intros Hl Hd Ht. unfold hears, AgentCore.readLoop_turn. rewrite Hl, Hd. unfold handleMessage. by rewrite Ht.
Qed.

(** The hub after a question was sent, and after its answer was read. *)
Definition asked ws (ch : nat) (mid : string) (raw : bytes) (x : hub) : hub :=
  Hub.on_sent (λ l, l ++ [(ws, Text raw)])
    (on_objects (alter (set_pending (insert mid ch)) ws) (on_waiters (insert ch (mkWaiter ws mid None)) x)).
Lemma start_asks {P} `{!Json P} ws dev ty (p : P) mid now raw x :
  hb_conns x !! dev = Some ws → Encode ty None p mid now = Ok raw →
  ideal (ws ← getConn dev; ch ← sendAndWait_start ws ty p mid now; mret (ws, ch))
    (λ y x', y = Ok (ws, fresh (dom (hb_waiters x))) ∧ x' = asked ws (fresh (dom (hb_waiters x))) mid raw x) x.
Proof using Type.
  intros Hc He. unfold getConn, sendAndWait_start, encodeWithID, encode, register_waiter, write. rewrite He.
  do 3 (ideal_step; cbn [fst snd]). rewrite Hc. cbn [fst snd]. ideal_steps. done.
Qed.

Lemma answer_read ws c mid ch raw env s :
  hb_objects (se_hub s) !! ws = Some c → cn_pending c !! mid = Some ch →
  too_long raw MaxInventoryBytes = false → Decode raw = Ok env → env_RequestID env = Some mid →
  hub_hears ws s (Text raw) = set_hub (on_waiters (alter (λ w,
      match wt_slot w with None => mkWaiter (wt_conn w) (wt_id w) (Some env) | Some _ => w end) ch)
    (on_objects (alter (set_pending (delete mid)) ws) (se_hub s))) s.
Proof using Type.
  intros Ho Hp Hl Hd Hr. unfold hub_hears, drop_via, Hub.readLoop_turn, tryDeliver. run_unfold. run_simpl.
  rewrite Ho. cbn [message_data]. rewrite Hl, Hd, Hr. cbn [mbind option_bind option_bind]. simpl. rewrite Ho. simpl. by rewrite Hp.
Qed.

(** What a question leaves of the hub: its waiter is gone again, the message
    sent. *)
Definition quiet ws (x x' : hub) : Prop :=
  hb_conns x' = hb_conns x ∧ hb_registry x' = hb_registry x ∧ hb_calls x' = hb_calls x ∧
  ∀ c, hb_objects x !! ws = Some c → ∃ c', hb_objects x' !! ws = Some c' ∧ cn_deviceID c' = cn_deviceID c.
#[local] Instance quiet_preorder ws : PreOrder (quiet ws).
Proof.
  split; [intros x; split_and!; eauto|]. intros x y z (A1 & A2 & A3 & A4) (B1 & B2 & B3 & B4). split_and!; [congruence..|].
  intros c Hc. destruct (A4 c Hc) as (c' & Hc' & <-). auto.
Qed.
Lemma quiet_objects ws f x : quiet ws x (on_objects (alter (set_pending f) ws) x).
Proof using Type. split_and!; [done..|]. intros c Hc. simpl. rewrite lookup_alter_eq, Hc. by eexists. Qed.
Lemma quiet_same ws x x' :
  hb_conns x' = hb_conns x → hb_registry x' = hb_registry x → hb_calls x' = hb_calls x → hb_objects x' = hb_objects x → quiet ws x x'.
Proof using Type. intros ? ? ? E. split_and!; [done..|]. rewrite E. eauto. Qed.
Lemma linked_quiet ws dev x x' : quiet ws x x' → linked ws dev x → linked ws dev x'.
Proof using Type. intros (A & _ & _ & D) [Hc [c Ho]]. split; [by rewrite A|]. destruct (D c Ho) as (c' & -> & _). by eexists. Qed.

Lemma finish_takes ws mid ch env w x :
  hb_waiters x !! ch = Some w → wt_slot w = Some env →
  ideal (sendAndWait_finish ws mid ch false)
    (λ y x', y = Ok env ∧ hb_sent x' = hb_sent x ∧ quiet ws x x') x.
Proof using Type.
  intros Hw Hs. unfold sendAndWait_finish, await, release_waiter, do_. ideal_step. ideal_step. ideal_step. ideal_step.
  rewrite Hw. simpl. rewrite Hs. ideal_steps. split_and!; [done..|].
  change (quiet ws x (on_objects (alter (set_pending (delete mid)) ws) (on_waiters (delete ch) x))).
  etrans; [|apply quiet_objects]. by apply quiet_same.
Qed.

Lemma sent_to_app ws x s l : hb_sent x = hb_sent (se_hub s) ++ l →
  sent_to ws (set_hub x s) = sent_to ws s ++ omap (λ p : nat * ws_message, if p.1 =? ws then Some p.2 else None) l.
Proof using Type. intros E. unfold sent_to. cbn [se_hub set_hub]. by rewrite E, omap_app. Qed.
Lemma agent_at_snoc a seen ws s s' m :
  seen ≤ length (sent_to ws s) → sent_to ws s' = sent_to ws s ++ [m] →
  agent_at a seen ws s' = hears (agent_at a seen ws s) m.
Proof using Type. intros Hl E. unfold agent_at. by rewrite E, drop_app_le, foldl_app. Qed.

(** A command sent while the agent is where the connection left it: it
    performs it, and its result comes back to the goroutine that asked. *)
Lemma command_answered e n dev ws a seen a1 (cmd : DeviceCommandPayload) r s :
  linked ws dev (se_hub s) → seen ≤ length (sent_to ws s) → en_deadline e n = false →
  (∀ s', en_others e n s' = hub_reads a seen ws (length (ag_sent (agent_at a seen ws s)) - length (ag_sent a)) s') →
  length (ag_sent a) ≤ length (ag_sent (agent_at a seen ws s)) →
  asks e n cmd → returns (length (ag_sent a1)) (en_mid e n) r →
  (∀ env, env_MessageID env = en_mid e n → DecodePayload env = Ok cmd →
     (run (agent_command env) (agent_at a seen ws s)).2 = replied a1 (en_mid e n) r) →
  ag_sent a1 = ag_sent (agent_at a seen ws s) →
  ideal (send_and_wait e n dev TypeDeviceCommand cmd) (λ y s', ∃ env x raw, y = Ok (Ok env) ∧ DecodePayload env = Ok r ∧
    s' = set_hub x s ∧ quiet ws (se_hub s) x ∧ hb_sent x = hb_sent (se_hub s) ++ [(ws, Text raw)] ∧
    agent_at a seen ws s' = replied a1 (en_mid e n) r) s.
Proof using JsonLaws0 JsonLaws1 JsonLaws2.
  intros [Hc [c Ho]] Hseen Hdl Hoth Hlen [Hcmd Hsize0] [Hres Hsize] Hag Hsent. set (i := length (ag_sent a1)) in *.
  destruct (encode_decode _ _ _ _ _ Hcmd) as (raw & body & Hraw & Hdec & Hpay).
  destruct (encode_decode _ _ _ _ _ Hres) as (raw' & body' & Hraw' & Hdec' & Hpay').
  unfold send_and_wait, try_via. apply ideal_mbind, ideal_mtry, ideal_mzoom.
  eapply ideal_mono; [by apply start_asks|]. intros y x1 (-> & Ex1). set (ch := fresh _) in *.
  set (s1 := set_hub x1 s).
  assert (sent_to ws s1 = sent_to ws s ++ [Text raw]) as Es1.
  { unfold s1. rewrite (sent_to_app ws x1 s [(ws, Text raw)]) by by rewrite Ex1. simpl. by rewrite Nat.eqb_refl. }
  assert (agent_at a seen ws s1 = replied a1 (en_mid e n) r) as Ea1.
  { rewrite (agent_at_snoc a seen ws s s1 _ Hseen Es1), (hears_command _ _ _ (Hsize0 _ Hraw) Hdec eq_refl). by apply Hag. }
  unfold others. apply ideal_mbind, ideal_mstate. cbn [fst snd]. rewrite Hoth.
  unfold hub_reads. rewrite Ea1. unfold spoken, replied at 2. cbn [ag_sent AgentCore.on_sent].
  rewrite imap_app, drop_app_length' by (rewrite length_imap, Hsent; lia). cbn [imap omap list_omap].
  rewrite Nat.add_0_r. fold i. cbn [wire]. rewrite Hraw'. cbn [id foldl].
  erewrite (answer_read ws (set_pending (insert (en_mid e n) ch) c) (en_mid e n) ch raw' _ s1); cycle 1.
  { unfold s1. cbn [se_hub set_hub]. rewrite Ex1. simpl. by rewrite lookup_alter_eq, Ho. }
  { simpl. by rewrite lookup_insert_eq. }
  { by apply Hsize. }
  { exact Hdec'. }
  { done. }
  apply ideal_mtry, ideal_mzoom. rewrite Hdl. set (x2 := on_waiters _ _).
  eapply ideal_mono.
  { eapply (finish_takes ws (en_mid e n) ch).
    - unfold x2, s1. cbn [se_hub set_hub]. rewrite Ex1. simpl. by rewrite lookup_alter_eq, lookup_insert_eq.
    - done. }
  intros y x3 (-> & Hs3 & Hq3). exists (mkEnvelope Version TypeCommandResult (amid i) (Some (en_mid e n)) (anow i) body'), x3, raw.
  assert (hb_sent x3 = hb_sent (se_hub s) ++ [(ws, Text raw)]) as Hsx.
  { rewrite Hs3. unfold x2, s1. cbn [se_hub set_hub]. by rewrite Ex1. }
  split_and!; [done|exact Hpay'|done| |exact Hsx|].
  - etrans; [|exact Hq3]. unfold x2, s1. cbn [se_hub set_hub]. rewrite Ex1.
    etrans; [|exact (quiet_objects ws _ _)]. etrans; [|apply quiet_objects]. by apply quiet_same.
  - rewrite <-Ea1. unfold agent_at, sent_to. cbn [se_hub set_hub]. rewrite Hsx. unfold s1. cbn [se_hub set_hub]. by rewrite Ex1.
Qed.

(** ** Remote actions *)

(** The two read loops run during the [n]-th wait, and it does not time out. *)
Definition attached e (n : nat) ws a s : Prop :=
  en_deadline e n = false ∧ ∀ s', en_others e n s' = hub_reads a (length (sent_to ws s)) ws 0 s'.
Lemma agent_at_start a ws s : agent_at a (length (sent_to ws s)) ws s = a.
Proof using Type. unfold agent_at. by rewrite drop_all. Qed.

(** What [runCommand] makes of a result. *)
Definition verdict (r : CommandResultPayload) : res Reply CommandResultPayload :=
  if String.eqb (rp_Status r) "success" then Ok r
  else Err (refuse (if String.eqb (rp_Code r) CodePermissionDenied then 403 else 502) (rp_Code r)).

Lemma acted_sent a act : ag_sent (acted a act) = ag_sent a.
Proof using Type. unfold acted. by destruct (permitted _ _). Qed.

Lemma runCommand_local e dev ws a ty raw act keep s :
  linked ws dev (se_hub s) → attached e 0 ws a s → command ty raw act keep → asks e 0 (mkCommand "" ty raw) →
  returns (length (ag_sent a)) (en_mid e 0) (local_result a act keep) →
  ideal (runCommand e dev ty (Some raw)) (λ y s', y = verdict (local_result a act keep) ∧
    ∃ x, s' = set_hub x s ∧ quiet ws (se_hub s) x ∧
      agent_at a (length (sent_to ws s)) ws s' = replied (acted a act) (en_mid e 0) (local_result a act keep)) s.
Proof using JsonLaws0 JsonLaws1 JsonLaws2.
  intros Hl [Hd Ho] Hcmd Hc Hr. unfold runCommand. apply ideal_mbind. eapply ideal_mono.
  { apply (command_answered e 0 dev ws a (length (sent_to ws s)) (acted a act) _ (local_result a act keep)); try done.
    - by rewrite agent_at_start, Nat.sub_diag.
    - by rewrite agent_at_start.
    - by rewrite acted_sent.
    - intros env Hid Hp. rewrite agent_at_start, <-Hid. by apply (command_performed _ _ ty raw).
    - by rewrite agent_at_start, acted_sent. }
  intros y s' (env & x & wr & -> & Hpay & -> & Hq & _ & Ha). rewrite Hpay. unfold verdict.
  destruct (String.eqb (rp_Status _) "success"); [apply ideal_mret|apply ideal_mfail]; eauto.
Qed.

Lemma loads cx id p dev d s :
  uuid_parse id = Some dev → devices (se_registry s) !! dev = Some d →
  HasPermission (cx_Grants cx) p (deviceResource d) = true →
  ideal (loadDeviceWithAccess cx id p) (λ y s', y = Ok (dev, d) ∧ s' = s) s.
Proof using Type.
  intros Hid Hd Hp. unfold loadDeviceWithAccess, load_device, path_id. rewrite Hid.
  apply ideal_mbind, ideal_mbind, ideal_mret. apply ideal_mwrap, ideal_mzoom.
  unfold GetByID. apply ideal_mbind, ideal_mquery. rewrite Hd. apply ideal_mret. rewrite Hp.
  apply ideal_mbind, ideal_mret, ideal_mret. split; [done|apply set_registry_same].
Qed.
Lemma audit_aside e n ev s : ideal (audit e n ev) (λ y s', y = Ok tt ∧ se_hub s' = se_hub s ∧ se_rs s' = se_rs s) s.
Proof using Type.
  unfold audit, drop_via. apply ideal_mignore, ideal_mzoom. eapply ideal_mono; [|by intros r x _].
  instantiate (1 := λ _ _, True). unfold Record_. ideal_steps; by repeat case_match.
Qed.
Lemma IndexByte_app c l l' : IndexByte c l = None → IndexByte c (l ++ c :: l') = Some (length l).
Proof using Type.
  induction l as [|b l IH]; simpl; [by rewrite Ascii.eqb_refl|]. destruct (Ascii.eqb b c); [done|].
  destruct (IndexByte c l); [done|]. intros _. by rewrite IH.
Qed.
Lemma lastPathSegment_app pre act :
  IndexByte "/" (rev (str_bytes act)) = None → lastPathSegment (pre +:+ "/" +:+ act) = act.
Proof using Type.
  intros Hn. unfold lastPathSegment, LastIndexByte. rewrite !str_bytes_app.
  change (str_bytes "/") with ["/"%char]. rewrite !rev_app_distr. simpl rev. rewrite <-app_assoc. cbn [app].
  rewrite IndexByte_app by done. simpl. rewrite length_rev, !length_app. simpl.
  rewrite cons_middle, app_assoc, drop_app_length' by (rewrite length_app; simpl; lia). apply str_bytes_str.
Qed.
Lemma str_app_assoc (x y z : string) : (x +:+ y) +:+ z = x +:+ (y +:+ z).
Proof using Type. induction x as [|c x IH]; [done|]. exact (f_equal (String c) IH). Qed.
Lemma service_segment i n x :
  IndexByte "/" (rev (str_bytes x)) = None → lastPathSegment (service_path i n x) = x.
Proof using Type.
  intros Hx. rewrite <-(lastPathSegment_app ("/api/v1/devices/" +:+ i +:+ "/services/" +:+ n) x Hx) at 2. unfold service_path.
  by rewrite !str_app_assoc.
Qed.

(** The requests that come down to one action on the machine: the device, the
    permission, the command and its parameters, the action, and the reply to
    its success. *)
Definition done_reply (_ : CommandResultPayload) : Reply := answer (DState "ok").
Definition params {P} `{!Json P} (p : P) (raw : bytes) : Prop := json_faithful p ∧ json_marshal p = Some raw.
Inductive remote : api_request → string → string → string → bytes → os_action → bool → (CommandResultPayload → Reply) → Prop :=
| rm_services id : remote (GetServices id) id PermDeviceRead CmdServicesList (str_bytes "null") ListServices true data_of
| rm_start id n raw : params (mkServiceAction n) raw →
    remote (PostServiceStart id n) id PermRemoteServiceControl CmdServiceStart raw (StartService n) false done_reply
| rm_stop id n raw : params (mkServiceAction n) raw →
    remote (PostServiceStop id n) id PermRemoteServiceControl CmdServiceStop raw (StopService n) false done_reply
| rm_restart id n raw : params (mkServiceAction n) raw →
    remote (PostServiceRestart id n) id PermRemoteServiceControl CmdServiceRestart raw (RestartService n) false done_reply
| rm_processes id : remote (GetProcesses id) id PermDeviceRead CmdProcessesList (str_bytes "null") ListProcesses true data_of
| rm_terminate id text pid start raw : parse_int32 text = Some pid → params (mkTerminate pid start) raw →
    remote (PostTerminate id text start) id PermRemoteProcessTerminate CmdProcessTerminate raw (TerminateProcess pid start) false
      done_reply
| rm_logs id q raw :
    let p := mkLogsQuery (lr_query q) (query_time (lr_since q)) (query_time (lr_until q)) (lr_level q) (default 0%Z (Atoi (lr_limit q))) in
    params p raw → remote (GetLogs id q) id PermRemoteFilesRead CmdLogsQuery raw (QueryLogs p) true data_of
| rm_list id path raw : path ≠ ""%string → params (mkFilesList path) raw →
    remote (GetFiles id path) id PermRemoteFilesRead CmdFilesList raw (ListDir path) true data_of
| rm_mkdir id path raw : path ≠ ""%string → params (mkFilesMkdir path) raw →
    remote (PostFilesMkdir id (Some path)) id PermRemoteFilesWrite CmdFilesMkdir raw (Mkdir path) false done_reply
| rm_rename id from to raw : from ≠ ""%string → to ≠ ""%string → params (mkFilesRename from to) raw →
    remote (PostFilesRename id (Some (from, to))) id PermRemoteFilesWrite CmdFilesRename raw (RenamePath from to) false done_reply
| rm_delete id path raw : path ≠ ""%string → params (mkFilesDelete path) raw →
    remote (DeleteFiles id path) id PermRemoteFilesWrite CmdFilesDelete raw (DeletePath path) false done_reply.

Context `{!JsonLaws ServiceActionParams, !JsonLaws ProcessTerminateParams, !JsonLaws FilesListParams, !JsonLaws FilesMkdirParams,
  !JsonLaws FilesRenameParams, !JsonLaws FilesDeleteParams, !JsonLaws LogsQueryParams}.

Lemma params_decode {P} `{!Json P, !JsonLaws P} (p : P) raw : params p raw → decodeParams raw = Ok p.
Proof using Type.
  intros [Hf Hm]. unfold decodeParams, DecodePayload. cbn [env_Payload].
  pose proof (json_nonempty _ _ Hm) as Hne. rewrite (json_roundtrip _ _ Hf Hm). by destruct raw.
Qed.
Lemma remote_command r id perm ty raw act keep reply : remote r id perm ty raw act keep reply → command ty raw act keep.
Proof using JsonLaws3 JsonLaws4 JsonLaws5 JsonLaws6 JsonLaws7 JsonLaws8 JsonLaws9.
  destruct 1 as [| | | | | | ? ? ? p| | | |]; try apply cm_services; try apply cm_processes.
  - by apply (cm_start raw (mkServiceAction n)), params_decode.
  - by apply (cm_stop raw (mkServiceAction n)), params_decode.
  - by apply (cm_restart raw (mkServiceAction n)), params_decode.
  - by apply (cm_terminate raw (mkTerminate pid start)), params_decode.
  - by apply cm_logs, params_decode.
  - by apply (cm_list raw (mkFilesList path)), params_decode.
  - by apply (cm_mkdir raw (mkFilesMkdir path)), params_decode.
  - by apply (cm_rename raw (mkFilesRename from to)), params_decode.
  - by apply (cm_delete raw (mkFilesDelete path)), params_decode.
Qed.

Section remote.
Context (web_get : string → option http_response) (h : handlers) (cx : authctx) (e : env) (dev : uuid) (ws : nat) (a : agent) (s : server).
Context (Hl : linked ws dev (se_hub s)) (Ha : attached e 0 ws a s).

(** The handlers differ in what they do with the result. *)
Lemma answered_with ty raw act keep (k : CommandResultPayload → H Reply) (reply : CommandResultPayload → Reply) :
  command ty raw act keep → asks e 0 (mkCommand "" ty raw) → returns (length (ag_sent a)) (en_mid e 0) (local_result a act keep) →
  (∀ r s', ideal (k r) (λ y s2, y = Ok (reply r) ∧ se_hub s2 = se_hub s') s') →
  ideal (runCommand e dev ty (Some raw) ≫= k) (λ y s',
    reply_of y = match verdict (local_result a act keep) with Ok r => reply r | Err z => z end ∧
    agent_at a (length (sent_to ws s)) ws s' = replied (acted a act) (en_mid e 0) (local_result a act keep)) s.
Proof using Hl Ha JsonLaws0 JsonLaws1 JsonLaws2.
  intros Hcmd Hf Hr Hk. apply ideal_mbind. eapply ideal_mono; [by apply runCommand_local|].
  intros y s' (-> & x & -> & Hq & Hag). destruct (verdict _) as [r|z]; [|done].
  eapply ideal_mono; [apply Hk|]. intros y s2 (-> & Hs2). split; [done|]. rewrite <-Hag.
  unfold agent_at, sent_to. by rewrite Hs2.
Qed.

Lemma audit_then e' n ev (y0 : Reply) s' : ideal (audit e' n ev;; mret y0) (λ y s2, y = Ok y0 ∧ se_hub s2 = se_hub s') s'.
Proof using Type.
  apply ideal_mbind. eapply ideal_mono; [apply audit_aside|]. intros y s2 (-> & Hh & _). by apply ideal_mret.
Qed.

(** C8: a remote action is a local action under the local policy. For every
    request that acts on the customer's machine (services, processes, logs,
    directories and files), sent by a user with the permission over a live
    connection, without faults, and when the command and its result have a
    faithful text form and stay within the 1 MiB both ends read at most in one
    message, the agent performs exactly that action if its local policy permits
    it and none otherwise, and the browser gets what the action gave on that
    machine: its output, 502 where it failed, 403 where the policy forbids
    it. *)
Theorem remote_action_is_local r id perm ty raw act keep reply d :
  remote r id perm ty raw act keep reply → uuid_parse id = Some dev → devices (se_registry s) !! dev = Some d →
  HasPermission (cx_Grants cx) perm (deviceResource d) = true →
  asks e 0 (mkCommand "" ty raw) → returns (length (ag_sent a)) (en_mid e 0) (local_result a act keep) →
  ideal (serve web_get h cx e r) (λ y s',
    reply_of y = match verdict (local_result a act keep) with Ok res => reply res | Err z => z end ∧
    agent_at a (length (sent_to ws s)) ws s' = replied (acted a act) (en_mid e 0) (local_result a act keep)) s.
Proof using Hl Ha JsonLaws0 JsonLaws1 JsonLaws2 JsonLaws3 JsonLaws4 JsonLaws5 JsonLaws6 JsonLaws7 JsonLaws8 JsonLaws9.
  intros Hr Hid Hd Hp Hf Hret. pose proof (remote_command _ _ _ _ _ _ _ _ Hr) as Hcmd.
  assert (∀ A (k : uuid * Device → H A) Q, ideal (k (dev, d)) Q s → ideal (loadDeviceWithAccess cx id perm ≫= k) Q s) as Hload.
  { intros A k Q Hk. apply ideal_mbind. eapply ideal_mono; [by apply loads|]. by intros y s' [-> ->]. }
  destruct Hr as [|? ? ? [_ Hm]|? ? ? [_ Hm]|? ? ? [_ Hm]| |? ? ? ? ? Ht [_ Hm]|? ? ? p [_ Hm]|? ? ? Hne [_ Hm]|? ? ? Hne [_ Hm]
      |? ? ? ? Hne Hne' [_ Hm]|? ? ? Hne [_ Hm]];
    try apply String.eqb_neq in Hne; try apply String.eqb_neq in Hne'; try subst p; cbn [serve];
    unfold handleListServices, handleServiceAction, handleListProcesses, handleTerminateProcess, handleQueryLogs, handleFilesList,
      handleFilesMkdir, handleFilesRename, handleFilesDelete, null_params, auditFileOp, when; apply Hload;
    rewrite ?(service_segment _ _ "start"), ?(service_segment _ _ "stop"), ?(service_segment _ _ "restart") by reflexivity;
    cbn -[runCommand audit json_marshal str_bytes local_result acted verdict replied agent_at];
    try rewrite Hne; try rewrite Hne'; try rewrite Ht; try rewrite Hm; cbn -[runCommand audit str_bytes local_result acted verdict replied agent_at]; try (apply ideal_mbind, ideal_mret);
    apply answered_with; try done; intros r s'; first [apply audit_then|by apply ideal_mret].
Qed.
End remote.

(** ** Uploads *)

Definition file_frame (sid : uuid) (chunk : bytes) : ws_message := Binary (EncodeStreamFrame StreamKindFile sid chunk).
Definition success : CommandResultPayload := mkResult "success" CodeOK "" None.
(** The agent with a file opened for a stream. *)
Definition opened a (path : string) (sid : uuid) : agent :=
  bump (on_ups (insert sid (ag_next a)) (on_writers (insert (ag_next a) (mkWriter path [] false))
    (on_actions (λ l, l ++ [OpenWrite path]) a))).

Context `{!JsonLaws FilesUploadParams, !JsonLaws FilesDownloadParams}.

Lemma upload_opened env a raw path sid out :
  DecodePayload env = Ok (mkCommand "" CmdFilesUpload raw) → params (mkFilesUpload path (uuid_string sid)) raw →
  uuid_parse (uuid_string sid) = Some sid → ap_FilesWrite policy = true →
  os_result (ag_actions a ++ [OpenWrite path]) (OpenWrite path) = Ok out →
  (run (agent_command env) a).2 = replied (opened a path sid) (env_MessageID env) success.
Proof using JsonLaws10.
  intros Hd Hp Hid Hpol Hos. unfold handleDeviceCommand, upload_command. rewrite Hd. cbn -[run]. rewrite Hpol. unfold with_params.
  rewrite (params_decode _ _ Hp). cbn -[run]. rewrite Hid.
  unfold replyResult, replyCommand, AgentCore.act, upd, writeEnvelope. run_unfold. run_simpl.
  cbn [ag_actions on_actions]. rewrite Hos. reflexivity.
Qed.

Lemma hears_frame a sid n w chunk :
  valid_uuid sid = true → one_message chunk → ag_uploads a !! sid = Some n → ag_writers a !! n = Some w → chunk ≠ [] → write_fails w chunk = false →
  hears a (file_frame sid chunk) = on_writers (alter (feed_writer chunk) n) a.
Proof using Type.
  intros Hv Hfit Hu Hw Hne Hok. unfold hears, file_frame, AgentCore.readLoop_turn, AgentCore.handleBinaryFrame.
  rewrite frame_fits, stream_frame_roundtrip by done. simpl. unfold handleFileBinaryFrame, upd, removeUpload. run_unfold. run_simpl.
  rewrite Hu, Hw. destruct chunk; [done|]. by rewrite Hok.
Qed.
Lemma hears_frames a sid n w chunks :
  valid_uuid sid = true → ag_uploads a !! sid = Some n → ag_writers a !! n = Some w →
  Forall (λ c, c ≠ [] ∧ one_message c) chunks → (∀ w d, write_fails w d = false) →
  foldl hears a (map (file_frame sid) chunks) = on_writers (alter (feed_writer (concat chunks)) n) a.
Proof using Type.
  intros Hv Hu Hw Hne Hok. revert a w Hu Hw. induction chunks as [|c chunks IH]; intros a w Hu Hw; cbn [map foldl concat].
  - unfold on_writers. rewrite alter_id; [by destruct a|]. intros x _. unfold feed_writer. rewrite app_nil_r. by destruct x.
  - apply Forall_cons_iff in Hne as [[Hc Hfit] Hne]. rewrite (hears_frame a sid n w c) by done.
    rewrite (IH Hne _ (feed_writer c w)); [|done|by simpl; rewrite lookup_alter_eq, Hw].
    unfold on_writers. simpl. f_equal. rewrite alter_alter_eq. apply alter_ext. intros x _. unfold feed_writer. simpl.
    by rewrite app_assoc.
Qed.
Lemma hears_end a sid n w :
  valid_uuid sid = true → ag_uploads a !! sid = Some n → ag_writers a !! n = Some w → close_fails w = None →
  hears a (file_frame sid []) =
    replied (on_writers (alter close_writer n) (on_ups (delete sid) a)) (uuid_string sid) success.
Proof using Type.
  intros Hv Hu Hw Hc. unfold hears, file_frame, AgentCore.readLoop_turn, AgentCore.handleBinaryFrame.
  rewrite frame_fits, stream_frame_roundtrip by done. simpl. unfold handleFileBinaryFrame, upd, removeUpload, writeEnvelope. run_unfold. run_simpl.
  by rewrite Hu, Hw, Hc.
Qed.

(** The upload loop sends the chunks as they are. *)
Lemma stream_sends b x ws chunk s :
  br_objects (rd_broker (se_rs s)) !! b = Some x → linked ws (st_DeviceID x) (se_hub s) →
  ideal (stream_send b chunk) (λ y s', y = Ok (Ok tt) ∧
    s' = set_hub (Hub.on_sent (λ l, l ++ [(ws, Binary (EncodeStreamFrame (st_Kind x) (st_ID x) chunk))]) (se_hub s)) s) s.
Proof using Type.
  intros Hx [Hc _]. unfold stream_send, look. apply ideal_mbind, ideal_mstate. cbn [fst snd]. rewrite Hx.
  unfold try_via, SendBinaryFrame, getConn, write. apply ideal_mtry, ideal_mzoom, ideal_mbind, ideal_mbind, ideal_mstate.
  cbn [fst snd]. rewrite Hc. apply ideal_mret, ideal_mexec. done.
Qed.
Definition framed ws (x : Stream) (c : bytes) : nat * ws_message := (ws, Binary (EncodeStreamFrame (st_Kind x) (st_ID x) c)).
Lemma upload_sends b x ws chunks total s :
  br_objects (rd_broker (se_rs s)) !! b = Some x → linked ws (st_DeviceID x) (se_hub s) →
  (total + Z.of_nat (length (concat chunks)) ≤ maxUploadBytes)%Z →
  ideal (upload_loop b chunks true total) (λ y s', y = Ok (total + Z.of_nat (length (concat chunks)))%Z ∧
    s' = set_hub (Hub.on_sent (λ l, l ++ map (framed ws x) chunks) (se_hub s)) s) s.
Proof using Type.
  revert total s. induction chunks as [|c chunks IH]; intros total s Hx Hl Hmax; cbn [upload_loop concat map].
  { apply ideal_mret. simpl. rewrite Z.add_0_r. split; [done|]. unfold set_hub, Hub.on_sent. rewrite app_nil_r. by destruct s as [? [] ?]. }
  cbn [concat] in Hmax. rewrite length_app in Hmax.
  rewrite (proj2 (Z.ltb_ge maxUploadBytes _)) by lia.
  apply ideal_mbind. eapply ideal_mono; [by apply stream_sends|]. intros y s1 (-> & ->).
  eapply ideal_mono; [apply IH; [done|by destruct Hl|lia]|]. intros y s2 (-> & ->). rewrite length_app.
  split; [f_equal; lia|]. unfold set_hub, Hub.on_sent. simpl. by rewrite <-app_assoc.
Qed.

Lemma agent_at_app a seen ws s s' l :
  seen ≤ length (sent_to ws s) → hb_sent (se_hub s') = hb_sent (se_hub s) ++ map (pair ws) l →
  agent_at a seen ws s' = foldl hears (agent_at a seen ws s) l.
Proof using Type.
  intros Hl E. unfold agent_at. assert (sent_to ws s' = sent_to ws s ++ l) as ->.
  { unfold sent_to. rewrite E, omap_app. f_equal. clear. induction l as [|m l IH]; [done|]. simpl. rewrite Nat.eqb_refl. f_equal. exact IH. }
  by rewrite drop_app_le, foldl_app.
Qed.

Section upload.
Context (cx : authctx) (e : env) (id path : string) (chunks : list bytes) (dev : uuid) (d : Device) (ws : nat) (a : agent)
  (s : server) (raw out : bytes).
#[local] Abbreviation sid := (en_id e 0).
#[local] Abbreviation seen := (length (sent_to ws s)).
(** A user with the permission, a live connection, an agent that may and can
    write the file, and a body within the limit. *)
Record uploadable : Prop := {
  ua_id : uuid_parse id = Some dev;
  ua_device : devices (se_registry s) !! dev = Some d;
  ua_permission : HasPermission (cx_Grants cx) PermRemoteFilesWrite (deviceResource d) = true;
  ua_path : path ≠ ""%string;
  ua_chunks : Forall (λ c, c ≠ [] ∧ one_message c) chunks;
  ua_limit : (Z.of_nat (length (concat chunks)) ≤ maxUploadBytes)%Z;
  ua_link : linked ws dev (se_hub s);
  ua_sid : valid_uuid sid = true ∧ uuid_parse (uuid_string sid) = Some sid;
  ua_policy : ap_FilesWrite policy = true;
  ua_open : os_result (ag_actions a ++ [OpenWrite path]) (OpenWrite path) = Ok out;
  ua_write w c : write_fails w c = false;
  ua_close : close_fails (mkWriter path (concat chunks) false) = None;
  ua_params : params (mkFilesUpload path (uuid_string sid)) raw;
  ua_command : asks e 0 (mkCommand "" CmdFilesUpload raw);
  ua_ready : returns (length (ag_sent a)) (en_mid e 0) success;
  ua_final : returns (S (length (ag_sent a))) (uuid_string sid) success }.
Context (Hu : uploadable) (Ha : attached e 0 ws a s).

(** The agent with the file written and closed and both results sent. *)
Definition uploaded : agent :=
  replied (on_writers (alter close_writer (ag_next a)) (on_ups (delete sid)
    (on_writers (alter (feed_writer (concat chunks)) (ag_next a)) (replied (opened a path sid) (en_mid e 0) success))))
    (uuid_string sid) success.
Lemma uploaded_file : ag_writers uploaded !! ag_next a = Some (mkWriter path (concat chunks) true).
Proof using Type. unfold uploaded. simpl. by rewrite lookup_alter_eq, lookup_alter_eq, lookup_insert_eq. Qed.

(** Up to the confirmation: the agent will have the whole file once it has
    read everything. *)
Lemma upload_delivered (Q : res Reply Reply → server → Prop) :
  (∀ s1, linked ws dev (se_hub s1) → agent_at a seen ws s1 = uploaded → 
     ideal (upload_confirmed cx e dev path sid (Z.of_nat (length (concat chunks)))) (λ y s2, ∀ s3, se_hub s3 = se_hub s2 → Q y s3) s1) →
  ideal (handleFilesUpload cx e id path chunks true) Q s.
Proof using Hu Ha JsonLaws0 JsonLaws1 JsonLaws2 JsonLaws10.
  intros HQ. destruct Ha as [Hdl Hoth]. unfold handleFilesUpload. apply ideal_mbind.
  eapply ideal_mono; [apply loads; apply Hu|]. intros y s0 [-> ->].
  unfold when. rewrite (proj2 (String.eqb_neq path "") (ua_path Hu)). apply ideal_mbind, ideal_mret.
  unfold with_stream, broker at 1. apply ideal_mbind, ideal_mstate.
  set (b := rd_broker (se_rs s)). set (x := Relay.mkStream sid dev StreamKindFile [] false).
  set (addr := fresh (dom (br_objects b))). cbn [Register fst snd]. fold b addr x. set (s1 := set_broker _ s).
  assert (br_objects (rd_broker (se_rs s1)) !! addr = Some x) as Hx by (unfold s1; simpl; apply lookup_insert_eq).
  assert (agent_at a seen ws s1 = a) as Ea by exact (agent_at_start a ws s).
  apply ideal_mbind, ideal_mtry. rewrite (proj2 (ua_params Hu)). cbn [default].
  apply ideal_mbind. eapply ideal_mono.
  { apply (command_answered e 0 dev ws a seen (opened a path sid) _ success s1); try done; try apply Hu.
    - by rewrite Ea, Nat.sub_diag.
    - by rewrite Ea.
    - intros env Hid Hp. rewrite Ea, <-Hid. by eapply (upload_opened env a raw path sid out); [|apply Hu..].
    - by rewrite Ea. }
  intros y s2 (env & x2 & wr & -> & Hpay & -> & Hq & Hsent & Hag). rewrite Hpay. cbn [success rp_Status]. simpl negb. cbv iota.
  set (s2 := set_hub x2 s1) in *.
  assert (linked ws dev (se_hub s2)) as Hl2 by (eapply linked_quiet; [exact Hq|apply Hu]).
  apply ideal_mbind. eapply ideal_mono; [apply (upload_sends addr x ws chunks 0 s2 Hx Hl2); apply Hu|].
  intros y s3 (-> & Es3). apply ideal_mbind, ideal_mignore.
  eapply ideal_mono; [apply (stream_sends addr x ws [] s3); rewrite Es3; [exact Hx|exact Hl2]|].
  intros y s4 (-> & Es4). rewrite Z.add_0_l.
  assert (agent_at a seen ws s4 = uploaded) as Hfin.
  { rewrite (agent_at_app a seen ws s2 s4 (map (file_frame sid) chunks ++ [file_frame sid []])).
    - rewrite Hag, foldl_app. rewrite (hears_frames _ sid (ag_next a) (mkWriter path [] false)); try apply Hu.
      + cbn [foldl]. apply (hears_end _ sid (ag_next a) (mkWriter path (concat chunks) false)); try apply Hu.
        * simpl. by rewrite lookup_insert_eq.
        * simpl. by rewrite lookup_alter_eq, lookup_insert_eq.
      + simpl. by rewrite lookup_insert_eq.
      + simpl. by rewrite lookup_insert_eq.
    - unfold s2. rewrite (sent_to_app ws x2 s1 _ Hsent), length_app. change (sent_to ws s1) with (sent_to ws s). lia.
    - rewrite Es4, Es3. simpl. rewrite map_app, map_map, <-app_assoc. done. }
  eapply ideal_mono; [apply HQ; [rewrite Es4, Es3; exact Hl2|exact Hfin]|].
  intros y s5 HQ5. unfold unregister, broker. apply ideal_mbind, ideal_mstate, ideal_mlift. by apply HQ5.
Qed.

(** The confirmation arrives while the handler waits for it. *)
Lemma waiter_registered x :
  hb_conns x !! dev = Some ws →
  let ch := fresh (dom (hb_waiters x)) in
  ideal (ws ← getConn dev; ch ← waitForID_start ws (uuid_string sid); mret (ws, ch)) (λ y x', y = Ok (ws, ch) ∧
    x' = on_objects (alter (set_pending (insert (uuid_string sid) ch)) ws) (on_waiters (insert ch (mkWaiter ws (uuid_string sid) None)) x)) x.
Proof using Type.
  intros Hc ch. unfold getConn, waitForID_start, register_waiter. ideal_step. ideal_step. ideal_step. rewrite Hc. ideal_steps. done.
Qed.

(** C9: an uploaded file arrives. For a user with the permission, over a live
    connection and without faults, the bytes of the request's body, at most
    500 MiB in non-empty pieces that fit in one message each (the handler reads
    64 KiB at a time), are the bytes of the file on the customer's machine,
    which the agent has opened under its local policy, written and closed once
    it has read what was sent; the browser is told the number of bytes.  The
    command and the two results have a faithful text form within the read
    limit, and the agent's confirmation arrives while the handler waits for
    it. *)
Theorem upload_end_to_end :
  (∀ s', en_others e 1 s' = s') → en_deadline e 2 = false → (∀ s', en_others e 2 s' = hub_reads a seen ws 1 s') →
  ideal (handleFilesUpload cx e id path chunks true) (λ y s',
    y = Ok (answer (DUpload (Z.of_nat (length (concat chunks))))) ∧
    ag_writers (agent_at a seen ws s') !! ag_next a = Some (mkWriter path (concat chunks) true) ∧
    ag_actions (agent_at a seen ws s') = ag_actions a ++ [OpenWrite path]) s.
Proof using Hu Ha JsonLaws0 JsonLaws1 JsonLaws2 JsonLaws10.
  intros Hw1 Hdl Hw2. apply upload_delivered. intros s1 [Hc [c Ho]] Hag.
  destruct (ua_final Hu) as [Hres Hsize]. set (i := S (length (ag_sent a))) in *.
  destruct (encode_decode _ _ _ _ _ Hres) as (raw' & body & Hraw & Hdec & Hpay).
  unfold upload_confirmed, others, try_via. apply ideal_mbind, ideal_mstate. cbn [fst snd]. rewrite Hw1.
  apply ideal_mbind, ideal_mtry, ideal_mzoom. eapply ideal_mono; [by apply waiter_registered|].
  intros y x2 (-> & Ex2). set (ch := fresh _) in *. set (s2 := set_hub x2 s1).
  assert (agent_at a seen ws s2 = uploaded) as Hag2.
  { rewrite <-Hag. unfold agent_at, sent_to, s2. cbn [se_hub set_hub]. by rewrite Ex2. }
  apply ideal_mbind, ideal_mstate. cbn [fst snd]. rewrite Hw2. unfold hub_reads. rewrite Hag2.
  unfold spoken, uploaded. cbn [ag_sent replied AgentCore.on_sent on_writers on_ups opened bump on_actions].
  rewrite <-app_assoc, imap_app, drop_app_ge, length_imap, Nat.add_comm, Nat.add_sub by (rewrite length_imap; lia).
  cbn [app imap drop omap list_omap]. unfold compose. rewrite Nat.add_1_r. fold i. cbn [wire]. rewrite Hraw.
  cbn [Datatypes.id foldl].
  erewrite (answer_read ws (set_pending (insert (uuid_string sid) ch) c) (uuid_string sid) ch raw' _ s2); cycle 1.
  { unfold s2. cbn [se_hub set_hub]. rewrite Ex2. simpl. by rewrite lookup_alter_eq, Ho. }
  { simpl. by rewrite lookup_insert_eq. }
  { by apply Hsize. }
  { exact Hdec. }
  { done. }
  apply ideal_mbind, ideal_mtry, ideal_mzoom. rewrite Hdl. set (x3 := on_waiters _ _).
  eapply ideal_mono.
  { eapply (finish_takes ws (uuid_string sid) ch).
    - unfold x3, s2. cbn [se_hub set_hub]. rewrite Ex2. simpl. by rewrite lookup_alter_eq, lookup_insert_eq.
    - done. }
  intros y x4 (-> & Hsent & _). rewrite Hpay. unfold auditFileOp. cbn [success rp_Status]. simpl negb. cbv iota.
  eapply ideal_mono; [apply audit_then|]. intros y s5 (-> & Hh5) s6 Hh6.
  assert (agent_at a seen ws s6 = uploaded) as ->.
  { rewrite <-Hag2. unfold agent_at, sent_to. rewrite Hh6, Hh5. cbn [se_hub set_hub]. rewrite Hsent. unfold x3, s2.
    cbn [se_hub set_hub]. by rewrite Ex2. }
  split; [done|]. split; [apply uploaded_file|done].
Qed.
End upload.

(** ** Downloads *)

(** [pumpFileDownload] over what [Read] returns, the end of the file last. *)
Definition reads a (sid : uuid) (chunk : bytes) (ended : bool) : agent := (run (download_turn sid chunk ended) a).2.
Definition pumped a (sid : uuid) (chunks : list bytes) : agent :=
  reads (foldl (λ a c, reads a sid c false) a chunks) sid [] true.
Lemma reads_sent a sid c : c ≠ [] → ag_sent (reads a sid c false) = ag_sent a ++ [OutBinary (EncodeStreamFrame StreamKindFile sid c)].
Proof using Type. intros Hc. by destruct c. Qed.
Lemma pumped_sent a sid chunks : Forall (λ c, c ≠ []) chunks →
  ag_sent (pumped a sid chunks) = ag_sent a ++ map (λ c, OutBinary (EncodeStreamFrame StreamKindFile sid c)) (chunks ++ [[]]).
Proof using Type.
  intros Hne. unfold pumped. rewrite map_app, app_assoc.
  change (ag_sent (reads ?x sid [] true)) with (ag_sent x ++ [OutBinary (EncodeStreamFrame StreamKindFile sid [])]).
  f_equal. revert a Hne. induction chunks as [|c chunks IH]; intros a Hne; cbn [foldl map]; [by rewrite app_nil_r|].
  apply Forall_cons_iff in Hne as [Hc Hne]. rewrite IH, reads_sent by done. by rewrite <-app_assoc.
Qed.

(** A message of the agent, with what the hub does about it. *)
Definition relayed (h : handlers) (e : env) ws s m : server := (run (deliver h e "") (hub_hears ws s m)).2.
(** Nothing else is under way: no calls between the components are pending. *)
Record calm ws (dev : uuid) s : Prop := {
  ca_object : ∃ c, hb_objects (se_hub s) !! ws = Some c ∧ cn_deviceID c = dev;
  ca_calls : hb_calls (se_hub s) = [] ∧ rd_calls (se_rs s) = [] ∧ sv_audit (se_svc s) = [] }.

Lemma hears_binary ws o s sid c :
  hc_binaryHandler hc = true → valid_uuid sid = true → one_message c → hb_objects (se_hub s) !! ws = Some o →
  hub_hears ws s (file_frame sid c) =
    set_hub (Hub.on_calls (λ l, l ++ [OnBinaryFrame (cn_deviceID o) StreamKindFile sid c]) (se_hub s)) s.
Proof using Type.
  intros Hb Hv Hfit Ho. unfold hub_hears, drop_via, Hub.readLoop_turn, file_frame. run_unfold. run_simpl. rewrite Ho.
  cbn [message_data]. rewrite frame_fits by done. unfold Hub.handleBinaryFrame. by rewrite stream_frame_roundtrip, Hb.
Qed.
Lemma relayed_frame h e ws dev s sid c :
  hc_binaryHandler hc = true → valid_uuid sid = true → one_message c → calm ws dev s →
  calm ws dev (relayed h e ws s (file_frame sid c)) ∧
  rd_broker (se_rs (relayed h e ws s (file_frame sid c))) = handleInbound dev StreamKindFile sid c (rd_broker (se_rs s)).
Proof using Type.
  intros Hb Hv Hfit [(o & Ho & Hdev) (Hc1 & Hc2 & Hc3)]. unfold relayed. rewrite (hears_binary ws o) by done. rewrite Hdev.
  apply (ideal_run (deliver h e "") (λ _ s', calm ws dev s' ∧ rd_broker (se_rs s') = _)).
  unfold deliver, hub_outbox. apply ideal_mbind, ideal_mstate. cbn [fst snd se_hub set_hub on_calls hb_calls]. rewrite Hc1.
  cbn [app carry on_hub_call]. apply ideal_mbind, ideal_mbind. unfold broker. apply ideal_mstate, ideal_mret.
  unfold rs_outbox. apply ideal_mbind, ideal_mstate. cbn [fst snd se_rs set_hub set_rs on_broker set_broker rd_calls]. rewrite Hc2.
  cbn [carry]. apply ideal_mbind, ideal_mret. unfold auth_outbox. apply ideal_mbind, ideal_mstate.
  cbn [fst snd se_svc set_hub set_rs set_broker]. rewrite Hc3. cbn [carry]. apply ideal_mret.
  split; [|done]. split; [by exists o|done].
Qed.

Definition arrive (h : handlers) (e : env) ws s (batch : list ws_message) : server := foldl (relayed h e ws) s batch.
(** The browser takes one chunk per turn; the frames that arrive in between
    never exceed what the stream's channel holds. *)
Fixpoint keeps_up (waiting : nat) (batches : list (list bytes)) : Prop :=
  match batches with
  | [] => True
  | b :: rest => waiting + length b ≤ chan_capacity ∧ keeps_up (pred (waiting + length b)) rest
  end.

Section download.
Context (cx : authctx) (h : handlers) (e e' : env) (dev : uuid) (path : string) (ws : nat) (sid : uuid) (addr : nat).
Context (Hb : hc_binaryHandler hc = true) (Hv : valid_uuid sid = true).
(** The stream of the download with what waits in its channel. *)
Definition channel (buf : list bytes) : Stream := Relay.mkStream sid dev StreamKindFile buf false.
Definition open_with (buf : list bytes) s : Prop := calm ws dev s ∧ routed (rd_broker (se_rs s)) addr (channel buf).

Lemma frames_arrive buf batch s :
  open_with buf s → length buf + length batch ≤ chan_capacity → Forall one_message batch →
  open_with (buf ++ batch) (arrive h e' ws s (map (file_frame sid) batch)).
Proof using Hb Hv.
  revert buf s. induction batch as [|c batch IH]; intros buf s [Hc Hr] Hlen Hfits; cbn [arrive map foldl]; [by rewrite app_nil_r|].
  apply Forall_cons_iff in Hfits as [Hfit Hfits]. simpl in Hlen. change (c :: batch) with ([c] ++ batch). rewrite app_assoc. apply IH; [|rewrite length_app; simpl; lia|done].
  destruct (relayed_frame h e' ws dev s sid c Hb Hv Hfit Hc) as [Hc' Hbr]. split; [done|]. rewrite Hbr.
  pose proof (inbound_routed _ (mkFrame dev StreamKindFile sid c) _ _ Hr) as Hi.
  assert (payloads_for (channel buf) [mkFrame dev StreamKindFile sid c] = [c]) as Ep.
  { unfold payloads_for, meant_for. simpl. by rewrite !N.eqb_refl. }
  rewrite Ep in Hi. cbn [channel st_buffer] in Hi. rewrite take_ge in Hi by (rewrite length_app; simpl; lia). exact Hi.
Qed.

Lemma takes_next p buf s : open_with (p :: buf) s →
  ideal (from_agent addr) (λ y s', y = Ok (Payload p) ∧ open_with buf s') s.
Proof using Type.
  intros [Hc Hr]. pose proof Hr as (Hid & Ho & Hcl & Huniq & Hlen). unfold from_agent, broker. apply ideal_mstate.
  rewrite Ho. cbn [channel st_buffer fst snd]. split; [done|]. split.
  - destruct Hc as [Hobj (C1 & C2 & C3)]. by split.
  - split_and!; simpl; [done|by rewrite lookup_insert_eq|done|done|]. simpl in Hlen. lia.
Qed.
Lemma takes_nothing s : open_with [] s → ideal (from_agent addr) (λ y s', y = Ok NotYet ∧ open_with [] s') s.
Proof using Type.
  intros [Hc Hr]. pose proof Hr as (Hid & Ho & Hcl & Huniq & Hlen). unfold from_agent, broker. apply ideal_mstate.
  rewrite Ho. cbn [channel st_buffer st_closed fst snd]. split; [done|]. split.
  - destruct Hc as [Hobj (C1 & C2 & C3)]. by split.
  - done.
Qed.

Lemma next_batch (buf : list bytes) (batches : list (list bytes)) :
  length buf ≤ chan_capacity → keeps_up (length buf) batches →
  ∃ b rest, nth 0 batches [] = b ∧ concat batches = b ++ concat rest ∧ length buf + length b ≤ chan_capacity ∧
    keeps_up (pred (length buf + length b)) rest ∧ (∀ i, nth i rest [] = nth (S i) batches []) ∧
    length rest ≤ length batches ∧ (batches ≠ [] → S (length rest) = length batches).
Proof using Type.
  intros Hlen Hup. destruct batches as [|b rest]; simpl in *.
  - exists [], []. simpl. rewrite Nat.add_0_r. split_and!; try done. by intros [].
  - exists b, rest. destruct Hup. split_and!; auto.
Qed.

(** What the browser gets of a file: all of it, to the end, unless that is more
    than the announced length; then the pieces before the first one that would
    exceed it, and nothing else. *)
Definition served (limit : option Z) (file : list bytes) (y : res Reply Reply) : Prop :=
  (over limit (body_bytes file) = false → y = Ok (answer (DDownload limit file true))) ∧
  (over limit (body_bytes file) = true → ∃ got c rest, file = got ++ c :: rest ∧
     over limit (body_bytes got) = false ∧ over limit (body_bytes (got ++ [c])) = true ∧
     y = Ok (answer (DDownload limit got false))).
Lemma over_app limit l l' : over limit (body_bytes l) = true → over limit (body_bytes (l ++ l')) = true.
Proof using Type.
  destruct limit as [n|]; [|done]. unfold over, body_bytes. rewrite concat_app, length_app. rewrite !Z.ltb_lt. lia.
Qed.
Lemma nothing_over r : over (content_length r) (body_bytes []) = false.
Proof using Type.
  unfold content_length. destruct (asFloat _ _) as [n|]; [|done]. simpl. destruct (n <? 0)%Z eqn:E; [done|]. exact E.
Qed.

(** The loop writes every chunk up to the end marker, within the limit. *)
Lemma download_takes limit turns n batches buf out chunks s :
  buf ++ concat batches = chunks ++ [[]] → Forall (λ c, c ≠ [] ∧ one_message c) chunks → keeps_up (length buf) batches →
  open_with buf s → over limit (body_bytes out) = false → (∀ i, en_deadline e (n + i) = false) →
  (∀ i s', en_others e (n + i) s' = arrive h e' ws s' (map (file_frame sid) (nth i batches []))) →
  length batches + length (chunks ++ [[]]) ≤ turns →
  ideal (download_loop cx e dev path addr limit turns n out) (λ y s', served limit (out ++ chunks) y) s.
Proof using Hb Hv.
  revert n batches buf out chunks s. induction turns as [|turns IH]; intros n batches buf out chunks s Hall Hne Hup Hopen Hov Hdl Hoth Hturns.
  { rewrite length_app in Hturns. simpl in Hturns. lia. }
  cbn [download_loop]. unfold others at 1. apply ideal_mbind, ideal_mstate. cbn [fst snd].
  pose proof (Hoth 0) as Ho0. rewrite Nat.add_0_r in Ho0. rewrite Ho0. clear Ho0.
  pose proof (Hdl 0) as Hd0. rewrite Nat.add_0_r in Hd0. rewrite Hd0. clear Hd0.
  destruct (next_batch buf batches) as (b & rest & -> & Hcat & Hfit & Hup' & Hrest & Hlr & Hlr'); [apply Hopen|done|].
  assert (Forall one_message b) as Hfits.
  { assert (Forall one_message (buf ++ b ++ concat rest)) as HF; [|by apply Forall_app in HF as [_ [HF _]%Forall_app]].
    rewrite <-Hcat, Hall. apply Forall_app; split; [eapply list.Forall_impl; [exact Hne|]; by intros c [_ Hc]|]. by repeat constructor. }
  pose proof (frames_arrive buf b s Hopen Hfit Hfits) as Hopen1. set (s1 := arrive h e' ws s _) in *. clearbody s1. clear s Hopen.
  rewrite Hcat, app_assoc in Hall. rewrite <-length_app in Hup'. apply ideal_mbind.
  destruct (buf ++ b) as [|p buf'] eqn:Ebuf.
  - eapply ideal_mono; [by apply takes_nothing|]. intros y s2 (-> & Hopen2).
    apply (IH (S n) rest []); [done..| | |].
    + intros i. rewrite Nat.add_succ_comm. apply Hdl.
    + intros i s'. rewrite Hrest, Nat.add_succ_comm. apply Hoth.
    + assert (batches ≠ []) as Hnil; [|specialize (Hlr' Hnil); lia].
      intros ->. destruct rest as [|? ?]; [|simpl in Hlr; lia]. simpl in Hall. by destruct chunks.
  - eapply ideal_mono; [by apply takes_next|]. intros y s2 (-> & Hopen2).
    destruct chunks as [|c chunks]; injection Hall as -> Hall.
    { apply ideal_mbind. eapply ideal_mono; [apply audit_aside|]. intros y s3 (-> & _). apply ideal_mret. rewrite app_nil_r.
      split; [done|]. congruence. }
    apply Forall_cons_iff in Hne as [[Hc Hcf] Hne]. destruct c as [|c0 c]; [done|]. set (p := c0 :: c) in *.
    assert (out ++ p :: chunks = (out ++ [p]) ++ chunks) as -> by by rewrite <-app_assoc.
    destruct (over limit (body_bytes (out ++ [p]))) eqn:Eov.
    { apply ideal_mret. split; [by rewrite over_app|]. intros _. exists out, p, chunks. by rewrite <-app_assoc. }
    apply (IH (S n) rest buf'); try done.
    + intros i. rewrite Nat.add_succ_comm. apply Hdl.
    + intros i s'. rewrite Hrest, Nat.add_succ_comm. apply Hoth.
    + simpl in Hturns. lia.
Qed.
End download.

(** The agent with a download under way. *)
Definition fetching a (path : string) (sid : uuid) : agent := on_downloads (cons sid) (on_actions (λ l, l ++ [OpenRead path]) a).
Lemma download_opened env a raw path sid size :
  DecodePayload env = Ok (mkCommand "" CmdFilesDownload raw) → params (mkFilesDownload path (uuid_string sid)) raw →
  uuid_parse (uuid_string sid) = Some sid → ap_FilesRead policy = true →
  os_result (ag_actions a ++ [OpenRead path]) (OpenRead path) = Ok size →
  (run (agent_command env) a).2 = replied (fetching a path sid) (env_MessageID env) (mkResult "success" CodeOK "" (Some size)).
Proof using JsonLaws11.
  intros Hd Hp Hid Hpol Hos. unfold handleDeviceCommand, download_command. rewrite Hd. cbn -[run]. rewrite Hpol. unfold with_params.
  rewrite (params_decode _ _ Hp). cbn -[run]. rewrite Hid.
  unfold replyResult, replyCommand, AgentCore.act, upd, writeEnvelope. run_unfold. run_simpl.
  cbn [ag_actions on_actions]. rewrite Hos. reflexivity.
Qed.

(** What the agent has to say after its answer: the file in frames. *)
Definition file_messages a (sid : uuid) (chunks : list bytes) : list ws_message :=
  omap Datatypes.id (drop (length (ag_sent a)) (spoken (pumped a sid chunks))).
Lemma file_messages_frames a sid chunks :
  Forall (λ c, c ≠ []) chunks → file_messages a sid chunks = map (file_frame sid) (chunks ++ [[]]).
Proof using Type.
  intros Hne. unfold file_messages, spoken. rewrite pumped_sent by done. rewrite imap_app, drop_app_length' by by rewrite length_imap.
  generalize (length (ag_sent a)). induction (chunks ++ [[]]) as [|c l IH]; intros n; [done|]. cbn [map imap]. simpl. f_equal.
  rewrite <-(IH (S n)). f_equal. apply imap_ext. intros i x _. unfold compose. by rewrite Nat.add_succ_comm.
Qed.
Lemma file_frame_inj sid c c' : valid_uuid sid = true → file_frame sid c = file_frame sid c' → c = c'.
Proof using Type.
  intros Hv [= E]. pose proof (stream_frame_roundtrip StreamKindFile sid c Hv) as R. rewrite E, stream_frame_roundtrip in R by done. congruence.
Qed.

Section download_request.
Context (cx : authctx) (h : handlers) (e e' : env) (id path : string) (turns : nat) (dev : uuid) (d : Device) (ws : nat) (a : agent)
  (s : server) (raw size : bytes) (chunks : list bytes) (batches : list (list bytes)).
#[local] Abbreviation sid := (en_id e 0).
#[local] Abbreviation found := (mkResult "success" CodeOK "" (Some size)).
#[local] Abbreviation answered := (replied (fetching a path sid) (en_mid e 0) found).
(** A user with the permission, a live connection, and an agent that may and
    can read the file; [chunks] is what it reads, [batches] how it arrives. *)
Record downloadable : Prop := {
  da_id : uuid_parse id = Some dev;
  da_device : devices (se_registry s) !! dev = Some d;
  da_permission : HasPermission (cx_Grants cx) PermRemoteFilesRead (deviceResource d) = true;
  da_path : path ≠ ""%string;
  da_chunks : Forall (λ c, c ≠ [] ∧ one_message c) chunks;
  da_link : linked ws dev (se_hub s);
  da_calm : calm ws dev s;
  da_streams b x : br_streams (rd_broker (se_rs s)) !! b = Some x → x ∈ dom (br_objects (rd_broker (se_rs s)));
  da_binary : hc_binaryHandler hc = true;
  da_sid : valid_uuid sid = true ∧ uuid_parse (uuid_string sid) = Some sid;
  da_policy : ap_FilesRead policy = true;
  da_open : os_result (ag_actions a ++ [OpenRead path]) (OpenRead path) = Ok size;
  da_params : params (mkFilesDownload path (uuid_string sid)) raw;
  da_command : asks e 0 (mkCommand "" CmdFilesDownload raw);
  da_ready : returns (length (ag_sent a)) (en_mid e 0) found }.

(** C10: a downloaded file is the file. For a user with the permission, over a
    live connection and without faults, when the agent reads a file in pieces
    that fit in one message each (it reads 64 KiB at a time) and its frames
    reach the relay in any batches that never outrun the browser by more than
    the 64 frames a channel holds: the browser gets exactly those pieces, in
    order and to the end, unless they are longer than the size the agent
    announced, which becomes the Content-Length; then it gets the pieces before
    the first one that would exceed that size.  Command and answer have a
    faithful text form within the read limit. *)
Theorem download_end_to_end :
  downloadable → attached e 0 ws a s →
  map (file_frame sid) (concat batches) = file_messages answered sid chunks → keeps_up 0 batches →
  (∀ i, en_deadline e (S i) = false) →
  (∀ i s', en_others e (S i) s' = arrive h e' ws s' (map (file_frame sid) (nth i batches []))) →
  length batches + S (length chunks) ≤ turns →
  ideal (handleFilesDownload cx e id path turns) (λ y _, served (content_length found) chunks y) s.
Proof using JsonLaws0 JsonLaws1 JsonLaws2 JsonLaws11.
  intros Hu [Hdl Hoth] Hfile Hup Hdls Hoths Hturns. rewrite file_messages_frames in Hfile; cycle 1.
  { eapply list.Forall_impl; [apply Hu|]. by intros c [Hc _]. }
  assert (Inj (=) (=) (file_frame sid)) as Hinj by (intros c c'; apply file_frame_inj, Hu).
  assert (concat batches = chunks ++ [[]]) as Hall by exact (inj (fmap (file_frame sid)) _ _ Hfile).
  unfold handleFilesDownload. apply ideal_mbind. eapply ideal_mono; [apply loads; apply Hu|]. intros y s0 [-> ->].
  unfold when. rewrite (proj2 (String.eqb_neq path "") (da_path Hu)). apply ideal_mbind, ideal_mret.
  unfold with_stream, broker at 1. apply ideal_mbind, ideal_mstate.
  set (b := rd_broker (se_rs s)). set (addr := fresh (dom (br_objects b))). cbn [Register fst snd]. fold b addr. set (s1 := set_broker _ s).
  assert (addr ∉ dom (br_objects b)) as Hfresh by apply is_fresh.
  assert (agent_at a (length (sent_to ws s)) ws s1 = a) as Ea by exact (agent_at_start a ws s).
  apply ideal_mbind, ideal_mtry. rewrite (proj2 (da_params Hu)). cbn [default]. apply ideal_mbind. eapply ideal_mono.
  { apply (command_answered e 0 dev ws a (length (sent_to ws s)) (fetching a path sid) _ (mkResult "success" CodeOK "" (Some size)) s1);
      try done; try apply Hu.
    - by rewrite Ea, Nat.sub_diag.
    - by rewrite Ea.
    - intros env Hid Hp. rewrite Ea, <-Hid. by eapply (download_opened env a raw path sid size); [|apply Hu..].
    - by rewrite Ea. }
  intros y s2 (env & x2 & wr & -> & Hpay & -> & Hq & _ & _). rewrite Hpay. cbn [rp_Status]. simpl negb. cbv iota.
  eapply ideal_mono.
  { apply (download_takes cx h e e' dev path ws sid addr (da_binary Hu) (proj1 (da_sid Hu)) _ turns 1 batches [] [] chunks); try done; try apply Hu; try apply nothing_over.
    - split.
      + destruct (da_calm Hu) as [(c & Hc & Hcd) (C1 & C2 & C3)]. destruct Hq as (_ & _ & Q3 & Q4). split.
        * destruct (Q4 c Hc) as (c' & Hc' & E'). exists c'. by rewrite E'.
        * split_and!; [|done..]. cbn [se_hub set_hub]. rewrite Q3. exact C1.
      + split_and!; simpl; [by rewrite lookup_insert_eq|by rewrite lookup_insert_eq|done| |lia].
        intros k Hk. apply lookup_insert_Some in Hk as [[<- _]|[_ Hk]]; [done|]. exfalso. by apply Hfresh, (da_streams Hu k).
    - rewrite length_app. simpl. lia. }
  intros y s3 Hs. unfold unregister, broker. by apply ideal_mbind, ideal_mstate, ideal_mlift.
Qed.
End download_request.
End link.
(** ** A concrete connection *)

Section demo.
#[local] Existing Instances demo_uuid_text toy_IDKey demo_aead demo_totp demo_telegram demo_backend.
#[local] Instance void_json T : Json T | 100 := no_json T.
#[local] Instance void_laws T : JsonLaws T | 100.
Proof. by split. Qed.
#[local] Instance wire_command : Wire DeviceCommandPayload.
Proof. refine (wire_iso (λ c, (dc_CommandID c, dc_CommandType c, dc_Params c)) (λ '(i, t, p), mkCommand i t p) _). by intros []. Defined.
#[local] Instance wire_result : Wire CommandResultPayload.
Proof.
  refine (wire_iso (λ r, (rp_Status r, rp_Code r, rp_Message r, rp_Data r)) (λ '(s, c, m, d), mkResult s c m d) _). by intros [].
Defined.
#[local] Instance wire_service : Wire ServiceActionParams.
Proof. refine (wire_iso sa_Name mkServiceAction _). by intros []. Defined.
#[local] Instance wire_upload : Wire FilesUploadParams.
Proof. refine (wire_iso (λ p, (ul_Path p, ul_StreamID p)) (λ '(p, i), mkFilesUpload p i) _). by intros []. Defined.
#[local] Instance wire_download : Wire FilesDownloadParams.
Proof. refine (wire_iso (λ p, (dl_Path p, dl_StreamID p)) (λ '(p, i), mkFilesDownload p i) _). by intros []. Defined.
#[local] Instance env_json : Json Envelope := wire_json _.
#[local] Instance env_laws : JsonLaws Envelope := wire_json_laws _.
#[local] Instance cmd_json : Json DeviceCommandPayload := wire_json _.
#[local] Instance cmd_laws : JsonLaws DeviceCommandPayload := wire_json_laws _.
#[local] Instance res_json : Json CommandResultPayload := wire_json _.
#[local] Instance res_laws : JsonLaws CommandResultPayload := wire_json_laws _.
#[local] Instance svc_json : Json ServiceActionParams := wire_json _.
#[local] Instance svc_laws : JsonLaws ServiceActionParams := wire_json_laws _.
#[local] Instance up_json : Json FilesUploadParams := wire_json _.
#[local] Instance up_laws : JsonLaws FilesUploadParams := wire_json_laws _.
#[local] Instance down_json : Json FilesDownloadParams := wire_json _.
#[local] Instance down_laws : JsonLaws FilesDownloadParams := wire_json_laws _.

(** Device 7 is connected over socket 1; its agent may handle files and
    services, where every action succeeds. *)
Definition link_policy : AgentPolicy := mkPolicy false false false true true true false false false.
Definition link_server : server :=
  set_hub (on_objects (insert 1 (mkConn 7 1 "" ∅ false true)) (on_conns (insert 7%N 1) (NewHub fleet))) start.
Definition link_cx : authctx :=
  mkCtx (2%N, mkSession 5 [] 0 0 0 0 None) (5%N, demo_user)
    (map (λ p, mkGrant p ScopeGlobal None) [PermRemoteServiceControl; PermRemoteFilesRead; PermRemoteFilesWrite]).
Definition link_hub : hub_config := hub_config_of (mkHandlers Default demo_service "1.0" []) ∅ false.
(** The size of a file, by its path; of some it is not known. *)
Definition link_os (l : list os_action) (act : os_action) : res string bytes :=
  match act with
  | OpenRead path =>
      Ok (str_bytes (if String.eqb path "/tmp/x" then "11" else if String.eqb path "/proc/uptime" then "0" else ""))
  | _ => demo_os l act
  end.
#[local] Abbreviation of_agent f := (f link_policy ""%string link_os (λ _, Messages.mkSupportCredential "" "") (λ _ b, b) (λ _ b, b) (λ _ _, false)
  (λ _, None) demo_check (λ b, b) None "/"%string (λ _, None) ""%string (λ _, ""%string)).
#[local] Abbreviation of_link f := (of_agent f (λ _, ""%string) link_hub "h"%string 0%Z (λ _, "a"%string) (λ _, 0%Z)).
Definition link_agent : server → agent := of_agent agent_at demo_agent 0 1.
Definition link_reads : nat → server → server := of_link hub_reads demo_agent 0 1.
Definition link_env (others : nat → server → server) : env :=
  mkEnv 10 20 "192.0.2.1" (λ _, "m"%string) (λ _, 9%N) (λ _, None) (λ n, Z.of_nat n) (answers (Err tt)) others (λ _, false).
Lemma link_linked : linked 1 7 (se_hub link_server).
Proof. split; [reflexivity|by eexists]. Qed.
Lemma link_attached others : others 0 = link_reads 0 → of_link attached (link_env others) 0 1 demo_agent link_server.
Proof. intros E. split; [done|]. intros s'. simpl. by rewrite E. Qed.
Lemma link_carried {P} `{!Json P} ty req (p : P) mid now :
  ty ≠ ""%string → mid ≠ ""%string → json_faithful p →
  match Encode ty req p mid now with Ok raw => too_long raw MaxInventoryBytes | Err _ => false end = false →
  carried ty req p mid now.
Proof. intros Hty Hmid Hp Hl. split; [done|]. intros raw Hraw. by rewrite Hraw in Hl. Qed.

(** A service is stopped. *)
Definition stop_env : env := link_env (λ n s, match n with 0 => link_reads 0 s | _ => s end).
Definition stop_request : api_request := PostServiceStop (uuid_string 7) "sshd".
Lemma remote_action_is_local_witness :
  let y := run (serve offline demo_handlers link_cx stop_env stop_request) link_server in
  reply_of y.1 = answer (DState "ok") ∧ ag_actions (link_agent y.2) = [StopService "sshd"].
Proof.
  assert (json_faithful (mkServiceAction "sshd")) as Hf by exact I. destruct (json_total (mkServiceAction "sshd") Hf) as [raw Hraw].
  pose proof (of_link remote_action_is_local offline demo_handlers link_cx stop_env 7%N 1 demo_agent link_server link_linked
    (link_attached _ eq_refl) stop_request (uuid_string 7) PermRemoteServiceControl CmdServiceStop raw (StopService "sshd")
    false done_reply (machine 1 (Some 1%N))) as Hi.
  specialize (Hi ltac:(by apply rm_stop) ltac:(reflexivity) ltac:(reflexivity) ltac:(reflexivity)
    ltac:(vm_compute in Hraw; injection Hraw as <-; apply link_carried; [done|done|exact I|vm_compute; reflexivity])
    ltac:(apply link_carried; [done|done|exact I|vm_compute; reflexivity])).
  apply ideal_run in Hi as [Hy Ha]. split; [exact Hy|]. exact (f_equal ag_actions Ha).
Defined.

(** A file is uploaded in two pieces. *)
Definition link_body : list bytes := [str_bytes "hello "; str_bytes "world"].
Definition upload_env : env := link_env (λ n s, match n with 0 => link_reads 0 s | 2 => link_reads 1 s | _ => s end).
Definition up_raw : bytes := default [] (json_marshal (mkFilesUpload "/tmp/x" (uuid_string 9))).
Lemma upload_end_to_end_witness :
  let y := run (handleFilesUpload link_cx upload_env (uuid_string 7) "/tmp/x" link_body true) link_server in
  y.1 = Ok (answer (DUpload 11)) ∧
  ag_writers (link_agent y.2) !! 0 = Some (mkWriter "/tmp/x" (str_bytes "hello world") true).
Proof.
  assert (uploadable link_policy link_os (λ _ _, false) (λ _, None) (λ _, "a"%string) (λ _, 0%Z) link_cx upload_env (uuid_string 7)
    "/tmp/x" link_body 7 (machine 1 (Some 1%N)) 1 demo_agent link_server up_raw []) as Hu.
  { split; try reflexivity; try done; try (apply link_carried; [done|done|exact I|vm_compute; reflexivity]).
    by repeat constructor. }
  pose proof (of_link upload_end_to_end link_cx upload_env (uuid_string 7) "/tmp/x" link_body 7 (machine 1 (Some 1%N)) 1 demo_agent
    link_server up_raw [] Hu (link_attached _ eq_refl) ltac:(done) eq_refl ltac:(done)) as Hi.
  apply ideal_run in Hi as (Hy & Hw & _). split; [exact Hy|exact Hw].
Defined.

(** The same upload with a faster agent: its confirmation arrives before the
    handler waits for it and is dropped.  The file is complete; the browser is
    told that the agent did not confirm. *)
Definition early_env : env := link_env (λ n s, match n with 0 => link_reads 0 s | 1 => link_reads 1 s | _ => s end).
Theorem upload_confirmation_lost :
  let y := run (handleFilesUpload link_cx early_env (uuid_string 7) "/tmp/x" link_body true) link_server in
  y.1 = Err (refuse 504 "timeout") ∧
  ag_writers (link_agent y.2) !! 0 = Some (mkWriter "/tmp/x" (str_bytes "hello world") true).
Proof. vm_compute. split; reflexivity. Qed.

(** A file is downloaded while its frames come in two batches. *)
Definition link_arrive : server → list ws_message → server := arrive (λ _, ""%string) link_hub "h" 0 demo_handlers (link_env (λ _ s, s)) 1.
Definition batches_env (batches : list (list bytes)) : env :=
  link_env (λ n s, match n with 0 => link_reads 0 s | S i => link_arrive s (map (file_frame 9) (nth i batches [])) end).
Definition link_batches : list (list bytes) := [[str_bytes "hello "]; []; [str_bytes "world"; []]].
Definition down_raw : bytes := default [] (json_marshal (mkFilesDownload "/tmp/x" (uuid_string 9))).
Lemma download_end_to_end_witness :
  (run (handleFilesDownload link_cx (batches_env link_batches) (uuid_string 7) "/tmp/x" 6) link_server).1 =
    Ok (answer (DDownload (Some 11%Z) link_body true)).
Proof.
  assert (downloadable link_policy link_os link_hub (λ _, "a"%string) (λ _, 0%Z) link_cx (batches_env link_batches) (uuid_string 7)
    "/tmp/x" 7 (machine 1 (Some 1%N)) 1 demo_agent link_server down_raw (str_bytes "11") link_body) as Hu.
  { split; try reflexivity; try done; try (apply link_carried; [done|done|exact I|vm_compute; reflexivity]).
    - by repeat constructor.
    - split; [by eexists|done]. }
  pose proof (of_link download_end_to_end link_cx demo_handlers (batches_env link_batches) (link_env (λ _ s, s)) (uuid_string 7) "/tmp/x" 6 7
    (machine 1 (Some 1%N)) 1 demo_agent link_server down_raw (str_bytes "11") link_body link_batches Hu (link_attached _ eq_refl) eq_refl) as Hi.
  apply ideal_run in Hi; [|vm_compute; lia|done|done|vm_compute; lia]. apply Hi. vm_compute. reflexivity.
Defined.

(** A browser that is slow for a moment: 66 chunks arrive before it takes the
    next one, the end of the file later.  Two chunks are missing from what it
    gets as the whole file, and the download is recorded as a success. *)
Definition slow_chunks : list bytes := replicate 66 (str_bytes "x").
Theorem slow_download_loses_data :
  let y := run (handleFilesDownload link_cx (batches_env [slow_chunks; [[]]]) (uuid_string 7) "/var/x" 100) link_server in
  y.1 = Ok (answer (DDownload None (replicate 64 (str_bytes "x")) true)) ∧ length (se_audit y.2) = 1.
Proof. vm_compute. split; reflexivity. Qed.

(** A file whose size the system gives as zero, as it does for those under
    /proc: the browser gets a success with an empty body, whatever the file
    says, and nothing is recorded. *)
Theorem zero_size_download_empty :
  let y := run (handleFilesDownload link_cx (batches_env link_batches) (uuid_string 7) "/proc/uptime" 6) link_server in
  y.1 = Ok (answer (DDownload (Some 0%Z) [] false)) ∧ ry_Status (reply_of y.1) = 200%Z ∧ se_audit y.2 = [].
Proof. vm_compute. split_and!; reflexivity. Qed.
End demo.
